(* ===== verification/_CoqProject ===== *)
-Q . S2P
Prelude.v
GoStrings.v
GoTime.v
GoFloat.v
GoHttp.v
GoUrl.v
HttpServe.v
GoDuration.v
GoPath.v
Console.v
GoFlag.v
Logger.v
SenderBuffer.v
NoiseConfig.v
NoiseConn.v
NoiseShared.v
NoiseHandshake.v
NoiseListen.v
WtConfig.v
Auth.v
Delta.v
SentinelStats.v
WtStats.v
GoJson.v
GoJsonText.v
GoJsonEncode.v
GoFloatText.v
GoFloatExact.v
GoRfc3339.v
DurationText.v
Protocol.v
Gpub.v
Sender.v
WtMetrics.v
RateLimit.v
Handlers.v
Ledger.v
Goroutines.v
Locks.v
Interleavings.v
SharedLedger.v
SentinelConfig.v
Detect.v
VmLines.v
Compacted.v
Forwarder.v
Watchtower.v
WtProcess.v
WtAccounting.v
WtScrape.v
WtConcurrent.v
RpcCollector.v
Metadata.v
LogsCollector.v
LogSources.v
Resources.v
SelfCollector.v
SelfReport.v
OtlpRelay.v
SentinelApp.v
SentinelAppFacts.v
Delivery.v
BeaconConfig.v
Augment.v
BeaconServer.v
Beacon.v
Doctor.v
DoctorFacts.v
BeaconDoctor.v
Cmd.v
Mains.v
MainsFacts.v
