(* ===== verification/Prelude.v ===== *)
(** * gno-watchtower: a verification development

    gno-watchtower monitors a fleet of gnoland validators. A _sentinel_ runs next to each
    node: collectors poll the node's RPC, its host, its logs, its configuration and its OTLP
    metrics, leave out what has not changed, and hand payloads over bounded buffers to a
    loop that posts them over HTTP. A _beacon_ optionally stands in between: it accepts
    Noise connections from sentinels on a sentry host, adds the sentry's own view to the RPC
    payloads and proxies everything to the watchtower. The _watchtower_ authenticates each
    request by its bearer token, bans addresses that keep failing, limits rates, checks
    permissions, and forwards payloads to VictoriaMetrics (metrics, OTLP) and Loki (logs).

    ** Files, code and what is shown

    Go's standard library, as far as the program uses it, executable and evaluated on
    examples: this file (results, machine integers, bytes, map iteration, tactics),
    GoStrings, GoTime, GoFloat (float64, correctly rounded parsing, shortest printing),
    GoFloatExact (whole numbers below two to the 53rd are exact, and so are their sums),
    GoHttp (headers, requests, [ServeMux] patterns, host and port), GoUrl (the text of a URL,
    from which the server it names reads its path and query back), GoJson (the scanner's
    grammar, decoding by the class [FromJSON], encoding and compaction), GoJsonText (what
    the encoders write is what the parser reads), GoJsonEncode and GoFloatText (what the
    encoders write for strings, maps, objects and floats is valid and read back), GoRfc3339
    (timestamps, read back as written), GoDuration, GoPath (cleaning and joining of paths,
    idempotent), GoFlag (command-line flags, and that [--name=value] sets what it says).
    HttpServe: the life of an HTTP server between [Serve] and [Shutdown], with the settings
    of the program's four servers and what their run functions guarantee when they return.

    The shared packages (pkg/):
    - Logger (logger/): levels and the journal keys, always accepted by journald.
    - GoDuration also has tomlutil/ and the retention parsing of cmd/watchtower;
      DurationText what tomlutil/ writes, which is read back as it was.
    - NoiseConfig, NoiseConn, NoiseShared, NoiseHandshake, NoiseListen (noise/): key files
      and the allowlist; framing, with what is written being what is read, also while a
      goroutine writes and another one reads on one connection, the use its comment allows
      (two writers are kept apart by the code's mutex, and what a deadline does to a read is
      shown); the handshake, which
      terminates and only yields allowlisted peers; the listener, every interleaving of
      whose goroutines keeps each connection in one place and delivers only authenticated
      ones. The Noise library's handshake state and ciphers are parameters.
    - Gpub (gpub/): the bech32 encoder, total, with a valid BIP173 checksum, injective.
    - Protocol (protocol/): the payloads, and that what a sentinel marshals is what the
      watchtower unmarshals.
    - Console (termstyle/, version/): status lines and the resolution of the version.

    The sentinel (internal/sentinel/):
    - SentinelConfig, Detect (config/): byte sizes, validation, the Noise configuration;
      the three probes of the environment, and generation of a commented configuration.
    - Delta (delta/): the change filter refines "remember the last value".
    - SenderBuffer, Sender (sender/): the buffer refines a bounded queue; one request; the
      retry loop with its bounds on attempts and waits.
    - SentinelStats (stats/): nothing recorded is lost or reported twice.
    - RpcCollector (rpc/): the client, one poll and a run; what a poll must deliver for what
      the node answers, and that no block is sent twice.
    - Resources (resources/): one poll of host and container; a receiver of the filtered
      payloads knows the last value of every probe.
    - Metadata (metadata/): configuration keys from TOML or a command, and the event loop.
    - LogsCollector, LogSources (logs/): normalisation of a line into an object with the
      fields the watchtower needs; the batching loop, which neither loses nor repeats a line
      while it runs; the docker source down to [bufio.Scanner], the two loops of the
      journald source over a class for libsystemd, and the loop that reconnects them.
    - SelfCollector, SelfReport (self/): the report of the sentinel's counters, the
      collector's loop, and that the watchtower's series carry the counters.
    - OtlpRelay (otlp/): the deny list, and what one export puts on the channel.
    - SentinelApp, SentinelAppFacts (app/): the running program as a machine whose events
      are the turns of its goroutines. Every payload has exactly one fate or is still held,
      in order; the counters agree with the fates; channels and buffers are bounded; the
      steps of a flush are the flush function; shutdown ends with empty buffers.
    - Doctor, DoctorFacts (doctor/): every check and the report, on a world with functions
      for what is probed. The exit code tells whether a check is red, and the permission
      checks foretell what the watchtower will answer.

    The watchtower (internal/watchtower/):
    - WtConfig (config/): validation in any map order, defaults, loading.
    - Auth (auth/): tokens, bans and the middleware. A ban comes after exactly the threshold
      and lasts; executions interleave requests, sweeps and reloads.
    - RateLimit (ratelimit/), WtStats (stats/), WtMetrics (metrics/): a bucket per
      validator, hourly counters, the updates of the Prometheus vectors and the registry,
      with the library behind the class [Prometheus]. WtScrape: the metrics page of a run
      shows what the statistics hold and how many bans are active.
    - Handlers (handlers/): a request through both muxes and all middlewares; what reaches a
      backend was authenticated, unbanned, within rate, permitted and of bounded size.
    - VmLines (forwarder/rpc.go, metrics.go): JSON to VictoriaMetrics lines, always of the
      catalogue and always labelled; independent of the order of map iteration.
    - Forwarder (forwarder/forwarder.go): decompression, filtering, the Loki push, OTLP
      labelling, the posts; the answer of the backend to the one request decides the result
      ([posted]). It is an instance of the class [PayloadForwarder] that Handlers
      is proved against.
    - Watchtower: server and forwarder together (cmd/watchtower): from one HTTP request to
      what the backends are sent.
    - WtProcess (cmd/watchtower): the running process, its wiring, SIGHUP reloads and the
      hourly report. At every moment it acts for the configuration loaded last, and a ban
      holds across reloads.
    - Ledger, WtAccounting: over a whole run the statistics, the hourly reports and the
      counters agree with the payloads that were answered 200.
    - Goroutines: each request as a goroutine that goes from one critical section to the
      next, with other requests, reloads and reports between its steps. Alone it does what
      Handlers says. Locks: that the four mutexes make critical sections such steps, with
      the lock taken and given back as steps of their own, that nobody deadlocks, and that a
      request is answered after at most fifteen moves. Interleavings: what
      must have happened before anything is forwarded, what a reload and a ban mean for
      whoever arrives after them, and how a late success ends a ban. SharedLedger,
      WtConcurrent: the books, and who is behind each request to a backend, under every
      interleaving, with the forwarder in place.

    The beacon (internal/beacon/):
    - BeaconConfig (config/), Augment (augment/), BeaconServer (server/): validation and the
      Noise configuration; the hook that adds the sentry's view and fails open; the proxy,
      transparent but for what the hook changes: what the upstream reads is the request, and
      what it answers is what is relayed.
    - Beacon, BeaconDoctor (app/, doctor/): start-up with the augmenter as the hook of the
      proxy; what a request carries upstream and what the watchtower makes of it; the checks.

    Across the components: Compacted (extraction does not see how JSON is laid out, so the
    samples are those of what was sent), Delivery (from a buffer of the sentinel to the
    requests the backends get and the counters of both sides).

    The command lines (cmd/): Cmd (a small monad for a command: files, output, exit code;
    keygen, version and the start of run, which the programs share), Mains (the three mains
    and their sub-commands), MainsFacts (the keys and lines two runs of keygen make are what
    the configurations need; what generate-config leaves in the file; exit codes).

    ** Conventions

    Code that is not the repository's or the standard library's is a Section parameter
    (the Noise library, TOML, zstd, protobuf, [x/time/rate], docker, gopsutil), with what
    the code relies on as hypotheses named in the Section, and a small instance of it where
    a witness evaluates. Of the standard library, gzip and [slices.SortFunc] are
    parameters as well, the last with its contract (a sorted permutation, not stable). The
    network, clocks, file systems and subprocesses are functions on a world type, or events.
    Go's map iteration order is an argument: a function [range] with [map_range], or a list.
    Mutex-protected methods are atomic steps (for the watchtower Locks shows why they may
    be); goroutines interleave as events of a step
    function (NoiseListen, NoiseShared, SentinelApp, Goroutines, Auth's executions) whose
    runs are lists of events. A call of the forwarder is one step of its goroutine: the
    forwarder keeps no state, and what overlapping calls share is the network. int64
    arithmetic wraps ([wrap64]); lengths and sizes are [Z] or [nat]. Errors are constructors
    of a sum type; their texts are left out unless they reach a response.
    Log records are left out, except those the authentication counts and the reports of the
    statistics.

    ** Bounds and fuel

    The JSON parser has fuel twice the length of its input and two, because its functions
    call each other after consuming a byte or once at the same place; [parse_string] and the
    encoders have the length. The Noise handshake runs with fuel and is shown to end after
    three messages under the library's contract. [utoa] has one step per bit. The retry loop
    and the loops over slices are structural; [scan_lines] and [fields_fuel] have one step
    more than the input has bytes. The journald loops run with fuel, because they end only
    when the journal or the context does; [journald_Tail_complete] gives the fuel that
    suffices for a journal played from a script. [shutdown_empties_buffers] finds the number of
    sends that end the sentinel.

    ** What is not modelled

    The libraries named above are parameters, and so are the docker daemon, systemctl, the
    shell and libsystemd. Of net/http, HttpServe has the documented life of a server, not
    its connections. Left out are: how signals reach the process (they are events), file
    modes beyond the number that is asked for, links and races in the file system, the
    texts of log records and library errors, and the listing of a flag set's defaults.
    Addresses of a Noise connection and the calls that set its deadlines are those of the
    TCP connection; of the Prometheus library only the laws of its class are used, and the
    text of the page is not written out. Of a URL that is parsed from a configuration only the parts matter: how
    [url.Parse] splits any text is left out, how [URL.String] writes one and a server reads
    the target of a request is not. A request to the watchtower is one event of WtProcess, with the command line, the wiring
    and the log of the process, many steps of Goroutines and more of Locks. Goroutines share
    their memory only through the mutexes; the memory model of Go below that is not modelled. The
    tickers' timing is free: a tick is an event. The state of a context is what its users
    see of it. *)

From Stdlib Require Export ZArith Lia.
From Stdlib Require Import Ascii.
From stdpp Require Export base numbers list fin_maps gmap strings option.

(** ** Results: the value of a Go call that returns [(T, error)] *)

Inductive result (T E : Type) : Type :=
| Ok (v : T)
| Err (e : E).
Arguments Ok {T E} v.
Arguments Err {T E} e.

Definition result_bind {T U E} (r : result T E) (k : T -> result U E) : result U E :=
  match r with
  | Ok v => k v
  | Err e => Err e
  end.

Definition map_err {T E F} (f : E -> F) (r : result T E) : result T F :=
  match r with
  | Ok v => Ok v
  | Err e => Err (f e)
  end.

Definition is_Ok {T E} (r : result T E) : bool :=
  match r with Ok _ => true | Err _ => false end.

Declare Scope go_scope.
Delimit Scope go_scope with go.

(** [let? x := r in k] is the Go idiom [x, err := r; if err != nil { return err }]. *)
Notation "'let?' x := r 'in' k" :=
  (result_bind r (fun x => k))
    (at level 10, x pattern, r at level 100, k at level 200) : go_scope.

(** [guard? b else e in k] is the Go idiom [if b { return e }]. *)
Notation "'guard?' b 'then' e 'else' k" :=
  (if (b : bool) then Err e else k)
    (at level 10, b at level 100, e at level 100, k at level 200) : go_scope.

Lemma result_bind_ok {T U E} (r : result T E) (k : T -> result U E) u :
  result_bind r k = Ok u <-> exists v, r = Ok v /\ k v = Ok u.
Proof. destruct r; simpl; naive_solver. Qed.

Lemma map_err_ok {T E F} (f : E -> F) (r : result T E) v :
  map_err f r = Ok v <-> r = Ok v.
Proof. destruct r; simpl; naive_solver. Qed.

(** ** Machine integers *)

Section MachineIntegers.
Local Open Scope Z_scope.

Definition max_int64 : Z := 9223372036854775807.
Definition min_int64 : Z := -9223372036854775808.
Definition two64 : Z := 18446744073709551616.
Definition two63 : Z := 9223372036854775808.

Definition is_int64 (z : Z) : Prop := min_int64 <= z <= max_int64.

(** Two's complement wrap-around of Go's [int64] (and of [int] on 64-bit targets). *)
Definition wrap64 (z : Z) : Z := (z + two63) mod two64 - two63.

(** Wrap-around of Go's [uint64]. *)
Definition uwrap64 (z : Z) : Z := z mod two64.

(** The saturation used by [time.Time.Sub]. *)
Definition sat64 (z : Z) : Z :=
  if z <? min_int64 then min_int64 else if max_int64 <? z then max_int64 else z.

Lemma wrap64_range z : is_int64 (wrap64 z).
Proof.
  unfold wrap64, is_int64, min_int64, max_int64, two63, two64.
  pose proof (Z.mod_pos_bound (z + 9223372036854775808) 18446744073709551616). lia.
Qed.

Lemma wrap64_id z : is_int64 z -> wrap64 z = z.
Proof.
  unfold wrap64, is_int64, min_int64, max_int64, two63, two64. intros.
  rewrite Z.mod_small; lia.
Qed.

Lemma wrap64_idem z : wrap64 (wrap64 z) = wrap64 z.
Proof. apply wrap64_id, wrap64_range. Qed.

Lemma wrap64_congr a b : a mod two64 = b mod two64 -> wrap64 a = wrap64 b.
Proof.
  intros H. unfold wrap64. f_equal.
  rewrite (Z.add_mod a), (Z.add_mod b) by (unfold two64; lia). by rewrite H.
Qed.

Lemma wrap64_mod z : wrap64 z mod two64 = z mod two64.
Proof.
  unfold wrap64. rewrite Zminus_mod_idemp_l. f_equal. lia.
Qed.

Lemma wrap64_add_l a b : wrap64 (wrap64 a + b) = wrap64 (a + b).
Proof.
  apply wrap64_congr. rewrite Z.add_mod, wrap64_mod, <- Z.add_mod; [done|..]; unfold two64; lia.
Qed.

Lemma wrap64_add_r a b : wrap64 (a + wrap64 b) = wrap64 (a + b).
Proof. rewrite Z.add_comm, wrap64_add_l. f_equal. lia. Qed.

Lemma sat64_range z : is_int64 (sat64 z).
Proof.
  unfold sat64, is_int64, min_int64, max_int64.
  destruct (Z.ltb_spec z (-9223372036854775808)); [lia|].
  destruct (Z.ltb_spec 9223372036854775807 z); lia.
Qed.

Lemma sat64_id z : is_int64 z -> sat64 z = z.
Proof.
  unfold sat64, is_int64, min_int64, max_int64. intros.
  destruct (Z.ltb_spec z (-9223372036854775808)); [lia|].
  destruct (Z.ltb_spec 9223372036854775807 z); lia.
Qed.

(** Saturation is monotone, so comparing a saturated difference with an [int64]
    bound is comparing the exact difference, except beyond the range. *)
Lemma sat64_lt z d : is_int64 d -> (sat64 z < d <-> z < d /\ min_int64 < d).
Proof.
  unfold sat64, is_int64, min_int64, max_int64. intros.
  destruct (Z.ltb_spec z (-9223372036854775808)); [lia|].
  destruct (Z.ltb_spec 9223372036854775807 z); lia.
Qed.

Lemma sat64_gt z d : is_int64 d -> (d < sat64 z <-> d < z /\ d < max_int64).
Proof.
  unfold sat64, is_int64, min_int64, max_int64. intros.
  destruct (Z.ltb_spec z (-9223372036854775808)); [lia|].
  destruct (Z.ltb_spec 9223372036854775807 z); lia.
Qed.
End MachineIntegers.

(** ** Bytes *)

(** A Go byte slice. A Go string is a [string]; the two conversions are the language's. *)
Abbreviation bytes := (list ascii).

Definition bytes_of_string : string -> bytes := String.list_ascii_of_string.
Definition string_of_bytes : bytes -> string := String.string_of_list_ascii.

Definition byte_val (a : ascii) : Z := Z.of_N (N_of_ascii a).
Definition byte_of (z : Z) : ascii := ascii_of_N (Z.to_N (z mod 256)).

Lemma string_of_bytes_of_string s : string_of_bytes (bytes_of_string s) = s.
Proof. apply String.string_of_list_ascii_of_string. Qed.

Lemma bytes_of_string_of_bytes b : bytes_of_string (string_of_bytes b) = b.
Proof. apply String.list_ascii_of_string_of_list_ascii. Qed.

Lemma byte_val_range a : (0 <= byte_val a < 256)%Z.
Proof. unfold byte_val. pose proof (N_ascii_bounded a). lia. Qed.

Lemma byte_of_val a : byte_of (byte_val a) = a.
Proof.
  unfold byte_of. rewrite Z.mod_small by apply byte_val_range.
  unfold byte_val. rewrite N2Z.id. apply ascii_N_embedding.
Qed.

Lemma byte_val_of z : byte_val (byte_of z) = (z mod 256)%Z.
Proof.
  unfold byte_val, byte_of. pose proof (Z.mod_pos_bound z 256).
  rewrite N_ascii_embedding by lia. lia.
Qed.

Lemma byte_val_inj a b : byte_val a = byte_val b -> a = b.
Proof. intros H. rewrite <- (byte_of_val a), H. apply byte_of_val. Qed.

(** ** Iterating over a Go map

    [for k, v := range m] visits every entry once in an order the language leaves
    unspecified. A definition that ranges over a map takes the visiting order as a list;
    [map_range m l] says that [l] is one such order. *)
Definition map_range {V} (m : gmap string V) (l : list (string * V)) : Prop :=
  l ≡ₚ map_to_list m.

Lemma map_range_elem {V} (m : gmap string V) l k v :
  map_range m l -> ((k, v) ∈ l <-> m !! k = Some v).
Proof. intros H. rewrite H. apply elem_of_map_to_list. Qed.

Lemma map_range_nodup {V} (m : gmap string V) l : map_range m l -> NoDup l.*1.
Proof. intros H. rewrite H. apply NoDup_fst_map_to_list. Qed.

Lemma map_range_perm {V} (m : gmap string V) l1 l2 :
  map_range m l1 -> map_range m l2 -> l1 ≡ₚ l2.
Proof. intros H1 H2. by rewrite H1, H2. Qed.

Lemma map_range_map_to_list {V} (m : gmap string V) : map_range m (map_to_list m).
Proof. unfold map_range. reflexivity. Qed.

Lemma map_range_list_to_map {V} (m : gmap string V) l :
  map_range m l -> m = list_to_map l.
Proof.
  intros H. rewrite <- (list_to_map_to_list m). symmetry.
  apply list_to_map_proper; [by eapply map_range_nodup | done].
Qed.

Create HintDb go.
Create Rewrite HintDb go.
#[export] Hint Resolve wrap64_range sat64_range map_range_map_to_list : go.
#[export] Hint Rewrite wrap64_idem wrap64_add_l wrap64_add_r @string_of_bytes_of_string
  @bytes_of_string_of_bytes byte_of_val byte_val_of : go.

(** Splits the innermost [if] or [match] on a boolean test of the goal and turns the test
    into a proposition. *)
Ltac case_bool :=
  match goal with
  | |- context [if ?b then _ else _] => let E := fresh "E" in destruct b eqn:E
  end.

(** Turns boolean facts of [Z] comparisons into propositions. *)
Ltac zbool :=
  repeat match goal with
  | H : (_ <? _)%Z = true |- _ => apply Z.ltb_lt in H
  | H : (_ <? _)%Z = false |- _ => apply Z.ltb_ge in H
  | H : (_ <=? _)%Z = true |- _ => apply Z.leb_le in H
  | H : (_ <=? _)%Z = false |- _ => apply Z.leb_gt in H
  | H : (_ =? _)%Z = true |- _ => apply Z.eqb_eq in H
  | H : (_ =? _)%Z = false |- _ => apply Z.eqb_neq in H
  | H : andb _ _ = true |- _ => apply andb_true_iff in H as [? ?]
  | H : orb _ _ = false |- _ => apply orb_false_iff in H as [? ?]
  | H : negb _ = true |- _ => apply negb_true_iff in H
  | H : negb _ = false |- _ => apply negb_false_iff in H
  | H : bool_decide _ = true |- _ => apply bool_decide_eq_true_1 in H
  | H : bool_decide _ = false |- _ => apply bool_decide_eq_false_1 in H
  end.

(** Closes a goal about closed terms: arithmetic, a list of facts, or an evaluation. *)
Ltac ground :=
  lazymatch goal with
  | |- Forall _ _ =>
      repeat first [apply List.Forall_nil | apply List.Forall_cons];
      cbn; repeat split; first [lia | reflexivity | vm_compute; first [reflexivity | discriminate]]
  | |- _ =>
      first [ solve [lia]
            | solve [vm_compute; repeat split; first [reflexivity | discriminate]] ]
  end.
