(* ===== verification/GoStrings.v ===== *)
(** * Go's string library

    The functions of [strings], [strconv], [encoding/hex] and [unicode/utf8] that the
    program uses, on the byte sequences that Go strings are, with the facts about them
    that the components share. *)

From S2P Require Import Prelude.
From Stdlib Require Import Ascii.

Local Open Scope Z_scope.

(** ** Prefixes and suffixes *)

(** [strip_prefix p s] is [Some r] exactly when [s = p +:+ r]. *)
Fixpoint strip_prefix (p s : string) : option string :=
  match p, s with
  | EmptyString, _ => Some s
  | String a p', String b s' => if Ascii.eqb a b then strip_prefix p' s' else None
  | String _ _, EmptyString => None
  end.

Definition HasPrefix (s p : string) : bool :=
  match strip_prefix p s with Some _ => true | None => false end.

(** [strings.CutPrefix]: the rest and whether the prefix was there. *)
Definition CutPrefix (s p : string) : string * bool :=
  match strip_prefix p s with Some r => (r, true) | None => (s, false) end.

Definition TrimPrefix (s p : string) : string := (CutPrefix s p).1.

Definition srev (s : string) : string := string_of_bytes (rev (bytes_of_string s)).

(** [strip_suffix q s] is [Some r] exactly when [s = r +:+ q]. *)
Definition strip_suffix (q s : string) : option string :=
  srev <$> strip_prefix (srev q) (srev s).

Definition HasSuffix (s q : string) : bool :=
  match strip_suffix q s with Some _ => true | None => false end.

Definition TrimSuffix (s q : string) : string := default s (strip_suffix q s).

(** ** Splitting, joining, searching *)

(** [strings.Split(s, sep)] for a one-byte separator: never the empty list. *)
Fixpoint Split (s : string) (sep : ascii) : list string :=
  match s with
  | EmptyString => [EmptyString]
  | String a s' =>
      if Ascii.eqb a sep then EmptyString :: Split s' sep
      else match Split s' sep with
           | [] => [String a EmptyString]
           | w :: ws => String a w :: ws
           end
  end.

Fixpoint Join (l : list string) (sep : string) : string :=
  match l with
  | [] => EmptyString
  | [w] => w
  | w :: ws => w +:+ sep +:+ Join ws sep
  end.

(** [strings.Contains(s, sub)]. *)
Fixpoint Contains (s sub : string) : bool :=
  HasPrefix s sub ||
  match s with
  | EmptyString => false
  | String _ s' => Contains s' sub
  end.

(** [strings.ReplaceAll(s, old, new)] for a non-empty [old]: left to right, without
    overlap. The fuel is the length of [s]: every step consumes a byte of it. *)
Fixpoint replace_all_fuel (fuel : nat) (s old new : string) : string :=
  match fuel with
  | O => s
  | S f =>
      match strip_prefix old s with
      | Some r => new +:+ replace_all_fuel f r old new
      | None => match s with
                | EmptyString => EmptyString
                | String a s' => String a (replace_all_fuel f s' old new)
                end
      end
  end.
Definition ReplaceAll (s old new : string) : string :=
  replace_all_fuel (S (String.length s)) s old new.

(** ** White space *)

(** The bytes [strings.TrimSpace] removes: ASCII white space and the UTF-8 encodings of
    the other code points of Unicode's White_Space property. [space_head] strips one such
    character from the front, [space_last] from a reversed string. *)
Definition ascii_space (z : Z) : bool := ((9 <=? z) && (z <=? 13)) || (z =? 32).

Definition wide_space (a b c : Z) : bool :=
  ((a =? 225) && (b =? 154) && (c =? 128))
  || ((a =? 226) && (b =? 128)
      && (((128 <=? c) && (c <=? 138)) || (c =? 168) || (c =? 169) || (c =? 175)))
  || ((a =? 226) && (b =? 129) && (c =? 159))
  || ((a =? 227) && (b =? 128) && (c =? 128)).

Definition latin_space (a b : Z) : bool := (a =? 194) && ((b =? 133) || (b =? 160)).

Definition space_head (s : bytes) : option bytes :=
  match s with
  | a :: s1 =>
      if ascii_space (byte_val a) then Some s1 else
      match s1 with
      | b :: s2 =>
          if latin_space (byte_val a) (byte_val b) then Some s2 else
          match s2 with
          | c :: s3 =>
              if wide_space (byte_val a) (byte_val b) (byte_val c) then Some s3 else None
          | [] => None
          end
      | [] => None
      end
  | [] => None
  end.

Definition space_last (s : bytes) : option bytes :=
  match s with
  | c :: s1 =>
      if ascii_space (byte_val c) then Some s1 else
      match s1 with
      | b :: s2 =>
          if latin_space (byte_val b) (byte_val c) then Some s2 else
          match s2 with
          | a :: s3 =>
              if wide_space (byte_val a) (byte_val b) (byte_val c) then Some s3 else None
          | [] => None
          end
      | [] => None
      end
  | [] => None
  end.

Fixpoint trim_fuel (fuel : nat) (step : bytes -> option bytes) (s : bytes) : bytes :=
  match fuel with
  | O => s
  | S f => match step s with Some s' => trim_fuel f step s' | None => s end
  end.

(** [bytes.TrimSpace] and [strings.TrimSpace]. *)
Definition TrimSpaceBytes (s : bytes) : bytes :=
  let s := trim_fuel (length s) space_head s in
  rev (trim_fuel (length s) space_last (rev s)).

Definition TrimSpace (s : string) : string :=
  string_of_bytes (TrimSpaceBytes (bytes_of_string s)).

(** ** Case and trimming *)

(** The ASCII part of [strings.ToUpper]; letters beyond ASCII are left alone, none of which
    has an upper-case form among the ASCII letters the program looks for but the dotless i
    and the long s, which it does not look for. *)
Definition upper_byte (a : ascii) : ascii :=
  let z := byte_val a in if (97 <=? z) && (z <=? 122) then byte_of (z - 32) else a.

Definition ToUpper (s : string) : string := string_of_bytes (map upper_byte (bytes_of_string s)).

Fixpoint drop_while (p : ascii -> bool) (s : bytes) : bytes :=
  match s with
  | a :: s' => if p a then drop_while p s' else s
  | [] => []
  end.

(** [strings.Trim(s, cutset)] for a cutset of ASCII characters. *)
Definition Trim (s cutset : string) : string :=
  let p a := bool_decide (a ∈ bytes_of_string cutset) in
  string_of_bytes (rev (drop_while p (rev (drop_while p (bytes_of_string s))))).

(** ** Decimal integers *)

Definition digit_val (a : ascii) : option Z :=
  let z := byte_val a in
  if (48 <=? z) && (z <=? 57) then Some (z - 48) else None.

Definition digit_char (d : Z) : ascii := byte_of (48 + d).

Fixpoint parse_digits (s : string) (acc : Z) : option Z :=
  match s with
  | EmptyString => Some acc
  | String a s' =>
      match digit_val a with
      | Some d => parse_digits s' (10 * acc + d)
      | None => None
      end
  end.

Definition parse_uint (s : string) : option Z :=
  match s with EmptyString => None | _ => parse_digits s 0 end.

(** [strconv.ParseInt(s, 10, 64)], and [strconv.Atoi] on a 64-bit target. *)
Definition ParseInt (s : string) : option Z :=
  let signed neg r :=
    match parse_uint r with
    | Some n =>
        let z := if neg : bool then - n else n in
        if (min_int64 <=? z) && (z <=? max_int64) then Some z else None
    | None => None
    end in
  match s with
  | EmptyString => None
  | String a r =>
      if Ascii.eqb a "-" then signed true r
      else if Ascii.eqb a "+" then signed false r
      else signed false s
  end%char.

Definition ParseUint (s : string) : option Z :=
  match parse_uint s with
  | Some n => if n <? two64 then Some n else None
  | None => None
  end.

Fixpoint utoa_fuel (fuel : nat) (n : Z) (acc : string) : string :=
  match fuel with
  | O => acc
  | S f =>
      let acc' := String (digit_char (n mod 10)) acc in
      if n / 10 =? 0 then acc' else utoa_fuel f (n / 10) acc'
  end.

(** Decimal digits of [n >= 0]; the binary logarithm bounds their number. *)
Definition utoa (n : Z) : string := utoa_fuel (S (Z.to_nat (Z.log2 n))) n EmptyString.

(** [strconv.FormatInt(n, 10)] and the [%d] verb. *)
Definition Itoa (n : Z) : string :=
  if n <? 0 then String "-" (utoa (- n)) else utoa n.

(** ** Hexadecimal *)

Definition hex_digit (d : Z) : ascii := byte_of (if d <? 10 then 48 + d else 87 + d).

Definition hex_val (a : ascii) : option Z :=
  let z := byte_val a in
  if (48 <=? z) && (z <=? 57) then Some (z - 48)
  else if (97 <=? z) && (z <=? 102) then Some (z - 87)
  else if (65 <=? z) && (z <=? 70) then Some (z - 55)
  else None.

(** [hex.EncodeToString], also the [%x] verb on bytes. *)
Fixpoint hex_encode (b : bytes) : string :=
  match b with
  | [] => EmptyString
  | a :: b' => String (hex_digit (byte_val a / 16))
                 (String (hex_digit (byte_val a mod 16)) (hex_encode b'))
  end.

(** [hex.DecodeString]: [None] on an odd length or a byte that is no hex digit. *)
Fixpoint hex_decode (s : string) : option bytes :=
  match s with
  | EmptyString => Some []
  | String a (String b s') =>
      match hex_val a, hex_val b, hex_decode s' with
      | Some x, Some y, Some r => Some (byte_of (16 * x + y) :: r)
      | _, _, _ => None
      end
  | String _ EmptyString => None
  end.

(** ** UTF-8 *)

Definition cont (z : Z) : bool := (128 <=? z) && (z <=? 191).
Definition rune_error : Z := 65533.

(** [utf8.DecodeRune]: the code point and its width; an invalid or truncated sequence
    gives U+FFFD with width 1, the empty input width 0. *)
Definition decode_rune (s : bytes) : Z * nat :=
  match s with
  | [] => (rune_error, 0%nat)
  | a0 :: s1 =>
      let a := byte_val a0 in
      if a <? 128 then (a, 1%nat) else
      match s1 with
      | [] => (rune_error, 1%nat)
      | b0 :: s2 =>
          let b := byte_val b0 in
          if (194 <=? a) && (a <=? 223) && cont b
          then ((a - 192) * 64 + (b - 128), 2%nat) else
          match s2 with
          | [] => (rune_error, 1%nat)
          | c0 :: s3 =>
              let c := byte_val c0 in
              if (224 <=? a) && (a <=? 239) && cont b && cont c
                 && (if a =? 224 then 160 <=? b else true)
                 && (if a =? 237 then b <=? 159 else true)
              then ((a - 224) * 4096 + (b - 128) * 64 + (c - 128), 3%nat) else
              match s3 with
              | [] => (rune_error, 1%nat)
              | d0 :: _ =>
                  let d := byte_val d0 in
                  if (240 <=? a) && (a <=? 244) && cont b && cont c && cont d
                     && (if a =? 240 then 144 <=? b else true)
                     && (if a =? 244 then b <=? 143 else true)
                  then ((a - 240) * 262144 + (b - 128) * 4096 + (c - 128) * 64 + (d - 128), 4%nat)
                  else (rune_error, 1%nat)
              end
          end
      end
  end.

(** The code points a [for _, r := range s] loop visits. *)
Fixpoint runes_fuel (fuel : nat) (s : bytes) : list Z :=
  match fuel, s with
  | S f, _ :: _ => let '(r, w) := decode_rune s in r :: runes_fuel f (drop w s)
  | _, _ => []
  end.
Definition runes (s : string) : list Z :=
  runes_fuel (String.length s) (bytes_of_string s).

(** [utf8.AppendRune]: an invalid code point is written as U+FFFD. *)
Definition encode_rune (r : Z) : bytes :=
  if (0 <=? r) && (r <? 128) then [byte_of r]
  else if (128 <=? r) && (r <? 2048) then [byte_of (192 + r / 64); byte_of (128 + r mod 64)]
  else if (r <? 0) || (1114111 <? r) || ((55296 <=? r) && (r <=? 57343))
       then [byte_of 239; byte_of 191; byte_of 189]
  else if r <? 65536
       then [byte_of (224 + r / 4096); byte_of (128 + (r / 64) mod 64); byte_of (128 + r mod 64)]
  else [byte_of (240 + r / 262144); byte_of (128 + (r / 4096) mod 64);
        byte_of (128 + (r / 64) mod 64); byte_of (128 + r mod 64)].

(** * Facts *)

(** ** Strings as byte lists *)

Lemma bytes_of_string_app s t :
  bytes_of_string (s +:+ t) = bytes_of_string s ++ bytes_of_string t.
Proof. induction s as [|a s IH]; [done|]. exact (f_equal (cons a) IH). Qed.

Lemma string_of_bytes_app a b :
  string_of_bytes (a ++ b) = string_of_bytes a +:+ string_of_bytes b.
Proof. induction a as [|x a IH]; [done|]. exact (f_equal (String x) IH). Qed.

Lemma bytes_of_string_inj s t : bytes_of_string s = bytes_of_string t -> s = t.
Proof.
  intros H. rewrite <- (string_of_bytes_of_string s), H. apply string_of_bytes_of_string.
Qed.

Lemma string_app_assoc (s t u : string) : s +:+ (t +:+ u) = (s +:+ t) +:+ u.
Proof. apply bytes_of_string_inj. by rewrite !bytes_of_string_app, app_assoc. Qed.

Lemma string_app_nil_r (s : string) : s +:+ EmptyString = s.
Proof. apply bytes_of_string_inj. by rewrite bytes_of_string_app, app_nil_r. Qed.

Lemma string_app_inv_l (s t u : string) : s +:+ t = s +:+ u -> t = u.
Proof. apply String.app_inj. Qed.

Lemma string_length_app (s t : string) :
  String.length (s +:+ t) = (String.length s + String.length t)%nat.
Proof. induction s as [|a s IH]; [done|]. exact (f_equal S IH). Qed.

Lemma bytes_of_string_length s : length (bytes_of_string s) = String.length s.
Proof. induction s as [|a s IH]; [done|]. cbn. f_equal. apply IH. Qed.

Lemma string_app_eq_nil (s t : string) : s +:+ t = EmptyString <-> s = EmptyString /\ t = EmptyString.
Proof. destruct s; [by split; [|intros [_ ?]]|]. split; [done|]. by intros [? _]. Qed.

(** ** Prefixes and suffixes *)

Lemma strip_prefix_Some p s r : strip_prefix p s = Some r <-> s = p +:+ r.
Proof.
  revert s. induction p as [|a p IH]; intros s; cbn.
  - naive_solver.
  - destruct s as [|b s]; [split; [done|]; intros H; discriminate H|].
    destruct (Ascii.eqb_spec a b) as [->|Hne].
    + rewrite IH. split; [by intros ->|]. intros H. by injection H.
    + split; [done|]. intros H. injection H as -> _. done.
Qed.

Lemma strip_prefix_app p r : strip_prefix p (p +:+ r) = Some r.
Proof. by apply strip_prefix_Some. Qed.

Lemma HasPrefix_spec s p : HasPrefix s p = true <-> exists r, s = p +:+ r.
Proof.
  unfold HasPrefix. destruct (strip_prefix p s) eqn:E.
  - apply strip_prefix_Some in E. naive_solver.
  - split; [done|]. intros [r ->]. by rewrite strip_prefix_app in E.
Qed.

Lemma HasPrefix_app p r : HasPrefix (p +:+ r) p = true.
Proof. apply HasPrefix_spec. eauto. Qed.

Lemma TrimPrefix_app p r : TrimPrefix (p +:+ r) p = r.
Proof. unfold TrimPrefix, CutPrefix. by rewrite strip_prefix_app. Qed.

Lemma srev_app s t : srev (s +:+ t) = srev t +:+ srev s.
Proof. unfold srev. by rewrite bytes_of_string_app, rev_app_distr, string_of_bytes_app. Qed.

Lemma srev_involutive s : srev (srev s) = s.
Proof.
  unfold srev. by rewrite bytes_of_string_of_bytes, rev_involutive, string_of_bytes_of_string.
Qed.

Lemma strip_suffix_Some q s r : strip_suffix q s = Some r <-> s = r +:+ q.
Proof.
  unfold strip_suffix. rewrite fmap_Some. split.
  - intros (x & Hx & ->). apply strip_prefix_Some in Hx.
    rewrite <- (srev_involutive s), Hx, srev_app, srev_involutive. done.
  - intros ->. exists (srev r). rewrite srev_involutive. split; [|done].
    apply strip_prefix_Some. apply srev_app.
Qed.

Lemma HasSuffix_spec s q : HasSuffix s q = true <-> exists r, s = r +:+ q.
Proof.
  unfold HasSuffix. destruct (strip_suffix q s) eqn:E.
  - apply strip_suffix_Some in E. naive_solver.
  - split; [done|]. intros [r Hr]. apply strip_suffix_Some in Hr. congruence.
Qed.

Lemma TrimSuffix_app r q : TrimSuffix (r +:+ q) q = r.
Proof. unfold TrimSuffix. by rewrite (proj2 (strip_suffix_Some q (r +:+ q) r) eq_refl). Qed.

(** ** Splitting *)

Lemma Split_not_nil s c : Split s c <> [].
Proof. destruct s as [|a s]; cbn; [done|]. case_bool; [done|]. by destruct (Split s c). Qed.

Lemma Join_cons_cons w1 w2 ws sep : Join (w1 :: w2 :: ws) sep = w1 +:+ sep +:+ Join (w2 :: ws) sep.
Proof. done. Qed.

(** Joining the parts with the separator gives the string back. *)
Lemma Join_Split s c : Join (Split s c) (String c EmptyString) = s.
Proof.
  induction s as [|a s IH]; [done|]. cbn [Split].
  destruct (Ascii.eqb_spec a c) as [->|].
  - destruct (Split s c) as [|w ws] eqn:E; [by destruct (Split_not_nil s c)|].
    rewrite Join_cons_cons, IH. done.
  - destruct (Split s c) as [|w ws] eqn:E; [by destruct (Split_not_nil s c)|].
    rewrite <- IH. by destruct ws.
Qed.

(** No part contains the separator. *)
Lemma Split_no_sep s c : Forall (fun w => c ∉ bytes_of_string w) (Split s c).
Proof.
  induction s as [|a s IH]; cbn [Split].
  - constructor; [|done]. apply not_elem_of_nil.
  - destruct (Ascii.eqb_spec a c) as [->|Hne].
    + constructor; [apply not_elem_of_nil|done].
    + destruct (Split s c) as [|w ws] eqn:E; [by destruct (Split_not_nil s c)|].
      inversion IH as [|?? Hw Hws]; subst. constructor; [|done].
      cbn. rewrite elem_of_cons. intros [->|Hin]; done.
Qed.

(** ** Decimal integers *)

Lemma digit_val_char d : 0 <= d < 10 -> digit_val (digit_char d) = Some d.
Proof.
  intros H. unfold digit_val, digit_char. rewrite byte_val_of, Z.mod_small by lia.
  destruct (Z.leb_spec 48 (48 + d)), (Z.leb_spec (48 + d) 57); cbn; [f_equal|..]; lia.
Qed.

Lemma digit_val_range a d : digit_val a = Some d -> 0 <= d < 10.
Proof. unfold digit_val. case_bool; [|done]. zbool. intros [= <-]. lia. Qed.

Lemma parse_digits_utoa_fuel f n acc :
  0 <= n < 2 ^ Z.of_nat f -> (0 < f)%nat ->
  parse_digits (utoa_fuel f n acc) 0 = parse_digits acc n.
Proof.
  revert n acc. induction f as [|f IH]; intros n acc Hn Hf; [lia|].
  cbn [utoa_fuel].
  pose proof (Z.mod_pos_bound n 10 ltac:(lia)). pose proof (Z.div_mod n 10 ltac:(lia)) as Hdm.
  assert (Hd : forall a, parse_digits (String (digit_char (n mod 10)) acc) a
               = parse_digits acc (10 * a + n mod 10)).
  { intros a. cbn. rewrite digit_val_char by lia. done. }
  destruct (Z.eqb_spec (n / 10) 0) as [E|E].
  - rewrite Hd. f_equal. lia.
  - assert (0 < n / 10) by (pose proof (Z.div_pos n 10); lia).
    rewrite Nat2Z.inj_succ, Z.pow_succ_r in Hn by lia.
    rewrite IH; [rewrite Hd; f_equal; lia | nia |].
    destruct f; [|lia]. change (2 ^ Z.of_nat 0) with 1 in Hn. lia.
Qed.

Lemma utoa_fuel_enough n : 0 <= n -> 0 <= n < 2 ^ Z.of_nat (S (Z.to_nat (Z.log2 n))).
Proof.
  intros H. split; [done|]. rewrite Nat2Z.inj_succ, Z2Nat.id by apply Z.log2_nonneg.
  destruct (Z.eq_dec n 0) as [->|]; [done|]. apply Z.log2_spec. lia.
Qed.

Lemma utoa_fuel_cons f n acc : (0 < f)%nat -> exists a s, utoa_fuel f n acc = String a s.
Proof.
  revert n acc. induction f as [|f IH]; intros n acc Hf; [lia|]. cbn [utoa_fuel].
  case_bool; [eauto|]. destruct f; [cbn; eauto|]. apply IH. lia.
Qed.

Lemma utoa_not_nil n : utoa n <> EmptyString.
Proof.
  unfold utoa. destruct (utoa_fuel_cons (S (Z.to_nat (Z.log2 n))) n EmptyString) as (a & s & ->);
    [lia|done].
Qed.

Lemma parse_uint_utoa n : 0 <= n -> parse_uint (utoa n) = Some n.
Proof.
  intros H. unfold parse_uint. destruct (utoa n) eqn:E; [by apply utoa_not_nil in E|].
  rewrite <- E. unfold utoa. rewrite parse_digits_utoa_fuel; [done| |lia].
  by apply utoa_fuel_enough.
Qed.

Lemma utoa_fuel_head f n acc a s :
  0 <= n -> utoa_fuel f n acc = String a s -> (0 < f)%nat -> is_Some (digit_val a).
Proof.
  revert n acc. induction f as [|f IH]; intros n acc Hn E Hf; [lia|]. cbn [utoa_fuel] in E.
  pose proof (Z.mod_pos_bound n 10 ltac:(lia)).
  destruct (n / 10 =? 0).
  - injection E as <- _. rewrite digit_val_char by lia. eauto.
  - destruct f; [injection E as <- _; rewrite digit_val_char by lia; eauto|].
    eapply IH; [|exact E|lia]. apply Z.div_pos; lia.
Qed.

Lemma digit_not_sign a : is_Some (digit_val a) -> a <> "-"%char /\ a <> "+"%char.
Proof. by intros [d Hd]; split; intros ->; cbn in Hd. Qed.

(** [strconv.ParseInt] reads back what [strconv.FormatInt] writes, for every [int64]. *)
Lemma ParseInt_Itoa n : is_int64 n -> ParseInt (Itoa n) = Some n.
Proof.
  intros [Hmin Hmax]. unfold Itoa. destruct (Z.ltb_spec n 0).
  - unfold ParseInt. cbn -[utoa parse_uint].
    rewrite parse_uint_utoa by lia. rewrite Z.opp_involutive.
    by rewrite (proj2 (Z.leb_le _ _) Hmin), (proj2 (Z.leb_le _ _) Hmax).
  - pose proof (parse_uint_utoa n ltac:(lia)) as Hp.
    destruct (utoa n) as [|a s] eqn:E; [by apply utoa_not_nil in E|].
    destruct (digit_not_sign a) as [H1 H2]; [eapply utoa_fuel_head; [|exact E|]; lia|].
    apply Ascii.eqb_neq in H1, H2. unfold ParseInt. rewrite H1, H2, Hp.
    by rewrite (proj2 (Z.leb_le _ _) Hmin), (proj2 (Z.leb_le _ _) Hmax).
Qed.

Lemma ParseInt_range s n : ParseInt s = Some n -> is_int64 n.
Proof.
  assert (Hs : forall (neg : bool) r,
    match parse_uint r with
    | Some n => let z := if neg then - n else n in
                if (min_int64 <=? z) && (z <=? max_int64) then Some z else None
    | None => None end = Some n -> is_int64 n).
  { intros neg r. destruct (parse_uint r); [|done]. cbn zeta.
    case_bool; [|done]. intros [= <-]. zbool. split; lia. }
  unfold ParseInt. destruct s as [|a r]; [done|].
  destruct (Ascii.eqb a "-"); [apply (Hs true)|].
  destruct (Ascii.eqb a "+"); apply (Hs false).
Qed.

(** ** Hexadecimal *)

Lemma hex_val_digit d : 0 <= d < 16 -> hex_val (hex_digit d) = Some d.
Proof.
  intros H. unfold hex_digit, hex_val. rewrite byte_val_of.
  destruct (Z.ltb_spec d 10); rewrite Z.mod_small by lia.
  - destruct (Z.leb_spec 48 (48 + d)), (Z.leb_spec (48 + d) 57); cbn; try lia. f_equal. lia.
  - destruct (Z.leb_spec 48 (87 + d)), (Z.leb_spec (87 + d) 57); cbn; try lia.
    destruct (Z.leb_spec 97 (87 + d)), (Z.leb_spec (87 + d) 102); cbn; try lia. f_equal. lia.
Qed.

Lemma hex_decode_encode b : hex_decode (hex_encode b) = Some b.
Proof.
  induction b as [|a b IH]; [done|]. cbn [hex_encode hex_decode].
  pose proof (byte_val_range a). pose proof (Z.div_mod (byte_val a) 16 ltac:(lia)).
  pose proof (Z.mod_pos_bound (byte_val a) 16 ltac:(lia)).
  assert (0 <= byte_val a / 16 < 16)
    by (split; [apply Z.div_pos|apply Z.div_lt_upper_bound]; lia).
  rewrite (hex_val_digit (byte_val a / 16)), (hex_val_digit (byte_val a mod 16)), IH by lia.
  f_equal. f_equal. rewrite <- H0. apply byte_of_val.
Qed.

Lemma hex_decode_length s b : hex_decode s = Some b -> String.length s = (2 * length b)%nat.
Proof.
  revert b. induction s as [s IH] using (induction_ltof1 _ String.length).
  destruct s as [|x [|y s]]; intros b; cbn; [naive_solver|done|].
  destruct (hex_val x), (hex_val y), (hex_decode s) eqn:E; intros H; simplify_eq/=.
  rewrite (IH s) with (b := l); [lia| |done]. unfold ltof. cbn. lia.
Qed.

(** ** White space *)

(** ASCII and no white space. *)
Definition plain_byte (a : ascii) : Prop := ascii_space (byte_val a) = false /\ byte_val a < 128.

Lemma space_head_plain a s : plain_byte a -> space_head (a :: s) = None.
Proof.
  intros [Hs Hr]. unfold space_head. rewrite Hs. destruct s as [|b [|c s]]; [done|..];
    unfold latin_space, wide_space;
    repeat match goal with |- context [(byte_val a =? ?k)] =>
      replace (byte_val a =? k)%Z with false by (symmetry; apply Z.eqb_neq; lia) end; done.
Qed.

Lemma space_last_plain a s : plain_byte a -> space_last (a :: s) = None.
Proof.
  intros [Hs Hr]. unfold space_last. rewrite Hs. destruct s as [|b [|c s]]; [done|..];
    unfold latin_space, wide_space;
    repeat match goal with |- context [(byte_val a =? ?k)] =>
      replace (byte_val a =? k)%Z with false by (symmetry; apply Z.eqb_neq; lia) end;
    rewrite ?andb_false_r; try done;
    replace ((128 <=? byte_val a) && (byte_val a <=? 138))%Z with false
      by (symmetry; apply andb_false_iff; left; apply Z.leb_gt; lia);
    cbn; rewrite ?andb_false_r; done.
Qed.

Lemma trim_fuel_stop n step s : step s = None -> trim_fuel n step s = s.
Proof. destruct n; cbn; [done|]. by intros ->. Qed.

Lemma TrimSpaceBytes_plain b : Forall plain_byte b -> TrimSpaceBytes b = b.
Proof.
  intros Hb. unfold TrimSpaceBytes.
  assert (Hhd : trim_fuel (length b) space_head b = b).
  { destruct b as [|a b]; [done|]. inversion Hb; subst. apply trim_fuel_stop. by apply space_head_plain. }
  rewrite Hhd. rewrite trim_fuel_stop; [apply rev_involutive|].
  destruct (rev b) as [|a r] eqn:E; [done|]. apply space_last_plain.
  apply List.Forall_rev in Hb. rewrite E in Hb. by inversion Hb.
Qed.

Lemma TrimSpace_plain s : Forall plain_byte (bytes_of_string s) -> TrimSpace s = s.
Proof. intros H. unfold TrimSpace. rewrite TrimSpaceBytes_plain by done. apply string_of_bytes_of_string. Qed.

Lemma digit_plain a : is_Some (digit_val a) -> plain_byte a.
Proof.
  intros [d Hd]. unfold digit_val in Hd. destruct (_ && _) eqn:E; [|done]. zbool.
  unfold plain_byte, ascii_space. split; [|lia]. rewrite orb_false_iff, andb_false_iff, Z.eqb_neq, !Z.leb_gt. lia.
Qed.

(** ** Digits of a number *)

Lemma utoa_fuel_digits f n acc :
  0 <= n -> Forall (fun a => is_Some (digit_val a)) (bytes_of_string acc) ->
  Forall (fun a => is_Some (digit_val a)) (bytes_of_string (utoa_fuel f n acc)).
Proof.
  revert n acc. induction f as [|f IH]; intros n acc Hn Hacc; [done|]. cbn [utoa_fuel].
  assert (Forall (fun a => is_Some (digit_val a)) (bytes_of_string (String (digit_char (n mod 10)) acc))).
  { constructor; [|done]. rewrite digit_val_char by (apply Z.mod_pos_bound; lia). eauto. }
  case_bool; [done|]. apply IH; [apply Z.div_pos; lia|done].
Qed.

Lemma utoa_digits n : 0 <= n -> Forall (fun a => is_Some (digit_val a)) (bytes_of_string (utoa n)).
Proof. intros. apply utoa_fuel_digits; [done|constructor]. Qed.

(** ** Suffixes that differ *)

Lemma HasSuffix_app_ne r p q :
  String.length p = String.length q -> p <> q -> HasSuffix (r +:+ p) q = false.
Proof.
  intros Hl Hne. destruct (HasSuffix (r +:+ p) q) eqn:E; [|done]. exfalso.
  apply HasSuffix_spec in E as [r' Hr]. apply (f_equal bytes_of_string) in Hr.
  rewrite !bytes_of_string_app in Hr. apply app_inj_2 in Hr as [_ Hpq].
  - apply Hne. by apply bytes_of_string_inj.
  - by rewrite !bytes_of_string_length.
Qed.

Lemma HasSuffix_app r q : HasSuffix (r +:+ q) q = true.
Proof. apply HasSuffix_spec. eauto. Qed.

(** ** Joining and splitting back *)

Lemma Split_app_sep s t c :
  c ∉ bytes_of_string s -> Split (s +:+ String c t) c = s :: Split t c.
Proof.
  induction s as [|a s IH]; intros Hs.
  - change (EmptyString +:+ String c t) with (String c t). cbn [Split]. by rewrite Ascii.eqb_refl.
  - cbn in Hs. apply not_elem_of_cons in Hs as [Hne Hs].
    change (String a s +:+ String c t) with (String a (s +:+ String c t)). cbn [Split].
    destruct (Ascii.eqb_spec a c); [congruence|]. by rewrite IH.
Qed.

Lemma Split_none s c : c ∉ bytes_of_string s -> Split s c = [s].
Proof.
  induction s as [|a s IH]; intros Hs; [done|].
  cbn in Hs. apply not_elem_of_cons in Hs as [Hne Hs]. cbn [Split].
  destruct (Ascii.eqb_spec a c); [congruence|]. by rewrite IH.
Qed.

Lemma Split_Join l c :
  l <> [] -> Forall (fun w => c ∉ bytes_of_string w) l -> Split (Join l (String c EmptyString)) c = l.
Proof.
  induction l as [|w l IH]; intros Hne Hl; [done|]. apply Forall_cons_iff in Hl as [Hw Hl].
  destruct l as [|w2 l]; [by apply Split_none|].
  rewrite Join_cons_cons. change (String c EmptyString +:+ ?x) with (String c x).
  rewrite Split_app_sep by done. f_equal. by apply IH.
Qed.
