(* ===== verification/GoTime.v ===== *)
(** * Go's time package

    An instant is the number of nanoseconds since the Unix epoch, as an unbounded integer
    ([time.Time] covers some 584 billion years); a duration is an [int64] of nanoseconds.
    A reading of the clock is an argument of the definitions that take one. *)

From S2P Require Import Prelude.

Local Open Scope Z_scope.

Abbreviation Time := Z.
Abbreviation Duration := Z.

Definition Nanosecond : Duration := 1.
Definition Microsecond : Duration := 1000.
Definition Millisecond : Duration := 1000000.
Definition Second : Duration := 1000000000.
Definition Minute : Duration := 60000000000.
Definition Hour : Duration := 3600000000000.

(** [time.Time{}]: midnight of January 1 of year 1. *)
Definition zeroTime : Time := -62135596800000000000.

Definition IsZero (t : Time) : bool := t =? zeroTime.
Definition After (t u : Time) : bool := u <? t.
Definition Before (t u : Time) : bool := t <? u.

(** [t.Add(d)] is exact; [t.Sub(u)] saturates. *)
Definition Add (t : Time) (d : Duration) : Time := t + d.
Definition Sub (t u : Time) : Duration := sat64 (t - u).

(** [time.Since(t)] at the clock reading [now]. *)
Definition Since (now t : Time) : Duration := Sub now t.

Definition Unix (t : Time) : Z := t / Second.
Definition UnixMilli (t : Time) : Z := wrap64 (t / Millisecond).
Definition UnixNano (t : Time) : Z := wrap64 t.

(** [Duration.Round]: to the nearest multiple, halfway away from zero; the ends of the range
    absorb what would leave it. *)
Definition lessThanHalf (x y : Z) : bool := x + x <? y.

Definition Duration_Round (d m : Duration) : Duration :=
  if m <=? 0 then d
  else
    let r := Z.rem d m in
    if d <? 0 then
      let r := - r in
      if lessThanHalf r m then d + r
      else let d1 := wrap64 (wrap64 (d - m) + r) in
           if d1 <? d then d1 else min_int64
    else if lessThanHalf r m then d - r
    else let d1 := wrap64 (wrap64 (d + m) - r) in
         if d <? d1 then d1 else max_int64.

Example Duration_Round_examples :
  map (fun d => Duration_Round d Second)
    [0; 1499 * Millisecond; 1500 * Millisecond; - (1500 * Millisecond); - (1499 * Millisecond); max_int64; min_int64]
  = [0; Second; 2 * Second; - (2 * Second); - Second; max_int64; min_int64].
Proof. vm_compute. reflexivity. Qed.

(** Clock readings of a running program: after 1970 and, so that they have a [UnixNano],
    before 2262. *)
Definition clock_ok (t : Time) : Prop := 0 <= t <= max_int64.

Lemma clock_ok_not_zero t : clock_ok t -> IsZero t = false.
Proof. unfold clock_ok, IsZero, zeroTime. intros. apply Z.eqb_neq. lia. Qed.

Lemma After_spec t u : After t u = true <-> u < t.
Proof. apply Z.ltb_lt. Qed.

Lemma Before_spec t u : Before t u = true <-> t < u.
Proof. apply Z.ltb_lt. Qed.

(** Between clock readings the difference does not saturate. *)
Lemma Sub_exact t u : clock_ok t -> clock_ok u -> Sub t u = t - u.
Proof.
  unfold clock_ok, Sub, max_int64. intros. apply sat64_id. unfold is_int64, min_int64, max_int64. lia.
Qed.

(** A zero instant is further away than any duration, up to the largest one. *)
Lemma Since_zero t : clock_ok t -> Since t zeroTime = max_int64.
Proof.
  unfold clock_ok, Since, Sub, sat64, zeroTime, min_int64, max_int64. intros.
  destruct (Z.ltb_spec (t - -62135596800000000000) (-9223372036854775808)); [lia|].
  destruct (Z.ltb_spec 9223372036854775807 (t - -62135596800000000000)); lia.
Qed.

Lemma UnixNano_clock t : clock_ok t -> UnixNano t = t.
Proof. intros [??]. apply wrap64_id. unfold is_int64, min_int64. lia. Qed.
