(* ===== verification/GoFloat.v ===== *)
(** * Go's float64

    IEEE 754 binary64 values as the Standard Library's [spec_float], with the operations
    the program uses, rounding to nearest even; parsing of decimal literals, correctly
    rounded, and the shortest decimal that reads back, as encoding/json prints it. *)

From Stdlib Require Export SpecFloat.
From Stdlib Require Import Ascii.
From S2P Require Import Prelude GoStrings.

Local Open Scope Z_scope.

Abbreviation float64 := spec_float.

Definition f64_prec : Z := 53.
Definition f64_emax : Z := 1024.

Definition f64_zero : float64 := S754_zero false.

(** Conversion of an integer: [float64(n)]. *)
Definition f64_of_Z (n : Z) : float64 := binary_normalize f64_prec f64_emax n 0 false.

(** The value of [m * 2^e], correctly rounded. *)
Definition f64_make (m e : Z) : float64 := binary_normalize f64_prec f64_emax m e false.

Definition f64_add (x y : float64) : float64 := SFadd f64_prec f64_emax x y.
Definition f64_mul (x y : float64) : float64 := SFmul f64_prec f64_emax x y.
Definition f64_div (x y : float64) : float64 := SFdiv f64_prec f64_emax x y.

Definition f64_leb (x y : float64) : bool := SFleb x y.
Definition f64_ltb (x y : float64) : bool := SFltb x y.

(** Positive: a finite positive number or positive infinity. *)
Definition f64_pos (x : float64) : Prop :=
  match x with
  | S754_finite false _ _ | S754_infinity false => True
  | _ => False
  end.

(** A comparison with NaN is false, so [!(x <= 0)] is "positive or NaN". *)
Lemma f64_leb_zero x : f64_leb x f64_zero = false <-> f64_pos x \/ x = S754_nan.
Proof. destruct x as [[]|[]| |[] m e]; cbn; naive_solver. Qed.

Definition f64_sub (x y : float64) : float64 := SFsub f64_prec f64_emax x y.

(** ** Integers *)

(** [int64(x)], rounding towards zero; a value out of range (or NaN) gives the value the
    amd64 conversion instruction gives. *)
Definition f64_trunc (x : float64) : Z :=
  match x with
  | S754_finite s m e =>
      let a := if 0 <=? e then Z.pos m * 2 ^ e else Z.pos m / 2 ^ (- e) in
      let z := if s then - a else a in
      if (min_int64 <=? z) && (z <=? max_int64) then z else min_int64
  | S754_zero _ => 0
  | _ => min_int64
  end.

(** ** Decimal literals *)

Definition count_digits (n : Z) : Z := Z.of_nat (String.length (utoa n)).

(** [m * 10^e] correctly rounded, [None] on overflow. Magnitudes beyond the range of a
    binary64 are cut off by their number of digits before any power is computed. *)
Definition f64_of_decimal (neg : bool) (m e : Z) : option float64 :=
  if m =? 0 then Some (S754_zero neg)
  else if 310 <? count_digits m + e then None
  else if count_digits m + e <? -330 then Some (S754_zero neg)
  else
    let r :=
      if 0 <=? e then binary_normalize f64_prec f64_emax (if neg then - (m * 10 ^ e) else m * 10 ^ e) 0 neg
      else let '(q, ex, l) := SFdiv_core_binary f64_prec f64_emax m 0 (10 ^ (- e)) 0 in
           binary_round_aux f64_prec f64_emax neg q ex l in
    match r with S754_infinity _ => None | _ => Some r end.

(** The longest run of digits: their value, their number and the rest. *)
Fixpoint take_digits (s : bytes) (acc n : Z) : Z * Z * bytes :=
  match s with
  | a :: s' => match digit_val a with
               | Some d => take_digits s' (10 * acc + d) (n + 1)
               | None => (acc, n, s)
               end
  | [] => (acc, n, [])
  end.

(** Exponents are cut off at 10000, as the scanner of [strconv] does. *)
Definition cap_exp (e : Z) : Z := if 10000 <? e then 10000 else e.

(** [strconv.ParseFloat] on a literal of the JSON number grammar; [None] when the value is
    out of range. *)
Definition ParseFloatJSON (lit : string) : option float64 :=
  let s := bytes_of_string lit in
  let '(neg, s) := match s with
                   | a :: s' => if Ascii.eqb a "-" then (true, s') else (false, s)
                   | [] => (false, s)
                   end%char in
  let '(ip, _, s) := take_digits s 0 0 in
  let '(mant, nfrac, s) := match s with
                           | a :: s' => if Ascii.eqb a "." then take_digits s' ip 0 else (ip, 0, s)
                           | [] => (ip, 0, s)
                           end%char in
  let ex := match s with
            | _ :: a :: s' =>
                if Ascii.eqb a "-" then - cap_exp (take_digits s' 0 0).1.1
                else if Ascii.eqb a "+" then cap_exp (take_digits s' 0 0).1.1
                else cap_exp (take_digits (a :: s') 0 0).1.1
            | _ => 0
            end%char in
  f64_of_decimal neg mant (ex - nfrac).

(** ** Shortest decimals *)

(** [m * 2^e] as a fraction. *)
Definition frac_of (m : positive) (e : Z) : Z * Z :=
  if 0 <=? e then (Z.pos m * 2 ^ e, 1) else (Z.pos m, 2 ^ (- e)).

Definition pow10_le (k : Z) (v : Z * Z) : bool :=
  if 0 <=? k then 10 ^ k * v.2 <=? v.1 else v.2 <=? v.1 * 10 ^ (- k).

(** The least [k] with [v < 10^k], from an estimate that is at most three too small. *)
Fixpoint adjust_exp (f : nat) (k : Z) (v : Z * Z) : Z :=
  match f with
  | O => k
  | S f => if pow10_le k v then adjust_exp f (k + 1) v else k
  end.

Definition decimal_exp (m : positive) (e : Z) : Z :=
  adjust_exp 5 ((Z.log2 (Z.pos m) + e) * 30103 / 100000 - 1) (frac_of m e).

(** [v / 10^p] rounded down, and twice the remainder compared with the divisor. *)
Definition scale_down (v : Z * Z) (p : Z) : Z * comparison :=
  let '(n, d) := if 0 <=? p then (v.1, v.2 * 10 ^ p) else (v.1 * 10 ^ (- p), v.2) in
  (n / d, Z.compare (2 * (n mod d)) d).

Definition reads_back (x : float64) (m e : Z) : bool :=
  match f64_of_decimal false m e with Some y => SFeqb x y | None => false end.

(** The shortest digits that read back as the positive [x], nearest to it first. *)
Fixpoint shortest_digits (f : nat) (x : float64) (v : Z * Z) (k n : Z) : Z * Z :=
  let '(q, c) := scale_down v (k - n) in
  let near := match c with Lt => q | Eq => q + q mod 2 | Gt => q + 1 end in
  let far := if near =? q then q + 1 else q in
  match f with
  | O => (near, k - n)
  | S f =>
      if reads_back x near (k - n) then (near, k - n)
      else if reads_back x far (k - n) then (far, k - n)
      else shortest_digits f x v k (n + 1)
  end.

Fixpoint strip_zeros (f : nat) (m e : Z) : Z * Z :=
  match f with
  | O => (m, e)
  | S f => if (m mod 10 =? 0) && (0 <? m) then strip_zeros f (m / 10) (e + 1) else (m, e)
  end.

(** Digits and exponent of the shortest decimal: [x = digits * 10^e]. *)
Definition shortest (m : positive) (e : Z) : Z * Z :=
  let '(d, p) := shortest_digits 17 (S754_finite false m e) (frac_of m e) (decimal_exp m e) 1 in
  strip_zeros 20 d p.

Definition zeros (n : Z) : string := string_of_bytes (repeat "0"%char (Z.to_nat n)).

(** The [%f] layout with the fewest digits; no digits are a zero. *)
Definition format_plain (d e : Z) : string :=
  let ds := utoa d in
  let n := count_digits d in
  if d =? 0 then "0"
  else if 0 <=? e then ds +:+ zeros e
  else if n + e <=? 0 then "0." +:+ zeros (- (n + e)) +:+ ds
  else string_of_bytes (take (Z.to_nat (n + e)) (bytes_of_string ds)) +:+ "."
       +:+ string_of_bytes (drop (Z.to_nat (n + e)) (bytes_of_string ds)).

(** The [%e] layout; encoding/json drops the zero of a one-digit negative exponent. *)
Definition format_exp (d e : Z) : string :=
  let ds := bytes_of_string (utoa d) in
  let x := e + count_digits d - 1 in
  let mant := string_of_bytes (take 1 ds)
              +:+ match drop 1 ds with [] => EmptyString | r => "." +:+ string_of_bytes r end in
  mant +:+ "e" +:+ (if x <? 0 then "-" +:+ utoa (- x)
                    else "+" +:+ (if x <? 10 then "0" else EmptyString) +:+ utoa x).

(** How encoding/json writes a float64: [None] for infinities and NaN. The bounds 1e-6 and
    1e21 are those of the shortest decimal's exponent. *)
Definition f64_json (x : float64) : option string :=
  match x with
  | S754_zero s => Some (if s then "-0" else "0")
  | S754_finite s m e =>
      let '(d, p) := shortest m e in
      let k := p + count_digits d in
      let body := if (k <=? -6) || (21 <? k) then format_exp d p else format_plain d p in
      Some (if s then "-" +:+ body else body)
  | _ => None
  end.

(** [json.Marshal] of a float64. *)
Definition encode_float (x : float64) : option bytes := bytes_of_string <$> f64_json x.

(** [strconv.FormatFloat(x, 'f', -1, 64)]. *)
Definition FormatFloat_f (x : float64) : string :=
  match x with
  | S754_zero s => if s then "-0" else "0"
  | S754_finite s m e =>
      let '(d, p) := shortest m e in
      if s then "-" +:+ format_plain d p else format_plain d p
  | S754_infinity s => if s then "-Inf" else "+Inf"
  | S754_nan => "NaN"
  end.

Example f64_json_examples :
  map (fun l => ParseFloatJSON l ≫= f64_json)
    ["0"; "-0"; "1"; "12.5"; "0.1"; "1e21"; "1e20"; "0.000001"; "0.0000001"; "1735689600123";
     "123456789012345678"; "-2.5e3"; "5e-324"; "1.7976931348623157e308"; "3.141592653589793"]
  = map Some
    ["0"; "-0"; "1"; "12.5"; "0.1"; "1e+21"; "100000000000000000000"; "0.000001"; "1e-7"; "1735689600123";
     "123456789012345680"; "-2500"; "5e-324"; "1.7976931348623157e+308"; "3.141592653589793"].
Proof. vm_compute. reflexivity. Qed.

Example f64_of_Z_large : f64_json (f64_of_Z 18446744073709551615) = Some "18446744073709552000".
Proof. vm_compute. reflexivity. Qed.
