(* ===== verification/GoHttp.v ===== *)
(** * Go's net/http and net, as the servers use them

    Headers, requests, responses, [http.Error], [net.SplitHostPort] and the pattern
    matching of [http.ServeMux] for the kind of patterns the program registers. *)

From S2P Require Import Prelude GoStrings.
From Stdlib Require Import Ascii.

Local Open Scope Z_scope.

(** ** Headers

    Keys are in canonical form, values in the order they were added. *)
Abbreviation Header := (gmap string (list string)).

(** [h.Get(k)]: the first value, or the empty string. *)
Definition Header_Get (h : Header) (k : string) : string :=
  match h !! k with Some (v :: _) => v | _ => EmptyString end.

Definition Header_Set (h : Header) (k v : string) : Header := <[k := [v]]> h.
Definition Header_Add (h : Header) (k v : string) : Header :=
  <[k := default [] (h !! k) ++ [v]]> h.
Definition Header_Del (h : Header) (k : string) : Header := delete k h.

(** ** Requests and responses *)

Record Request := mkRequest {
  Method : string;
  URL_Path : string;
  RequestURI : string;
  ReqHeader : Header;
  RemoteAddr : string;
  ReqBody : result bytes bytes   (* all of it, or what came before a read error *)
}.

Record Response := mkResponse {
  StatusCode : Z;
  RespHeader : Header;
  RespBody : string
}.

Definition StatusOK : Z := 200.
Definition StatusBadRequest : Z := 400.
Definition StatusUnauthorized : Z := 401.
Definition StatusForbidden : Z := 403.
Definition StatusNotFound : Z := 404.
Definition StatusMethodNotAllowed : Z := 405.
Definition StatusTooManyRequests : Z := 429.
Definition StatusInternalServerError : Z := 500.
Definition StatusBadGateway : Z := 502.
Definition StatusServiceUnavailable : Z := 503.
Definition StatusGatewayTimeout : Z := 504.

Definition newline_str : string := String "010" EmptyString.

(** [http.Error] on a response whose header map is [h]. *)
Definition http_Error (h : Header) (msg : string) (code : Z) : Response :=
  mkResponse code
    (Header_Set (Header_Set (Header_Del h "Content-Length")
       "Content-Type" "text/plain; charset=utf-8") "X-Content-Type-Options" "nosniff")
    (msg +:+ newline_str).

(** ** [net.SplitHostPort] *)

Fixpoint index_byte (c : ascii) (s : bytes) : option nat :=
  match s with
  | [] => None
  | a :: s' => if Ascii.eqb a c then Some O else S <$> index_byte c s'
  end.

Definition last_index_byte (c : ascii) (s : bytes) : option nat :=
  (fun i => length s - 1 - i)%nat <$> index_byte c (rev s).

Definition has_byte (c : ascii) (s : bytes) : bool :=
  match index_byte c s with Some _ => true | None => false end.

Definition lbracket : ascii := "[".
Definition rbracket : ascii := "]".
Definition colon : ascii := ":".

(** [None] is an address error. *)
Definition split_host_port (s : bytes) : option (bytes * bytes) :=
  match last_index_byte colon s with
  | None => None
  | Some i =>
      let check host j k :=
        if has_byte lbracket (drop j s) then None
        else if has_byte rbracket (drop k s) then None
        else Some (host, drop (S i) s) in
      match s with
      | a :: _ =>
          if Ascii.eqb a lbracket then
            match index_byte rbracket s with
            | None => None
            | Some e =>
                if Nat.eqb (S e) i then check (drop 1 (take e s)) 1%nat (S e) else None
            end
          else
            let host := take i s in
            if has_byte colon host then None else check host 0%nat 0%nat
      | [] => None
      end
  end.

Definition SplitHostPort (s : string) : option (string * string) :=
  match split_host_port (bytes_of_string s) with
  | Some (h, p) => Some (string_of_bytes h, string_of_bytes p)
  | None => None
  end.

(** ** [http.ServeMux]

    A pattern is a method (none: any) and a literal path, or the subtree of all paths. A
    GET pattern also matches HEAD. *)
Inductive mux_path := MuxExact (p : string) | MuxAny.
Record mux_pattern := mkPattern { mp_method : option string; mp_path : mux_path }.

Definition path_matches (p : mux_path) (path : string) : bool :=
  match p with MuxExact q => bool_decide (q = path) | MuxAny => true end.

Definition method_matches (m : option string) (method : string) : bool :=
  match m with
  | None => true
  | Some m => bool_decide (m = method)
              || (bool_decide (m = "GET") && bool_decide (method = "HEAD"))
  end.

Inductive mux_result (A : Type) := MuxHandler (h : A) | MuxNotFound | MuxMethodNotAllowed.
Arguments MuxHandler {A} h.
Arguments MuxNotFound {A}.
Arguments MuxMethodNotAllowed {A}.

(** The most specific matching pattern: an exact path beats the subtree, so exact patterns
    come first in the list. *)
Definition mux_lookup {A} (pats : list (mux_pattern * A)) (method path : string) : mux_result A :=
  match List.find (fun p => path_matches (mp_path p.1) path && method_matches (mp_method p.1) method) pats with
  | Some p => MuxHandler p.2
  | None =>
      if existsb (fun p => path_matches (mp_path p.1) path) pats
      then MuxMethodNotAllowed else MuxNotFound
  end.

(** * Facts *)

Lemma Header_Get_Set h k v : Header_Get (Header_Set h k v) k = v.
Proof. unfold Header_Get, Header_Set. by rewrite lookup_insert_eq. Qed.

Lemma Header_Get_Set_ne h k k' v : k <> k' -> Header_Get (Header_Set h k v) k' = Header_Get h k'.
Proof. intros. unfold Header_Get, Header_Set. by rewrite lookup_insert_ne. Qed.

Lemma mux_lookup_handler {A} (pats : list (mux_pattern * A)) m p h :
  mux_lookup pats m p = MuxHandler h ->
  exists pat, In (pat, h) pats /\ path_matches (mp_path pat) p = true
              /\ method_matches (mp_method pat) m = true.
Proof.
  unfold mux_lookup. destruct (List.find _ pats) as [[pat h']|] eqn:Hf; [|by case_bool].
  intros [= <-]. apply find_some in Hf as [Hin Hm]. apply andb_true_iff in Hm as [??]. eauto.
Qed.

Lemma index_byte_notin c s : c ∉ s -> index_byte c s = None.
Proof.
  induction s as [|a s IH]; [done|]. rewrite not_elem_of_cons. intros [Hne Hs]. cbn.
  destruct (Ascii.eqb_spec a c); [congruence|]. by rewrite IH.
Qed.

Lemma index_byte_app c s t : c ∉ s -> index_byte c (s ++ c :: t) = Some (length s).
Proof.
  induction s as [|a s IH]; intros Hs.
  - cbn. by rewrite Ascii.eqb_refl.
  - apply not_elem_of_cons in Hs as [Hne Hs]. cbn.
    destruct (Ascii.eqb_spec a c); [congruence|]. by rewrite IH.
Qed.

Lemma has_byte_notin c s : c ∉ s -> has_byte c s = false.
Proof. intros. unfold has_byte. by rewrite index_byte_notin. Qed.

Lemma last_index_byte_app c s t : c ∉ t -> last_index_byte c (s ++ c :: t) = Some (length s).
Proof.
  intros Ht. unfold last_index_byte. rewrite rev_app_distr. cbn [rev]. rewrite <- app_assoc.
  cbn [app]. rewrite index_byte_app by (by rewrite list_elem_of_In, <- in_rev, <- list_elem_of_In).
  cbn. rewrite length_rev, length_app. cbn. f_equal. lia.
Qed.

(** An IPv4 host and port, or any other text without colons and brackets. *)
Lemma SplitHostPort_plain h p :
  colon ∉ bytes_of_string h -> lbracket ∉ bytes_of_string h -> rbracket ∉ bytes_of_string h ->
  colon ∉ bytes_of_string p -> lbracket ∉ bytes_of_string p -> rbracket ∉ bytes_of_string p ->
  h <> EmptyString ->
  SplitHostPort (h +:+ ":" +:+ p) = Some (h, p).
Proof.
  intros H1 H2 H3 H4 H5 H6 Hne. unfold SplitHostPort.
  rewrite !bytes_of_string_app. change (bytes_of_string ":") with [colon]. cbn [app].
  unfold split_host_port. rewrite last_index_byte_app by done.
  destruct (bytes_of_string h) as [|a hb] eqn:E.
  { apply (f_equal string_of_bytes) in E. by rewrite string_of_bytes_of_string in E. }
  cbn [app]. destruct (Ascii.eqb_spec a lbracket) as [->|].
  { apply not_elem_of_cons in H2 as [[] _]. done. }
  assert (Htake : take (length (a :: hb)) (a :: hb ++ colon :: bytes_of_string p) = a :: hb)
    by exact (take_app_length (a :: hb) _).
  assert (Hdrop : drop (S (length (a :: hb))) (a :: hb ++ colon :: bytes_of_string p) = bytes_of_string p).
  { change (a :: hb ++ ?x) with ((a :: hb) ++ x). rewrite drop_app_ge by lia.
    by replace (S (length (a :: hb)) - length (a :: hb))%nat with 1%nat by lia. }
  rewrite Htake, Hdrop, (has_byte_notin colon) by done. cbn [drop].
  assert (Hb : forall c, c ∉ a :: hb -> c <> colon -> c ∉ bytes_of_string p ->
    c ∉ a :: hb ++ colon :: bytes_of_string p).
  { intros c Hc1 Hc2 Hc3. change (a :: hb ++ ?x) with ((a :: hb) ++ x).
    rewrite not_elem_of_app. split; [done|]. by rewrite not_elem_of_cons. }
  rewrite !has_byte_notin by (by apply Hb). by rewrite string_of_bytes_of_string, <- E, string_of_bytes_of_string.
Qed.
