(* ===== verification/GoUrl.v ===== *)
(** * Go's net/url, as far as the program uses it

    A URL in parts, its text ([String]), and what the server at the other end of a request
    to that text reads: [http.NewRequest] parses the text, the client writes the request
    line, the server parses that. [server_reads_String] says that the path and the query
    survive the way. [url.Parse] of a text that comes from outside stays an argument of the
    definitions that call it. *)

From Stdlib Require Import Ascii.
From S2P Require Import Prelude GoStrings.

Local Open Scope Z_scope.

(** ** Percent encoding *)

Inductive encoding := encodePath | encodeHost | encodeUserPassword | encodeFragment.

Definition one_of (a : ascii) (s : string) : bool := existsb (Ascii.eqb a) (bytes_of_string s).

Definition alphanumeric (a : ascii) : bool :=
  let z := byte_val a in
  ((97 <=? z) && (z <=? 122)) || ((65 <=? z) && (z <=? 90)) || ((48 <=? z) && (z <=? 57)).

(** The double quote is the byte 34. *)
Definition shouldEscape (a : ascii) (mode : encoding) : bool :=
  if alphanumeric a then false
  else if (match mode with encodeHost => true | _ => false end) && (one_of a "!$&'()*+,;=:[]<>" || (byte_val a =? 34)) then false
  else if one_of a "-_.~" then false
  else if one_of a "$&+,/:;=?@" && (match mode with encodeHost => false | _ => true end) then
    match mode with
    | encodePath => Ascii.eqb a "?"
    | encodeUserPassword => one_of a "@/?:"
    | encodeFragment | encodeHost => false
    end
  else match mode with encodeFragment => negb (one_of a "!()*") | _ => true end.

Definition upper_hex (d : Z) : ascii := byte_of (if d <? 10 then 48 + d else 55 + d).

Definition percent (a : ascii) : string :=
  String "%" (String (upper_hex (byte_val a / 16)) (String (upper_hex (byte_val a mod 16)) EmptyString)).

Fixpoint escape (s : string) (mode : encoding) : string :=
  match s with
  | EmptyString => EmptyString
  | String a s' => (if shouldEscape a mode then percent a else String a EmptyString) +:+ escape s' mode
  end.

(** [unescape] of a path: a malformed escape is an error. *)
Fixpoint unescape (s : string) : option string :=
  match s with
  | EmptyString => Some EmptyString
  | String a s' =>
      if Ascii.eqb a "%" then
        match s' with
        | String x (String y s'') =>
            match hex_val x, hex_val y with
            | Some h, Some l => String (byte_of (16 * h + l)) <$> unescape s''
            | _, _ => None
            end
        | _ => None
        end
      else String a <$> unescape s'
  end.

Definition validEncoded (s : string) (mode : encoding) : bool :=
  forallb (fun a => one_of a "!$&'()*+,;=:@[]%" || negb (shouldEscape a mode)) (bytes_of_string s).

(** ** A URL *)

Record Userinfo := mkUserinfo { ui_username : string; ui_password : option string }.

Record URL := mkURL {
  u_Scheme : string;
  u_Opaque : string;
  u_User : option Userinfo;
  u_Host : string;
  u_Path : string;
  u_RawPath : string;
  u_OmitHost : bool;
  u_ForceQuery : bool;
  u_RawQuery : string;
  u_Fragment : string;
  u_RawFragment : string
}.

Definition empty (s : string) : bool := bool_decide (s = EmptyString).

(** [EscapedPath] and [EscapedFragment]: the raw form when it is a valid encoding of what it
    stands for. *)
Definition escaped (decoded raw : string) (mode : encoding) : string :=
  if negb (empty raw) && validEncoded raw mode && bool_decide (unescape raw = Some decoded) then raw
  else escape decoded mode.

Definition EscapedPath (u : URL) : string :=
  if negb (empty (u_RawPath u)) && validEncoded (u_RawPath u) encodePath && bool_decide (unescape (u_RawPath u) = Some (u_Path u))
  then u_RawPath u
  else if bool_decide (u_Path u = "*") then "*" else escape (u_Path u) encodePath.

Definition EscapedFragment (u : URL) : string := escaped (u_Fragment u) (u_RawFragment u) encodeFragment.

Definition Userinfo_String (u : Userinfo) : string :=
  match ui_password u with
  | None => escape (ui_username u) encodeUserPassword
  | Some p => escape (ui_username u) encodeUserPassword +:+ ":" +:+ escape p encodeUserPassword
  end.

(** What stands between the scheme and the path. *)
Definition authority_text (u : URL) : string :=
  match u_User u with Some ui => Userinfo_String ui +:+ "@" | None => EmptyString end
  +:+ escape (u_Host u) encodeHost.

Definition hier_text (u : URL) : string :=
  let no_user := match u_User u with None => true | _ => false end in
  let auth :=
    if empty (u_Scheme u) && empty (u_Host u) && no_user then EmptyString
    else if u_OmitHost u && empty (u_Host u) && no_user then EmptyString
    else (if negb (empty (u_Host u)) || negb (empty (u_Path u)) || negb no_user then "//" else EmptyString) +:+ authority_text u in
  let path := EscapedPath u in
  let slash := if negb (empty path) && negb (HasPrefix path "/") && negb (empty (u_Host u)) then "/" else EmptyString in
  let dot :=
    if empty (u_Scheme u) && empty (auth +:+ slash) && one_of ":" (default EmptyString (head (Split path "/"))) then "./"
    else EmptyString in
  auth +:+ slash +:+ dot +:+ path.

(** [String]. *)
Definition url_String (u : URL) : string :=
  (if empty (u_Scheme u) then EmptyString else u_Scheme u +:+ ":")
  +:+ (if negb (empty (u_Opaque u)) then u_Opaque u else hier_text u)
  +:+ (if u_ForceQuery u || negb (empty (u_RawQuery u)) then "?" +:+ u_RawQuery u else EmptyString)
  +:+ (if empty (u_Fragment u) then EmptyString else "#" +:+ EscapedFragment u).

(** ** What the server reads *)

(** [strings.Cut] at a byte, without the flag. *)
Fixpoint cut (c : ascii) (s : string) : string * string :=
  match s with
  | EmptyString => (EmptyString, EmptyString)
  | String a s' => if Ascii.eqb a c then (EmptyString, s') else let '(x, y) := cut c s' in (String a x, y)
  end.

(** From the first slash on. *)
Fixpoint from_slash (s : string) : string :=
  match s with
  | EmptyString => EmptyString
  | String a s' => if Ascii.eqb a "/" then s else from_slash s'
  end.

(** [url.Parse] of a text with a scheme and an authority: its path, decoded and as it stands,
    and its query. *)
Definition parse_absolute (text : string) : option (string * string * string) :=
  let s := (cut "#" text).1 in
  let '(rest, query) := cut "?" (cut ":" s).2 in
  rest ← strip_prefix "//" rest;
  let raw := from_slash rest in
  path ← unescape raw;
  Some (path, raw, query).

(** [RequestURI] of a URL that has been parsed, what the client puts on the request line. *)
Definition request_line (p : string * string * string) : string :=
  let '(path, raw, query) := p in
  let target := if bool_decide (raw = escape path encodePath) || negb (validEncoded raw encodePath) then escape path encodePath else raw in
  (if empty target then "/" else target) +:+ (if empty query then EmptyString else "?" +:+ query).

(** [url.ParseRequestURI] of it: [URL.Path] and [URL.RawQuery] at the server. *)
Definition parse_request (line : string) : option (string * string) :=
  let '(raw, query) := cut "?" line in
  path ← unescape raw;
  Some (path, query).

Definition server_reads (text : string) : option (string * string) :=
  p ← parse_absolute text; parse_request (request_line p).

(** ** Facts *)

Lemma cons_app a s t : String a s +:+ t = String a (s +:+ t).
Proof. done. Qed.

Lemma nil_app t : EmptyString +:+ t = t.
Proof. done. Qed.

#[local] Hint Rewrite cons_app nil_app : str.
Ltac strs := autorewrite with str.

Lemma hex_val_upper d : 0 <= d < 16 -> hex_val (upper_hex d) = Some d.
Proof.
  intros H. unfold upper_hex, hex_val. rewrite byte_val_of.
  destruct (Z.ltb_spec d 10); rewrite Z.mod_small by lia.
  - destruct (Z.leb_spec 48 (48 + d)), (Z.leb_spec (48 + d) 57); cbn; try lia. f_equal. lia.
  - destruct (Z.leb_spec 48 (55 + d)), (Z.leb_spec (55 + d) 57); cbn; try lia.
    destruct (Z.leb_spec 97 (55 + d)), (Z.leb_spec (55 + d) 102); cbn; try lia;
    destruct (Z.leb_spec 65 (55 + d)), (Z.leb_spec (55 + d) 70); cbn; try lia; f_equal; lia.
Qed.

Lemma nibbles a : 0 <= byte_val a / 16 < 16 /\ 0 <= byte_val a mod 16 < 16.
Proof.
  pose proof (byte_val_range a). split; [|apply Z.mod_pos_bound; lia].
  split; [apply Z.div_pos; lia|apply Z.div_lt_upper_bound; lia].
Qed.

(** What is escaped is read back, whatever it is. *)
Lemma unescape_escape s mode : unescape (escape s mode) = Some s.
Proof.
  induction s as [|a s IH]; [done|]. cbn [escape]. destruct (shouldEscape a mode) eqn:Hs.
  - unfold percent. strs. cbn [unescape]. change (Ascii.eqb "%" "%") with true. cbv iota.
    destruct (nibbles a) as [H1 H2]. rewrite (hex_val_upper _ H1), (hex_val_upper _ H2), IH. cbn [fmap option_fmap option_map].
    rewrite <- Z.div_mod by done. by rewrite byte_of_val.
  - strs. cbn [unescape]. destruct (Ascii.eqb_spec a "%") as [->|]; [by destruct mode|]. by rewrite IH.
Qed.

(** *** The separators *)

Definition lacks (c : ascii) (s : string) : Prop := Forall (fun a => a <> c) (bytes_of_string s).

Lemma lacks_app c s t : lacks c (s +:+ t) <-> lacks c s /\ lacks c t.
Proof. unfold lacks. rewrite bytes_of_string_app. apply Forall_app. Qed.

Lemma lacks_cons c a s : lacks c (String a s) <-> a <> c /\ lacks c s.
Proof. apply Forall_cons_iff. Qed.

Lemma lacks_nil c : lacks c EmptyString.
Proof. constructor. Qed.

#[local] Hint Resolve lacks_nil : core.

Lemma cut_lacks c s : lacks c s -> cut c s = (s, EmptyString).
Proof.
  induction s as [|a s IH]; [done|]. intros [Ha Hs]%lacks_cons. cbn [cut].
  destruct (Ascii.eqb_spec a c); [done|]. by rewrite IH.
Qed.

Lemma cut_at c s t : lacks c s -> cut c (s +:+ String c t) = (s, t).
Proof.
  induction s as [|a s IH]; strs; cbn [cut]; [by rewrite Ascii.eqb_refl|]. intros [Ha Hs]%lacks_cons.
  destruct (Ascii.eqb_spec a c); [done|]. by rewrite IH.
Qed.

Lemma cut_lacks_first c s : lacks c (cut c s).1.
Proof.
  induction s as [|a s IH]; [done|]. cbn [cut]. destruct (Ascii.eqb_spec a c); [done|].
  destruct (cut c s) as [x y]. by apply lacks_cons.
Qed.

Lemma from_slash_app s t : lacks "/" s -> from_slash (s +:+ String "/" t) = String "/" t.
Proof.
  induction s as [|a s IH]; [done|]. intros [Ha Hs]%lacks_cons. strs. cbn [from_slash].
  destruct (Ascii.eqb_spec a "/"); [done|]. by apply IH.
Qed.

Lemma upper_hex_not c d : 0 <= d < 16 -> hex_val c = None -> upper_hex d <> c.
Proof. intros Hd Hc <-. by rewrite hex_val_upper in Hc. Qed.

(** A separator that a mode escapes is not in what it makes. *)
Lemma escape_lacks c s mode : shouldEscape c mode = true -> hex_val c = None -> c <> "%"%char -> lacks c (escape s mode).
Proof.
  intros Hc Hx Hp. induction s as [|a s IH]; [done|]. cbn [escape]. apply lacks_app. split; [|exact IH].
  destruct (shouldEscape a mode) eqn:Ha; [|by apply lacks_cons; split; [intros ->; rewrite Hc in Ha|]].
  destruct (nibbles a). unfold percent. repeat (apply lacks_cons; split); auto using upper_hex_not.
Qed.

Lemma validEncoded_lacks c s mode :
  shouldEscape c mode = true -> one_of c "!$&'()*+,;=:@[]%" = false -> validEncoded s mode = true -> lacks c s.
Proof.
  intros Hc Ho Hv. unfold validEncoded in Hv. rewrite forallb_forall in Hv. apply List.Forall_forall. intros a Ha ->.
  apply Hv in Ha. by rewrite Ho, Hc in Ha.
Qed.

(** The escaped path stands for the path, and holds neither of the separators that end it. *)
Lemma EscapedPath_spec u : unescape (EscapedPath u) = Some (u_Path u) /\ lacks "?" (EscapedPath u) /\ lacks "#" (EscapedPath u).
Proof.
  unfold EscapedPath. destruct (negb _ && validEncoded _ _ && _) eqn:E.
  - rewrite !andb_true_iff, bool_decide_eq_true in E. destruct E as [[_ Hv] Hu].
    split; [done|]. split; by apply (validEncoded_lacks _ _ encodePath).
  - clear E. case_bool_decide as Hs; [by rewrite Hs; repeat constructor|].
    split; [apply unescape_escape|]. split; by apply escape_lacks.
Qed.

Lemma authority_lacks c u :
  c = "?"%char \/ c = "#"%char \/ c = "/"%char -> lacks c (authority_text u).
Proof.
  intros Hc. unfold authority_text. apply lacks_app. split.
  - destruct (u_User u) as [[n [p|]]|]; [..|done]; unfold Userinfo_String; cbn [ui_username ui_password];
      repeat (apply lacks_app; split);
      try (apply escape_lacks; by destruct Hc as [->|[->| ->]]);
      by (apply lacks_cons; split; [destruct Hc as [->|[->| ->]]|]).
  - apply escape_lacks; by destruct Hc as [->|[->| ->]].
Qed.

(** *** The way to the server

    An absolute URL, as [url.Parse] makes it of a text [http://host...] or [https://host...]:
    its path is empty or starts with a slash, and so does the raw form of it. *)
Definition rooted (s : string) : Prop := s = EmptyString \/ HasPrefix s "/" = true.

Record absolute (u : URL) : Prop := mkAbsolute {
  abs_scheme : u_Scheme u = "http" \/ u_Scheme u = "https";
  abs_opaque : u_Opaque u = EmptyString;
  abs_host : u_Host u <> EmptyString;
  abs_raw : rooted (u_RawPath u)
}.

Lemma empty_spec s : empty s = true <-> s = EmptyString.
Proof. apply bool_decide_eq_true. Qed.

Lemma empty_false s : s <> EmptyString -> empty s = false.
Proof. intros H. by apply bool_decide_eq_false. Qed.

Lemma EscapedPath_rooted u :
  rooted (u_RawPath u) -> HasPrefix (u_Path u) "/" = true -> exists t, EscapedPath u = String "/" t.
Proof.
  intros Hr [p Hp]%HasPrefix_spec. unfold EscapedPath. destruct (negb _ && validEncoded _ _ && _) eqn:E.
  - rewrite !andb_true_iff, negb_true_iff in E. destruct E as [[He _] _]. apply bool_decide_eq_false in He.
    destruct Hr as [|[r ->]%HasPrefix_spec]; [done|]. by exists r.
  - clear E. rewrite Hp. by exists (escape p encodePath).
Qed.

(** Its text: scheme, authority, path, query, fragment. *)
Lemma url_String_absolute u :
  absolute u -> HasPrefix (u_Path u) "/" = true ->
  exists t rest, EscapedPath u = String "/" t
    /\ url_String u = u_Scheme u +:+ String ":" ("//" +:+ authority_text u +:+ String "/" t
         +:+ (if u_ForceQuery u || negb (empty (u_RawQuery u)) then String "?" (u_RawQuery u) else EmptyString) +:+ rest)
    /\ (rest = EmptyString \/ exists f, rest = String "#" f).
Proof.
  intros [Hs Ho Hh Hr] Hp. destruct (EscapedPath_rooted u Hr Hp) as [t Ht].
  exists t, (if empty (u_Fragment u) then EmptyString else String "#" (EscapedFragment u)). split; [done|]. split.
  - assert (empty (u_Scheme u) = false) as Hse by (destruct Hs as [-> | ->]; reflexivity).
    unfold url_String, hier_text. rewrite Ho, Ht, Hse, (empty_false _ Hh). cbn [andb orb negb].
    change (negb (empty EmptyString)) with false. cbv iota.
    destruct (u_OmitHost u); cbn [andb]; rewrite <- !string_app_assoc; by strs.
  - destruct (empty (u_Fragment u)); [by left|right; by eexists].
Qed.

Lemma cut_past c s t : lacks c s -> (cut c (s +:+ t)).1 = s +:+ (cut c t).1.
Proof.
  induction s as [|a s IH]; [done|]. intros [Ha Hs]%lacks_cons. rewrite cons_app. cbn [cut].
  destruct (Ascii.eqb_spec a c); [done|]. specialize (IH Hs). destruct (cut c (s +:+ t)) as [x y]. cbn [fst] in *. by rewrite IH.
Qed.

(** A fragment ends what is read, and a number sign before it does too. *)
Lemma cut_fragment s frag : frag = EmptyString \/ (exists f, frag = String "#" f) -> (cut "#" (s +:+ frag)).1 = (cut "#" s).1.
Proof.
  intros Hf. induction s as [|a s IH].
  - by destruct Hf as [->|[f ->]].
  - rewrite cons_app. cbn [cut]. destruct (Ascii.eqb a "#"); [done|].
    destruct (cut "#" (s +:+ frag)), (cut "#" s). cbn [fst] in *. by rewrite IH.
Qed.

(** What comes after the authority, parsed: the path, and the query up to a number sign. *)
Lemma parse_absolute_text scheme auth t q frag (force : bool) :
  lacks ":" scheme -> lacks "#" scheme -> lacks "/" auth -> lacks "?" auth -> lacks "#" auth ->
  lacks "?" t -> lacks "#" t -> (frag = EmptyString \/ exists f, frag = String "#" f) ->
  parse_absolute (scheme +:+ String ":" ("//" +:+ auth +:+ String "/" t
     +:+ (if force || negb (empty q) then String "?" q else EmptyString) +:+ frag))
  = path ← unescape (String "/" t); Some (path, String "/" t, (cut "#" q).1).
Proof.
  intros Hs1 Hs2 Ha1 Ha2 Ha3 Ht1 Ht2 Hf. unfold parse_absolute.
  set (query := if force || negb (empty q) then String "?" q else EmptyString).
  assert (lacks "#" (scheme +:+ String ":" ("//" +:+ auth +:+ String "/" t))) as Hfront.
  { repeat first [apply lacks_app; split | apply lacks_cons; split]; done. }
  replace (scheme +:+ String ":" ("//" +:+ auth +:+ String "/" t +:+ query +:+ frag))
    with ((scheme +:+ String ":" ("//" +:+ auth +:+ String "/" t)) +:+ (query +:+ frag))
    by (strs; rewrite <- !string_app_assoc; by strs; rewrite <- !string_app_assoc).
  rewrite cut_past, cut_fragment by done. rewrite <- string_app_assoc, cons_app, cut_at by done. cbn [snd].
  assert ((cut "#" query).1 = if force || negb (empty q) then String "?" (cut "#" q).1 else EmptyString) as ->.
  { unfold query. destruct (force || negb (empty q)); [|done]. cbn [cut]. by destruct (cut "#" q). }
  assert (cut "?" (("//" +:+ auth +:+ String "/" t) +:+ (if force || negb (empty q) then String "?" (cut "#" q).1 else EmptyString))
    = ("//" +:+ auth +:+ String "/" t, (cut "#" q).1)) as ->.
  { assert (lacks "?" ("//" +:+ auth +:+ String "/" t)) as Hq.
    { repeat first [apply lacks_app; split | apply lacks_cons; split]; done. }
    destruct (force || negb (empty q)) eqn:E; [by apply cut_at|]. rewrite string_app_nil_r, (cut_lacks _ _ Hq).
    apply orb_false_iff in E as [_ E%negb_false_iff%empty_spec]. by rewrite E. }
  rewrite strip_prefix_app. cbn [mbind option_bind]. by rewrite from_slash_app.
Qed.

Lemma parse_request_line path raw q :
  unescape raw = Some path -> raw <> EmptyString -> lacks "?" raw ->
  parse_request (request_line (path, raw, q)) = Some (path, q).
Proof.
  intros Hu Hr Hq. unfold request_line, parse_request.
  assert (exists target, (if bool_decide (raw = escape path encodePath) || negb (validEncoded raw encodePath) then escape path encodePath else raw) = target
    /\ unescape target = Some path /\ lacks "?" target /\ target <> EmptyString) as (target & -> & Ht & Hl & Hn).
  { eexists. split; [reflexivity|]. destruct (_ || _); [|done]. split; [apply unescape_escape|]. split; [by apply escape_lacks|].
    intros He. assert (path = EmptyString) as ->; [|by destruct raw as [|a raw]; [|cbn in Hu; repeat case_match; simplify_eq/=; destruct (unescape _)]].
    pose proof (unescape_escape path encodePath) as Hp. rewrite He in Hp. by injection Hp. }
  rewrite (empty_false _ Hn). destruct (empty q) eqn:Eq.
  - apply empty_spec in Eq as ->. rewrite string_app_nil_r, cut_lacks by done. by rewrite Ht.
  - change ("?" +:+ q) with (String "?" q). rewrite cut_at by done. by rewrite Ht.
Qed.

(** The server at the other end reads the path of the URL, whatever bytes it has, and the
    query up to a number sign: what follows that would be a fragment, which is not sent. *)
Theorem server_reads_String u :
  absolute u -> HasPrefix (u_Path u) "/" = true -> server_reads (url_String u) = Some (u_Path u, (cut "#" (u_RawQuery u)).1).
Proof.
  intros Ha Hp. destruct (url_String_absolute u Ha Hp) as (t & rest & Ht & -> & Hrest).
  destruct (EscapedPath_spec u) as (Hu & H1 & H2). rewrite Ht in Hu, H1, H2.
  pose proof (proj2 (proj1 (lacks_cons _ _ _) H1)) as T1. pose proof (proj2 (proj1 (lacks_cons _ _ _) H2)) as T2.
  unfold server_reads. rewrite parse_absolute_text; try (apply authority_lacks; tauto); try done.
  - rewrite Hu. cbn [mbind option_bind]. by apply parse_request_line.
  - destruct (abs_scheme _ Ha) as [-> | ->]; by repeat constructor.
  - destruct (abs_scheme _ Ha) as [-> | ->]; by repeat constructor.
Qed.

(** ** Evaluations *)

Example url_examples :
  let u := mkURL "https" EmptyString (Some (mkUserinfo "a:b" (Some "p/w"))) "[::1]:8443" "/api v1/%?#" "/api%20v1" false false "x=%2f&y" "top" EmptyString in
  url_String u = "https://a%3Ab:p%2Fw@[::1]:8443/api%20v1/%25%3F%23?x=%2f&y#top"
  /\ server_reads (url_String u) = Some ("/api v1/%?#", "x=%2f&y")
  /\ EscapedPath (mkURL "http" EmptyString None "h" "/a/b" "/a%2Fb" false false EmptyString EmptyString EmptyString) = "/a%2Fb".
Proof. vm_compute. by repeat split. Qed.
