(* ===== verification/HttpServe.v ===== *)
(** * How the program's HTTP servers run and stop

    Four functions serve HTTP the same way: cmd/watchtower's [runCmd], [Run] of
    internal/beacon/server, [Run] of the sentinel's OTLP relay and the sentinel's
    [runHealthServer]. Each starts a goroutine that waits for the context and calls
    [Shutdown] with a deadline, calls [Serve], and returns when [Serve] does. The model is
    the state machine of the two goroutines and the open requests; what it takes from
    net/http is what the package documents: [Shutdown] closes the listeners, at which
    [Serve] returns [ErrServerClosed] at once, and then waits for the open requests until
    its deadline. *)

From S2P Require Import Prelude GoStrings GoTime.

Local Open Scope Z_scope.

(** ** The four servers *)

(** The fields the program sets; zero is unset. [hs_drain] is the deadline of [Shutdown]. *)
Record http_server := mkHttpServer {
  hs_ReadHeaderTimeout : Duration;
  hs_ReadTimeout : Duration;
  hs_WriteTimeout : Duration;
  hs_IdleTimeout : Duration;
  hs_drain : Duration
}.

Definition wt_http_server : http_server := mkHttpServer (10 * Second) (120 * Second) (30 * Second) (120 * Second) (5 * Second).
Definition bc_http_server : http_server := mkHttpServer (10 * Second) (120 * Second) (30 * Second) (120 * Second) (5 * Second).
Definition relay_http_server : http_server := mkHttpServer (10 * Second) 0 0 0 (5 * Second).
Definition health_http_server : http_server := mkHttpServer 0 0 0 0 (3 * Second).

(** ** One run *)

(** Why [Serve] returned. *)
Inductive serve_end := ErrServerClosed | ErrServe (text : string).

#[export] Instance serve_end_eq_dec : EqDecision serve_end.
Proof. solve_decision. Defined.

(** [if err := Serve(lis); err != nil && !errors.Is(err, http.ErrServerClosed)]. *)
Definition serve_error (e : serve_end) : option string :=
  match e with ErrServerClosed => None | ErrServe text => Some text end.

(** [Run] of the beacon's server and of the relay: listening may fail first. *)
Definition bc_server_Run (bound : option string) (e : serve_end) : result unit string :=
  match bound with
  | Some text => Err ("noise listen: " +:+ text)
  | None => match serve_error e with Some text => Err ("serve: " +:+ text) | None => Ok tt end
  end.

Definition relay_Run (listenAddr : string) (bound : option string) (e : serve_end) : result unit string :=
  match bound with
  | Some text => Err ("listen " +:+ listenAddr +:+ ": " +:+ text)
  | None => match serve_error e with Some text => Err ("serve otlp: " +:+ text) | None => Ok tt end
  end.

(** Why [Shutdown] returned. *)
Inductive drain := NotCalled | Draining | Drained | TimedOut.

#[export] Instance drain_eq_dec : EqDecision drain.
Proof. solve_decision. Defined.

(** [lf_returned]: the function that called [Serve] has returned, with that result;
    [lf_open]: the requests being handled. *)
Record life := mkLife {
  lf_cancelled : bool;
  lf_returned : option serve_end;
  lf_drain : drain;
  lf_open : nat
}.

Definition life_start : life := mkLife false None NotCalled 0.

(** The scheduler's choices, and the network's. *)
Inductive life_event :=
| LeAccept | LeFinish | LeCancel
| LeShutdown | LeDrained | LeTimeout
| LeServeReturns | LeServeFails (text : string).

Definition life_step (l : life) (e : life_event) : option life :=
  let '(mkLife c r d n) := l in
  match e with
  | LeAccept => if bool_decide (r = None /\ d = NotCalled) then Some (mkLife c r d (S n)) else None
  | LeFinish => match n with S n' => Some (mkLife c r d n') | O => None end
  | LeCancel => Some (mkLife true r d n)
  (* the goroutine that waits for the context *)
  | LeShutdown => if c && bool_decide (d = NotCalled) then Some (mkLife c r Draining n) else None
  | LeDrained => if bool_decide (d = Draining) && Nat.eqb n 0 then Some (mkLife c r Drained n) else None
  | LeTimeout => if bool_decide (d = Draining) then Some (mkLife c r TimedOut n) else None
  (* the function that serves *)
  | LeServeReturns =>
      if bool_decide (r = None /\ d <> NotCalled) then Some (mkLife c (Some ErrServerClosed) d n) else None
  | LeServeFails text =>
      if bool_decide (r = None /\ d = NotCalled) then Some (mkLife c (Some (ErrServe text)) d n) else None
  end.

Fixpoint life_run (l : life) (evs : list life_event) : option life :=
  match evs with
  | [] => Some l
  | e :: evs' => l ← life_step l e; life_run l evs'
  end.

(** * Facts *)

(** What holds in every state a run reaches. *)
Record life_ok (l : life) : Prop := mkLifeOk {
  lo_shutdown : lf_drain l <> NotCalled -> lf_cancelled l = true;
  lo_closed : lf_returned l = Some ErrServerClosed -> lf_drain l <> NotCalled;
  lo_drained : lf_drain l = Drained -> lf_open l = 0%nat
}.

Lemma life_step_ok l e l' : life_ok l -> life_step l e = Some l' -> life_ok l'.
Proof.
  destruct l as [c r d n]. intros [H1 H2 H3] Hs. cbn in *.
  destruct e, c, d, r as [r|], n as [|n]; vm_compute in Hs; simplify_eq; constructor; naive_solver.
Qed.

Lemma life_run_ok l evs l' : life_ok l -> life_run l evs = Some l' -> life_ok l'.
Proof.
  revert l. induction evs as [|e evs IH]; intros l Hl Hr; [by simplify_eq/=|].
  cbn in Hr. apply bind_Some in Hr as (l1 & Hs & Hr). by eapply IH, Hr; eapply life_step_ok.
Qed.

Lemma life_start_ok : life_ok life_start.
Proof. by constructor. Qed.

(** The function never returns without an error before the context is cancelled. *)
Theorem returns_after_cancel evs l :
  life_run life_start evs = Some l -> lf_returned l = Some ErrServerClosed -> lf_cancelled l = true.
Proof.
  intros Hr Hret. destruct (life_run_ok _ _ _ life_start_ok Hr) as [H1 H2 _]. by apply H1, H2.
Qed.

(** Once [Shutdown] has been called no request is taken any more. *)
Theorem no_accept_after_shutdown l : lf_drain l <> NotCalled -> life_step l LeAccept = None.
Proof. destruct l as [c r d n]. cbn. intros H. case_bool_decide; [naive_solver|done]. Qed.

Lemma life_run_app l evs1 evs2 : life_run l (evs1 ++ evs2) = life_run l evs1 ≫= fun l => life_run l evs2.
Proof.
  revert l. induction evs1 as [|e evs1 IH]; intros l; [done|]. cbn. destruct (life_step l e) as [l1|]; cbn; [apply IH|done].
Qed.

Lemma life_run_accepts n k : life_run (mkLife false None NotCalled k) (repeat LeAccept n) = Some (mkLife false None NotCalled (n + k)).
Proof.
  revert k. induction n as [|n IH]; intros k; [done|]. cbn [repeat life_run].
  change (life_step _ LeAccept) with (Some (mkLife false None NotCalled (S k))). cbn [mbind option_bind].
  rewrite IH. do 2 f_equal. lia.
Qed.

(** The function does not wait for [Shutdown]: it may return, without an error, while
    any number of requests is still being handled and the drain has only begun. *)
Theorem returns_before_drained n :
  exists evs, life_run life_start evs = Some (mkLife true (Some ErrServerClosed) Draining n).
Proof.
  exists (repeat LeAccept n ++ [LeCancel; LeShutdown; LeServeReturns]).
  unfold life_start. by rewrite life_run_app, life_run_accepts, Nat.add_0_r.
Qed.

(** The deadline of [Shutdown] closes no request that is still open. *)
Theorem timeout_leaves_open l l' : life_step l LeTimeout = Some l' -> lf_open l' = lf_open l.
Proof. destruct l as [c r d n]. cbn. case_bool_decide; by intros [= <-]. Qed.

(** Nothing keeps the function from returning once the context is cancelled. *)
Theorem cancelled_can_return l :
  lf_cancelled l = true -> exists evs' l', life_run l evs' = Some l' /\ (length evs' <= 2)%nat /\ lf_returned l' <> None.
Proof.
  intros Hc. destruct l as [c r d n]. cbn in Hc. subst c. destruct r as [r|]; [exists [], (mkLife true (Some r) d n); split_and!; [done|cbn; lia|done]|].
  destruct (decide (d = NotCalled)) as [->|Hd].
  - exists [LeShutdown; LeServeReturns], (mkLife true (Some ErrServerClosed) Draining n). split_and!; [done|cbn; lia|done].
  - exists [LeServeReturns], (mkLife true (Some ErrServerClosed) d n). split_and!; [|cbn; lia|done].
    cbn. by rewrite bool_decide_eq_true_2.
Qed.
