(* ===== verification/GoDuration.v ===== *)
(** * Durations as text

    [time.ParseDuration] and the two users of the parser: the
    TOML wrapper of pkg/tomlutil and the retention settings of cmd/watchtower. Values are
    unsigned 64-bit in Go; the overflow checks keep each below 2^63 or at it, so that only
    the sum of two components can wrap. *)

From Stdlib Require Import Ascii.
From S2P Require Import Prelude GoStrings GoTime GoFloat.

Local Open Scope Z_scope.

Definition is_num (a : ascii) : bool :=
  match digit_val a with Some _ => true | None => Ascii.eqb a "." end.

(** [leadingInt]: [None] on overflow. *)
Fixpoint leading_int (s : bytes) (x : Z) : option (Z * bytes) :=
  match s with
  | a :: s' =>
      match digit_val a with
      | Some d =>
          if two63 / 10 <? x then None
          else let x := x * 10 + d in
               if two63 <? x then None else leading_int s' x
      | None => Some (x, s)
      end
  | [] => Some (x, [])
  end.

(** [leadingFraction]: the digits as an integer and the power of ten they are over; digits
    that would overflow are skipped. *)
Fixpoint leading_fraction (s : bytes) (x : Z) (scale : float64) (overflow : bool)
    : Z * float64 * bytes :=
  match s with
  | a :: s' =>
      match digit_val a with
      | Some d =>
          if overflow then leading_fraction s' x scale true
          else if max_int64 / 10 <? x then leading_fraction s' x scale true
          else let y := x * 10 + d in
               if two63 <? y then leading_fraction s' x scale true
               else leading_fraction s' y (f64_mul scale (f64_of_Z 10)) false
      | None => (x, scale, s)
      end
  | [] => (x, scale, [])
  end.

Fixpoint span_unit (s : bytes) : bytes * bytes :=
  match s with
  | a :: s' => if is_num a then ([], s) else let '(u, r) := span_unit s' in (a :: u, r)
  | [] => ([], [])
  end.

(** Both spellings of "microseconds": U+00B5 and U+03BC. *)
Definition micro1 : string := string_of_bytes (map byte_of [194; 181; 115]).
Definition micro2 : string := string_of_bytes (map byte_of [206; 188; 115]).

Definition unit_of (u : string) : option Z :=
  if bool_decide (u = "ns") then Some Nanosecond
  else if bool_decide (u = "us") then Some Microsecond
  else if bool_decide (u = micro1) then Some Microsecond
  else if bool_decide (u = micro2) then Some Microsecond
  else if bool_decide (u = "ms") then Some Millisecond
  else if bool_decide (u = "s") then Some Second
  else if bool_decide (u = "m") then Some Minute
  else if bool_decide (u = "h") then Some Hour
  else None.

(** One number with its unit: its value and the rest. *)
Definition parse_component (s : bytes) : option (Z * bytes) :=
  match s with
  | [] => None
  | a :: _ =>
      if negb (is_num a) then None else
      match leading_int s 0 with
      | None => None
      | Some (v, s1) =>
          let pre := negb (Nat.eqb (length s1) (length s)) in
          let '(f, scale, post, s2) :=
            match s1 with
            | b :: s1' =>
                if Ascii.eqb b "." then
                  let '(f, scale, r) := leading_fraction s1' 0 (f64_of_Z 1) false in
                  (f, scale, negb (Nat.eqb (length r) (length s1')), r)
                else (0, f64_of_Z 1, false, s1)
            | [] => (0, f64_of_Z 1, false, s1)
            end in
          if negb pre && negb post then None else
          let '(u, r) := span_unit s2 in
          match unit_of (string_of_bytes u) with
          | None => None
          | Some unit =>
              if two63 / unit <? v then None
              else
                let v := v * unit in
                let v := if 0 <? f then v + f64_trunc (f64_mul (f64_of_Z f) (f64_div (f64_of_Z unit) scale)) else v in
                if two63 <? v then None else Some (v, r)
          end
      end
  end.

(** Each component consumes at least one byte. *)
Fixpoint parse_components (fuel : nat) (s : bytes) (d : Z) : option Z :=
  match s with
  | [] => Some d
  | _ =>
      match fuel with
      | O => None
      | S f =>
          match parse_component s with
          | None => None
          | Some (v, r) =>
              let d := uwrap64 (d + v) in
              if two63 <? d then None else parse_components f r d
          end
      end
  end.

Definition ParseDuration (s : string) : option Duration :=
  let b := bytes_of_string s in
  let '(neg, b) := match b with
                   | a :: b' => if Ascii.eqb a "-" then (true, b')
                                else if Ascii.eqb a "+" then (false, b') else (false, b)
                   | [] => (false, b)
                   end in
  if bool_decide (string_of_bytes b = "0") then Some 0
  else match b with
       | [] => None
       | _ =>
           match parse_components (length b) b 0 with
           | None => None
           | Some d => if (neg : bool) then Some (- d) else if max_int64 <? d then None else Some d
           end
       end.

Example ParseDuration_examples :
  map ParseDuration ["0"; "3s"; "1h30m"; "-1.5h"; "100ms"; ".5s"; "2160h"; "1d"; ""; "5"; "1e3s";
                     "9223372036854775807ns"; "9223372036854775808ns"; "-9223372036854775808ns"; "0.3333333333333333333h"]
  = [Some 0; Some 3000000000; Some 5400000000000; Some (-5400000000000); Some 100000000; Some 500000000;
     Some 7776000000000000; None; None; None; None; Some max_int64; None; Some min_int64; Some 1200000000000].
Proof. vm_compute. reflexivity. Qed.

(** ** pkg/tomlutil *)

(** [UnmarshalText] sets the field only when the text parses. *)
Definition Duration_UnmarshalText (text : string) : option Duration := ParseDuration text.

(** ** cmd/watchtower: retention settings

    The second component says whether a warning is logged. *)

Definition parseLokiRetention (s : string) : Duration * bool :=
  if bool_decide (s = EmptyString) then (0, false)
  else match ParseDuration s with
       | Some d => (d, false)
       | None => (0, true)
       end.

Definition vm_mult (c : ascii) : option Duration :=
  if Ascii.eqb c "d" then Some (24 * Hour)
  else if Ascii.eqb c "w" then Some (7 * 24 * Hour)
  else if Ascii.eqb c "y" then Some (365 * 24 * Hour)
  else None.

Definition parseVMRetention (s : string) : Duration * bool :=
  if bool_decide (s = EmptyString) then (0, false)
  else
    let bare := match ParseInt s with
                | Some n => if 0 <? n then Some n else None
                | None => None
                end in
    match bare with
    | Some n => (wrap64 (wrap64 (wrap64 (n * 30) * 24) * Hour), false)
    | None =>
        let b := bytes_of_string s in
        let suffix := nth (length b - 1) b "000"%char in
        match vm_mult suffix with
        | Some mult =>
            match ParseInt (string_of_bytes (take (length b - 1) b)) with
            | Some n => if n <=? 0 then (0, true) else (wrap64 (n * mult), false)
            | None => (0, true)
            end
        | None =>
            match ParseDuration s with
            | Some d => (d, false)
            | None => (0, true)
            end
        end
    end.

Example parseVMRetention_examples :
  map parseVMRetention [""; "3"; "30d"; "2w"; "1y"; "720h"; "0d"; "x"; "-1"; "0"]
  = [(0, false); (90 * 24 * Hour, false); (30 * 24 * Hour, false); (14 * 24 * Hour, false);
     (365 * 24 * Hour, false); (720 * Hour, false); (0, true); (0, true); (0, true); (0, false)].
Proof. vm_compute. reflexivity. Qed.

(** * Properties *)

(** A number of months, days, weeks or years is read as what it says, as long as the
    duration has room for it. *)
Lemma parseVMRetention_months n :
  0 < n -> n * 30 * 24 * Hour <= max_int64 ->
  parseVMRetention (Itoa n) = (n * 30 * 24 * Hour, false).
Proof.
  intros Hn Hmax. assert (Hr : is_int64 n) by (unfold is_int64, min_int64, Hour, max_int64 in *; lia).
  unfold parseVMRetention. rewrite bool_decide_eq_false_2.
  2: { intros H. pose proof (ParseInt_Itoa n Hr) as Hp. by rewrite H in Hp. }
  rewrite ParseInt_Itoa by done. rewrite (proj2 (Z.ltb_lt 0 n) Hn).
  unfold Hour, max_int64 in *.
  rewrite (wrap64_id (n * 30)), (wrap64_id (n * 30 * 24)), wrap64_id
    by (unfold is_int64, min_int64, max_int64; lia). done.
Qed.

(** Beyond that, the multiplication wraps: a retention of 300 years of 365 days comes out
    negative and is published as such, without a warning from the parser. *)
Theorem parseVMRetention_overflow :
  parseVMRetention "300y" = (-8985944073709551616, false).
Proof. vm_compute. reflexivity. Qed.
