(* ===== verification/GoPath.v ===== *)
(** * Slash-separated paths: path/filepath on Unix

    [Clean], [Join] and [Dir] by components. Go cleans in one pass over the bytes; the
    pass keeps a stack of components, which is what [clean_step] works on. *)

From Stdlib Require Import Ascii.
From S2P Require Import Prelude GoStrings.

Local Open Scope Z_scope.

Definition slash : ascii := "/".

Definition is_rooted (p : string) : bool := HasPrefix p "/".

(** The stack holds the last component first. *)
Definition clean_step (rooted : bool) (st : list string) (w : string) : list string :=
  if bool_decide (w = EmptyString \/ w = ".") then st
  else if bool_decide (w = "..") then
    match st with
    | [] => if rooted then [] else [".."]
    | top :: st' => if bool_decide (top = "..") then ".." :: st else st'
    end
  else w :: st.

Definition clean_stack (rooted : bool) (l : list string) : list string := fold_left (clean_step rooted) l [].

(** An empty relative path is the current directory. *)
Definition render (rooted : bool) (l : list string) : string :=
  if rooted then "/" +:+ Join l "/"
  else match l with [] => "." | _ => Join l "/" end.

Definition path_Clean (p : string) : string :=
  render (is_rooted p) (rev (clean_stack (is_rooted p) (Split p slash))).

Fixpoint skip_empty (l : list string) : list string :=
  match l with
  | [] => []
  | w :: l' => if bool_decide (w = EmptyString) then skip_empty l' else l
  end.

Definition path_Join (elems : list string) : string :=
  match skip_empty elems with
  | [] => EmptyString
  | l => path_Clean (Join l "/")
  end.

(** All up to the last slash, cleaned. *)
Definition path_Dir (p : string) : string :=
  path_Clean (Join (removelast (Split p slash) ++ [EmptyString]) "/").

Example path_examples :
  map path_Clean [""; "/"; "a//b/./c/.."; "/../a"; "../../a/.."; "./a/"; "a/.."; "/a/../.."]
  = ["."; "/"; "a/b"; "/a"; "../.."; "a"; "."; "/"]
  /\ map path_Dir ["/usr/bin/gnoland"; "gnoland"; "/gnoland"; "a/b/"; ""] = ["/usr/bin"; "."; "/"; "a/b"; "."]
  /\ path_Join ["/var/lib/"; "gnoland-data"; "config.toml"] = "/var/lib/gnoland-data/config.toml"
  /\ path_Join ["."; "privkey"] = "privkey" /\ path_Join [""; ""] = "".
Proof. vm_compute. repeat split. Qed.

(** ** Facts *)

(** A component a file can have as its name. *)
Definition file_name (w : string) : Prop :=
  w <> EmptyString /\ w <> "." /\ w <> ".." /\ slash ∉ bytes_of_string w.

Lemma clean_step_name rooted st w : file_name w -> clean_step rooted st w = w :: st.
Proof. intros (H1 & H2 & H3 & _). unfold clean_step. by rewrite !bool_decide_eq_false_2 by naive_solver. Qed.

Lemma Split_app s t c : Split (s +:+ String c t) c = Split s c ++ Split t c.
Proof.
  induction s as [|a s IH].
  - change (EmptyString +:+ String c t) with (String c t). cbn [Split]. by rewrite Ascii.eqb_refl.
  - change (String a s +:+ String c t) with (String a (s +:+ String c t)). cbn [Split]. rewrite IH.
    destruct (Ascii.eqb a c); [done|]. by destruct (Split s c) as [|w ws] eqn:E; [destruct (Split_not_nil s c)|].
Qed.

Lemma Join_snoc l w sep : Join (l ++ [w]) sep = foldr (fun x s => x +:+ sep +:+ s) w l.
Proof.
  induction l as [|x l IH]; [done|]. cbn [foldr]. rewrite <- IH. by destruct l.
Qed.

Lemma foldr_sep_inj l sep a b :
  foldr (fun x s => x +:+ sep +:+ s) a l = foldr (fun x s => x +:+ sep +:+ s) b l -> a = b.
Proof. induction l as [|x l IH]; [done|]. intros H%string_app_inv_l%string_app_inv_l. by apply IH. Qed.

Lemma render_snoc_inj rooted l a b : render rooted (l ++ [a]) = render rooted (l ++ [b]) -> a = b.
Proof.
  unfold render. destruct rooted.
  - intros H%string_app_inv_l. rewrite !Join_snoc in H. by apply foldr_sep_inj in H.
  - assert (forall w, match l ++ [w] with [] => "." | _ => Join (l ++ [w]) "/" end = Join (l ++ [w]) "/") as Hm by (by destruct l).
    rewrite !Hm, !Join_snoc. apply foldr_sep_inj.
Qed.

Lemma is_rooted_app d t : d <> EmptyString -> is_rooted (d +:+ t) = is_rooted d.
Proof. destruct d as [|a d]; [done|]. intros _. change (String a d +:+ t) with (String a (d +:+ t)).
  unfold is_rooted, HasPrefix. cbn [strip_prefix]. by destruct (Ascii.eqb "/" a). Qed.

(** The path of a file in a directory: one more component. *)
Lemma path_Join_file dir name :
  file_name name ->
  path_Join [dir; name]
  = if bool_decide (dir = EmptyString) then name
    else render (is_rooted dir) (rev (clean_stack (is_rooted dir) (Split dir slash)) ++ [name]).
Proof.
  intros Hn. assert (bool_decide (name = EmptyString) = false) as Hne by (apply bool_decide_eq_false_2, Hn).
  unfold path_Join. cbn [skip_empty]. rewrite Hne. clear Hne. case_bool_decide as Hd.
  - cbn [Join]. unfold path_Clean. rewrite Split_none by apply Hn.
    assert (is_rooted name = false) as ->.
    { destruct Hn as (_ & _ & _ & Hs). unfold is_rooted, HasPrefix. destruct name as [|a name]; [done|]. cbn [strip_prefix].
      destruct (Ascii.eqb "/" a) eqn:E; [|done]. apply Ascii.eqb_eq in E as <-. exfalso. apply Hs. by left. }
    unfold clean_stack. cbn [fold_left rev app]. by rewrite clean_step_name.
  - change (Join [dir; name] "/") with (dir +:+ String slash name). unfold path_Clean.
    rewrite is_rooted_app, Split_app, (Split_none name) by (done || apply Hn).
    unfold clean_stack. rewrite fold_left_app. cbn [fold_left]. by rewrite clean_step_name.
Qed.

Lemma path_Join_file_inj dir a b :
  file_name a -> file_name b -> path_Join [dir; a] = path_Join [dir; b] -> a = b.
Proof.
  intros Ha Hb. rewrite !path_Join_file by done. case_bool_decide; [done|]. apply render_snoc_inj.
Qed.

(** *** Normal forms

    What the stack of a cleaned path looks like: names, above the [..] of a relative path
    that leads out. *)
Definition normal (rooted : bool) (st : list string) : Prop :=
  exists names k, st = names ++ repeat ".." k /\ Forall file_name names /\ (rooted = true -> k = 0%nat).

Lemma clean_step_normal rooted st w :
  normal rooted st -> slash ∉ bytes_of_string w -> normal rooted (clean_step rooted st w).
Proof.
  intros (names & k & -> & Hn & Hk) Hw. unfold clean_step. case_bool_decide as H1; [by exists names, k|].
  case_bool_decide as H2; [|exists (w :: names), k; repeat split; [constructor; [|done]|done]; split_and!; naive_solver].
  destruct names as [|top names]; cbn [app].
  - destruct k as [|k]; cbn [repeat].
    + destruct rooted; [by exists [], 0%nat|exists [], 1%nat; split_and!; [done|constructor|intros [=]]].
    + rewrite bool_decide_eq_true_2 by done. exists [], (S (S k)). split_and!; [done|constructor|]. intros Hr. by specialize (Hk Hr).
  - apply Forall_cons_iff in Hn as [Ht Hn]. rewrite bool_decide_eq_false_2 by apply Ht. by exists names, k.
Qed.

Lemma clean_stack_normal rooted l :
  Forall (fun w => slash ∉ bytes_of_string w) l -> normal rooted (clean_stack rooted l).
Proof.
  unfold clean_stack. assert (normal rooted []) as H0 by (by exists [], 0%nat). revert H0. generalize (@nil string).
  induction l as [|w l IH]; intros st Hst Hl; [done|]. apply Forall_cons_iff in Hl as [Hw Hl]. cbn [fold_left].
  apply IH; [by apply clean_step_normal|done].
Qed.

Lemma clean_stack_app rooted l1 l2 :
  clean_stack rooted (l1 ++ l2) = fold_left (clean_step rooted) l2 (clean_stack rooted l1).
Proof. apply fold_left_app. Qed.

(** Cleaning what is clean. *)
Lemma clean_stack_rev rooted st : normal rooted st -> clean_stack rooted (rev st) = st.
Proof.
  intros (names & k & -> & Hn & Hk). rewrite rev_app_distr, clean_stack_app.
  assert (clean_stack rooted (rev (repeat ".." k)) = repeat ".." k) as ->.
  { destruct rooted; [by rewrite Hk|]. clear Hk. induction k as [|k IH]; [done|]. cbn [repeat rev].
    rewrite clean_stack_app, IH. cbn [fold_left]. by destruct k. }
  induction names as [|w names IH]; [done|]. apply Forall_cons_iff in Hn as [Hw Hn]. cbn [rev app].
  rewrite fold_left_app, IH by done. by apply clean_step_name.
Qed.

Lemma normal_components rooted st :
  normal rooted st -> Forall (fun w => w <> EmptyString /\ slash ∉ bytes_of_string w) st.
Proof.
  intros (names & k & -> & Hn & _). apply Forall_app. split.
  - revert Hn. apply List.Forall_impl. intros w (? & _ & _ & ?). done.
  - apply list.Forall_forall. intros w Hin%list_elem_of_In%repeat_spec. subst w. split; [done|]. apply (bool_decide_eq_true_1 _). by vm_compute.
Qed.

Lemma is_rooted_Join l : Forall (fun w => w <> EmptyString /\ slash ∉ bytes_of_string w) l -> is_rooted (Join l "/") = false.
Proof.
  destruct l as [|w l]; [done|]. intros [[Hw Hs] _]%Forall_cons_iff.
  assert (is_rooted w = false) as Hr.
  { unfold is_rooted, HasPrefix. destruct w as [|a w]; [done|]. cbn [strip_prefix].
    destruct (Ascii.eqb "/" a) eqn:E; [|done]. apply Ascii.eqb_eq in E as <-. exfalso. apply Hs. by left. }
  destruct l as [|w2 l]; [done|]. rewrite Join_cons_cons. by rewrite is_rooted_app.
Qed.

(** The components of a path that [render] built, with an empty one in front of a rooted
    path. *)
Definition root_part (rooted : bool) : list string := if rooted then [EmptyString] else [].

Lemma Split_components rooted l :
  Forall (fun w => w <> EmptyString /\ slash ∉ bytes_of_string w) l -> l <> [] ->
  let p := Join (root_part rooted ++ l) "/" in
  is_rooted p = rooted /\ Split p slash = root_part rooted ++ l.
Proof.
  intros Hl Hne p. split.
  - destruct rooted; cbn [root_part app] in p; [|by apply is_rooted_Join]. by destruct l.
  - apply Split_Join; [by destruct rooted, l|]. apply Forall_app. split.
    + destruct rooted; constructor; [apply not_elem_of_nil|constructor].
    + revert Hl. apply List.Forall_impl. by intros w [_ ?].
Qed.

Lemma render_components rooted l : l <> [] -> render rooted l = Join (root_part rooted ++ l) "/".
Proof. destruct rooted, l; done. Qed.

Lemma clean_stack_root rooted l : clean_stack rooted (root_part rooted ++ l) = clean_stack rooted l.
Proof. by destruct rooted. Qed.

Lemma Clean_render rooted st : normal rooted st -> path_Clean (render rooted (rev st)) = render rooted (rev st).
Proof.
  intros Hn. destruct (decide (rev st = [])) as [->|Hne]; [by destruct rooted|].
  destruct (Split_components rooted (rev st)) as [H1 H2]; [by eapply Forall_rev, normal_components|done|].
  cbv zeta in H1, H2. rewrite <- render_components in H1, H2 by done. unfold path_Clean. rewrite H1, H2, clean_stack_root.
  by rewrite clean_stack_rev.
Qed.

Theorem Clean_idempotent p : path_Clean (path_Clean p) = path_Clean p.
Proof. apply Clean_render, clean_stack_normal, Split_no_sep. Qed.

Lemma Dir_render rooted st w : normal rooted st -> file_name w -> path_Dir (render rooted (rev st ++ [w])) = render rooted (rev st).
Proof.
  intros Hn Hw. pose proof (normal_components _ _ Hn) as Hc%Forall_rev. unfold path_Dir. rewrite render_components by (by destruct (rev st)).
  destruct (Split_components rooted (rev st ++ [w])) as [_ ->]; [|by destruct (rev st)|].
  { apply Forall_app. split; [done|]. constructor; [split; apply Hw|constructor]. }
  rewrite app_assoc, removelast_last. unfold path_Clean.
  assert (Split (Join ((root_part rooted ++ rev st) ++ [EmptyString]) "/") slash = (root_part rooted ++ rev st) ++ [EmptyString]) as ->.
  { apply Split_Join; [by destruct (root_part rooted ++ rev st)|]. rewrite !Forall_app. split_and!.
    - destruct rooted; constructor; [apply not_elem_of_nil|constructor].
    - revert Hc. apply List.Forall_impl. by intros ? [_ ?].
    - constructor; [apply not_elem_of_nil|constructor]. }
  assert (is_rooted (Join ((root_part rooted ++ rev st) ++ [EmptyString]) "/") = rooted) as ->.
  { destruct rooted; [cbn; by destruct (rev st)|]. cbn [root_part app]. destruct (rev st) as [|w1 l] eqn:E; [done|].
    apply Forall_cons_iff in Hc as [[Hw1 Hs1] _].
    assert (is_rooted (Join ((w1 :: l) ++ [EmptyString]) "/") = is_rooted w1) as ->.
    { cbn [app]. destruct (l ++ [EmptyString]) as [|x y] eqn:E2; [by destruct l|]. rewrite Join_cons_cons. by apply is_rooted_app. }
    apply (is_rooted_Join [w1]). by constructor. }
  rewrite clean_stack_app, clean_stack_root, clean_stack_rev by done. done.
Qed.

(** A file in a directory: its path is clean, and its directory is the directory. *)
Theorem path_Join_in dir name :
  file_name name -> dir <> EmptyString ->
  path_Clean (path_Join [dir; name]) = path_Join [dir; name] /\ path_Dir (path_Join [dir; name]) = path_Clean dir.
Proof.
  intros Hn Hd. rewrite path_Join_file, bool_decide_eq_false_2 by done.
  set (st := clean_stack (is_rooted dir) (Split dir slash)).
  assert (normal (is_rooted dir) st) as Hst by apply clean_stack_normal, Split_no_sep. split.
  - change (rev st ++ [name]) with (rev (name :: st)). apply Clean_render.
    destruct Hst as (names & k & E & H1 & H2). exists (name :: names), k. rewrite E. split_and!; [done|by constructor|done].
  - by apply Dir_render.
Qed.
