(* ===== verification/Console.v ===== *)
(** * pkg/termstyle and pkg/version: what the commands print

    The status lines of the doctors and the build version. Whether standard output is a
    terminal, the environment and the build information are arguments. *)

From Stdlib Require Import Ascii.
From S2P Require Import Prelude GoStrings.

Local Open Scope Z_scope.

(** ** Formatting verbs *)

Definition spaces (n : nat) : string := string_of_bytes (repeat " "%char n).

(** [%-<n>s]: the width counts runes; a longer text is not cut. *)
Definition pad_right (n : nat) (s : string) : string := s +:+ spaces (n - length (runes s)).

Definition newline_text : string := String "010" EmptyString.

(** [fmt.Fprintln]. *)
Definition println (s : string) : string := s +:+ newline_text.

(** ** pkg/termstyle *)

Definition ansi (code : string) : string := String "027" ("[" +:+ code +:+ "m").
Definition ts_Green : string := ansi "32".
Definition ts_Red : string := ansi "31".
Definition ts_Yellow : string := ansi "33".
Definition ts_Dim : string := ansi "2".
Definition ts_Reset : string := ansi "0".

Definition ts_SymOK : string := "✔".
Definition ts_SymFail : string := "✘".
Definition ts_SymOff : string := "○".
Definition ts_SymSkip : string := "~".

(** [NO_COLOR] counts even when it is set to nothing. *)
Definition computeColorsEnabled (no_color : option string) (stdout_is_terminal : bool) : bool :=
  match no_color with
  | Some _ => false
  | None => stdout_is_terminal
  end.

(** [c]; [on] is the cached [colorsEnabled]. *)
Definition colored (on : bool) (color s : string) : string :=
  if on then color +:+ s +:+ ts_Reset else s.

Definition ts_OK (on : bool) (label detail : string) : string :=
  "  " +:+ colored on ts_Green ts_SymOK +:+ " " +:+ pad_right 20 label +:+ " " +:+ detail.

Definition ts_Fail (on : bool) (label detail : string) : string :=
  "  " +:+ colored on ts_Red ts_SymFail +:+ " " +:+ pad_right 20 label +:+ " " +:+ detail.

Definition ts_Off (on : bool) (label detail : string) : string :=
  "  " +:+ colored on ts_Yellow ts_SymOff +:+ " " +:+ pad_right 20 label +:+ " " +:+ detail.

(** The only one that wraps the whole line. *)
Definition ts_Skip (on : bool) (label detail : string) : string :=
  if negb on then "  " +:+ ts_SymSkip +:+ " " +:+ pad_right 20 label +:+ " " +:+ detail
  else "  " +:+ ts_Dim +:+ ts_SymSkip +:+ " " +:+ pad_right 20 label +:+ " " +:+ detail +:+ ts_Reset.

Definition ts_SubOK (on : bool) (label detail : string) : string :=
  "    " +:+ colored on ts_Green ts_SymOK +:+ " " +:+ pad_right 18 label +:+ " " +:+ detail.

Definition ts_SubFail (on : bool) (label detail : string) : string :=
  "    " +:+ colored on ts_Red ts_SymFail +:+ " " +:+ pad_right 18 label +:+ " " +:+ detail.

(** ** pkg/version *)

Record vn_Info := mkVnInfo { vn_Version : string; vn_Commit : string; vn_Built : string; vn_GoVer : string }.

(** What [debug.ReadBuildInfo] reports: the main module's version and the settings, in
    order. *)
Record BuildInfo := mkBuildInfo { bi_MainVersion : string; bi_Settings : list (string * string) }.

Definition is_nil (s : string) : bool := bool_decide (s = EmptyString).

(** The loop over the settings: a field that has a value keeps it. *)
Definition apply_setting (i : vn_Info) (s : string * string) : vn_Info :=
  if bool_decide (s.1 = "vcs.revision") then
    mkVnInfo (vn_Version i) (if is_nil (vn_Commit i) then s.2 else vn_Commit i) (vn_Built i) (vn_GoVer i)
  else if bool_decide (s.1 = "vcs.time") then
    mkVnInfo (vn_Version i) (vn_Commit i) (if is_nil (vn_Built i) then s.2 else vn_Built i) (vn_GoVer i)
  else i.

(** [ld] are the variables of the package, set by the linker or empty. *)
Definition Resolve (ldVersion ldCommit ldBuilt goVer : string) (bi : option BuildInfo) : vn_Info :=
  match bi with
  | None => mkVnInfo (if is_nil ldVersion then "dev" else ldVersion) ldCommit ldBuilt goVer
  | Some b =>
      let version :=
        if is_nil ldVersion then
          let v := bi_MainVersion b in
          if negb (is_nil v) && negb (bool_decide (v = "(devel)")) then v else "dev"
        else ldVersion in
      fold_left apply_setting (bi_Settings b) (mkVnInfo version ldCommit ldBuilt goVer)
  end.

Definition vn_Short (i : vn_Info) : string := vn_Version i.

Definition vn_Long (i : vn_Info) : string :=
  let out := "  version:  " +:+ vn_Version i +:+ newline_text in
  let out := if is_nil (vn_Commit i) then out else out +:+ ("  commit:   " +:+ vn_Commit i +:+ newline_text) in
  let out := if is_nil (vn_Built i) then out else out +:+ ("  built:    " +:+ vn_Built i +:+ newline_text) in
  out +:+ ("  go:       " +:+ vn_GoVer i +:+ newline_text).

(** ** Facts *)

Lemma spaces_length n : String.length (spaces n) = n.
Proof. unfold spaces. by rewrite <- bytes_of_string_length, bytes_of_string_of_bytes, repeat_length. Qed.

Section Resolve.
(** The first value of a setting that is not empty. *)
Definition first_setting (k : string) (l : list (string * string)) : string :=
  match List.find (fun s => bool_decide (s.1 = k) && negb (is_nil s.2)) l with
  | Some s => s.2
  | None => EmptyString
  end.

Definition or_else (s t : string) : string := if is_nil s then t else s.

Lemma or_else_nil_r s : or_else s EmptyString = s.
Proof. unfold or_else, is_nil. by case_bool_decide; subst. Qed.

Lemma or_else_assoc s t u : or_else (or_else s t) u = or_else s (or_else t u).
Proof. unfold or_else, is_nil. by repeat case_bool_decide. Qed.

Lemma first_setting_cons k s l :
  first_setting k (s :: l) =
    if bool_decide (s.1 = k) then or_else s.2 (first_setting k l) else first_setting k l.
Proof.
  unfold first_setting, or_else. cbn [List.find]. destruct (bool_decide (s.1 = k)); [|done].
  by destruct (is_nil s.2).
Qed.

Lemma apply_settings l i :
  fold_left apply_setting l i =
    mkVnInfo (vn_Version i) (or_else (vn_Commit i) (first_setting "vcs.revision" l))
      (or_else (vn_Built i) (first_setting "vcs.time" l)) (vn_GoVer i).
Proof.
  revert i. induction l as [|s l IH]; intros i; cbn [fold_left].
  - unfold first_setting. cbn [List.find]. rewrite !or_else_nil_r. by destruct i.
  - rewrite IH, !first_setting_cons. unfold apply_setting.
    destruct (bool_decide (s.1 = "vcs.revision")) eqn:Hr; cbn [vn_Version vn_Commit vn_Built vn_GoVer].
    + apply bool_decide_eq_true_1 in Hr. rewrite Hr. cbn [bool_decide].
      rewrite (bool_decide_eq_false_2 ("vcs.revision" = "vcs.time")) by done.
      fold (or_else (vn_Commit i) s.2). by rewrite or_else_assoc.
    + destruct (bool_decide (s.1 = "vcs.time")); cbn [vn_Version vn_Commit vn_Built vn_GoVer]; [|done].
      fold (or_else (vn_Built i) s.2). by rewrite or_else_assoc.
Qed.

(** Values set by the linker win; else the build information; a version is always
    reported. *)
Theorem Resolve_spec lv lc lb go bi :
  Resolve lv lc lb go bi =
    let settings := match bi with Some b => bi_Settings b | None => [] end in
    let main := match bi with
                | Some b => if bool_decide (bi_MainVersion b = "(devel)") then EmptyString else bi_MainVersion b
                | None => EmptyString
                end in
    mkVnInfo (or_else lv (or_else main "dev")) (or_else lc (first_setting "vcs.revision" settings))
      (or_else lb (first_setting "vcs.time" settings)) go.
Proof.
  unfold Resolve. destruct bi as [b|]; cbn zeta.
  - rewrite apply_settings. cbn [vn_Version vn_Commit vn_Built vn_GoVer]. f_equal.
    unfold or_else, is_nil. by repeat case_bool_decide; try congruence.
  - unfold first_setting. cbn [List.find]. rewrite !or_else_nil_r. f_equal.
Qed.

Theorem Short_not_nil lv lc lb go bi : vn_Short (Resolve lv lc lb go bi) <> EmptyString.
Proof.
  rewrite Resolve_spec. cbn [vn_Short vn_Version]. unfold or_else, is_nil.
  by repeat case_bool_decide.
Qed.

End Resolve.

Example Long_example :
  vn_Long (Resolve EmptyString EmptyString EmptyString "go1.25.0"
    (Some (mkBuildInfo "v0.3.1" [("vcs", "git"); ("vcs.revision", "abc")]))) =
  println "  version:  v0.3.1" +:+ println "  commit:   abc" +:+ println "  go:       go1.25.0".
Proof. reflexivity. Qed.

Example OK_example :
  ts_OK false "Logs" "fine" = "  ✔ Logs                 fine"
  /\ ts_Fail true "é" "x" = "  " +:+ ts_Red +:+ "✘" +:+ ts_Reset +:+ " é                    x".
Proof. split; vm_compute; reflexivity. Qed.
