(* ===== verification/GoFlag.v ===== *)
(** * Command lines: the flag package

    [flag.FlagSet] as the program uses it: string and boolean flags, parsed with
    [ExitOnError]. [Parse] is structural on the arguments. The values are kept under the
    names of the flags; what is not a flag, or follows the first argument that is none, is
    left as the positional arguments. *)

From Stdlib Require Import Ascii.
From S2P Require Import Prelude GoStrings.

Local Open Scope Z_scope.

(** [strconv.ParseBool]. *)
Definition ParseBool (s : string) : option bool :=
  if bool_decide (s ∈ ["1"; "t"; "T"; "TRUE"; "true"; "True"]) then Some true
  else if bool_decide (s ∈ ["0"; "f"; "F"; "FALSE"; "false"; "False"]) then Some false
  else None.

(** The kinds of flag with the values they hold. *)
Inductive flag_value := FString (s : string) | FBool (b : bool).

#[export] Instance flag_value_eq_dec : EqDecision flag_value.
Proof. solve_decision. Defined.

Definition flags := gmap string flag_value.

Inductive flag_error :=
| ErrHelp
| ErrBadSyntax (arg : string)
| ErrUndefined (name : string)
| ErrBadBool (value name : string)
| ErrNeedsArgument (name : string).

(** The first [=] of a name that is not its first byte. *)
Fixpoint cut_equals (s : string) : string * option string :=
  match s with
  | EmptyString => (EmptyString, None)
  | String c s' =>
      if Ascii.eqb c "=" then (EmptyString, Some s')
      else let '(n, v) := cut_equals s' in (String c n, v)
  end.

(** How [parseOne] reads one argument. *)
Inductive arg_kind := NotFlag | Terminator | BadSyntax | IsFlag (name : string) (value : option string).

Definition name_kind (name : string) : arg_kind :=
  match name with
  | EmptyString => BadSyntax
  | String c name' =>
      if Ascii.eqb c "-" || Ascii.eqb c "=" then BadSyntax
      else let '(n, v) := cut_equals name' in IsFlag (String c n) v
  end.

Definition classify (s : string) : arg_kind :=
  match s with
  | String "-" (String "-" EmptyString) => Terminator
  | String "-" (String "-" name) => name_kind name
  | String "-" (String c name) => name_kind (String c name)
  | _ => NotFlag
  end.

Definition undefined (name : string) : flag_error :=
  if bool_decide (name = "help" \/ name = "h") then ErrHelp else ErrUndefined name.

(** [Parse]: the flags with what was set, and the positional arguments. *)
Fixpoint flag_parse (fl : flags) (args : list string) : result (flags * list string) flag_error :=
  match args with
  | [] => Ok (fl, [])
  | s :: rest =>
      match classify s with
      | NotFlag => Ok (fl, s :: rest)
      | Terminator => Ok (fl, rest)
      | BadSyntax => Err (ErrBadSyntax s)
      | IsFlag name value =>
          match fl !! name with
          | None => Err (undefined name)
          | Some (FBool _) =>
              match ParseBool (default "true" value) with
              | Some b => flag_parse (<[name := FBool b]> fl) rest
              | None => Err (ErrBadBool (default EmptyString value) name)
              end
          | Some (FString _) =>
              match value, rest with
              | Some v, _ => flag_parse (<[name := FString v]> fl) rest
              | None, v :: rest' => flag_parse (<[name := FString v]> fl) rest'
              | None, [] => Err (ErrNeedsArgument name)
              end
          end
      end
  end.

(** What [ExitOnError] exits with. *)
Definition flag_exit (e : flag_error) : Z := match e with ErrHelp => 0 | _ => 2 end.

(** The values the pointers returned by [fs.String] and [fs.Bool] show. *)
Definition get_string (fl : flags) (name : string) : string :=
  match fl !! name with Some (FString s) => s | _ => EmptyString end.
Definition get_bool (fl : flags) (name : string) : bool :=
  match fl !! name with Some (FBool b) => b | _ => false end.

Definition run_flags : flags := {["log-format" := FString "console"; "log-level" := FString "info"]}.

Example flag_parse_examples :
  let shown r := match r with
                 | Ok (fl, args) => Ok (get_string fl "log-format", get_string fl "log-level", args)
                 | Err e => Err e
                 end in
  map (fun a => shown (flag_parse run_flags a))
    [["c.toml"]; ["--log-level=debug"; "c.toml"]; ["-log-level"; "debug"; "c.toml"; "-x"]; ["--"; "-log-level"];
     ["c.toml"; "--log-level=debug"]; ["-log-format=a=b"]; ["-"]; ["--log-level"]; ["-help"]; ["---x"]; ["-=v"]; ["-v"]]
  = [Ok ("console", "info", ["c.toml"]); Ok ("console", "debug", ["c.toml"]); Ok ("console", "debug", ["c.toml"; "-x"]);
     Ok ("console", "info", ["-log-level"]); Ok ("console", "info", ["c.toml"; "--log-level=debug"]);
     Ok ("a=b", "info", []); Ok ("console", "info", ["-"]); Err (ErrNeedsArgument "log-level"); Err ErrHelp;
     Err (ErrBadSyntax "---x"); Err (ErrBadSyntax "-=v"); Err (ErrUndefined "v")].
Proof. vm_compute. reflexivity. Qed.

(** ** Facts *)

(** A name a flag can be given by. *)
Definition flag_name (name : string) : Prop :=
  match name with
  | EmptyString => False
  | String c rest => c <> "-"%char /\ c <> "="%char /\ (cut_equals rest).2 = None
  end.

Lemma cut_equals_None s : (cut_equals s).2 = None -> cut_equals s = (s, None).
Proof.
  induction s as [|c s IH]; [done|]. cbn. destruct (Ascii.eqb c "="); [done|].
  destruct (cut_equals s) as [n v]. cbn in *. intros ->. by injection (IH eq_refl) as ->.
Qed.

Lemma cut_equals_value s v : (cut_equals s).2 = None -> cut_equals (s +:+ String "=" v) = (s, Some v).
Proof.
  induction s as [|c s IH]; [done|]. change (String c s +:+ String "=" v) with (String c (s +:+ String "=" v)).
  cbn [cut_equals]. destruct (Ascii.eqb c "="); [done|]. intros H.
  assert ((cut_equals s).2 = None) as Hs by (by destruct (cut_equals s)).
  by rewrite (IH Hs).
Qed.

Lemma name_kind_value name v : flag_name name -> name_kind (name +:+ String "=" v) = IsFlag name (Some v).
Proof.
  destruct name as [|c rest]; [done|]. intros (H1 & H2 & H3).
  change (String c rest +:+ String "=" v) with (String c (rest +:+ String "=" v)). cbn [name_kind].
  rewrite (proj2 (Ascii.eqb_neq _ _) H1), (proj2 (Ascii.eqb_neq _ _) H2). cbn. by rewrite cut_equals_value.
Qed.

Lemma classify_double name v :
  flag_name name -> classify ("--" +:+ name +:+ String "=" v) = IsFlag name (Some v).
Proof.
  intros Hn. rewrite <- (name_kind_value name v) by done. destruct name as [|c rest]; [done|]. reflexivity.
Qed.

(** The flags given as [--name=value] before the positional arguments set exactly those
    values, whatever the values and the arguments are, as long as the first argument does
    not look like a flag itself. *)
Definition spell (nv : string * string) : string := "--" +:+ nv.1 +:+ String "=" nv.2.

Definition set_flags (fl : flags) (sets : list (string * string)) : flags :=
  fold_left (fun fl nv => <[nv.1 := FString nv.2]> fl) sets fl.

Definition string_flag (fl : flags) (name : string) : Prop := exists s, fl !! name = Some (FString s).

Theorem flag_parse_spelled fl sets args :
  Forall (fun nv => flag_name nv.1 /\ string_flag fl nv.1) sets ->
  match args with [] => True | a :: _ => classify a = NotFlag end ->
  flag_parse fl (map spell sets ++ args) = Ok (set_flags fl sets, args).
Proof.
  intros Hs Ha. revert fl Hs. induction sets as [|[n v] sets IH]; intros fl Hs; cbn [map app set_flags fold_left].
  - destruct args as [|a args]; [done|]. cbn. by rewrite Ha.
  - apply Forall_cons_iff in Hs as [[Hn [s Hf]] Hs]. cbn [flag_parse]. change (spell (n, v)) with ("--" +:+ n +:+ String "=" v). rewrite (classify_double n v) by done.
    cbn [fst snd] in *. rewrite Hf. apply IH. revert Hs. apply List.Forall_impl. intros [n' v'] [H1 [s' H2]]. split; [done|].
    cbn in *. destruct (decide (n = n')) as [<-|Hne]; [exists v; apply lookup_insert_eq|exists s'].
    etransitivity; [by apply lookup_insert_ne|done].
Qed.

(** What looks like a flag behind a positional argument is never read as one. *)
Theorem flags_after_argument fl a args : classify a = NotFlag -> flag_parse fl (a :: args) = Ok (fl, a :: args).
Proof. intros H. cbn. by rewrite H. Qed.
