(* ===== verification/Logger.v ===== *)
(** * pkg/logger

    Log levels, the choice of the output handler, and the rewriting of attribute keys into
    names the systemd journal accepts. The journal handler itself is a library object: it
    enters [logger_New] as the argument that builds it. *)

From S2P Require Import Prelude GoStrings.
From Stdlib Require Import Ascii.

Local Open Scope Z_scope.

(** ** Levels *)

(** The values of the [slog] level constants. *)
Inductive slog_level := LevelDebug | LevelInfo | LevelWarn | LevelError.

Definition slog_value (l : slog_level) : Z :=
  match l with LevelDebug => -4 | LevelInfo => 0 | LevelWarn => 4 | LevelError => 8 end.

#[export] Instance slog_level_eq_dec : EqDecision slog_level.
Proof. solve_decision. Defined.

(** [LevelRank]: unknown names rank as info. *)
Definition LevelRank (level : string) : Z :=
  if bool_decide (level = "debug") then 0
  else if bool_decide (level = "info") then 1
  else if bool_decide (level = "warn") then 2
  else if bool_decide (level = "error") then 3
  else 1.

(** The error carries the rejected name, as the Go error text does. *)
Definition logger_ParseLevel (s : string) : result slog_level string :=
  if bool_decide (s = "debug") then Ok LevelDebug
  else if bool_decide (s = "info") then Ok LevelInfo
  else if bool_decide (s = "warn") then Ok LevelWarn
  else if bool_decide (s = "error") then Ok LevelError
  else Err s.

(** ** Journal keys *)

Definition is_upper (z : Z) : bool := (65 <=? z) && (z <=? 90).
Definition is_lower (z : Z) : bool := (97 <=? z) && (z <=? 122).
Definition is_digit (z : Z) : bool := (48 <=? z) && (z <=? 57).
Definition underscore : Z := 95.

(** The byte [writeSanitized] writes for one rune. *)
Definition sanitize_rune (r : Z) : ascii :=
  if is_upper r || is_digit r || (r =? underscore) then byte_of r
  else if is_lower r then byte_of (r - 97 + 65)
  else byte_of underscore.

Definition writeSanitized (b s : string) : string :=
  b +:+ string_of_bytes (map sanitize_rune (runes s)).

Definition JournalKey (groups : list string) (key : string) : string :=
  let b := fold_left (fun b g => writeSanitized b g +:+ "_") groups EmptyString in
  let out := writeSanitized b key in
  if HasPrefix out "_" then "X" +:+ out
  else match out with
       | String a _ => if is_digit (byte_val a) then "X_" +:+ out else out
       | EmptyString => out
       end.

(** ** Handlers *)

Inductive handler (J : Type) :=
| TextHandler (level : slog_level)
| JSONHandler (level : slog_level)
| JournalHandler (h : J).
Arguments TextHandler {J} level.
Arguments JSONHandler {J} level.
Arguments JournalHandler {J} h.

Inductive logger_error (E : Type) :=
| ErrJournalHandler (e : E)
| ErrUnknownFormat (format : string).
Arguments ErrJournalHandler {E} e.
Arguments ErrUnknownFormat {E} format.

(** [newJournal] is the journal library's constructor: it is given the level and the
    key-rewriting hook. *)
Definition logger_New {J E}
    (newJournal : slog_level -> (list string -> string -> string) -> result J E)
    (format : string) (level : slog_level) : result (handler J) (logger_error E) :=
  if bool_decide (format = "console") then Ok (TextHandler level)
  else if bool_decide (format = "json") then Ok (JSONHandler level)
  else if bool_decide (format = "journal") then
    match newJournal level JournalKey with
    | Ok h => Ok (JournalHandler h)
    | Err e => Err (ErrJournalHandler e)
    end
  else Err (ErrUnknownFormat format).

(** ** The journal's grammar: the regular expression [^[A-Z_][A-Z0-9_]*$] *)

Definition journal_start (a : ascii) : bool :=
  is_upper (byte_val a) || (byte_val a =? underscore).
Definition journal_char (a : ascii) : bool := journal_start a || is_digit (byte_val a).

Definition journal_accepts (s : string) : bool :=
  match bytes_of_string s with
  | [] => false
  | a :: r => journal_start a && forallb journal_char r
  end.

(** * Properties *)

Lemma sanitize_rune_char r : journal_char (sanitize_rune r) = true.
Proof.
  unfold sanitize_rune, journal_char, journal_start.
  destruct (is_upper r || is_digit r || (r =? underscore)) eqn:E1; [|destruct (is_lower r) eqn:E2].
  - rewrite byte_val_of.
    assert (0 <= r < 256) as Hr.
    { unfold is_upper, is_digit, underscore in E1. lia. }
    rewrite Z.mod_small by done.
    rewrite <- !orb_assoc in *. rewrite (orb_comm (r =? underscore)). done.
  - unfold is_lower in E2. zbool. rewrite byte_val_of, Z.mod_small by lia.
    unfold is_upper. by replace ((65 <=? r - 97 + 65) && (r - 97 + 65 <=? 90)) with true by lia.
  - done.
Qed.

Lemma forallb_sanitized s : forallb journal_char (map sanitize_rune (runes s)) = true.
Proof.
  apply forallb_forall. intros a Ha. apply in_map_iff in Ha as (r & <- & _).
  apply sanitize_rune_char.
Qed.

Lemma writeSanitized_bytes b s :
  bytes_of_string (writeSanitized b s) = bytes_of_string b ++ map sanitize_rune (runes s).
Proof. unfold writeSanitized. by rewrite bytes_of_string_app, bytes_of_string_of_bytes. Qed.

Lemma journal_groups_chars groups b :
  forallb journal_char (bytes_of_string b) = true ->
  forallb journal_char
    (bytes_of_string (fold_left (fun b g => writeSanitized b g +:+ "_") groups b)) = true.
Proof.
  revert b. induction groups as [|g gs IH]; intros b Hb; [done|]. cbn. apply IH.
  rewrite bytes_of_string_app, writeSanitized_bytes, !forallb_app, Hb, forallb_sanitized. done.
Qed.

Lemma journal_groups_length groups b :
  (length (bytes_of_string b) + length groups
   <= length (bytes_of_string (fold_left (fun b g => writeSanitized b g +:+ "_") groups b)))%nat.
Proof.
  revert b. induction groups as [|g gs IH]; intros b; cbn; [lia|].
  etrans; [|apply IH]. rewrite bytes_of_string_app, length_app, writeSanitized_bytes, length_app.
  cbn. lia.
Qed.

Lemma decode_rune_width s : s <> [] -> (0 < (decode_rune s).2)%nat.
Proof.
  intros Hs. destruct s as [|a [|b [|c [|d s]]]]; [done|..]; cbn -[Z.ltb Z.leb byte_val];
    repeat case_bool; cbn; lia.
Qed.

Lemma runes_nil s : runes s = [] <-> s = EmptyString.
Proof.
  split; [|by intros ->]. destruct s as [|a s]; [done|].
  unfold runes. cbn [String.length bytes_of_string String.list_ascii_of_string runes_fuel].
  by destruct (decode_rune _).
Qed.

(** The unprefixed key: what [JournalKey] builds before it looks at the first byte. *)
Lemma journal_body_shape groups key :
  let out := writeSanitized (fold_left (fun b g => writeSanitized b g +:+ "_") groups EmptyString) key in
  forallb journal_char (bytes_of_string out) = true
  /\ (out = EmptyString <-> groups = [] /\ key = EmptyString).
Proof.
  cbn zeta. split.
  - rewrite writeSanitized_bytes, forallb_app, forallb_sanitized, andb_true_r.
    by apply journal_groups_chars.
  - split; [|by intros [-> ->]].
    intros Hout. apply (f_equal bytes_of_string) in Hout.
    rewrite writeSanitized_bytes in Hout. apply app_eq_nil in Hout as [Hb Hk].
    apply map_eq_nil, runes_nil in Hk. split; [|done].
    pose proof (journal_groups_length groups EmptyString) as Hl. rewrite Hb in Hl.
    destruct groups; [done|]. cbn in Hl. lia.
Qed.

Lemma journal_accepts_app x pre a r :
  journal_accepts (string_of_bytes (x :: pre) +:+ String a r)
  = journal_start x && forallb journal_char pre && journal_char a
    && forallb journal_char (bytes_of_string r).
Proof.
  unfold journal_accepts. rewrite bytes_of_string_app, bytes_of_string_of_bytes.
  cbn [app bytes_of_string String.list_ascii_of_string].
  rewrite forallb_app. cbn [forallb]. by rewrite !andb_assoc.
Qed.

(** Every key is rewritten into a name of the journal's grammar
    [^[A-Z_][A-Z0-9_]*$], never one that starts with the reserved underscore; the one
    exception is an empty key outside any group, which is returned unchanged. *)
Theorem JournalKey_accepted groups key :
  journal_accepts (JournalKey groups key) = negb (bool_decide (groups = [] /\ key = EmptyString))
  /\ HasPrefix (JournalKey groups key) "_" = false.
Proof.
  pose proof (journal_body_shape groups key) as [Hall Hnil]. cbn zeta in *.
  unfold JournalKey.
  set (out := writeSanitized _ key) in *. clearbody out.
  destruct out as [|a r].
  { rewrite bool_decide_eq_true_2 by (by apply Hnil). done. }
  rewrite bool_decide_eq_false_2 by (by rewrite <- Hnil). cbn [negb].
  cbn in Hall. apply andb_true_iff in Hall as [Ha Hr].
  assert (HasPrefix (String a r) "_" = Ascii.eqb "_" a) as ->.
  { unfold HasPrefix. cbn [strip_prefix]. by destruct (Ascii.eqb "_" a). }
  destruct (Ascii.eqb_spec "_" a) as [<-|Hne].
  { split; [|done]. etrans; [exact (journal_accepts_app "X" [] "_" r)|].
    by rewrite Hr. }
  destruct (is_digit (byte_val a)) eqn:Hd.
  { split; [|done]. etrans; [exact (journal_accepts_app "X" ["_"%char] a r)|].
    by rewrite Ha, Hr. }
  unfold journal_char in Ha. rewrite Hd, orb_false_r in Ha.
  split.
  - unfold journal_accepts. cbn [bytes_of_string String.list_ascii_of_string].
    by rewrite Ha, Hr.
  - unfold HasPrefix. cbn [strip_prefix]. by rewrite (proj2 (Ascii.eqb_neq _ _) Hne).
Qed.

(** ** Level filters *)

Lemma LevelRank_range level : 0 <= LevelRank level <= 3.
Proof. unfold LevelRank. repeat case_bool; lia. Qed.

(** The rank orders the four levels as [slog] does. *)
Lemma LevelRank_slog s l : logger_ParseLevel s = Ok l -> slog_value l = 4 * (LevelRank s - 1).
Proof.
  unfold logger_ParseLevel, LevelRank. repeat case_bool; intros H; simplify_eq/=; done.
Qed.
