(* ===== verification/SenderBuffer.v ===== *)
(** * internal/sentinel/sender/buffer.go

    The bounded FIFO between a collector and the flush loop. Every method holds the mutex
    for its whole body, so an operation is one atomic step and an execution is a sequence
    of operations. *)

From S2P Require Import Prelude.

Section Buffer.
Context {T : Type}.

Record Buffer := mkBuffer { items : list T; maxSize : Z }.

(** [None] is the panic on a non-positive size. *)
Definition NewBuffer (maxSize : Z) : option Buffer :=
  if (maxSize <=? 0)%Z then None else Some (mkBuffer [] maxSize).

(** The new buffer and whether the oldest item was dropped. *)
Definition Push (b : Buffer) (item : T) : Buffer * bool :=
  let full := (maxSize b <=? Z.of_nat (length (items b)))%Z in
  let kept := if full then drop 1 (items b) else items b in
  (mkBuffer (kept ++ [item]) (maxSize b), full).

(** The items in arrival order; Go returns nil for the empty list. *)
Definition Drain (b : Buffer) : Buffer * list T :=
  match items b with
  | [] => (b, [])
  | out => (mkBuffer [] (maxSize b), out)
  end.

Definition Len (b : Buffer) : Z := Z.of_nat (length (items b)).

(** ** Executions *)

Inductive buffer_op := OpPush (x : T) | OpDrain.
Inductive buffer_ret := RetPush (dropped : bool) | RetDrain (out : list T).

Definition buffer_step (b : Buffer) (o : buffer_op) : Buffer * buffer_ret :=
  match o with
  | OpPush x => let '(b', d) := Push b x in (b', RetPush d)
  | OpDrain => let '(b', out) := Drain b in (b', RetDrain out)
  end.

Fixpoint buffer_run (b : Buffer) (ops : list buffer_op) : Buffer * list buffer_ret :=
  match ops with
  | [] => (b, [])
  | o :: ops' =>
      let '(b1, r) := buffer_step b o in
      let '(b2, rs) := buffer_run b1 ops' in
      (b2, r :: rs)
  end.

(** ** Specification

    The abstract state is the unbounded list of everything pushed since the last drain.
    A bound [n] only limits what is observed: a drain returns the [n] most recent items,
    and a push reports a loss exactly when [n] items were already waiting. *)
Definition last_n (n : nat) (l : list T) : list T := drop (length l - n) l.

Definition spec_step (n : nat) (l : list T) (o : buffer_op) : list T * buffer_ret :=
  match o with
  | OpPush x => (l ++ [x], RetPush (bool_decide (n <= length l)))
  | OpDrain => ([], RetDrain (last_n n l))
  end.

Fixpoint spec_run (n : nat) (l : list T) (ops : list buffer_op) : list T * list buffer_ret :=
  match ops with
  | [] => (l, [])
  | o :: ops' =>
      let '(l1, r) := spec_step n l o in
      let '(l2, rs) := spec_run n l1 ops' in
      (l2, r :: rs)
  end.

(** The buffer represents the abstract list [l]. *)
Definition represents (b : Buffer) (l : list T) : Prop :=
  (0 < maxSize b)%Z /\ items b = last_n (Z.to_nat (maxSize b)) l.

Lemma last_n_length n l : length (last_n n l) = n `min` length l.
Proof. unfold last_n. rewrite length_drop. lia. Qed.

Lemma last_n_short n l : length l <= n -> last_n n l = l.
Proof. intros. unfold last_n. replace (length l - n) with 0 by lia. done. Qed.

Lemma last_n_snoc n l x :
  0 < n ->
  (if bool_decide (n <= length l) then drop 1 (last_n n l) else last_n n l) ++ [x]
  = last_n n (l ++ [x]).
Proof.
  intros Hn. unfold last_n. rewrite length_app. cbn [length].
  destruct (bool_decide _) eqn:E; zbool.
  - rewrite drop_drop, drop_app_le by lia. do 2 f_equal. lia.
  - replace (length l - n) with 0 by lia. replace (length l + 1 - n) with 0 by lia. done.
Qed.

Lemma represents_full b l :
  represents b l ->
  (maxSize b <=? Z.of_nat (length (items b)))%Z
  = bool_decide (Z.to_nat (maxSize b) <= length l).
Proof.
  intros [Hpos Hitems]. rewrite Hitems, last_n_length.
  destruct (bool_decide _) eqn:E; zbool; [apply Z.leb_le | apply Z.leb_gt]; lia.
Qed.

(** One step of the buffer simulates one step of the specification. *)
Lemma buffer_step_refines b l o :
  represents b l ->
  let '(b', r) := buffer_step b o in
  let '(l', r') := spec_step (Z.to_nat (maxSize b)) l o in
  r = r' /\ represents b' l' /\ maxSize b' = maxSize b.
Proof.
  intros Hrep. destruct o as [x|]; cbn.
  - rewrite (represents_full b l Hrep). destruct Hrep as [Hpos Hitems].
    split; [done|]. split; [|done]. split; [done|]. cbn.
    rewrite Hitems. apply last_n_snoc. lia.
  - destruct Hrep as [Hpos Hitems]. unfold Drain.
    destruct (items b) as [|i rest] eqn:E; (split; [by rewrite Hitems|]; split; [|done]).
    + split; [done|]. by rewrite E.
    + by split.
Qed.

(** C31: on every sequence of pushes and drains the buffer returns exactly what its
    specification returns: no item is duplicated, reordered or lost except the oldest
    ones of an overfull batch, and each loss is reported by the push that caused it. *)
Theorem buffer_refines_spec b l ops :
  represents b l ->
  (buffer_run b ops).2 = (spec_run (Z.to_nat (maxSize b)) l ops).2
  /\ represents (buffer_run b ops).1 (spec_run (Z.to_nat (maxSize b)) l ops).1.
Proof.
  revert b l. induction ops as [|o ops IH]; intros b l Hrep; [done|]. cbn.
  pose proof (buffer_step_refines b l o Hrep) as Hstep.
  destruct (buffer_step b o) as [b1 r]. destruct (spec_step _ l o) as [l1 r1].
  destruct Hstep as (-> & Hrep1 & Hmax).
  specialize (IH b1 l1 Hrep1). rewrite Hmax in IH.
  destruct (buffer_run b1 ops), (spec_run _ l1 ops). cbn in *. by destruct IH as [-> ?].
Qed.

Lemma NewBuffer_represents n b : NewBuffer n = Some b -> represents b [] /\ maxSize b = n.
Proof.
  unfold NewBuffer. case_bool; [done|]. intros [= <-]. zbool. split; [|done]. split; [done|].
  cbn. unfold last_n. by rewrite drop_nil.
Qed.
End Buffer.

Arguments Buffer T : clear implicits.
Arguments buffer_op T : clear implicits.
Arguments buffer_ret T : clear implicits.

(** A buffer of two slots: three pushes, a drain, a push, a drain. *)
Lemma buffer_refines_spec_witness :
  exists b, NewBuffer 2 = Some b
  /\ (buffer_run b [OpPush 1; OpPush 2; OpPush 3; OpDrain; OpPush 4; OpDrain]).2
     = [RetPush false; RetPush false; RetPush true; RetDrain [2; 3]; RetPush false; RetDrain [4]].
Proof.
  exists (mkBuffer [] 2). split; [reflexivity|].
  refine (eq_trans (proj1 (buffer_refines_spec (mkBuffer [] 2) []
    [OpPush 1; OpPush 2; OpPush 3; OpDrain; OpPush 4; OpDrain] _)) _).
  - split; reflexivity.
  - reflexivity.
Defined.
