(* ===== verification/NoiseConfig.v ===== *)
(** * pkg/noise: keys and configuration (keys.go, config.go)

    Key files live in a file system, modelled as the set of its directories and a finite map
    from cleaned paths to a mode and a content; a write to a missing directory fails. The Curve25519 generator is a library
    function and enters [GenerateKeypair] as its argument. *)

From S2P Require Import Prelude GoStrings GoPath.
From Stdlib Require Import Ascii.

(** ** Key pairs *)

Record Keypair := mkKeypair { Private : bytes; Public : bytes }.

#[export] Instance Keypair_eq_dec : EqDecision Keypair.
Proof. solve_decision. Defined.

Definition PrivKeyFilename : string := "privkey".
Definition PubKeyFilename : string := "pubkey".

Definition GenerateKeypair {E} (gen : result Keypair E) : result Keypair E := gen.

(** ** Files *)

Record file := mkFile { mode : Z; content : bytes }.

(** [dirs] are the existing directories, [files] the regular files, both by cleaned path;
    symbolic links and permissions are left out. A file that cannot be opened is absent from
    [files]. *)
Record fs := mkFs { dirs : gset string; files : gmap string file }.

Definition filepath_Join (dir name : string) : string := path_Join [dir; name].

Inductive key_error :=
| ErrBadSizes (priv pub : nat)
| ErrWriteFile (path : string)
| ErrReadFile (path : string)
| ErrHexDecode (path : string)
| ErrFileLength (path : string) (got : nat)
| ErrPublicKeyHex
| ErrPublicKeyLength (got : nat).

(** [os.WriteFile]: fails when the directory is missing or the path is a directory; an
    existing file keeps its mode, a new one is created with [m]. *)
Definition WriteFile (f : fs) (path : string) (b : bytes) (m : Z) : option fs :=
  let p := path_Clean path in
  if bool_decide (path_Dir p ∈ dirs f /\ p ∉ dirs f) then
    let m' := match files f !! p with Some old => mode old | None => m end in
    Some (mkFs (dirs f) (<[p := mkFile m' b]> (files f)))
  else None.

Definition ReadFile (f : fs) (path : string) : option bytes := content <$> files f !! path_Clean path.

Definition newline : ascii := "010".

(** [0o600] and [0o644]. *)
Definition mode_priv : Z := 384.
Definition mode_pub : Z := 420.

Definition WriteKeypair (f : fs) (dir : string) (kp : Keypair) : fs * result unit key_error :=
  if negb (bool_decide (length (Private kp) = 32 /\ length (Public kp) = 32))
  then (f, Err (ErrBadSizes (length (Private kp)) (length (Public kp))))
  else
    let priv := bytes_of_string (hex_encode (Private kp)) ++ [newline] in
    let pub := bytes_of_string (hex_encode (Public kp)) ++ [newline] in
    match WriteFile f (filepath_Join dir PrivKeyFilename) priv mode_priv with
    | None => (f, Err (ErrWriteFile (filepath_Join dir PrivKeyFilename)))
    | Some f1 =>
        match WriteFile f1 (filepath_Join dir PubKeyFilename) pub mode_pub with
        | None => (f1, Err (ErrWriteFile (filepath_Join dir PubKeyFilename)))
        | Some f2 => (f2, Ok tt)
        end
    end.

Definition loadHexFile (f : fs) (path : string) (wantLen : nat) : result bytes key_error :=
  match ReadFile f path with
  | None => Err (ErrReadFile path)
  | Some b =>
      let s := TrimSpace (string_of_bytes b) in
      match hex_decode s with
      | None => Err (ErrHexDecode path)
      | Some decoded =>
          if negb (bool_decide (length decoded = wantLen))
          then Err (ErrFileLength path (length decoded))
          else Ok decoded
      end
  end.

Open Scope go_scope.

Definition LoadKeypair (f : fs) (dir : string) : result Keypair key_error :=
  let? priv := loadHexFile f (filepath_Join dir PrivKeyFilename) 32 in
  let? pub := loadHexFile f (filepath_Join dir PubKeyFilename) 32 in
  Ok (mkKeypair priv pub).

Definition DecodePublicKey (s : string) : result bytes key_error :=
  let s := TrimSpace s in
  match hex_decode s with
  | None => Err ErrPublicKeyHex
  | Some key =>
      if negb (bool_decide (length key = 32)) then Err (ErrPublicKeyLength (length key))
      else Ok key
  end.

(** ** Config *)

(** [AuthorizedKeys] is [None] for Go's nil slice. *)
Record Config := mkConfig { Static : Keypair; AuthorizedKeys : option (list bytes) }.

(** The keys [len(c.AuthorizedKeys)] and [range] see: nil has none. *)
Definition authorized (c : Config) : list bytes := default [] (AuthorizedKeys c).

(** Slices are values here, so the deep copy is the identity on them; nil stays nil. *)
Definition Clone (c : Config) : Config :=
  mkConfig (Static c) (match AuthorizedKeys c with
                       | Some ks => Some (map (fun k => [] ++ k) ks)
                       | None => None
                       end).

Inductive config_error :=
| ErrPeerNotAuthorized (peer : bytes)
| ErrStaticPrivate (got : nat)
| ErrStaticPublic (got : nat)
| ErrAuthorizedKey (i : nat) (got : nat).

Definition authorizePeer (c : Config) (peerStatic : bytes) : result unit config_error :=
  if bool_decide (length (authorized c) = 0) then Ok tt
  else if existsb (fun k => bool_decide (k = peerStatic)) (authorized c) then Ok tt
  else Err (ErrPeerNotAuthorized peerStatic).

Fixpoint validate_keys (i : nat) (ks : list bytes) : result unit config_error :=
  match ks with
  | [] => Ok tt
  | k :: ks' =>
      if negb (bool_decide (length k = 32)) then Err (ErrAuthorizedKey i (length k))
      else validate_keys (S i) ks'
  end.

Definition config_validate (c : Config) : result unit config_error :=
  if negb (bool_decide (length (Private (Static c)) = 32))
  then Err (ErrStaticPrivate (length (Private (Static c))))
  else if negb (bool_decide (length (Public (Static c)) = 32))
  then Err (ErrStaticPublic (length (Public (Static c))))
  else validate_keys 0 (authorized c).

(** * Properties *)

Lemma Clone_id c : Clone c = c.
Proof.
  destruct c as [st [ks|]]; [|done]. unfold Clone. cbn. do 2 f_equal. induction ks; cbn; congruence.
Qed.

Lemma authorizePeer_ok c peer :
  authorizePeer c peer = Ok tt <-> authorized c = [] \/ peer ∈ authorized c.
Proof.
  unfold authorizePeer. case_bool.
  - zbool. destruct (authorized c); [naive_solver|done].
  - zbool. case_bool.
    + apply existsb_exists in E0 as (k & Hin & Hk). zbool. subst.
      rewrite list_elem_of_In. naive_solver.
    + split; [done|]. intros [Hn|Hin]; [by rewrite Hn in E|]. exfalso.
      assert (existsb (fun k => bool_decide (k = peer)) (authorized c) = true); [|congruence].
      apply existsb_exists. exists peer. rewrite <- list_elem_of_In.
      split; [done|]. by apply bool_decide_eq_true_2.
Qed.

Lemma validate_keys_ok i ks : validate_keys i ks = Ok tt <-> Forall (fun k => length k = 32) ks.
Proof.
  revert i. induction ks as [|k ks IH]; intros i; cbn; [split; [constructor|done]|].
  rewrite Forall_cons_iff. case_bool; zbool.
  - split; [done|]. by intros [? _].
  - rewrite IH. naive_solver.
Qed.

(** A configuration that passes [validate] has 32-byte keys throughout. *)
Lemma config_validate_ok c :
  config_validate c = Ok tt <->
  length (Private (Static c)) = 32 /\ length (Public (Static c)) = 32
  /\ Forall (fun k => length k = 32) (authorized c).
Proof.
  unfold config_validate. repeat case_bool; zbool.
  - split; [done|]. by intros [? _].
  - split; [done|]. by intros (_ & ? & _).
  - rewrite validate_keys_ok. naive_solver.
Qed.

(** ** Key files *)

Lemma hex_digit_byte d : (0 <= d < 16)%Z -> plain_byte (hex_digit d).
Proof.
  intros H. unfold plain_byte, hex_digit, ascii_space. rewrite byte_val_of.
  destruct (Z.ltb_spec d 10); rewrite Z.mod_small by lia; split; try lia;
    rewrite !orb_false_iff, andb_false_iff; lia.
Qed.

Lemma hex_encode_bytes b : Forall plain_byte (bytes_of_string (hex_encode b)).
Proof.
  induction b as [|a b IH]; [constructor|]. cbn. pose proof (byte_val_range a).
  constructor; [apply hex_digit_byte; split; [apply Z.div_pos|apply Z.div_lt_upper_bound]; lia|].
  constructor; [apply hex_digit_byte, Z.mod_pos_bound; lia|]. apply IH.
Qed.

Lemma TrimSpaceBytes_hex b :
  Forall plain_byte b -> TrimSpaceBytes (b ++ [newline]) = b.
Proof.
  intros Hb. destruct (decide (b = [])) as [->|Hne]; [reflexivity|].
  assert (Hhd : trim_fuel (length (b ++ [newline])) space_head (b ++ [newline]) = b ++ [newline]).
  { destruct b as [|a b]; [done|]. inversion Hb; subst. apply trim_fuel_stop.
    cbn [app]. by apply space_head_plain. }
  unfold TrimSpaceBytes. rewrite Hhd, rev_app_distr. cbn [rev app].
  rewrite length_app. cbn [length]. rewrite Nat.add_1_r. cbn [trim_fuel].
  assert (space_last (newline :: rev b) = Some (rev b)) as -> by reflexivity.
  rewrite trim_fuel_stop; [apply rev_involutive|].
  destruct (rev b) as [|a r] eqn:E; [by apply (f_equal (@rev _)) in E; rewrite rev_involutive in E|].
  apply space_last_plain. apply List.Forall_rev in Hb. rewrite E in Hb. by inversion Hb.
Qed.

Lemma loadHexFile_written f path b m :
  files f !! path_Clean path = Some (mkFile m (bytes_of_string (hex_encode b) ++ [newline])) ->
  loadHexFile f path (length b) = Ok b.
Proof.
  intros H. unfold loadHexFile, ReadFile, TrimSpace. rewrite H. cbn [fmap option_fmap option_map content].
  rewrite bytes_of_string_of_bytes, TrimSpaceBytes_hex by apply hex_encode_bytes.
  rewrite string_of_bytes_of_string, hex_decode_encode.
  by rewrite bool_decide_eq_true_2.
Qed.

Lemma key_names : file_name PrivKeyFilename /\ file_name PubKeyFilename.
Proof. split; split_and!; try discriminate; apply (bool_decide_eq_true_1 _); by vm_compute. Qed.

Lemma key_paths_ne dir : filepath_Join dir PubKeyFilename <> filepath_Join dir PrivKeyFilename.
Proof. intros H. apply path_Join_file_inj in H; [discriminate|apply key_names..]. Qed.

(** A directory that can take the key files. *)
Definition takes_keys (f : fs) (dir : string) : Prop :=
  dir <> EmptyString /\ path_Clean dir ∈ dirs f
  /\ filepath_Join dir PrivKeyFilename ∉ dirs f /\ filepath_Join dir PubKeyFilename ∉ dirs f.

Lemma WriteFile_key f dir name b m :
  file_name name -> dir <> EmptyString -> path_Clean dir ∈ dirs f -> filepath_Join dir name ∉ dirs f ->
  WriteFile f (filepath_Join dir name) b m
  = Some (mkFs (dirs f) (<[filepath_Join dir name :=
      mkFile (match files f !! filepath_Join dir name with Some old => mode old | None => m end) b]> (files f))).
Proof.
  intros Hn Hd Hin Hout. destruct (path_Join_in dir name Hn Hd) as [H1 H2]. unfold filepath_Join in *.
  unfold WriteFile. rewrite H1, H2. by rewrite bool_decide_eq_true_2.
Qed.

Lemma key_written f dir kp :
  takes_keys f dir -> length (Private kp) = 32 -> length (Public kp) = 32 ->
  exists f', WriteKeypair f dir kp = (f', Ok tt)
  /\ LoadKeypair f' dir = Ok kp
  /\ (forall path, path <> filepath_Join dir PrivKeyFilename ->
        path <> filepath_Join dir PubKeyFilename -> files f' !! path = files f !! path)
  /\ (files f !! filepath_Join dir PrivKeyFilename = None ->
        mode <$> files f' !! filepath_Join dir PrivKeyFilename = Some mode_priv).
Proof.
  intros (Hdir & Hin & Ho1 & Ho2) Hpriv Hpub. destruct key_names as [N1 N2].
  unfold WriteKeypair. rewrite bool_decide_eq_true_2 by done. cbn [negb].
  rewrite (WriteFile_key f) by done. rewrite WriteFile_key by done. cbn [files dirs].
  destruct (path_Join_in dir PrivKeyFilename N1 Hdir) as [C1 _].
  destruct (path_Join_in dir PubKeyFilename N2 Hdir) as [C2 _].
  pose proof (key_paths_ne dir) as Hne. unfold filepath_Join in *.
  set (p1 := path_Join [dir; PrivKeyFilename]) in *. set (p2 := path_Join [dir; PubKeyFilename]) in *.
  eexists. split; [reflexivity|]. split; [|split].
  - unfold LoadKeypair, filepath_Join. fold p1 p2.
    rewrite <- Hpriv at 1. erewrite loadHexFile_written; [|rewrite C1; cbn [files]; rewrite lookup_insert_ne by done;
      apply lookup_insert_eq].
    cbn [result_bind]. rewrite <- Hpub. erewrite loadHexFile_written; [|rewrite C2; cbn [files]; apply lookup_insert_eq].
    by destruct kp.
  - intros path H1 H2. cbn. by rewrite !lookup_insert_ne by done.
  - intros Hnone. cbn. rewrite lookup_insert_ne, lookup_insert_eq by done. cbn. by rewrite Hnone.
Qed.

(** A key pair written to an existing directory is read back unchanged, whatever was
    there before; the files are new or keep the mode they had, and nothing else in the
    file system changes. *)
Theorem WriteKeypair_LoadKeypair f dir kp :
  takes_keys f dir -> length (Private kp) = 32 -> length (Public kp) = 32 ->
  exists f', WriteKeypair f dir kp = (f', Ok tt)
  /\ LoadKeypair f' dir = Ok kp
  /\ (forall path, path <> filepath_Join dir PrivKeyFilename ->
        path <> filepath_Join dir PubKeyFilename -> files f' !! path = files f !! path)
  /\ (files f !! filepath_Join dir PrivKeyFilename = None ->
        mode <$> files f' !! filepath_Join dir PrivKeyFilename = Some mode_priv).
Proof. apply key_written. Qed.

Lemma WriteKeypair_LoadKeypair_witness :
  let kp := mkKeypair (repeat "a"%char 32) (repeat "b"%char 32) in
  let f := mkFs {["keys"]} ∅ in
  exists f', WriteKeypair f "./keys/" kp = (f', Ok tt) /\ LoadKeypair f' "keys" = Ok kp.
Proof.
  set (kp := mkKeypair (repeat "a"%char 32) (repeat "b"%char 32)).
  destruct (WriteKeypair_LoadKeypair (mkFs {["keys"]} ∅) "./keys/" kp) as (f' & H1 & H2 & _).
  - split_and!; [discriminate|..]; apply (bool_decide_eq_true_1 _); vm_compute; reflexivity.
  - reflexivity.
  - reflexivity.
  - exists f'. split; [exact H1|exact H2].
Defined.

(** Surrounding white space in a pasted public key is ignored. *)
Lemma DecodePublicKey_encoded k :
  length k = 32 -> DecodePublicKey (hex_encode k +:+ String newline EmptyString) = Ok k.
Proof.
  intros Hk. unfold DecodePublicKey, TrimSpace. rewrite bytes_of_string_app.
  change (bytes_of_string (String newline EmptyString)) with [newline].
  rewrite TrimSpaceBytes_hex by apply hex_encode_bytes.
  rewrite string_of_bytes_of_string, hex_decode_encode. by rewrite bool_decide_eq_true_2.
Qed.

Lemma DecodePublicKey_length s k : DecodePublicKey s = Ok k -> length k = 32.
Proof.
  unfold DecodePublicKey. destruct (hex_decode _); [|done]. case_bool; [done|].
  zbool. by intros [= <-].
Qed.

(** A key pair that was written is one of 32-byte keys, in a directory that takes it. *)
Lemma WriteKeypair_written f dir kp f' :
  dir <> EmptyString -> WriteKeypair f dir kp = (f', Ok tt) ->
  takes_keys f dir /\ length (Private kp) = 32 /\ length (Public kp) = 32.
Proof.
  intros Hd. destruct key_names as [N1 N2]. unfold WriteKeypair. case_bool_decide as Hl; cbn [negb]; [|done].
  destruct (path_Join_in dir PrivKeyFilename N1 Hd) as [C1 D1]. destruct (path_Join_in dir PubKeyFilename N2 Hd) as [C2 D2].
  unfold WriteFile, filepath_Join, takes_keys. rewrite C1, D1, C2, D2.
  case_bool_decide as H1; [|done]. cbn [dirs]. case_bool_decide as H2; [|done]. intros _. unfold filepath_Join. naive_solver.
Qed.
