(* ===== verification/NoiseConn.v ===== *)
(** * pkg/noise: framing and the encrypted connection (conn.go)

    A transport is a byte stream. What a connection reads from is the list of bytes still
    to come (the peer has closed when it is exhausted); what it writes to is a [wire], the
    bytes sent so far together with the number of writes the network still lets through.
    The cipher states are objects of the noise library: their operations are parameters,
    and [paired] with the hypotheses about it states the library's contract for the two
    ends of one direction. *)

From S2P Require Import Prelude.
From Stdlib Require Import Ascii.

Open Scope go_scope.

(** ** Transports *)

Record wire := mkWire { sent : bytes; writes_left : option nat }.

(** One [Write] call on the transport: all of [b] or an error. *)
Definition wire_Write (w : wire) (b : bytes) : option wire :=
  match writes_left w with
  | None => Some (mkWire (sent w ++ b) None)
  | Some O => None
  | Some (S n) => Some (mkWire (sent w ++ b) (Some n))
  end.

Inductive io_error := EOF | ErrUnexpectedEOF.

(** [io.ReadFull] of [n] bytes. *)
Definition ReadFull (s : bytes) (n : nat) : result (bytes * bytes) io_error :=
  if bool_decide (n <= length s) then Ok (take n s, drop n s)
  else match s with [] => Err EOF | _ => Err ErrUnexpectedEOF end.

Inductive conn_error (E : Type) :=
| ErrIO (e : io_error)
| ErrZeroLengthFrame
| ErrFrameTooLarge (n : nat)
| ErrTransportWrite
| ErrEncrypt (e : E)
| ErrDecrypt (e : E)
| ErrZeroLengthPlaintext.
Arguments ErrIO {E} e.
Arguments ErrZeroLengthFrame {E}.
Arguments ErrFrameTooLarge {E} n.
Arguments ErrTransportWrite {E}.
Arguments ErrEncrypt {E} e.
Arguments ErrDecrypt {E} e.
Arguments ErrZeroLengthPlaintext {E}.

(** ** Frames *)

(** [binary.BigEndian.PutUint16] and [Uint16]. *)
Definition put_uint16 (n : Z) : bytes := [byte_of (n / 256); byte_of n].
Definition get_uint16 (h : bytes) : Z :=
  match h with
  | [a; b] => byte_val a * 256 + byte_val b
  | _ => 0
  end%Z.

Definition readFrame {E} (s : bytes) : result (bytes * bytes) (conn_error E) :=
  let? (hdr, s1) := map_err ErrIO (ReadFull s 2) in
  let n := get_uint16 hdr in
  guard? (n =? 0)%Z then ErrZeroLengthFrame else
  map_err ErrIO (ReadFull s1 (Z.to_nat n)).

(** [uint16(len(payload))] wraps, as the conversion does. The error leaves the wire as it
    is after the writes that went through. *)
Definition writeFrame {E} (w : wire) (payload : bytes) : wire * result unit (conn_error E) :=
  if bool_decide (65535 < Z.of_nat (length payload))%Z
  then (w, Err (ErrFrameTooLarge (length payload)))
  else
    match wire_Write w (put_uint16 (Z.of_nat (length payload) mod 65536)) with
    | None => (w, Err ErrTransportWrite)
    | Some w1 =>
        match wire_Write w1 payload with
        | None => (w1, Err ErrTransportWrite)
        | Some w2 => (w2, Ok tt)
        end
    end.

(** [65535 - 16 - 16]. *)
Definition maxNoisePlaintext : nat := Z.to_nat 65503.

Section Conn.
Context {CS E : Type}.
(** The library's AEAD operations on a cipher state, nonce update included. *)
Context (Encrypt : CS -> bytes -> result (CS * bytes) E).
Context (Decrypt : CS -> bytes -> result (CS * bytes) E).

Record Conn := mkConn {
  peerStatic : bytes;
  sendCS : CS;
  recvCS : CS;
  readBuf : bytes;
  input : bytes;     (* what the transport still delivers *)
  output : wire
}.

Definition set_send (c : Conn) (s : CS) (w : wire) : Conn :=
  mkConn (peerStatic c) s (recvCS c) (readBuf c) (input c) w.
Definition set_recv (c : Conn) (r : CS) (buf inp : bytes) : Conn :=
  mkConn (peerStatic c) (sendCS c) r buf inp (output c).

(** [Conn.Read] into a slice of length [plen]: the data copied, or an error. *)
Definition Read (c : Conn) (plen : nat) : Conn * result bytes (conn_error E) :=
  if bool_decide (0 < length (readBuf c)) then
    (set_recv c (recvCS c) (drop plen (readBuf c)) (input c), Ok (take plen (readBuf c)))
  else
    match readFrame (input c) with
    | Err e => (set_recv c (recvCS c) (readBuf c) [], Err e)
    | Ok (frame, rest) =>
        match Decrypt (recvCS c) frame with
        | Err e => (set_recv c (recvCS c) (readBuf c) rest, Err (ErrDecrypt e))
        | Ok (r', plaintext) =>
            if bool_decide (length plaintext = 0)
            then (set_recv c r' (readBuf c) rest, Err ErrZeroLengthPlaintext)
            else (set_recv c r' (drop plen plaintext) rest, Ok (take plen plaintext))
        end
    end.

(** The loop of [Conn.Write]: the bytes accepted so far and the error, if any. Each
    iteration consumes at least one byte of [p], so [length p] iterations are enough. *)
Fixpoint write_loop (fuel : nat) (c : Conn) (p : bytes) (total : nat)
    : Conn * (nat * option (conn_error E)) :=
  match fuel with
  | O => (c, (total, None))
  | S f =>
      match p with
      | [] => (c, (total, None))
      | _ =>
          let chunk := take maxNoisePlaintext p in
          match Encrypt (sendCS c) chunk with
          | Err e => (c, (total, Some (ErrEncrypt e)))
          | Ok (s', ct) =>
              match writeFrame (output c) ct with
              | (w', Err e) => (set_send c s' w', (total, Some e))
              | (w', Ok _) =>
                  write_loop f (set_send c s' w') (drop (length chunk) p)
                    (total + length chunk)
              end
          end
      end
  end.

Definition Write (c : Conn) (p : bytes) : Conn * (nat * option (conn_error E)) :=
  write_loop (length p) c p 0.

(** ** Reading until the end of the stream, as [io.ReadAll] does with buffers of the
    given sizes. *)
Fixpoint read_all (sizes : list nat) (c : Conn) : Conn * bytes :=
  match sizes with
  | [] => (c, [])
  | n :: sizes' =>
      match Read c n with
      | (c', Ok d) => let '(c2, ds) := read_all sizes' c' in (c2, d ++ ds)
      | (c', Err _) => (c', [])
      end
  end.

(** ** The library's contract *)

(** [paired s r]: [r] decrypts what [s] encrypts next. *)
Context (paired : CS -> CS -> Prop).

Definition aead_contract : Prop :=
  forall s r p, paired s r -> length p <= maxNoisePlaintext ->
  exists s' r' ct, Encrypt s p = Ok (s', ct) /\ Decrypt r ct = Ok (r', p)
    /\ length ct = length p + 16 /\ paired s' r'.

Hypothesis aead : aead_contract.

(** *** Frames on the wire *)

Lemma put_get_uint16 n : (0 <= n < 65536)%Z -> get_uint16 (put_uint16 n) = n.
Proof.
  intros H. unfold get_uint16, put_uint16. rewrite !byte_val_of.
  pose proof (Z.div_mod n 256 ltac:(lia)). rewrite (Z.mod_small (n / 256)); [lia|].
  split; [apply Z.div_pos | apply Z.div_lt_upper_bound]; lia.
Qed.

Definition frame_of (payload : bytes) : bytes :=
  put_uint16 (Z.of_nat (length payload)) ++ payload.

Lemma readFrame_frame_of payload rest :
  0 < length payload -> (Z.of_nat (length payload) <= 65535)%Z ->
  @readFrame E (frame_of payload ++ rest) = Ok (payload, rest).
Proof.
  intros Hpos Hmax. unfold readFrame, frame_of, ReadFull.
  assert (H2 : forall x, length (put_uint16 x) = 2) by done.
  rewrite bool_decide_eq_true_2 by (rewrite !length_app, H2; lia).
  rewrite <- app_assoc. cbn [map_err result_bind].
  rewrite take_app_length', drop_app_length' by done.
  rewrite put_get_uint16 by lia.
  destruct (Z.eqb_spec (Z.of_nat (length payload)) 0); [lia|].
  rewrite Nat2Z.id, bool_decide_eq_true_2 by (rewrite length_app; lia). cbn.
  by rewrite take_app_length, drop_app_length.
Qed.

Lemma writeFrame_frame_of w payload :
  (Z.of_nat (length payload) <= 65535)%Z -> writes_left w = None ->
  @writeFrame E w payload = (mkWire (sent w ++ frame_of payload) None, Ok tt).
Proof.
  intros Hmax Hw. unfold writeFrame, wire_Write, frame_of.
  rewrite bool_decide_eq_false_2 by lia. rewrite Hw. cbn.
  rewrite Z.mod_small by lia. by rewrite <- app_assoc.
Qed.

(** *** Streams

    [carries r st p]: from receive state [r] the stream [st] is a sequence of whole
    frames that decrypt to non-empty plaintexts whose concatenation is [p]. *)
Inductive carries : CS -> bytes -> bytes -> Prop :=
| carries_nil r : carries r [] []
| carries_frame r r' ct chunk st p :
    0 < length ct -> (Z.of_nat (length ct) <= 65535)%Z ->
    Decrypt r ct = Ok (r', chunk) -> chunk <> [] ->
    carries r' st p -> carries r (frame_of ct ++ st) (chunk ++ p).

Hint Constructors carries : core.

Lemma maxNoisePlaintext_fits n :
  n <= maxNoisePlaintext -> (Z.of_nat (n + 16) <= 65535)%Z.
Proof. unfold maxNoisePlaintext. lia. Qed.

Lemma maxNoisePlaintext_pos : 0 < maxNoisePlaintext.
Proof. unfold maxNoisePlaintext. lia. Qed.

(** What one [Write] appends to a wire decrypts, at the other end, to what was written. *)
Lemma write_loop_carries fuel c p total r :
  length p <= fuel -> writes_left (output c) = None -> paired (sendCS c) r ->
  exists c' st r', write_loop fuel c p total = (c', (total + length p, None))
    /\ sent (output c') = sent (output c) ++ st /\ writes_left (output c') = None
    /\ paired (sendCS c') r'
    /\ (forall st2 p2, carries r' st2 p2 -> carries r (st ++ st2) (p ++ p2)).
Proof.
  revert c p total r. induction fuel as [|f IH]; intros c p total r Hf Hw Hp.
  { destruct p; [|cbn in Hf; lia]. exists c, [], r. cbn. rewrite app_nil_r, Nat.add_0_r. auto. }
  destruct p as [|a p].
  { exists c, [], r. cbn. rewrite app_nil_r, Nat.add_0_r. auto. }
  cbn [write_loop]. set (q := a :: p) in *. set (chunk := take maxNoisePlaintext q).
  pose proof maxNoisePlaintext_pos as Hmpos.
  assert (Hclen : length chunk <= maxNoisePlaintext) by (apply firstn_le_length).
  assert (Hcpos : 0 < length chunk) by (unfold chunk, q; rewrite length_take; cbn [length]; lia).
  destruct (aead (sendCS c) r chunk Hp Hclen) as (s' & r1 & ct & He & Hd & Hctlen & Hpair).
  rewrite He.
  pose proof (maxNoisePlaintext_fits _ Hclen) as Hfit. rewrite <- Hctlen in Hfit.
  rewrite writeFrame_frame_of by done.
  set (c1 := set_send c s' _).
  assert (Hqlen : length chunk <= length q) by (apply firstn_le_length_2 || (unfold chunk; rewrite length_take; lia)).
  destruct (IH c1 (drop (length chunk) q) (total + length chunk) r1)
    as (c' & st & r' & Hloop & Hsent & Hleft & Hpair' & Hcar).
  { rewrite length_drop. lia. }
  { done. }
  { done. }
  exists c', (frame_of ct ++ st), r'. split; [|split; [|split; [done|split; [done|]]]].
  - rewrite Hloop. rewrite length_drop. do 2 f_equal. lia.
  - rewrite Hsent. unfold c1. cbn [set_send output sent]. by rewrite app_assoc.
  - intros st2 p2 H2.
    assert (Hq : q = chunk ++ drop (length chunk) q).
    { unfold chunk at 2. rewrite <- (take_drop maxNoisePlaintext q) at 1. f_equal.
      unfold chunk. rewrite length_take.
      destruct (Nat.le_gt_cases maxNoisePlaintext (length q)).
      - by rewrite Nat.min_l by lia.
      - rewrite Nat.min_r, !drop_ge by lia. done. }
    rewrite Hq, <- !app_assoc. refine (carries_frame r r1 ct chunk _ _ _ Hfit Hd _ (Hcar _ _ H2)); [lia|].
    intros H0. rewrite H0 in Hcpos. cbn in Hcpos. lia.
Qed.

(** *** Reading *)

(** What a connection has yet to deliver. *)
Definition pending (c : Conn) (p : bytes) : Prop :=
  exists p', p = readBuf c ++ p' /\ carries (recvCS c) (input c) p'.

Lemma Read_pending c p n :
  pending c p -> 0 < n ->
  match Read c n with
  | (c', Ok d) => d <> [] /\ exists p2, p = d ++ p2 /\ pending c' p2
  | (c', Err e) => p = [] /\ e = ErrIO EOF
  end.
Proof.
  intros (p' & -> & Hc) Hn. unfold Read.
  destruct (bool_decide (0 < length (readBuf c))) eqn:Hb; zbool.
  - split.
    { intros Ht. apply (f_equal length) in Ht. rewrite length_take in Ht. cbn in Ht. lia. }
    exists (drop n (readBuf c) ++ p'). rewrite app_assoc, take_drop. split; [done|].
    exists p'. done.
  - destruct (readBuf c) eqn:Hbuf; [|cbn in Hb; lia]. cbn [app].
    destruct Hc as [r|r r' ct chunk st q Hpos Hmax Hdec Hne Hrest].
    + done.
    + rewrite readFrame_frame_of by done. rewrite Hdec.
      rewrite bool_decide_eq_false_2 by (by destruct chunk).
      split.
      { intros Ht. apply (f_equal length) in Ht. rewrite length_take in Ht.
        destruct chunk; [done|]. cbn in Ht. lia. }
      exists (drop n chunk ++ q). rewrite app_assoc, take_drop. split; [done|].
      exists q. done.
Qed.

(** Reads with arbitrary positive sizes deliver the pending bytes in order; one read per
    byte is enough to get them all. *)
Lemma read_all_pending sizes c p :
  pending c p -> Forall (fun n => 0 < n) sizes ->
  exists rest, p = (read_all sizes c).2 ++ rest
    /\ (length p <= length sizes -> rest = []).
Proof.
  revert c p. induction sizes as [|n sizes IH]; intros c p Hp Hs.
  { exists p. split; [done|]. cbn. intros. by destruct p; [|cbn in *; lia]. }
  inversion Hs as [|?? Hn Hs']; subst. cbn.
  pose proof (Read_pending c p n Hp Hn) as HR. destruct (Read c n) as [c' [d|e]].
  - destruct HR as (Hd & p2 & -> & Hp2). destruct (IH c' p2 Hp2 Hs') as (rest & Hrest & Hall).
    destruct (read_all sizes c') as [c2 ds]. cbn in *. exists rest. subst p2.
    split; [by rewrite app_assoc|]. intros Hlen. apply Hall.
    rewrite !length_app in *. destruct d; [done|]. cbn in Hlen. lia.
  - destruct HR as [-> _]. exists []. done.
Qed.

(** One end writes [p], the other end reads with buffers of any positive sizes. The
    write accepts all of [p], and what is read is [p] itself, in order: a prefix of it
    whatever the sizes, all of it once there is one read per byte. *)
Theorem Write_Read_stream (sender receiver : Conn) p sizes :
  writes_left (output sender) = None -> sent (output sender) = [] ->
  paired (sendCS sender) (recvCS receiver) -> readBuf receiver = [] ->
  Forall (fun n => 0 < n) sizes ->
  exists sender',
    Write sender p = (sender', (length p, None))
    /\ let receiver' := set_recv receiver (recvCS receiver) [] (sent (output sender')) in
       exists rest, p = (read_all sizes receiver').2 ++ rest
         /\ (length p <= length sizes -> rest = []).
Proof.
  intros Hw Hs Hpair Hbuf Hsizes.
  destruct (write_loop_carries (length p) sender p 0 (recvCS receiver))
    as (c' & st & r' & Hloop & Hsent & _ & _ & Hcar); [done..|].
  exists c'. split; [done|]. cbn zeta. rewrite Hsent, Hs. cbn [app].
  apply read_all_pending; [|done]. exists p. split; [done|]. cbn.
  rewrite <- (app_nil_r st), <- (app_nil_r p). apply Hcar. constructor.
Qed.
End Conn.

(** ** A concrete cipher

    A counter-mode stand-in for the library: the state is the nonce, encryption appends it
    as a 16-byte tag, decryption refuses a wrong tag. It satisfies the contract. *)
Definition toy_tag (n : nat) : bytes := repeat (byte_of (Z.of_nat n)) 16.

Definition toy_encrypt (n : nat) (p : bytes) : result (nat * bytes) unit :=
  Ok (S n, p ++ toy_tag n).

Definition toy_decrypt (n : nat) (ct : bytes) : result (nat * bytes) unit :=
  let k := length ct - 16 in
  if bool_decide (drop k ct = toy_tag n) then Ok (S n, take k ct) else Err tt.

Lemma toy_aead : aead_contract toy_encrypt toy_decrypt eq.
Proof.
  intros s r p -> Hp. exists (S r), (S r), (p ++ toy_tag r).
  assert (Hl : length (p ++ toy_tag r) - 16 = length p) by (rewrite length_app; cbn; lia).
  split; [done|]. split; [|split; [by rewrite length_app|done]].
  unfold toy_decrypt. rewrite Hl, drop_app_length, take_app_length.
  by rewrite bool_decide_eq_true_2.
Qed.

Lemma Write_Read_stream_witness :
  let s := mkConn [] 0 0 [] [] (mkWire [] None) in
  let msg := bytes_of_string "hello" in
  exists s', Write toy_encrypt s msg = (s', (5, None))
  /\ exists rest, msg = (read_all toy_decrypt [2; 2; 2; 2; 2]
        (set_recv s (recvCS s) [] (sent (output s')))).2 ++ rest /\ rest = [].
Proof.
  set (s := mkConn [] 0 0 [] [] (mkWire [] None)).
  destruct (Write_Read_stream toy_encrypt toy_decrypt eq toy_aead s s
              (bytes_of_string "hello") [2; 2; 2; 2; 2]) as (s' & H1 & rest & H2 & H3).
  - reflexivity.
  - reflexivity.
  - reflexivity.
  - reflexivity.
  - repeat constructor.
  - exists s'. split; [exact H1|]. exists rest. split; [exact H2|]. apply H3. cbn. lia.
Defined.
