(* ===== verification/NoiseShared.v ===== *)
(** * pkg/noise: one connection used by several goroutines (conn.go)

    [Write] holds [writeMu] from its first frame to its last, [Read] holds [readMu], and the
    two share no field. Here a [Write] is a sequence of steps, each of which is one call on
    the transport, and everything else may happen between two of them: reads, [Close], and
    other goroutines that want to write and have to wait. The connection behaves all the
    same as if each call were one step ([shared_serialises]). The comment of the type promises
    that much for one goroutine that reads and one that writes ([duplex_streams]); the two
    mutexes give it to any number of writers ([concurrent_writes_stream]). What deadlines do
    to a read is at the end. *)

From Stdlib Require Import Ascii.
From S2P Require Import Prelude NoiseConn.

(** ** The machine *)

Section Shared.
Context {CS E : Type}.
Context (Encrypt : CS -> bytes -> result (CS * bytes) E).
Context (Decrypt : CS -> bytes -> result (CS * bytes) E).

Notation Conn := (Conn (CS := CS)).
Notation conn_error := (conn_error E).
Notation write_result := (nat * option conn_error)%type.

(** Where the goroutine that holds [writeMu] stands: at the head of the loop with [p] left
    and [total] accepted, or between the two writes of [writeFrame], with the ciphertext of
    a chunk of [k] bytes to be written and [rest] after it. *)
Inductive holder :=
| HLoop (p : bytes) (total : nat)
| HPayload (ct : bytes) (k : nat) (rest : bytes) (total : nat).

(** A call that has returned, with what it returned. *)
Inductive call :=
| CallWrite (i : nat) (p : bytes) (res : write_result)
| CallRead (i : nat) (plen : nat) (res : result bytes conn_error).

Record shared := mkShared {
  sh_conn : Conn;
  sh_writer : option (nat * bytes * holder);
  sh_calls : list call
}.

Definition shared_start (c : Conn) : shared := mkShared c None [].

Definition set_wire (c : Conn) (w : wire) : Conn := set_send c (sendCS c) w.

(** [Close] of the transport: it takes no more writes and delivers nothing more. A read then
    fails with [net.ErrClosed], which is not told here from the end of the stream. *)
Definition Close (c : Conn) : Conn :=
  mkConn (peerStatic c) (sendCS c) (recvCS c) (readBuf c) [] (mkWire (sent (output c)) (Some 0)).

(** A copy of the key. *)
Definition PeerStatic (c : Conn) : bytes := peerStatic c.

(** One step of the goroutine in the critical section of [Write]: where it stands next, or
    what [Write] returns. *)
Definition write_step (c : Conn) (h : holder) : Conn * (holder + write_result) :=
  match h with
  | HLoop [] total => (c, inr (total, None))
  | HLoop p total =>
      let chunk := take maxNoisePlaintext p in
      match Encrypt (sendCS c) chunk with
      | Err e => (c, inr (total, Some (ErrEncrypt e)))
      | Ok (s', ct) =>
          let c := set_send c s' (output c) in
          if bool_decide (65535 < Z.of_nat (length ct))%Z then (c, inr (total, Some (ErrFrameTooLarge (length ct))))
          else match wire_Write (output c) (put_uint16 (Z.of_nat (length ct) mod 65536)) with
               | None => (c, inr (total, Some ErrTransportWrite))
               | Some w => (set_wire c w, inl (HPayload ct (length chunk) (drop (length chunk) p) total))
               end
      end
  | HPayload ct k rest total =>
      match wire_Write (output c) ct with
      | None => (c, inr (total, Some ErrTransportWrite))
      | Some w => (set_wire c w, inl (HLoop rest (total + k)))
      end
  end.

(** What may happen next: a goroutine gets the lock for a [Write], the one that has it goes
    on, a [Read] runs, the connection is closed. *)
Inductive shared_event :=
| ShLock (i : nat) (p : bytes)
| ShWrite
| ShRead (i : nat) (plen : nat)
| ShClose.

Definition shared_step (s : shared) (e : shared_event) : option shared :=
  match e with
  | ShLock i p =>
      match sh_writer s with
      | Some _ => None
      | None => Some (mkShared (sh_conn s) (Some (i, p, HLoop p 0)) (sh_calls s))
      end
  | ShWrite =>
      match sh_writer s with
      | None => None
      | Some (i, p, h) =>
          Some (match write_step (sh_conn s) h with
                | (c, inl h') => mkShared c (Some (i, p, h')) (sh_calls s)
                | (c, inr res) => mkShared c None (sh_calls s ++ [CallWrite i p res])
                end)
      end
  | ShRead i n =>
      let '(c, r) := Read Decrypt (sh_conn s) n in
      Some (mkShared c (sh_writer s) (sh_calls s ++ [CallRead i n r]))
  | ShClose => Some (mkShared (Close (sh_conn s)) (sh_writer s) (sh_calls s))
  end.

Fixpoint shared_run (s : shared) (evs : list shared_event) : option shared :=
  match evs with
  | [] => Some s
  | e :: evs' => s ← shared_step s e; shared_run s evs'
  end.

(** ** The calls one after the other *)

(** [c'] is the connection after the calls, each of which returned what it says. *)
Inductive calls_run : Conn -> list call -> Conn -> Prop :=
| calls_nil c : calls_run c [] c
| calls_write c i p c1 res l c2 : Write Encrypt c p = (c1, res) -> calls_run c1 l c2 -> calls_run c (CallWrite i p res :: l) c2
| calls_read c i n c1 r l c2 : Read Decrypt c n = (c1, r) -> calls_run c1 l c2 -> calls_run c (CallRead i n r :: l) c2.

Lemma calls_run_snoc c l c1 x c2 : calls_run c l c1 -> calls_run c1 [x] c2 -> calls_run c (l ++ [x]) c2.
Proof. induction 1; intros Hx; [done|by econstructor; [|apply IHcalls_run]..]. Qed.

(** *** A write does not see the reading side, nor a read the writing side *)

Lemma write_loop_recv f c p t r b i :
  write_loop Encrypt f (set_recv c r b i) p t
  = (set_recv (write_loop Encrypt f c p t).1 r b i, (write_loop Encrypt f c p t).2).
Proof.
  revert c p t. induction f as [|f IH]; intros c p t; [done|]. cbn [write_loop]. destruct p as [|x p]; [done|].
  cbn [sendCS set_recv output]. destruct (Encrypt (sendCS c) _) as [[s' ct]|e]; [|done].
  destruct (writeFrame (output c) ct) as [w' [[]|e]]; [|done].
  exact (IH (set_send c s' w') _ _).
Qed.

Lemma write_loop_keeps f c p t :
  let c' := (write_loop Encrypt f c p t).1 in
  recvCS c' = recvCS c /\ readBuf c' = readBuf c /\ input c' = input c.
Proof.
  revert c p t. induction f as [|f IH]; intros c p t; [done|]. cbn [write_loop]. destruct p as [|x p]; [done|].
  destruct (Encrypt (sendCS c) _) as [[s' ct]|e]; [|done].
  destruct (writeFrame (output c) ct) as [w' [[]|e]]; [|done].
  exact (IH (set_send c s' w') _ _).
Qed.

Lemma Read_recv c n : exists r b i, (Read Decrypt c n).1 = set_recv c r b i.
Proof. unfold Read. by repeat case_match; eexists _, _, _. Qed.

Lemma Read_same c c' n :
  recvCS c' = recvCS c -> readBuf c' = readBuf c -> input c' = input c ->
  Read Decrypt c' n
  = (set_recv c' (recvCS (Read Decrypt c n).1) (readBuf (Read Decrypt c n).1) (input (Read Decrypt c n).1), (Read Decrypt c n).2).
Proof. unfold Read. intros -> -> ->. by repeat case_match. Qed.

(** More fuel than bytes changes nothing. *)
Lemma write_loop_fuel f c p t : length p <= f -> write_loop Encrypt f c p t = write_loop Encrypt (length p) c p t.
Proof.
  revert f c t. induction p as [p IH] using (well_founded_induction (well_founded_ltof _ (@length ascii))). unfold ltof in IH.
  intros f c t Hf. destruct p as [|x p]; [by destruct f|].
  destruct f as [|f]; [cbn in Hf; lia|]. cbn [length write_loop].
  destruct (Encrypt (sendCS c) _) as [[s' ct]|e]; [|done].
  destruct (writeFrame (output c) ct) as [w' [[]|e]]; [|done].
  set (q := drop _ (x :: p)).
  assert (length q <= length p) as Hq.
  { unfold q. rewrite length_drop, length_take. pose proof maxNoisePlaintext_pos. cbn [length]. lia. }
  rewrite (IH q ltac:(cbn; lia) f), (IH q ltac:(cbn; lia) (length p)); [done|lia|cbn in Hf; lia].
Qed.

(** *** What remains of a write *)

Definition resume (c : Conn) (h : holder) : Conn * write_result :=
  match h with
  | HLoop p total => write_loop Encrypt (length p) c p total
  | HPayload ct k rest total =>
      match wire_Write (output c) ct with
      | None => (c, (total, Some ErrTransportWrite))
      | Some w => write_loop Encrypt (length rest) (set_wire c w) rest (total + k)
      end
  end.

Lemma write_step_resume c h :
  resume c h = match write_step c h with (c', inl h') => resume c' h' | (c', inr res) => (c', res) end.
Proof.
  destruct h as [[|x p] total|ct k rest total]; cbn [write_step resume]; [done| |by destruct (wire_Write _ _)].
  cbn [length write_loop]. destruct (Encrypt (sendCS c) _) as [[s' ct]|e]; [|done].
  unfold writeFrame. cbn [output set_send]. case_bool_decide; [done|].
  destruct (wire_Write (output c) _) as [w1|]; [|done]. cbn [resume output set_wire set_send].
  destruct (wire_Write w1 ct) as [w2|]; [|done].
  rewrite write_loop_fuel; [done|]. rewrite length_drop, length_take. pose proof maxNoisePlaintext_pos. cbn [length]. lia.
Qed.

Lemma resume_recv c h r b i : resume (set_recv c r b i) h = (set_recv (resume c h).1 r b i, (resume c h).2).
Proof.
  destruct h as [p t|ct k rest t]; cbn [resume]; [apply write_loop_recv|]. cbn [output set_recv].
  destruct (wire_Write (output c) ct) as [w|]; [|done]. exact (write_loop_recv _ (set_wire c w) rest (t + k) r b i).
Qed.

Lemma resume_keeps c h :
  let c' := (resume c h).1 in recvCS c' = recvCS c /\ readBuf c' = readBuf c /\ input c' = input c.
Proof.
  destruct h as [p t|ct k rest t]; cbn [resume]; [apply write_loop_keeps|].
  destruct (wire_Write (output c) ct) as [w|]; [|done]. exact (write_loop_keeps _ (set_wire c w) rest (t + k)).
Qed.

(** *** The steps and the calls

    The calls that have returned, made one after the other, lead to a connection [c1]; the
    write that is going on will make of the connection there is what it would make of [c1]. *)
Definition serialised (c0 : Conn) (s : shared) : Prop :=
  exists c1, calls_run c0 (sh_calls s) c1 /\
  match sh_writer s with
  | None => sh_conn s = c1
  | Some (_, p, h) => resume (sh_conn s) h = Write Encrypt c1 p
       /\ recvCS c1 = recvCS (sh_conn s) /\ readBuf c1 = readBuf (sh_conn s) /\ input c1 = input (sh_conn s)
  end.

Lemma write_step_keeps c h : let c' := (write_step c h).1 in recvCS c' = recvCS c /\ readBuf c' = readBuf c /\ input c' = input c.
Proof. destruct h as [[|x p] t|ct k rest t]; cbn [write_step]; [done|..]; by repeat case_match. Qed.

Lemma shared_step_serialised c0 s e s' :
  serialised c0 s -> e <> ShClose -> shared_step s e = Some s' -> serialised c0 s'.
Proof.
  intros (c1 & Hc & Hw) He Hs. destruct e as [i p| |i n|]; cbn [shared_step] in Hs; [| | |done].
  - destruct (sh_writer s); [done|]. injection Hs as <-. exists c1. subst c1. by split.
  - destruct (sh_writer s) as [[[i p] h]|]; [|done]. destruct Hw as (Hr & H1 & H2 & H3). injection Hs as <-.
    rewrite write_step_resume in Hr. pose proof (write_step_keeps (sh_conn s) h) as (K1 & K2 & K3).
    destruct (write_step (sh_conn s) h) as [c' [h'|res]]; cbn [fst] in *.
    + exists c1. split; [done|]. cbn [sh_conn sh_writer]. split; [done|]. by rewrite K1, K2, K3.
    + exists c'. split; [|done]. eapply calls_run_snoc; [exact Hc|]. econstructor; [by symmetry|constructor].
  - destruct (Read Decrypt (sh_conn s) n) as [c' r] eqn:Hrd. injection Hs as <-. cbn [sh_calls sh_conn sh_writer].
    destruct (sh_writer s) as [[[i' p] h]|] eqn:Hwr.
    + destruct Hw as (Hr & H1 & H2 & H3). pose proof (Read_same _ c1 n H1 H2 H3) as Hrd'. rewrite Hrd in Hrd'. cbn [fst snd] in Hrd'.
      destruct (Read_recv (sh_conn s) n) as (r' & b' & i'' & Hc'). rewrite Hrd in Hc'. cbn [fst] in Hc'. subst c'.
      exists (set_recv c1 r' b' i''). split; [eapply calls_run_snoc; [exact Hc|]; econstructor; [exact Hrd'|constructor]|].
      cbn [sh_conn sh_writer]. split; [|done]. rewrite resume_recv, Hr. unfold Write. by rewrite write_loop_recv.
    + subst c1. exists c'. split; [|done]. eapply calls_run_snoc; [exact Hc|]. econstructor; [exact Hrd|constructor].
Qed.

Lemma shared_run_serialised c0 s evs s' :
  serialised c0 s -> ShClose ∉ evs -> shared_run s evs = Some s' -> serialised c0 s'.
Proof.
  revert s. induction evs as [|e evs IH]; intros s Hs Hn Hr; [by simplify_eq/=|].
  apply not_elem_of_cons in Hn as [He Hn]. cbn in Hr. apply bind_Some in Hr as (s1 & Hs1 & Hr).
  eapply IH; [|done..]. by eapply shared_step_serialised.
Qed.

Lemma shared_start_serialised c : serialised c (shared_start c).
Proof. exists c. split; [constructor|done]. Qed.

(** However the steps of concurrent calls interleave, as long as the connection is not
    closed: once no write is going on, the connection is what the same calls, one after the
    other in the order in which they returned, make of it, and each has returned what it
    returns there. *)
Theorem shared_serialises c0 evs s :
  ShClose ∉ evs -> shared_run (shared_start c0) evs = Some s -> sh_writer s = None ->
  calls_run c0 (sh_calls s) (sh_conn s).
Proof.
  intros Hn Hr Hw. destruct (shared_run_serialised c0 _ _ _ (shared_start_serialised c0) Hn Hr) as (c1 & Hc & H).
  rewrite Hw in H. by subst c1.
Qed.

(** Nothing leaves after [Close], whoever was in the middle of a write. *)
Theorem nothing_after_Close s evs s' :
  shared_run s (ShClose :: evs) = Some s' -> sent (output (sh_conn s')) = sent (output (sh_conn s)).
Proof.
  cbn. assert (forall s1, writes_left (output (sh_conn s1)) = Some 0 -> shared_run s1 evs = Some s' ->
    sent (output (sh_conn s')) = sent (output (sh_conn s1))) as H; [|intros Hr; by apply H in Hr].
  induction evs as [|e evs IH]; intros s1 H1 Hr; [by simplify_eq/=|].
  cbn in Hr. apply bind_Some in Hr as (s2 & Hs & Hr).
  enough (writes_left (output (sh_conn s2)) = Some 0 /\ sent (output (sh_conn s2)) = sent (output (sh_conn s1))) as [H2 H3].
  { by rewrite (IH _ H2 Hr). }
  destruct e as [i p| |i n|]; cbn [shared_step] in Hs.
  - destruct (sh_writer s1); [done|]. by injection Hs as <-.
  - destruct (sh_writer s1) as [[[i p] h]|]; [|done]. injection Hs as <-.
    assert (output (write_step (sh_conn s1) h).1 = output (sh_conn s1)) as Ho.
    { destruct h as [[|x p'] t|ct k rest t]; cbn [write_step]; unfold wire_Write; rewrite ?H1; [done|..|done].
      destruct (Encrypt _ _) as [[s'' ct]|e]; [|done]. cbn [output set_send]. rewrite H1. by case_bool_decide. }
    destruct (write_step (sh_conn s1) h) as [c' [h'|res]]; cbn in Ho |- *; by rewrite Ho.
  - pose proof (Read_recv (sh_conn s1) n) as (r & b & i' & Hc). destruct (Read _ _ _) as [c' res].
    cbn in Hc. subst c'. by injection Hs as <-.
  - by injection Hs as <-.
Qed.

(** ** What is written is read

    The bytes of the calls of [Write], in the order in which the goroutines got the lock. *)
Definition locked (evs : list shared_event) : bytes :=
  concat (map (fun e => match e with ShLock _ p => p | _ => [] end) evs).

Definition written (l : list call) : bytes :=
  concat (map (fun x => match x with CallWrite _ p _ => p | _ => [] end) l).

Definition in_progress (s : shared) : bytes := match sh_writer s with Some (_, p, _) => p | None => [] end.

Definition write_ok (x : call) : Prop :=
  match x with CallWrite _ p res => res = (length p, None) | CallRead _ _ _ => True end.

Lemma written_snoc l x : written (l ++ [x]) = written l ++ written [x].
Proof. unfold written. by rewrite map_app, concat_app. Qed.

Lemma shared_step_locked s e s' :
  shared_step s e = Some s' -> written (sh_calls s') ++ in_progress s' = written (sh_calls s) ++ in_progress s ++ locked [e].
Proof.
  unfold in_progress. destruct e as [i p| |i n|]; cbn [shared_step].
  - destruct (sh_writer s); [done|]. intros [= <-]. cbn. by rewrite app_nil_r.
  - destruct (sh_writer s) as [[[i p] h]|]; [|done]. intros [= <-].
    destruct (write_step _ h) as [c' [h'|res]]; cbn [sh_calls sh_writer]; rewrite ?written_snoc; cbn; by rewrite ?app_nil_r.
  - destruct (Read _ _ _) as [c' r]. intros [= <-]. cbn [sh_calls sh_writer]. rewrite written_snoc. cbn. by rewrite !app_nil_r.
  - intros [= <-]. cbn. by rewrite app_nil_r.
Qed.

Lemma shared_run_locked s evs s' :
  shared_run s evs = Some s' -> written (sh_calls s') ++ in_progress s' = written (sh_calls s) ++ in_progress s ++ locked evs.
Proof.
  revert s. induction evs as [|e evs IH]; intros s Hr; [simplify_eq/=; by rewrite app_nil_r|].
  cbn in Hr. apply bind_Some in Hr as (s1 & Hs & Hr). rewrite (IH _ Hr), app_assoc, (shared_step_locked _ _ _ Hs).
  unfold locked. cbn. rewrite app_nil_r. by rewrite <- !app_assoc.
Qed.

Context (paired : CS -> CS -> Prop).
Hypothesis aead : aead_contract Encrypt Decrypt paired.

Lemma calls_run_stream c l c' r :
  calls_run c l c' -> writes_left (output c) = None -> paired (sendCS c) r ->
  Forall write_ok l
  /\ exists st r', sent (output c') = sent (output c) ++ st /\ writes_left (output c') = None /\ paired (sendCS c') r'
     /\ forall st2 p2, carries Decrypt r' st2 p2 -> carries Decrypt r (st ++ st2) (written l ++ p2).
Proof.
  intros Hc. revert r. induction Hc as [c|c i p c1 res l c2 Hw Hc IH|c i n c1 rd l c2 Hrd Hc IH]; intros r Hl Hp.
  - split; [constructor|]. exists [], r. by rewrite app_nil_r.
  - destruct (write_loop_carries Encrypt Decrypt paired aead (length p) c p 0 r (le_n _) Hl Hp)
      as (c1' & st1 & r1 & Hloop & Hs1 & Hl1 & Hp1 & Hcar1).
    unfold Write in Hw. rewrite Hw in Hloop. injection Hloop as <- ->.
    destruct (IH r1 Hl1 Hp1) as (Hok & st & r' & Hs & Hl' & Hp' & Hcar).
    split; [by constructor|]. exists (st1 ++ st), r'. split; [by rewrite Hs, Hs1, app_assoc|]. split; [done|]. split; [done|].
    intros st2 p2 H2. change (written (CallWrite i p (length p, None) :: l)) with (p ++ written l).
    rewrite <- !app_assoc. by apply Hcar1, Hcar.
  - destruct (Read_recv c n) as (r1 & b1 & i1 & Hc1). rewrite Hrd in Hc1. cbn in Hc1. subst c1.
    destruct (IH r Hl Hp) as (Hok & st & r' & H). split; [by constructor|]. exists st, r'. exact H.
Qed.

(** Any number of goroutines write to one end of a connection at the same time, with
    reads of their own in between and in whatever order their steps come. Once all calls
    have returned, each [Write] has taken all of its bytes, and the other end reads the
    writes whole and unmixed, one after the other in the order in which the goroutines got
    the lock: a prefix of that whatever the sizes of the reads, everything once there is
    one read per byte. *)
Theorem concurrent_writes_stream (c0 receiver : Conn) evs s sizes :
  writes_left (output c0) = None -> sent (output c0) = [] ->
  paired (sendCS c0) (recvCS receiver) -> readBuf receiver = [] ->
  ShClose ∉ evs -> shared_run (shared_start c0) evs = Some s -> sh_writer s = None ->
  Forall (fun n => 0 < n) sizes ->
  Forall write_ok (sh_calls s)
  /\ let receiver' := set_recv receiver (recvCS receiver) [] (sent (output (sh_conn s))) in
     exists rest, locked evs = (read_all Decrypt sizes receiver').2 ++ rest
       /\ (length (locked evs) <= length sizes -> rest = []).
Proof.
  intros Hl Hs Hp Hb Hn Hr Hw Hsizes.
  destruct (shared_run_serialised c0 _ _ _ (shared_start_serialised c0) Hn Hr) as (c1 & Hc & H).
  rewrite Hw in H. subst c1. pose proof (shared_run_locked _ _ _ Hr) as Hlk.
  unfold in_progress in Hlk. rewrite Hw, app_nil_r in Hlk. cbn in Hlk.
  destruct (calls_run_stream _ _ _ _ Hc Hl Hp) as (Hok & st & r' & Hsent & _ & _ & Hcar).
  split; [done|]. intros receiver'. rewrite <- Hlk. apply (read_all_pending Decrypt); [|done].
  exists (written (sh_calls s)). split; [done|]. cbn. rewrite Hsent, Hs. cbn [app].
  rewrite <- (app_nil_r st), <- (app_nil_r (written _)). apply Hcar. constructor.
Qed.

(** *** One goroutine that writes, one that reads

    This is the use that the comment of the type promises to be safe. *)
Inductive duplex_event :=
| DxWrite (p : bytes)
| DxGoOn
| DxRead (plen : nat).

Definition duplex (e : duplex_event) : shared_event :=
  match e with DxWrite p => ShLock 0 p | DxGoOn => ShWrite | DxRead n => ShRead 1 n end.

Definition dx_written (evs : list duplex_event) : bytes :=
  concat (map (fun e => match e with DxWrite p => p | _ => [] end) evs).
Definition dx_sizes (evs : list duplex_event) : list nat :=
  omap (fun e => match e with DxRead n => Some n | _ => None end) evs.

(** What the calls returned: the writes, and the reads. *)
Definition write_results (l : list call) : list (bytes * write_result) :=
  omap (fun x => match x with CallWrite _ p res => Some (p, res) | _ => None end) l.
Definition read_results (l : list call) : list (result bytes conn_error) :=
  omap (fun x => match x with CallRead _ _ r => Some r | _ => None end) l.

(** Reads of the given sizes, one after the other, with nobody else around. *)
Fixpoint reads_alone (c : Conn) (sizes : list nat) : list (result bytes conn_error) :=
  match sizes with
  | [] => []
  | n :: sizes' => let '(c', r) := Read Decrypt c n in r :: reads_alone c' sizes'
  end.

Lemma reads_alone_same c c' sizes :
  recvCS c' = recvCS c -> readBuf c' = readBuf c -> input c' = input c -> reads_alone c' sizes = reads_alone c sizes.
Proof.
  revert c c'. induction sizes as [|n sizes IH]; intros c c' H1 H2 H3; [done|]. cbn [reads_alone].
  rewrite (Read_same c c' n H1 H2 H3). destruct (Read_recv c n) as (r & b & i & Hc).
  destruct (Read Decrypt c n) as [c1 res]. cbn in Hc. subst c1. f_equal. by apply IH.
Qed.

Definition read_sizes (l : list call) : list nat := omap (fun x => match x with CallRead _ n _ => Some n | _ => None end) l.

Lemma calls_run_reads c l c' : calls_run c l c' -> read_results l = reads_alone c (read_sizes l).
Proof.
  induction 1 as [c|c i p c1 res l c2 Hw Hc IH|c i n c1 rd l c2 Hrd Hc IH]; [done|..].
  - change (read_results l = reads_alone c (read_sizes l)). rewrite IH. pose proof (write_loop_keeps (length p) c p 0) as (H1 & H2 & H3).
    unfold Write in Hw. rewrite Hw in H1, H2, H3. by apply reads_alone_same.
  - cbn. rewrite Hrd. f_equal. exact IH.
Qed.

(** The reads return in the order in which they are made. *)
Lemma shared_run_sizes s evs s' :
  shared_run s (map duplex evs) = Some s' -> read_sizes (sh_calls s') = read_sizes (sh_calls s) ++ dx_sizes evs.
Proof.
  revert s. induction evs as [|e evs IH]; intros s Hr; [simplify_eq/=; by rewrite app_nil_r|].
  cbn [map shared_run] in Hr. apply bind_Some in Hr as (s1 & Hs & Hr). rewrite (IH _ Hr).
  assert (read_sizes (sh_calls s1) = read_sizes (sh_calls s) ++ dx_sizes [e]) as ->.
  { destruct e as [p| |n]; cbn [duplex shared_step] in Hs.
    - destruct (sh_writer s); [done|]. injection Hs as <-. cbn. by rewrite app_nil_r.
    - destruct (sh_writer s) as [[[i p] h]|]; [|done]. injection Hs as <-.
      destruct (write_step _ h) as [c' [h'|res]]; cbn; unfold read_sizes; rewrite ?omap_app; cbn; by rewrite ?app_nil_r.
    - destruct (Read _ _ _) as [c' r]. injection Hs as <-. cbn. unfold read_sizes. by rewrite omap_app. }
  rewrite <- app_assoc. f_equal. by destruct e.
Qed.

Lemma dx_locked evs : locked (map duplex evs) = dx_written evs.
Proof. unfold locked, dx_written. rewrite map_map. f_equal. apply map_ext. by intros []. Qed.

Lemma dx_no_close evs : ShClose ∉ map duplex evs.
Proof. intros Hin. apply list_elem_of_fmap in Hin as ([] & [=] & _). Qed.

Lemma write_ok_results l : Forall write_ok l -> Forall (fun x => x.2 = (length x.1, None)) (write_results l).
Proof. induction 1 as [|[i p res|i n r] l Hx _ IH]; cbn; [constructor|by constructor|exact IH]. Qed.

(** C19: a connection is safe for a [Read] and a [Write] at the same time, as the comment of
    the type says. One goroutine writes any number of times on an end of the connection and
    another one reads there, their steps in any order, frames of a write and reads between
    each other. Once the last write has returned, each write has taken all of its bytes
    without an error; the peer reads the bytes of all the writes, in order, a prefix of
    them whatever the sizes of its reads and everything once there is one read per byte; and
    each read on this end has returned what it would have with no write going on. *)
Theorem duplex_streams (c0 receiver : Conn) evs s sizes :
  writes_left (output c0) = None -> sent (output c0) = [] ->
  paired (sendCS c0) (recvCS receiver) -> readBuf receiver = [] ->
  shared_run (shared_start c0) (map duplex evs) = Some s -> sh_writer s = None ->
  Forall (fun n => 0 < n) sizes ->
  Forall (fun x => x.2 = (length x.1, None)) (write_results (sh_calls s))
  /\ (let receiver' := set_recv receiver (recvCS receiver) [] (sent (output (sh_conn s))) in
      exists rest, dx_written evs = (read_all Decrypt sizes receiver').2 ++ rest
        /\ (length (dx_written evs) <= length sizes -> rest = []))
  /\ read_results (sh_calls s) = reads_alone c0 (dx_sizes evs).
Proof.
  intros Hl Hs Hp Hb Hr Hw Hsizes.
  destruct (concurrent_writes_stream c0 receiver _ s sizes Hl Hs Hp Hb (dx_no_close evs) Hr Hw Hsizes) as [Hok Hst].
  rewrite dx_locked in Hst. split; [by apply write_ok_results|]. split; [exact Hst|].
  rewrite (calls_run_reads _ _ _ (shared_serialises c0 _ _ (dx_no_close evs) Hr Hw)).
  by rewrite (shared_run_sizes _ _ _ Hr).
Qed.

(** ** Deadlines

    A read whose deadline passes when [k] more bytes have arrived: what [io.ReadFull] has
    taken by then is gone. *)
Definition Read_until (c : Conn) (plen k : nat) : Conn * option (result bytes conn_error) :=
  if bool_decide (0 < length (readBuf c)) || bool_decide (length (input c) <= k) then
    let '(c, r) := Read Decrypt c plen in (c, Some r)
  else
    match @readFrame E (take k (input c)) with
    | Err (ErrIO _) => (set_recv c (recvCS c) (readBuf c) (drop k (input c)), None)
    | _ => let '(c, r) := Read Decrypt c plen in (c, Some r)
    end.

(** A deadline that passes between the header of a frame and its end loses what had come
    of it: the next read takes the rest of the frame for a header. *)
Lemma deadline_in_frame c plen k ct rest :
  readBuf c = [] -> input c = frame_of ct ++ rest -> 2 <= k < length (frame_of ct) -> (Z.of_nat (length ct) <= 65535)%Z ->
  Read_until c plen k = (set_recv c (recvCS c) [] (drop (k - 2) ct ++ rest), None).
Proof.
  intros Hb Hi Hk Hl. unfold Read_until. assert (length (frame_of ct) = 2 + length ct) as Hlen by (unfold frame_of; by rewrite length_app).
  rewrite Hb, Hi, bool_decide_eq_false_2 by (cbn; lia). rewrite bool_decide_eq_false_2 by (rewrite length_app; lia). cbn [orb].
  assert (readFrame (take k (frame_of ct ++ rest)) = Err (@ErrIO E (if bool_decide (k = 2) then EOF else ErrUnexpectedEOF))) as ->.
  { rewrite take_app_le by lia. unfold readFrame, frame_of. rewrite take_app_ge by (cbn; lia).
    change (length (put_uint16 (Z.of_nat (length ct)))) with 2. unfold ReadFull.
    rewrite bool_decide_eq_true_2 by (rewrite length_app; cbn; lia). cbn [map_err result_bind].
    rewrite take_app_length', drop_app_length' by done. rewrite put_get_uint16 by lia.
    destruct (Z.eqb_spec (Z.of_nat (length ct)) 0); [lia|].
    rewrite Nat2Z.id, bool_decide_eq_false_2 by (rewrite length_take; lia). cbn [map_err].
    destruct (decide (k = 2)) as [->|Hne]; [done|]. rewrite bool_decide_eq_false_2 by done.
    destruct (take (k - 2) ct) as [|x y] eqn:E0; [|done]. apply (f_equal length) in E0. rewrite length_take in E0. cbn in E0. lia. }
  rewrite drop_app_le by lia. unfold frame_of. rewrite drop_app_ge by (cbn; lia). done.
Qed.
End Shared.

(** ** Evaluations *)

#[export] Instance shared_event_eq_dec : EqDecision shared_event.
Proof. solve_decision. Defined.

Definition toy_end : Conn (CS := nat) := mkConn [] 0 0 [] [] (mkWire [] None).

(** Two goroutines; the second one gets the lock when the first has returned, and reads
    fall in between. *)
Definition two_writers : list shared_event :=
  [ShLock 1 (bytes_of_string "hello "); ShWrite; ShRead 3 4; ShWrite; ShWrite; ShLock 2 (bytes_of_string "world"); ShWrite; ShRead 3 4;
   ShWrite; ShWrite].

Definition two_written : option (shared (CS := nat) (E := unit)) :=
  shared_run toy_encrypt toy_decrypt (shared_start toy_end) two_writers.

Example two_writers_example :
  (sh_calls <$> two_written)
  = Some [CallRead 3 4 (Err (ErrIO EOF)); CallWrite 1 (bytes_of_string "hello ") (6, None);
          CallRead 3 4 (Err (ErrIO EOF)); CallWrite 2 (bytes_of_string "world") (5, None)]
  /\ shared_run toy_encrypt toy_decrypt (shared_start toy_end)
       [ShLock 1 (bytes_of_string "a"); ShLock 2 (bytes_of_string "b")] = None.
Proof. by vm_compute. Qed.

(** One goroutine writes twice, the other reads what the peer has sent, a frame of a write
    between its header and its payload when it does. *)
Definition busy_end : Conn (CS := nat) :=
  set_recv toy_end 0 [] (sent (output (Write toy_encrypt toy_end (bytes_of_string "ping")).1)).

Definition duplex_events : list duplex_event :=
  [DxWrite (bytes_of_string "hello "); DxGoOn; DxRead 3; DxGoOn; DxRead 3; DxGoOn; DxWrite (bytes_of_string "world"); DxGoOn; DxGoOn; DxGoOn].

Lemma duplex_streams_witness :
  match shared_run (E := unit) toy_encrypt toy_decrypt (shared_start busy_end) (map duplex duplex_events) with
  | Some s =>
      write_results (sh_calls s) = [(bytes_of_string "hello ", (6, None)); (bytes_of_string "world", (5, None))]
      /\ (read_all toy_decrypt (repeat 3 11) (set_recv toy_end 0 [] (sent (output (sh_conn s))))).2 = bytes_of_string "hello world"
      /\ read_results (sh_calls s) = [Ok (bytes_of_string "pin"); Ok (bytes_of_string "g")]
  | None => False
  end.
Proof.
  destruct (shared_run _ _ _ _) as [s|] eqn:E; [|vm_compute in E; discriminate E].
  assert (sh_writer s = None) as Hw by (vm_compute in E; injection E as <-; reflexivity).
  destruct (duplex_streams toy_encrypt toy_decrypt eq toy_aead busy_end toy_end duplex_events s (repeat 3 11)
    eq_refl eq_refl eq_refl eq_refl E Hw) as (_ & (rest & Hr & Hall) & Hreads).
  - repeat constructor.
  - split; [vm_compute in E; injection E as <-; vm_compute; reflexivity|]. split.
    + rewrite (Hall (le_n _)) in Hr. rewrite app_nil_r in Hr. cbv zeta in Hr.
      etransitivity; [symmetry; exact Hr|]. vm_compute. reflexivity.
    + rewrite Hreads. vm_compute. reflexivity.
Defined.

(** The peer has written one message, and all of it arrives; but a deadline passes when
    only the header of its frame is there. The reader then never gets the message, however
    it goes on reading. *)
Definition hello_sent : Conn (CS := nat) :=
  set_recv toy_end 0 [] (sent (output (Write toy_encrypt toy_end (bytes_of_string "hello")).1)).

Theorem deadline_loses_message :
  (read_all toy_decrypt [5] hello_sent).2 = bytes_of_string "hello"
  /\ (Read_until toy_decrypt hello_sent 5 2).2 = None
  /\ (forall n, (Read toy_decrypt (Read_until toy_decrypt hello_sent 5 2).1 n).2 = Err (ErrIO ErrUnexpectedEOF)).
Proof. split_and!; [by vm_compute..|]. intros n. by vm_compute. Qed.
