(* ===== verification/NoiseHandshake.v ===== *)
(** * pkg/noise: the XX handshake and [Dial] (handshake.go, dial.go)

    The handshake state is an object of the noise library; its constructor, [WriteMessage],
    [ReadMessage] and [PeerStatic] are parameters. The loop of [runHandshake] has no bound
    of its own: it is run here with fuel, and its termination rests on the library's
    contract that an XX handshake is over after its third message. *)

From S2P Require Import Prelude NoiseConfig NoiseConn.
From Stdlib Require Import Ascii.

Section Handshake.
Context {HS CS E : Type}.

Context (NewHandshakeState : Keypair -> bool -> result HS E).
(** [hs.WriteMessage(nil, nil)]: the message, and the two cipher states of [Split] when
    the handshake is complete. *)
Context (WriteMessage : HS -> result (HS * bytes * option (CS * CS)) E).
Context (ReadMessage : HS -> bytes -> result (HS * option (CS * CS)) E).
Context (PeerStatic : HS -> bytes).

Inductive hs_error :=
| ErrConfig (e : config_error)
| ErrNewState (e : E)
| ErrWriteMsg (i : nat) (e : E)
| ErrSendMsg (i : nat) (e : conn_error E)
| ErrRecvMsg (i : nat) (e : conn_error E)
| ErrReadMsg (i : nat) (e : E)
| ErrNoPeerStatic.

(** The transport of one end during the handshake. *)
Record transport := mkTransport { tr_in : bytes; tr_out : wire }.

Definition finish (t : transport) (hs : HS) (cs1 cs2 : CS) (initiator : bool) (cfg : Config)
    : result (Conn (CS := CS)) hs_error :=
  let peer := PeerStatic hs in
  if bool_decide (length peer = 0) then Err ErrNoPeerStatic
  else match authorizePeer cfg peer with
       | Err e => Err (ErrConfig e)
       | Ok _ =>
           let '(send, recv) := if initiator then (cs1, cs2) else (cs2, cs1) in
           Ok (mkConn peer send recv [] (tr_in t) (tr_out t))
       end.

(** Whether this end writes message [i]: [initiator == (i%2 == 0)]. *)
Definition write_turn (initiator : bool) (i : nat) : bool :=
  Bool.eqb initiator (bool_decide (i mod 2 = 0)).

(** [None] when the fuel runs out. *)
Fixpoint handshake_loop (fuel : nat) (t : transport) (hs : HS) (cfg : Config)
    (initiator : bool) (i : nat) : option (transport * result (Conn (CS := CS)) hs_error) :=
  match fuel with
  | O => None
  | S f =>
      if write_turn initiator i then
        match WriteMessage hs with
        | Err e => Some (t, Err (ErrWriteMsg (i + 1) e))
        | Ok (hs', buf, cs) =>
            match writeFrame (tr_out t) buf with
            | (w', Err e) => Some (mkTransport (tr_in t) w', Err (ErrSendMsg (i + 1) e))
            | (w', Ok _) =>
                let t' := mkTransport (tr_in t) w' in
                match cs with
                | Some (cs1, cs2) => Some (t', finish t' hs' cs1 cs2 initiator cfg)
                | None => handshake_loop f t' hs' cfg initiator (i + 1)
                end
            end
        end
      else
        match readFrame (tr_in t) with
        | Err e => Some (mkTransport [] (tr_out t), Err (ErrRecvMsg (i + 1) e))
        | Ok (frame, rest) =>
            let t' := mkTransport rest (tr_out t) in
            match ReadMessage hs frame with
            | Err e => Some (t', Err (ErrReadMsg (i + 1) e))
            | Ok (hs', cs) =>
                match cs with
                | Some (cs1, cs2) => Some (t', finish t' hs' cs1 cs2 initiator cfg)
                | None => handshake_loop f t' hs' cfg initiator (i + 1)
                end
            end
        end
  end.

Definition runHandshake (fuel : nat) (t : transport) (cfg : Config) (initiator : bool)
    : option (transport * result (Conn (CS := CS)) hs_error) :=
  match config_validate cfg with
  | Err e => Some (t, Err (ErrConfig e))
  | Ok _ =>
      match NewHandshakeState (Static cfg) initiator with
      | Err e => Some (t, Err (ErrNewState e))
      | Ok hs => handshake_loop fuel t hs cfg initiator 0
      end
  end.

Inductive dial_error :=
| ErrTcpDial (addr : string) (e : E)
| ErrHandshake (addr : string) (e : hs_error).

(** [Dial]: [dialed] is what the TCP dialer returned. The second component says whether
    the TCP connection is left open. *)
Definition Dial (fuel : nat) (addr : string) (dialed : result transport E) (cfg : Config)
    : option (result (Conn (CS := CS)) dial_error * bool) :=
  match dialed with
  | Err e => Some (Err (ErrTcpDial addr e), false)
  | Ok t =>
      match runHandshake fuel t cfg true with
      | None => None
      | Some (_, Err e) => Some (Err (ErrHandshake addr e), false)
      | Some (_, Ok c) => Some (Ok c, true)
      end
  end.

(** ** Authentication *)

Lemma finish_authorized t hs cs1 cs2 initiator cfg c :
  finish t hs cs1 cs2 initiator cfg = Ok c ->
  peerStatic c = PeerStatic hs /\ peerStatic c <> []
  /\ (authorized cfg = [] \/ peerStatic c ∈ authorized cfg)
  /\ (if initiator then sendCS c = cs1 /\ recvCS c = cs2
      else sendCS c = cs2 /\ recvCS c = cs1).
Proof.
  unfold finish. case_bool; [done|]. zbool.
  destruct (authorizePeer cfg (PeerStatic hs)) as [[]|] eqn:Ha; [|done].
  apply authorizePeer_ok in Ha. intros Hc.
  destruct initiator; injection Hc as <-; cbn; repeat split; auto;
    intros Hn; by rewrite Hn in E0.
Qed.

Lemma handshake_loop_authorized fuel t hs cfg initiator i t' c :
  handshake_loop fuel t hs cfg initiator i = Some (t', Ok c) ->
  peerStatic c <> [] /\ (authorized cfg = [] \/ peerStatic c ∈ authorized cfg).
Proof.
  revert t hs i. induction fuel as [|f IH]; intros t hs i; cbn; [done|].
  destruct (write_turn initiator i).
  - destruct (WriteMessage hs) as [[[hs' buf] cs]|]; [|done].
    destruct (writeFrame _ _) as [w' [|]]; [|done].
    destruct cs as [[cs1 cs2]|]; [|apply IH]. intros H. injection H as _ Hf.
    apply finish_authorized in Hf. naive_solver.
  - destruct (readFrame _) as [[fr rest]|]; [|done].
    destruct (ReadMessage hs fr) as [[hs' cs]|]; [|done].
    destruct cs as [[cs1 cs2]|]; [|apply IH]. intros H. injection H as _ Hf.
    apply finish_authorized in Hf. naive_solver.
Qed.

(** C24: a connection that comes out of a handshake, on either side, has a peer key; when
    an allowlist is configured the key is on it, and the configuration was valid. *)
Theorem runHandshake_authorized fuel t cfg initiator t' c :
  runHandshake fuel t cfg initiator = Some (t', Ok c) ->
  config_validate cfg = Ok tt /\ peerStatic c <> []
  /\ (authorized cfg = [] \/ peerStatic c ∈ authorized cfg).
Proof.
  unfold runHandshake. destruct (config_validate cfg) as [[]|]; [|done].
  destruct (NewHandshakeState _ _); [|done]. intros H. split; [done|].
  by eapply handshake_loop_authorized.
Qed.

(** ** Termination

    [left hs] is the number of messages still to be exchanged. *)
Context (left : HS -> nat).

Definition xx_contract : Prop :=
  (forall kp i hs, NewHandshakeState kp i = Ok hs -> left hs = 3)
  /\ (forall hs hs' m cs, WriteMessage hs = Ok (hs', m, cs) ->
        left hs = S (left hs') /\ (left hs' = 0 -> is_Some cs))
  /\ (forall hs hs' m cs, ReadMessage hs m = Ok (hs', cs) ->
        left hs = S (left hs') /\ (left hs' = 0 -> is_Some cs)).

Hypothesis xx : xx_contract.

Lemma handshake_loop_terminates fuel t hs cfg initiator i :
  0 < left hs <= fuel -> is_Some (handshake_loop fuel t hs cfg initiator i).
Proof.
  destruct xx as (_ & HW & HR). revert t hs i.
  induction fuel as [|f IH]; intros t hs i Hf; [lia|]. cbn.
  destruct (write_turn initiator i).
  - destruct (WriteMessage hs) as [[[hs' buf] cs]|] eqn:Hm; [|eauto].
    destruct (HW _ _ _ _ Hm) as [Hl Hc].
    destruct (writeFrame _ _) as [w' [|]]; [|eauto].
    destruct cs as [[cs1 cs2]|]; [eauto|]. apply IH.
    destruct (left hs'); [destruct (Hc eq_refl); done|lia].
  - destruct (readFrame _) as [[fr rest]|]; [|eauto].
    destruct (ReadMessage hs fr) as [[hs' cs]|] eqn:Hm; [|eauto].
    destruct (HR _ _ _ _ Hm) as [Hl Hc].
    destruct cs as [[cs1 cs2]|]; [eauto|]. apply IH.
    destruct (left hs'); [destruct (Hc eq_refl); done|lia].
Qed.

(** The unbounded loop of [runHandshake] returns after at most three messages. *)
Theorem runHandshake_terminates t cfg initiator :
  is_Some (runHandshake 3 t cfg initiator).
Proof.
  unfold runHandshake. destruct (config_validate cfg); [|eauto].
  destruct (NewHandshakeState _ _) as [hs|] eqn:Hn; [|eauto].
  apply handshake_loop_terminates. destruct xx as (H0 & _). rewrite (H0 _ _ _ Hn). lia.
Qed.
End Handshake.

(** ** A concrete handshake library

    Messages carry the sender's static key in the clear and the peer key is the one read
    last: enough to run both ends against each other. *)
Record toy_hs := mkToyHs { toy_key : bytes; toy_peer : bytes; toy_left : nat }.

Definition toy_new (kp : Keypair) (_ : bool) : result toy_hs unit :=
  Ok (mkToyHs (Public kp) [] 3).

Definition toy_split (n : nat) : option (nat * nat) := if bool_decide (n = 0) then Some (0, 0) else None.

Definition toy_write (h : toy_hs) : result (toy_hs * bytes * option (nat * nat)) unit :=
  match toy_left h with
  | O => Err tt
  | S n => Ok (mkToyHs (toy_key h) (toy_peer h) n, toy_key h, toy_split n)
  end.

Definition toy_read (h : toy_hs) (m : bytes) : result (toy_hs * option (nat * nat)) unit :=
  match toy_left h with
  | O => Err tt
  | S n => Ok (mkToyHs (toy_key h) m n, toy_split n)
  end.

Lemma toy_xx : xx_contract toy_new toy_write toy_read toy_left.
Proof.
  repeat split.
  - by intros kp i hs [= <-].
  - unfold toy_write in H. destruct (toy_left hs) eqn:Hl; [done|]. by injection H as <- _ _.
  - unfold toy_write, toy_split in H. destruct (toy_left hs); [done|]. injection H as <- _ <-.
    cbn. intros ->. eauto.
  - unfold toy_read in H. destruct (toy_left hs) eqn:Hl; [done|]. by injection H as <- _.
  - unfold toy_read, toy_split in H. destruct (toy_left hs); [done|]. injection H as <- <-.
    cbn. intros ->. eauto.
Qed.

Definition toy_key_of (a : ascii) : bytes := repeat a 32.
Definition toy_config (a : ascii) (auth : option (list bytes)) : Config :=
  mkConfig (mkKeypair (toy_key_of a) (toy_key_of a)) auth.

(** The responder's transport after an initiator with key "i" has sent both its messages. *)
Definition toy_transport : transport :=
  mkTransport (frame_of (toy_key_of "i") ++ frame_of (toy_key_of "i")) (mkWire [] None).

Lemma runHandshake_authorized_witness :
  exists t' c,
    runHandshake toy_new toy_write toy_read toy_peer 3 toy_transport
      (toy_config "r" (Some [toy_key_of "x"; toy_key_of "i"])) false = Some (t', Ok c)
    /\ peerStatic c ∈ [toy_key_of "x"; toy_key_of "i"].
Proof.
  destruct (runHandshake toy_new toy_write toy_read toy_peer 3 toy_transport
      (toy_config "r" (Some [toy_key_of "x"; toy_key_of "i"])) false) as [[t' [c|e]]|] eqn:Hr.
  - exists t', c. split; [reflexivity|].
    destruct (runHandshake_authorized _ _ _ _ _ _ _ _ _ _ Hr) as (_ & _ & [Hn|Hin]).
    + discriminate Hn.
    + exact Hin.
  - vm_compute in Hr. discriminate Hr.
  - vm_compute in Hr. discriminate Hr.
Defined.

Lemma runHandshake_terminates_witness :
  is_Some (runHandshake toy_new toy_write toy_read toy_peer 3 toy_transport
             (toy_config "r" None) false).
Proof.
  apply (runHandshake_terminates toy_new toy_write toy_read toy_peer toy_left toy_xx).
Defined.
