(* ===== verification/NoiseListen.v ===== *)
(** * pkg/noise: the listener (listen.go)

    The accept loop, one handshake goroutine per inbound connection, the caller of
    [Accept] and the caller of [Close] interleave freely. The state records where each
    connection is; an event is one atomic action of one goroutine, a choice of [select]
    included, and [listen_step] is [None] where the action is blocked. *)

From S2P Require Import Prelude NoiseConfig NoiseConn NoiseHandshake.
From Stdlib Require Import Ascii.

(** [acceptResultBuffer]. *)
Definition acceptResultBuffer : nat := 16.

(** [NewListener] without the TCP bind ([bound]: what [net.Listen] returned): the
    configuration is checked before the bind, a zero timeout becomes five seconds. *)
Inductive listen_error (E : Type) :=
| ErrListenConfig (e : config_error)
| ErrBind (e : E).
Arguments ErrListenConfig {E} e.
Arguments ErrBind {E} e.

Definition NewListener {E} (cfg : Config) (handshakeTimeout : Z) (bound : option E)
    : result Z (listen_error E) :=
  match config_validate cfg with
  | Err e => Err (ErrListenConfig e)
  | Ok _ =>
      let t := if (handshakeTimeout =? 0)%Z then 5000000000%Z else handshakeTimeout in
      match bound with
      | Some e => Err (ErrBind e)
      | None => Ok t
      end
  end.

Section Listen.
Context {HS CS E : Type}.
Context (NewHandshakeState : Keypair -> bool -> result HS E).
Context (WriteMessage : HS -> result (HS * bytes * option (CS * CS)) E).
Context (ReadMessage : HS -> bytes -> result (HS * option (CS * CS)) E).
Context (PeerStatic : HS -> bytes).
Context (cfg : Config).
(** Rounds the handshake loop may take: three for XX. *)
Context (fuel : nat).

Definition nconn : Type := Conn (CS := CS).

Inductive accept_result := RConn (id : nat) (c : nconn) | RErr (e : E).

Inductive loop_state := LoopAccepting | LoopSending (e : E) | LoopDone.

Record listen := mkListen {
  l_loop : loop_state;
  l_next : nat;                           (* identity of the next inbound connection *)
  l_shaking : list (nat * transport);     (* in [runHandshake] *)
  l_publishing : list (nat * nconn);      (* in the [select] after a good handshake *)
  l_results : list accept_result;         (* the buffered channel *)
  l_delivered : list (nat * nconn);       (* returned by [Accept] *)
  l_rawclosed : list nat;                 (* connections this package has closed *)
  l_rejected : nat;                       (* calls of [onReject] *)
  l_closed : bool;                        (* the atomic flag *)
  l_stopped : bool;                       (* [stopCh] is closed *)
  l_raw_open : bool                       (* the TCP listener *)
}.

Definition listen_init : listen := mkListen LoopAccepting 0 [] [] [] [] [] 0 false false true.

Inductive event :=
| EvConnect (t : transport)  (* [raw.Accept] returns a connection; its goroutine starts *)
| EvAcceptError (e : E)      (* [raw.Accept] fails *)
| EvLoopSend                 (* the loop's [select] sends the error *)
| EvLoopStop                 (* the loop's [select] sees [stopCh] *)
| EvHandshake (id : nat)     (* [runHandshake] of connection [id] returns *)
| EvPublish (id : nat)       (* the goroutine's [select] sends the connection *)
| EvDrop (id : nat)          (* the goroutine's [select] sees [stopCh] *)
| EvAccept                   (* [Accept] receives from [results] *)
| EvCloseFlag                (* [Close] wins the compare-and-swap *)
| EvCloseStop                (* [Close] closes [stopCh] *)
| EvCloseRaw.                (* [Close] closes the TCP listener *)

Definition assoc_nat {A} (id : nat) (l : list (nat * A)) : option A :=
  snd <$> List.find (fun p => Nat.eqb p.1 id) l.

Fixpoint remove_nat {A} (id : nat) (l : list (nat * A)) : list (nat * A) :=
  match l with
  | [] => []
  | p :: l' => if Nat.eqb p.1 id then l' else p :: remove_nat id l'
  end.

Definition set_loop (s : listen) (x : loop_state) : listen :=
  mkListen x (l_next s) (l_shaking s) (l_publishing s) (l_results s) (l_delivered s)
    (l_rawclosed s) (l_rejected s) (l_closed s) (l_stopped s) (l_raw_open s).

Definition set_results (s : listen) (q : list accept_result) : listen :=
  mkListen (l_loop s) (l_next s) (l_shaking s) (l_publishing s) q (l_delivered s)
    (l_rawclosed s) (l_rejected s) (l_closed s) (l_stopped s) (l_raw_open s).

Definition set_stop (s : listen) (closed stopped raw : bool) : listen :=
  mkListen (l_loop s) (l_next s) (l_shaking s) (l_publishing s) (l_results s)
    (l_delivered s) (l_rawclosed s) (l_rejected s) closed stopped raw.

Definition set_conns (s : listen) (shaking : list (nat * transport))
    (publishing : list (nat * nconn)) (rawclosed : list nat) (rejected : nat) : listen :=
  mkListen (l_loop s) (l_next s) shaking publishing (l_results s) (l_delivered s)
    rawclosed rejected (l_closed s) (l_stopped s) (l_raw_open s).

(** One iteration of [loop] after [raw.Accept] returned. *)
Definition loop_step (s : listen) (r : result transport E) : listen :=
  match r with
  | Err e => set_loop s (if l_closed s then LoopDone else LoopSending e)
  | Ok t =>
      mkListen (l_loop s) (S (l_next s)) (l_shaking s ++ [(l_next s, t)]) (l_publishing s)
        (l_results s) (l_delivered s) (l_rawclosed s) (l_rejected s) (l_closed s)
        (l_stopped s) (l_raw_open s)
  end.

(** [handshake] up to its [select]; the fuel running out is a peer that keeps the
    goroutine busy, and no event. *)
Definition handshake_step (s : listen) (id : nat) (t : transport) : option listen :=
  match runHandshake NewHandshakeState WriteMessage ReadMessage PeerStatic fuel t cfg false with
  | None => None
  | Some (_, Err _) =>
      Some (set_conns s (remove_nat id (l_shaking s)) (l_publishing s)
              (l_rawclosed s ++ [id]) (S (l_rejected s)))
  | Some (_, Ok c) =>
      Some (set_conns s (remove_nat id (l_shaking s)) (l_publishing s ++ [(id, c)])
              (l_rawclosed s) (l_rejected s))
  end.

(** A send on the buffered channel blocks while it is full. *)
Definition send_result (s : listen) (r : accept_result) : option listen :=
  if bool_decide (length (l_results s) < acceptResultBuffer)
  then Some (set_results s (l_results s ++ [r])) else None.

(** What [Accept] returns when it receives. *)
Definition Accept (s : listen) : option (listen * result nconn E) :=
  match l_results s with
  | [] => None
  | RErr e :: q => Some (set_results s q, Err e)
  | RConn id c :: q =>
      Some (mkListen (l_loop s) (l_next s) (l_shaking s) (l_publishing s) q
              (l_delivered s ++ [(id, c)]) (l_rawclosed s) (l_rejected s) (l_closed s)
              (l_stopped s) (l_raw_open s), Ok c)
  end.

Definition listen_step (s : listen) (ev : event) : option listen :=
  match ev with
  | EvConnect t =>
      match l_loop s, l_raw_open s with
      | LoopAccepting, true => Some (loop_step s (Ok t))
      | _, _ => None
      end
  | EvAcceptError e =>
      match l_loop s with
      | LoopAccepting => Some (loop_step s (Err e))
      | _ => None
      end
  | EvLoopSend =>
      match l_loop s with
      | LoopSending e => (fun s' => set_loop s' LoopDone) <$> send_result s (RErr e)
      | _ => None
      end
  | EvLoopStop =>
      match l_loop s, l_stopped s with
      | LoopSending _, true => Some (set_loop s LoopDone)
      | _, _ => None
      end
  | EvHandshake id =>
      match assoc_nat id (l_shaking s) with
      | Some t => handshake_step s id t
      | None => None
      end
  | EvPublish id =>
      match assoc_nat id (l_publishing s) with
      | Some c =>
          (fun s' => set_conns s' (l_shaking s') (remove_nat id (l_publishing s'))
                       (l_rawclosed s') (l_rejected s')) <$> send_result s (RConn id c)
      | None => None
      end
  | EvDrop id =>
      match assoc_nat id (l_publishing s), l_stopped s with
      | Some _, true =>
          Some (set_conns s (l_shaking s) (remove_nat id (l_publishing s))
                  (l_rawclosed s ++ [id]) (l_rejected s))
      | _, _ => None
      end
  | EvAccept => fst <$> Accept s
  | EvCloseFlag => if l_closed s then None else Some (set_stop s true (l_stopped s) (l_raw_open s))
  | EvCloseStop =>
      if l_closed s && negb (l_stopped s) then Some (set_stop s true true (l_raw_open s)) else None
  | EvCloseRaw => if l_stopped s then Some (set_stop s (l_closed s) true false) else None
  end.

Fixpoint listen_run (s : listen) (evs : list event) : option listen :=
  match evs with
  | [] => Some s
  | ev :: evs' => match listen_step s ev with Some s' => listen_run s' evs' | None => None end
  end.

(** ** Invariant *)

Definition result_conns (q : list accept_result) : list (nat * nconn) :=
  omap (fun r => match r with RConn id c => Some (id, c) | RErr _ => None end) q.

(** Where every accepted connection is. *)
Definition places (s : listen) : list nat :=
  (l_shaking s).*1 ++ (l_publishing s).*1 ++ (result_conns (l_results s)).*1
  ++ (l_delivered s).*1 ++ l_rawclosed s.

Definition authenticated (p : nat * nconn) : Prop :=
  peerStatic p.2 <> [] /\ (authorized cfg = [] \/ peerStatic p.2 ∈ authorized cfg).

Record listen_inv (s : listen) : Prop := mkListenInv {
  inv_places : places s ≡ₚ seq 0 (l_next s);
  inv_bound : length (l_results s) <= acceptResultBuffer;
  inv_publishing : Forall authenticated (l_publishing s);
  inv_results : Forall authenticated (result_conns (l_results s));
  inv_delivered : Forall authenticated (l_delivered s);
  inv_rejected : l_rejected s <= length (l_rawclosed s)
}.

Lemma assoc_nat_remove {A} id (l : list (nat * A)) a :
  assoc_nat id l = Some a -> l ≡ₚ (id, a) :: remove_nat id l.
Proof.
  unfold assoc_nat. induction l as [|[i x] l IH]; cbn; [done|].
  destruct (Nat.eqb_spec i id) as [->|]; cbn; [by intros [= ->]|].
  intros H. rewrite (IH H) at 1. apply Permutation_swap.
Qed.

Lemma result_conns_app q r :
  result_conns (q ++ r) = result_conns q ++ result_conns r.
Proof. apply omap_app. Qed.

Lemma seq_snoc n : seq 0 (S n) = seq 0 n ++ [n].
Proof. apply seq_S. Qed.

Lemma loop_step_inv s r : listen_inv s -> listen_inv (loop_step s r).
Proof.
  intros []. destruct r as [t|e]; constructor; try done. unfold places in *. cbn -[seq].
  rewrite seq_snoc, <- inv_places0, fmap_app. cbn. solve_Permutation.
Qed.

Lemma handshake_step_inv s id t s' :
  listen_inv s -> assoc_nat id (l_shaking s) = Some t -> handshake_step s id t = Some s' ->
  listen_inv s'.
Proof.
  intros [] Ha. apply assoc_nat_remove in Ha. unfold places in *. rewrite Ha in inv_places0.
  unfold handshake_step. destruct (runHandshake _ _ _ _ _ _ _ _) as [[t' [c|e]]|] eqn:Hr; [..|done];
    intros [= <-]; constructor; unfold places; cbn; try done.
  - rewrite <- inv_places0, fmap_app. cbn. solve_Permutation.
  - apply Forall_app. split; [done|]. constructor; [|done].
    unfold runHandshake in Hr. destruct (config_validate cfg); [|done].
    destruct (NewHandshakeState _ _); [|done].
    by apply handshake_loop_authorized in Hr.
  - rewrite <- inv_places0. cbn. solve_Permutation.
  - rewrite length_app. cbn. lia.
Qed.

Lemma send_result_inv s r s' :
  send_result s r = Some s' ->
  s' = set_results s (l_results s ++ [r]) /\ length (l_results s) < acceptResultBuffer.
Proof. unfold send_result. case_bool; [|done]. zbool. by intros [= <-]. Qed.

(** Every event preserves the invariant. *)
Lemma listen_step_inv s ev s' : listen_inv s -> listen_step s ev = Some s' -> listen_inv s'.
Proof.
  intros Hinv. destruct ev as [t|e| | |id|id|id| | | |]; cbn -[loop_step].
  - destruct (l_loop s); [|done..]. destruct (l_raw_open s); [|done].
    intros [= <-]. by apply (loop_step_inv s (Ok t)).
  - destruct (l_loop s); [|done..]. intros [= <-]. by apply (loop_step_inv s (Err e)).
  - destruct (l_loop s) as [|e|]; [done| |done].
    destruct (send_result s (RErr e)) as [s1|] eqn:Hs; cbn; [|done]. intros [= <-].
    apply send_result_inv in Hs as [-> Hlen]. destruct Hinv. constructor; try done.
    + unfold places in *. cbn. by rewrite result_conns_app, app_nil_r.
    + cbn. rewrite length_app. cbn. lia.
    + cbn. by rewrite result_conns_app, app_nil_r.
  - destruct (l_loop s); [done| |done]. destruct (l_stopped s); [|done].
    intros [= <-]. by destruct Hinv.
  - destruct (assoc_nat id (l_shaking s)) as [t|] eqn:Ha; [|done].
    intros. by eapply handshake_step_inv.
  - destruct (assoc_nat id (l_publishing s)) as [c|] eqn:Ha; [|done].
    destruct (send_result s (RConn id c)) as [s1|] eqn:Hs; cbn; [|done]. intros [= <-].
    apply send_result_inv in Hs as [-> Hlen]. apply assoc_nat_remove in Ha. destruct Hinv.
    rewrite Ha in inv_publishing0. apply Forall_cons_iff in inv_publishing0 as [Hc Hrest].
    constructor; try done.
    + unfold places in *. rewrite Ha in inv_places0. cbn.
      rewrite result_conns_app, fmap_app, <- inv_places0. cbn. solve_Permutation.
    + cbn. rewrite length_app. cbn. lia.
    + cbn. rewrite result_conns_app. apply Forall_app. split; [done|]. by constructor.
  - destruct (assoc_nat id (l_publishing s)) as [c|] eqn:Ha; [|done].
    destruct (l_stopped s); [|done]. intros [= <-]. apply assoc_nat_remove in Ha. destruct Hinv.
    rewrite Ha in inv_publishing0. apply Forall_cons_iff in inv_publishing0 as [Hc Hrest].
    constructor; try done.
    + unfold places in *. rewrite Ha in inv_places0. cbn. rewrite <- inv_places0. cbn.
      solve_Permutation.
    + cbn. rewrite length_app. cbn. lia.
  - unfold Accept. destruct Hinv. destruct (l_results s) as [|[id c|e] q] eqn:Hq; cbn; [done|..];
      intros [= <-]; constructor; unfold places in *; rewrite ?Hq in *; cbn in *; try done; try lia.
    + rewrite <- inv_places0, fmap_app. cbn. solve_Permutation.
    + by inversion inv_results0.
    + apply Forall_app. split; [done|]. inversion inv_results0. by constructor.
  - destruct (l_closed s); [done|]. intros [= <-]. by destruct Hinv.
  - destruct (l_closed s && negb (l_stopped s)); [|done]. intros [= <-]. by destruct Hinv.
  - destruct (l_stopped s); [|done]. intros [= <-]. by destruct Hinv.
Qed.

Lemma listen_run_inv s evs s' : listen_inv s -> listen_run s evs = Some s' -> listen_inv s'.
Proof.
  revert s. induction evs as [|ev evs IH]; cbn; intros s Hi; [by intros [= <-]|].
  destruct (listen_step s ev) as [s1|] eqn:Hs; [|done]. apply IH. by eapply listen_step_inv.
Qed.

Lemma listen_init_inv : listen_inv listen_init.
Proof. constructor; cbn; try done; try constructor; unfold acceptResultBuffer; lia. Qed.

(** C25: on every interleaving of inbound connections, handshakes, [Accept] and [Close]:
    every connection [Accept] has returned carries a peer key that the allowlist admits;
    every inbound connection is in exactly one place (handshaking, waiting to be
    published, queued, delivered or closed), so none is lost, delivered twice, or
    delivered after being closed; and the queue never exceeds its bound. *)
Theorem listen_safety evs s :
  listen_run listen_init evs = Some s ->
  Forall authenticated (l_delivered s)
  /\ places s ≡ₚ seq 0 (l_next s)
  /\ NoDup ((l_delivered s).*1 ++ l_rawclosed s)
  /\ length (l_results s) <= acceptResultBuffer.
Proof.
  intros Hr. apply listen_run_inv in Hr as []; [|apply listen_init_inv].
  repeat split; try done.
  assert (Hnd : NoDup (places s)) by (rewrite inv_places0; apply NoDup_seq).
  unfold places in Hnd. do 3 apply list.NoDup_app in Hnd as (_ & _ & Hnd). done.
Qed.

(** *** Progress *)

(** A peer that stalls its handshake holds up nobody else: whatever is in [l_shaking], a
    new connection is accepted and another connection's finished handshake is published
    as long as the queue has room. *)
Lemma listen_no_head_of_line s id c :
  assoc_nat id (l_publishing s) = Some c -> length (l_results s) < acceptResultBuffer ->
  is_Some (listen_step s (EvPublish id)).
Proof.
  intros Ha Hl. cbn. rewrite Ha. unfold send_result. rewrite bool_decide_eq_true_2 by done.
  cbn. eauto.
Qed.

(** After [Close] no goroutine of the listener stays blocked: the loop's pending error and
    every connection waiting to be published have an enabled step. *)
Lemma listen_close_unblocks s :
  l_stopped s = true ->
  (forall e, l_loop s = LoopSending e -> is_Some (listen_step s EvLoopStop))
  /\ (forall id c, assoc_nat id (l_publishing s) = Some c -> is_Some (listen_step s (EvDrop id))).
Proof.
  intros Hs. split.
  - intros e He. cbn. rewrite He, Hs. eauto.
  - intros id c Hc. cbn. rewrite Hc, Hs. eauto.
Qed.

(** Where the listener rests after [Close]: nothing in flight, but connections that were
    queued stay in the queue, open. *)
Definition quiescent (s : listen) : Prop :=
  l_loop s = LoopDone /\ l_shaking s = [] /\ l_publishing s = []
  /\ l_stopped s = true /\ l_raw_open s = false.
End Listen.

Lemma listen_safety_witness :
  let run := listen_run toy_new toy_write toy_read toy_peer
               (toy_config "r" (Some [toy_key_of "i"])) 3 listen_init in
  exists s,
    run [EvConnect toy_transport; EvConnect (mkTransport [] (mkWire [] None));
         EvHandshake 1; EvHandshake 0; EvPublish 0; EvAccept] = Some s
    /\ (l_delivered s).*1 = [0] /\ l_rawclosed s = [1] /\ l_rejected s = 1
    /\ Forall (authenticated (toy_config "r" (Some [toy_key_of "i"]))) (l_delivered s).
Proof.
  cbv zeta.
  set (r := listen_run _ _ _ _ _ _ _ _).
  destruct r as [s|] eqn:Hr; [|vm_compute in Hr; discriminate Hr].
  exists s. split; [reflexivity|]. split; [|split; [|split]].
  - vm_compute in Hr. injection Hr as <-. reflexivity.
  - vm_compute in Hr. injection Hr as <-. reflexivity.
  - vm_compute in Hr. injection Hr as <-. reflexivity.
  - exact (proj1 (listen_safety _ _ _ _ _ _ _ _ Hr)).
Defined.

(** A connection that is already queued when [Close] runs is neither delivered nor closed:
    the listener comes to rest with it still in the channel. *)
Theorem listen_close_leaves_queued :
  exists s,
    listen_run toy_new toy_write toy_read toy_peer
      (toy_config "r" (Some [toy_key_of "i"])) 3 listen_init
      [EvConnect toy_transport; EvHandshake 0; EvPublish 0;
       EvCloseFlag; EvCloseStop; EvCloseRaw; EvAcceptError tt] = Some s
    /\ quiescent s /\ length (l_results s) = 1 /\ l_rawclosed s = [].
Proof. eexists. split; [vm_compute; reflexivity|]. repeat split. Qed.
