(* ===== verification/WtConfig.v ===== *)
(** * internal/watchtower/config

    The configuration record, its validation and [Load]. The TOML decoder is a library: it
    enters [wt_Load] as its argument. [validate] ranges over the validators map, so it
    takes the order in which the map is visited. *)

From S2P Require Import Prelude GoStrings GoTime GoFloat.

Local Open Scope Z_scope.

(** [Permissions] is [None] for Go's nil slice, which an absent list decodes to. *)
Record ValidatorConfig := mkValidatorConfig {
  Token : string;
  Permissions : option (list string);
  LogsMinLevel : string
}.

#[export] Instance ValidatorConfig_eq_dec : EqDecision ValidatorConfig.
Proof. solve_decision. Defined.

(** What [range] and [slices.Contains] see. *)
Definition perms (v : ValidatorConfig) : list string := default [] (Permissions v).

Record TokenEntry := mkTokenEntry { ValidatorName : string; te_Config : ValidatorConfig }.

#[export] Instance TokenEntry_eq_dec : EqDecision TokenEntry.
Proof. solve_decision. Defined.

Record SecurityConfig := mkSecurityConfig {
  RateLimitRPS : float64;
  RateLimitBurst : Z;
  BanThreshold : Z;
  BanDuration : Duration
}.

Record WtConfig := mkWtConfig {
  ListenAddr : string;
  Security : SecurityConfig;
  VictoriaMetricsURL : string;
  LokiURL : string;
  Validators : gmap string ValidatorConfig
}.

Definition minRateLimitBurst : Z := 4.

Definition validPermissions : gset string := {["rpc"; "metrics"; "logs"; "otlp"]}.

Inductive wt_config_error :=
| ErrListenAddrRequired
| ErrVMURLRequired
| ErrLokiURLRequired
| ErrRateLimitRPS
| ErrRateLimitBurst
| ErrBanThreshold
| ErrBanDuration
| ErrTokenRequired (name : string)
| ErrTokenShared (other name : string)
| ErrUnknownPermission (name p : string).

(** The inner loop: the first permission outside the allowed set. *)
Fixpoint validate_permissions (name : string) (ps : list string) : result unit wt_config_error :=
  match ps with
  | [] => Ok tt
  | p :: ps' =>
      if bool_decide (p ∈ validPermissions) then validate_permissions name ps'
      else Err (ErrUnknownPermission name p)
  end.

(** The loop over the validators, with the map of the tokens seen so far. *)
Fixpoint validate_validators (l : list (string * ValidatorConfig)) (seen : gmap string string)
    : result unit wt_config_error :=
  match l with
  | [] => Ok tt
  | (name, v) :: l' =>
      if bool_decide (Token v = EmptyString) then Err (ErrTokenRequired name)
      else match seen !! Token v with
           | Some other => Err (ErrTokenShared other name)
           | None =>
               match validate_permissions name (perms v) with
               | Err e => Err e
               | Ok _ => validate_validators l' (<[Token v := name]> seen)
               end
           end
  end.

Open Scope go_scope.

Definition wt_validate (c : WtConfig) (order : list (string * ValidatorConfig))
    : result unit wt_config_error :=
  guard? bool_decide (ListenAddr c = EmptyString) then ErrListenAddrRequired else
  guard? bool_decide (VictoriaMetricsURL c = EmptyString) then ErrVMURLRequired else
  guard? bool_decide (LokiURL c = EmptyString) then ErrLokiURLRequired else
  guard? f64_leb (RateLimitRPS (Security c)) f64_zero then ErrRateLimitRPS else
  guard? (RateLimitBurst (Security c) <? minRateLimitBurst) then ErrRateLimitBurst else
  guard? (BanThreshold (Security c) <=? 0) then ErrBanThreshold else
  guard? (BanDuration (Security c) <=? 0) then ErrBanDuration else
  validate_validators order ∅.

Definition default_burst (c : WtConfig) : WtConfig :=
  let s := Security c in
  if RateLimitBurst s =? 0 then
    mkWtConfig (ListenAddr c)
      (mkSecurityConfig (RateLimitRPS s) 200 (BanThreshold s) (BanDuration s))
      (VictoriaMetricsURL c) (LokiURL c) (Validators c)
  else c.

Inductive load_error (E : Type) := ErrLoadRead | ErrLoadDecode (e : E) | ErrInvalid (e : wt_config_error).
Arguments ErrLoadRead {E}.
Arguments ErrLoadDecode {E} e.
Arguments ErrInvalid {E} e.

(** [Load]: [data] is what [os.ReadFile] returned, [order] the visiting order of the
    decoded validators. *)
Definition wt_Load {E} (Unmarshal : bytes -> result WtConfig E)
    (data : option bytes) (order : WtConfig -> list (string * ValidatorConfig))
    : result WtConfig (load_error E) :=
  match data with
  | None => Err ErrLoadRead
  | Some b =>
      match Unmarshal b with
      | Err e => Err (ErrLoadDecode e)
      | Ok cfg =>
          let cfg := default_burst cfg in
          match wt_validate cfg (order cfg) with
          | Err e => Err (ErrInvalid e)
          | Ok _ => Ok cfg
          end
      end
  end.

Definition wt_DefaultConfig : WtConfig :=
  mkWtConfig "0.0.0.0:8080"
    (mkSecurityConfig (f64_of_Z 100) 200 5 (15 * Minute))
    "<victoria-metrics-url>" "<loki-url>"
    {[ "my-validator" :=
         mkValidatorConfig "<secret-token>" (Some ["rpc"; "metrics"; "logs"; "otlp"]) "info" ]}.

(** ** What a valid configuration is *)

Definition valid_validator (v : ValidatorConfig) : Prop :=
  Token v <> EmptyString /\ Forall (fun p => p ∈ validPermissions) (perms v).

(** Tokens identify validators. *)
Definition tokens_unique (m : gmap string ValidatorConfig) : Prop :=
  forall n1 n2 v1 v2, m !! n1 = Some v1 -> m !! n2 = Some v2 -> Token v1 = Token v2 -> n1 = n2.

Record wt_valid (c : WtConfig) : Prop := mkWtValid {
  valid_listen : ListenAddr c <> EmptyString;
  valid_vm : VictoriaMetricsURL c <> EmptyString;
  valid_loki : LokiURL c <> EmptyString;
  valid_rps : f64_pos (RateLimitRPS (Security c)) \/ RateLimitRPS (Security c) = S754_nan;
  valid_burst : minRateLimitBurst <= RateLimitBurst (Security c);
  valid_threshold : 0 < BanThreshold (Security c);
  valid_ban : 0 < BanDuration (Security c);
  valid_each : forall n v, Validators c !! n = Some v -> valid_validator v;
  valid_tokens : tokens_unique (Validators c)
}.

(** * Properties *)

Lemma validate_permissions_ok name ps :
  validate_permissions name ps = Ok tt <-> Forall (fun p => p ∈ validPermissions) ps.
Proof.
  induction ps as [|p ps IH]; [split; [constructor|done]|].
  cbn [validate_permissions]. rewrite Forall_cons_iff. case_bool; zbool; [by rewrite IH; naive_solver|].
  split; [done|]. by intros [? _].
Qed.

Lemma validate_validators_ok l seen :
  validate_validators l seen = Ok tt <->
  Forall (fun p => valid_validator p.2) l
  /\ NoDup (map (fun p => Token p.2) l)
  /\ Forall (fun p => seen !! Token p.2 = None) l.
Proof.
  revert seen. induction l as [|[n v] l IH]; intros seen; cbn [validate_validators map].
  { split; [|done]. repeat split; constructor. }
  rewrite !Forall_cons_iff, list.NoDup_cons. unfold valid_validator at 1. cbn [snd fst].
  case_bool; zbool; [split; [done|]; by intros ([[]?]&_)|].
  destruct (seen !! Token v) eqn:Hseen; [split; [done|]; by intros (_&_&[??])|].
  destruct (validate_permissions n (perms v)) as [[]|e] eqn:Hp.
  - apply validate_permissions_ok in Hp. rewrite IH.
    assert (Hins : Forall (fun p : string * ValidatorConfig => <[Token v := n]> seen !! Token p.2 = None) l
      <-> Forall (fun p => seen !! Token p.2 = None) l /\ Token v ∉ map (fun p => Token p.2) l).
    { rewrite !list.Forall_forall, list_elem_of_fmap. split.
      - intros H. split; [|intros (p & Heq & Hin)]; [intros p Hin|]; specialize (H p Hin);
          apply lookup_insert_None in H; naive_solver.
      - intros [H Hn] p Hin. apply lookup_insert_None. split; [by apply H|].
        intros Heq. apply Hn. eauto. }
    rewrite Hins. naive_solver.
  - split; [done|]. intros ([[_ Hperm]_]&_). apply (validate_permissions_ok n) in Hperm. congruence.
Qed.

Lemma tokens_nodup (m : gmap string ValidatorConfig) l :
  map_range m l -> (NoDup (map (fun p => Token p.2) l) <-> tokens_unique m).
Proof.
  intros Hl. pose proof (map_range_nodup _ _ Hl) as Hnd.
  assert (Hu : tokens_unique m <-> forall p q, p ∈ l -> q ∈ l -> Token p.2 = Token q.2 -> p.1 = q.1).
  { split.
    - intros H [n1 v1] [n2 v2]. rewrite !(map_range_elem _ _ _ _ Hl). apply H.
    - intros H n1 n2 v1 v2 H1 H2. apply (map_range_elem _ _ _ _ Hl) in H1, H2.
      apply (H _ _ H1 H2). }
  rewrite Hu. clear Hu Hl. induction l as [|p l IH]; cbn.
  { split; [|constructor]. intros _ ?? H. by apply not_elem_of_nil in H. }
  cbn in Hnd. apply list.NoDup_cons in Hnd as [Hp Hnd]. rewrite list.NoDup_cons, IH by done.
  rewrite list_elem_of_fmap. split.
  - intros [Hnot H] q r. rewrite !elem_of_cons. intros [->|Hq] [->|Hr] Ht; [done|..|eauto];
      exfalso; apply Hnot; eauto.
  - intros H. split; [|intros q r Hq Hr; apply H; by right].
    intros (q & Heq & Hq). apply Hp. rewrite (H p q); [|by left|by right|done].
    apply list_elem_of_fmap. eauto.
Qed.

Lemma wt_validate_iff c order :
  map_range (Validators c) order -> (wt_validate c order = Ok tt <-> wt_valid c).
Proof.
  intros Hl. unfold wt_validate.
  assert (Hv : validate_validators order ∅ = Ok tt <->
    (forall n v, Validators c !! n = Some v -> valid_validator v) /\ tokens_unique (Validators c)).
  { rewrite validate_validators_ok, (tokens_nodup _ _ Hl), !list.Forall_forall. split.
    - intros (H1 & H2 & _). split; [|done]. intros n v Hn.
      apply (H1 (n, v)). by apply (map_range_elem _ _ _ _ Hl).
    - intros (H1 & H2). split; [|split; [done|]].
      + intros [n v] Hin. apply (H1 n). by apply (map_range_elem _ _ _ _ Hl) in Hin.
      + intros p _. apply lookup_empty. }
  split.
  - repeat (case_bool; zbool; [done|]). rewrite Hv. intros [H1 H2].
    constructor; try done; try lia. by apply f64_leb_zero.
  - intros []. repeat (rewrite bool_decide_eq_false_2 by done).
    rewrite (proj2 (f64_leb_zero _)) by done.
    rewrite (proj2 (Z.ltb_ge _ _)), (proj2 (Z.leb_gt (BanThreshold _) 0)),
      (proj2 (Z.leb_gt (BanDuration _) 0)) by done.
    by apply Hv.
Qed.

(** Validation accepts exactly the configurations that satisfy every documented rule
    (addresses set, positive limits, known permissions, a non-empty token per validator
    and no token shared by two), in whichever order the validators map is visited. *)
Theorem wt_validate_spec c order :
  map_range (Validators c) order -> (wt_validate c order = Ok tt <-> wt_valid c).
Proof. apply wt_validate_iff. Qed.

Definition two_validators : WtConfig :=
  mkWtConfig "0.0.0.0:8080" (mkSecurityConfig (f64_of_Z 100) 200 5 (15 * Minute)) "http://vm" "http://loki"
    {[ "alice" := mkValidatorConfig "ta" (Some ["rpc"]) "info";
       "bob" := mkValidatorConfig "tb" (Some ["logs"; "otlp"]) "warn" ]}.

Lemma wt_validate_spec_witness : wt_valid two_validators.
Proof.
  apply (proj1 (wt_validate_spec two_validators (map_to_list (Validators two_validators))
    (map_range_map_to_list _))).
  vm_compute. reflexivity.
Defined.

(** A configured rate of NaN passes the "must be > 0" check. *)
Theorem wt_validate_nan :
  wt_validate
    (mkWtConfig "0.0.0.0:8080" (mkSecurityConfig S754_nan 200 5 (15 * Minute)) "http://vm" "http://loki" ∅)
    [] = Ok tt.
Proof. reflexivity. Qed.

(** The example configuration is valid once read back, and an unset burst becomes 200. *)
Lemma wt_DefaultConfig_valid :
  wt_validate wt_DefaultConfig (map_to_list (Validators wt_DefaultConfig)) = Ok tt.
Proof. vm_compute. reflexivity. Qed.

Lemma default_burst_min c : RateLimitBurst (Security c) = 0 ->
  RateLimitBurst (Security (default_burst c)) = 200.
Proof. intros H. unfold default_burst. by rewrite H. Qed.
