(* ===== verification/Auth.v ===== *)
(** * internal/watchtower/auth

    The token index and the per-address failure records. Every method that touches the
    records holds the mutex for its whole body, so it is one atomic step; the clock readings
    it makes are its arguments, in the order of the calls to [time.Now]. [Middleware] is the
    sequence of the steps one request makes; requests interleave between steps, which is
    what the executions of [auth_run] describe. *)

From Stdlib Require Import Ascii.
From S2P Require Import Prelude GoStrings GoTime GoHttp WtConfig.

Local Open Scope Z_scope.

(** ** State *)

Record ipRecord := mkIpRecord { failures : Z; banExpiry : Time; lastSeen : Time }.

(** [metrics] says whether a sink is installed. *)
Record Authenticator := mkAuthenticator {
  tokens : gmap string TokenEntry;
  banThreshold : Z;
  banDuration : Duration;
  ips : gmap string ipRecord;
  lastCleanup : Time;
  metrics : bool
}.

Definition set_ips (a : Authenticator) (m : gmap string ipRecord) : Authenticator :=
  mkAuthenticator (tokens a) (banThreshold a) (banDuration a) m (lastCleanup a) (metrics a).

Definition set_cleanup (a : Authenticator) (t : Time) : Authenticator :=
  mkAuthenticator (tokens a) (banThreshold a) (banDuration a) (ips a) t (metrics a).

Definition set_tokens (a : Authenticator) (m : gmap string TokenEntry) : Authenticator :=
  mkAuthenticator m (banThreshold a) (banDuration a) (ips a) (lastCleanup a) (metrics a).

(** The loop of [New] and [Reload]: the last validator visited keeps a shared token. *)
Definition token_index (order : list (string * ValidatorConfig)) : gmap string TokenEntry :=
  fold_left (fun m p => <[Token p.2 := mkTokenEntry p.1 p.2]> m) order ∅.

Definition auth_New (order : list (string * ValidatorConfig)) (threshold : Z) (dur : Duration)
    : Authenticator :=
  mkAuthenticator (token_index order) threshold dur ∅ zeroTime false.

Definition SetMetrics (a : Authenticator) : Authenticator :=
  mkAuthenticator (tokens a) (banThreshold a) (banDuration a) (ips a) (lastCleanup a) true.

Definition Reload (a : Authenticator) (order : list (string * ValidatorConfig)) : Authenticator :=
  set_tokens a (token_index order).

(** ** Failure records *)

(** Whether the sweep at [now] deletes a record. *)
Definition swept (dur : Duration) (now : Time) (rec : ipRecord) : bool :=
  if negb (IsZero (banExpiry rec)) && After now (banExpiry rec) then true
  else IsZero (banExpiry rec) && (dur <? Sub now (lastSeen rec)).

(** [t1] is the reading of [time.Since], [t2] that of [time.Now]. The loop deletes entries
    of the map it ranges over; each entry is kept or deleted on its own, so the visiting
    order does not matter. *)
Definition maybeSweep (a : Authenticator) (t1 t2 : Time) : Authenticator :=
  if Since t1 (lastCleanup a) <? banDuration a then a
  else set_cleanup
         (set_ips a (filter (fun p : string * ipRecord => swept (banDuration a) t2 p.2 = false) (ips a)))
         t2.

Definition isBanned (a : Authenticator) (ip : string) (t1 t2 t3 : Time) : Authenticator * bool :=
  let a := maybeSweep a t1 t2 in
  match ips a !! ip with
  | None => (a, false)
  | Some rec =>
      if IsZero (banExpiry rec) then (a, false)
      else if After t3 (banExpiry rec) then (set_ips a (delete ip (ips a)), false)
      else (a, true)
  end.

Definition active_ban (now : Time) (rec : ipRecord) : bool :=
  negb (IsZero (banExpiry rec)) && Before now (banExpiry rec).

(** The counting loop over the records in visiting order. *)
Definition BannedCount (now : Time) (order : list (string * ipRecord)) : Z :=
  fold_left (fun n p => if active_ban now p.2 then n + 1 else n) order 0.

Definition recordFailure (a : Authenticator) (ip : string) (now : Time) : Authenticator :=
  let rec := default (mkIpRecord 0 zeroTime zeroTime) (ips a !! ip) in
  let n := wrap64 (failures rec + 1) in
  let expiry := if banThreshold a <=? n then Add now (banDuration a) else banExpiry rec in
  set_ips a (<[ip := mkIpRecord n expiry now]> (ips a)).

Definition recordSuccess (a : Authenticator) (ip : string) : Authenticator :=
  set_ips a (delete ip (ips a)).

(** ** Requests *)

Definition bearerToken (r : Request) : string :=
  let '(token, ok) := CutPrefix (Header_Get (ReqHeader r) "Authorization") "Bearer " in
  if (ok : bool) then token else EmptyString.

Definition tokenPrefix (s : string) : string :=
  if Nat.ltb 8 (String.length s) then string_of_bytes (take 8 (bytes_of_string s)) else s.

Definition comma : ascii := ",".

Definition remoteIP (r : Request) : string :=
  let direct :=
    match SplitHostPort (RemoteAddr r) with
    | None => RemoteAddr r
    | Some (host, _) => host
    end in
  let xff := Header_Get (ReqHeader r) "X-Forwarded-For" in
  if bool_decide (xff = EmptyString) then direct
  else
    let lst := TrimSpace (default EmptyString (list.last (Split xff comma))) in
    if bool_decide (lst = EmptyString) then direct else lst.

(** ** Middleware *)

Inductive log_level := LogInfo | LogWarn.

Inductive auth_effect :=
| RecordAuthFailure (reason : string)
| LogRejected (level : log_level) (reason ip path prefix : string).

Inductive auth_outcome :=
| Rejected (r : Response)
| Authenticated (name : string) (cfg : ValidatorConfig).

(** The clock readings of one request, in order. *)
Record auth_clock := mkAuthClock { ck1 : Time; ck2 : Time; ck3 : Time; ck4 : Time }.

Definition auth_Middleware (a : Authenticator) (r : Request) (ck : auth_clock)
    : Authenticator * list auth_effect * auth_outcome :=
  let ip := remoteIP r in
  let metric reason := if metrics a then [RecordAuthFailure reason] else [] in
  let '(a1, banned) := isBanned a ip (ck1 ck) (ck2 ck) (ck3 ck) in
  if banned then
    (a1, metric "banned" ++ [LogRejected LogWarn "banned" ip (URL_Path r) (tokenPrefix (bearerToken r))],
     Rejected (http_Error ∅ "banned" StatusForbidden))
  else
    let token := bearerToken r in
    match tokens a1 !! token with
    | None =>
        (recordFailure a1 ip (ck4 ck),
         metric "invalid_token" ++ [LogRejected LogInfo "invalid_token" ip (URL_Path r) (tokenPrefix token)],
         Rejected (http_Error ∅ "unauthorized" StatusUnauthorized))
    | Some entry =>
        (recordSuccess a1 ip, [], Authenticated (ValidatorName entry) (te_Config entry))
    end.

(** ** Executions *)

Inductive auth_op :=
| OpIsBanned (ip : string) (t1 t2 t3 : Time)
| OpFailure (ip : string) (now : Time)
| OpSuccess (ip : string)
| OpReload (order : list (string * ValidatorConfig)).

Definition auth_step (a : Authenticator) (o : auth_op) : Authenticator :=
  match o with
  | OpIsBanned ip t1 t2 t3 => (isBanned a ip t1 t2 t3).1
  | OpFailure ip now => recordFailure a ip now
  | OpSuccess ip => recordSuccess a ip
  | OpReload order => Reload a order
  end.

Definition auth_run (a : Authenticator) (ops : list auth_op) : Authenticator :=
  fold_left auth_step ops a.

(** The clock readings of an operation lie in [[lo, hi]]. *)
Definition op_within (lo hi : Time) (o : auth_op) : Prop :=
  match o with
  | OpIsBanned _ t1 t2 t3 => lo <= t1 <= hi /\ lo <= t2 <= hi /\ lo <= t3 <= hi
  | OpFailure _ now => lo <= now <= hi
  | OpSuccess _ | OpReload _ => True
  end.

Definition is_success (ip : string) (o : auth_op) : bool :=
  match o with OpSuccess ip' => bool_decide (ip' = ip) | _ => false end.

Definition is_failure (ip : string) (o : auth_op) : bool :=
  match o with OpFailure ip' _ => bool_decide (ip' = ip) | _ => false end.

(** Failures of [ip] in an execution, and those since its last success. *)
Fixpoint failures_in (ip : string) (ops : list auth_op) : nat :=
  match ops with
  | [] => 0
  | o :: ops' => (if is_failure ip o then 1 else 0) + failures_in ip ops'
  end.

Definition failures_since_success (ip : string) (ops : list auth_op) : nat :=
  fold_left (fun n o => if is_success ip o then 0%nat else if is_failure ip o then S n else n) ops 0%nat.

(** * Properties *)

(** ** Steps *)

Lemma maybeSweep_params a t1 t2 :
  tokens (maybeSweep a t1 t2) = tokens a
  /\ banThreshold (maybeSweep a t1 t2) = banThreshold a
  /\ banDuration (maybeSweep a t1 t2) = banDuration a
  /\ metrics (maybeSweep a t1 t2) = metrics a.
Proof. unfold maybeSweep. by case_bool. Qed.

(** A sweep keeps or deletes a record, and deletes only what [swept] says. *)
Lemma maybeSweep_lookup a t1 t2 ip :
  ips (maybeSweep a t1 t2) !! ip = ips a !! ip
  \/ (ips (maybeSweep a t1 t2) !! ip = None
      /\ exists rec, ips a !! ip = Some rec /\ swept (banDuration a) t2 rec = true).
Proof.
  unfold maybeSweep. case_bool; [by left|]. cbn.
  destruct (ips a !! ip) as [rec|] eqn:Hrec.
  - destruct (swept (banDuration a) t2 rec) eqn:Hs; [right|left].
    + split; [|by eauto]. apply map_lookup_filter_None. right. intros rec' H'.
      cbn. rewrite Hrec in H'. injection H' as <-. congruence.
    + by apply map_lookup_filter_Some.
  - left. apply map_lookup_filter_None. by left.
Qed.

Lemma isBanned_params a ip t1 t2 t3 :
  tokens (isBanned a ip t1 t2 t3).1 = tokens a
  /\ banThreshold (isBanned a ip t1 t2 t3).1 = banThreshold a
  /\ banDuration (isBanned a ip t1 t2 t3).1 = banDuration a
  /\ metrics (isBanned a ip t1 t2 t3).1 = metrics a.
Proof.
  pose proof (maybeSweep_params a t1 t2) as H. unfold isBanned.
  destruct (ips (maybeSweep a t1 t2) !! ip); [|done]. by repeat case_bool.
Qed.

Lemma auth_step_params a o :
  banThreshold (auth_step a o) = banThreshold a /\ banDuration (auth_step a o) = banDuration a.
Proof. destruct o as [ip t1 t2 t3|ip t|ip|l]; [|done..].
  by destruct (isBanned_params a ip t1 t2 t3) as (_ & ? & ? & _). Qed.

Lemma auth_run_params a ops :
  banThreshold (auth_run a ops) = banThreshold a /\ banDuration (auth_run a ops) = banDuration a.
Proof.
  revert a. induction ops as [|o ops IH]; intros a; [done|].
  change (auth_run a (o :: ops)) with (auth_run (auth_step a o) ops).
  destruct (IH (auth_step a o)) as [-> ->]. apply auth_step_params.
Qed.

(** What one check does to the record of [ip']. *)
Lemma isBanned_lookup a ip t1 t2 t3 ip' :
  ips (isBanned a ip t1 t2 t3).1 !! ip' = ips a !! ip'
  \/ (ips (isBanned a ip t1 t2 t3).1 !! ip' = None
      /\ exists rec, ips a !! ip' = Some rec
         /\ (swept (banDuration a) t2 rec = true
             \/ (IsZero (banExpiry rec) = false /\ After t3 (banExpiry rec) = true))).
Proof.
  pose proof (maybeSweep_lookup a t1 t2 ip') as Hs. unfold isBanned.
  set (a1 := maybeSweep a t1 t2) in *. destruct (ips a1 !! ip) as [rec|] eqn:Hrec; cbn;
    [|naive_solver].
  destruct (IsZero (banExpiry rec)) eqn:Hz; cbn; [naive_solver|].
  destruct (After t3 (banExpiry rec)) eqn:Ha; cbn; [|naive_solver].
  destruct (decide (ip = ip')) as [<-|Hne].
  - rewrite lookup_delete_eq. right. split; [done|]. rewrite Hrec in Hs.
    destruct Hs as [Hs|[? _]]; [|done]. exists rec. auto.
  - rewrite lookup_delete_ne by done. naive_solver.
Qed.

Lemma recordFailure_lookup_ne a ip now ip' :
  ip <> ip' -> ips (recordFailure a ip now) !! ip' = ips a !! ip'.
Proof. intros. unfold recordFailure. cbn. by rewrite lookup_insert_ne. Qed.

(** ** A ban lasts *)

Definition banned_until (e : Time) (a : Authenticator) (ip : string) : Prop :=
  exists rec, ips a !! ip = Some rec /\ IsZero (banExpiry rec) = false /\ e <= banExpiry rec.

Lemma nonneg_not_zero t : 0 <= t -> IsZero t = false.
Proof. unfold IsZero, zeroTime. intros. apply Z.eqb_neq. lia. Qed.

Lemma swept_banned dur t rec e :
  IsZero (banExpiry rec) = false -> e <= banExpiry rec -> t <= e -> swept dur t rec = false.
Proof.
  intros Hz He Ht. unfold swept, After. rewrite Hz. cbn.
  by rewrite (proj2 (Z.ltb_ge _ _)) by lia.
Qed.

Lemma banned_until_step a ip tf o :
  0 <= tf -> 0 < banDuration a -> banned_until (tf + banDuration a) a ip ->
  op_within tf (tf + banDuration a) o -> is_success ip o = false ->
  banned_until (tf + banDuration a) (auth_step a o) ip.
Proof.
  intros Htf Hdur (rec & Hrec & Hz & He) Hw Hns.
  destruct o as [ip' t1 t2 t3|ip' t|ip'|l]; cbn in *.
  - destruct Hw as (_ & H2 & H3).
    destruct (isBanned_lookup a ip' t1 t2 t3 ip) as [Hl|(_ & r & Hr & Hdel)].
    + exists rec. by rewrite Hl.
    + rewrite Hrec in Hr. injection Hr as <-. exfalso. destruct Hdel as [Hsw|[_ Haf]].
      * by rewrite (swept_banned _ _ _ _ Hz He) in Hsw by lia.
      * apply After_spec in Haf. lia.
  - destruct (decide (ip' = ip)) as [->|Hne].
    + unfold recordFailure. cbn. rewrite Hrec. cbn [default].
      eexists. cbn. rewrite lookup_insert_eq. split; [done|]. cbn.
      case_bool; [|done]. unfold Add. split; [apply nonneg_not_zero|]; lia.
    + exists rec. by rewrite recordFailure_lookup_ne.
  - zbool. exists rec. cbn. by rewrite lookup_delete_ne.
  - by exists rec.
Qed.

Lemma banned_until_run ops a ip tf :
  0 <= tf -> 0 < banDuration a -> banned_until (tf + banDuration a) a ip ->
  Forall (op_within tf (tf + banDuration a)) ops ->
  Forall (fun o => is_success ip o = false) ops ->
  banned_until (tf + banDuration a) (auth_run a ops) ip.
Proof.
  revert a. induction ops as [|o ops IH]; intros a Htf Hdur Hb Hw Hs; [done|].
  apply Forall_cons_iff in Hw as [Hw1 Hw]. apply Forall_cons_iff in Hs as [Hs1 Hs]. cbn.
  pose proof (auth_step_params a o) as [_ Hd]. rewrite <- Hd in *.
  apply IH; try done. rewrite Hd in *. by apply banned_until_step.
Qed.

Lemma banned_until_isBanned a ip e t1 t2 t3 :
  banned_until e a ip -> t2 <= e -> t3 <= e -> (isBanned a ip t1 t2 t3).2 = true.
Proof.
  intros (rec & Hrec & Hz & He) H2 H3. unfold isBanned.
  destruct (maybeSweep_lookup a t1 t2 ip) as [->|(_ & r & Hr & Hsw)].
  - rewrite Hrec, Hz. unfold After. by rewrite (proj2 (Z.ltb_ge _ _)) by lia.
  - rewrite Hrec in Hr. injection Hr as <-.
    by rewrite (swept_banned _ _ _ _ Hz He) in Hsw by lia.
Qed.

(** ** Failures are counted *)

(** The record of an address with [k] failures since [lo]. *)
Definition counted (a : Authenticator) (ip : string) (lo : Time) (k bound : Z) : Prop :=
  match ips a !! ip with
  | None => k = 0
  | Some rec =>
      0 <= k <= failures rec /\ failures rec <= bound
      /\ (IsZero (banExpiry rec) = false -> banThreshold a <= failures rec)
      /\ (0 < k -> lo <= lastSeen rec)
      /\ (0 < k -> banThreshold a <= failures rec -> lo + banDuration a <= banExpiry rec)
  end.

Lemma counted_step a ip lo hi k bound o :
  0 <= lo -> 0 < banThreshold a -> 0 < banDuration a <= max_int64 -> hi <= lo + banDuration a ->
  counted a ip lo k bound -> 0 <= bound < max_int64 ->
  op_within lo hi o -> is_success ip o = false ->
  counted (auth_step a o) ip lo (k + if is_failure ip o then 1 else 0) (bound + 1).
Proof.
  intros Hlo Hthr Hdur Hhi Hc Hbound Hw Hns.
  destruct o as [ip' t1 t2 t3|ip' t|ip'|l]; cbn in Hw, Hns |- *; unfold counted in *.
  - rewrite Z.add_0_r. destruct Hw as (_ & H2 & H3).
    pose proof (isBanned_params a ip' t1 t2 t3) as (_ & Hp1 & Hp2 & _). rewrite Hp1, Hp2.
    destruct (isBanned_lookup a ip' t1 t2 t3 ip) as [->|(-> & r & Hr & Hdel)].
    { destruct (ips a !! ip); [|done]. naive_solver lia. }
    rewrite Hr in Hc. destruct Hc as (Hk & _ & Hz & Hls & Hexp).
    destruct (Z.eq_dec k 0) as [|Hk0]; [done|exfalso]. specialize (Hls ltac:(lia)).
    destruct (IsZero (banExpiry r)) eqn:E.
    + destruct Hdel as [Hsw|[? _]]; [|done]. unfold swept in Hsw. rewrite E in Hsw. cbn in Hsw.
      apply Z.ltb_lt in Hsw. unfold Sub in Hsw.
      apply sat64_gt in Hsw; [lia|]. unfold is_int64, min_int64. lia.
    + specialize (Hexp ltac:(lia) (Hz eq_refl)). destruct Hdel as [Hsw|[_ Haf]].
      * rewrite (swept_banned _ _ _ _ E Hexp) in Hsw by lia. done.
      * apply After_spec in Haf. lia.
  - destruct (decide (ip' = ip)) as [->|Hne].
    + rewrite bool_decide_eq_true_2 by done. cbn. rewrite lookup_insert_eq. cbn.
      destruct (ips a !! ip) as [rec|]; cbn.
      * rewrite wrap64_id by (unfold is_int64, min_int64, max_int64 in *; lia).
        repeat split; try lia; case_bool; zbool; unfold Add; try lia.
        intros Hnz. naive_solver lia.
      * rewrite wrap64_id by (unfold is_int64, min_int64, max_int64 in *; lia). subst k.
        repeat split; try lia; case_bool; zbool; unfold Add; try lia. done.
    + rewrite bool_decide_eq_false_2 by done. cbn.
      rewrite Z.add_0_r, lookup_insert_ne by done. destruct (ips a !! ip); [|done]. naive_solver lia.
  - zbool. rewrite Z.add_0_r. cbn. rewrite lookup_delete_ne by done.
    destruct (ips a !! ip); [|done]. naive_solver lia.
  - rewrite Z.add_0_r. cbn. destruct (ips a !! ip); [|done]. naive_solver lia.
Qed.

Lemma counted_run ops a ip lo hi k bound :
  0 <= lo -> 0 < banThreshold a -> 0 < banDuration a <= max_int64 -> hi <= lo + banDuration a ->
  counted a ip lo k bound -> 0 <= bound -> bound + Z.of_nat (length ops) <= max_int64 ->
  Forall (op_within lo hi) ops -> Forall (fun o => is_success ip o = false) ops ->
  counted (auth_run a ops) ip lo (k + Z.of_nat (failures_in ip ops)) (bound + Z.of_nat (length ops)).
Proof.
  revert a k bound. induction ops as [|o ops IH]; intros a k bound Hlo Ht Hd Hhi Hc Hb Hlen Hw Hs.
  { cbn. by rewrite !Z.add_0_r. }
  apply Forall_cons_iff in Hw as [Hw1 Hw]. apply Forall_cons_iff in Hs as [Hs1 Hs].
  cbn [auth_run fold_left length failures_in] in *. change (fold_left auth_step ops ?x) with (auth_run x ops).
  pose proof (counted_step a ip lo hi k bound o Hlo Ht Hd Hhi Hc ltac:(lia) Hw1 Hs1) as Hc1.
  pose proof (auth_step_params a o) as [Hp1 Hp2].
  replace (k + Z.of_nat ((if is_failure ip o then 1 else 0) + failures_in ip ops))
    with ((k + if is_failure ip o then 1 else 0) + Z.of_nat (failures_in ip ops))
    by (destruct (is_failure ip o); lia).
  replace (bound + Z.of_nat (S (length ops))) with (bound + 1 + Z.of_nat (length ops)) by lia.
  apply IH; rewrite ?Hp1, ?Hp2; try done; lia.
Qed.

(** The count of failures an address carries, and the shape of the record it has. *)
Definition failure_count (a : Authenticator) (ip : string) : Z :=
  match ips a !! ip with Some rec => failures rec | None => 0 end.

Definition record_ok (a : Authenticator) (ip : string) : Prop :=
  match ips a !! ip with
  | Some rec => 0 <= failures rec /\ (IsZero (banExpiry rec) = false -> banThreshold a <= failures rec)
  | None => True
  end.

Lemma record_ok_counted a ip lo : record_ok a ip -> counted a ip lo 0 (failure_count a ip).
Proof.
  unfold record_ok, counted, failure_count. destruct (ips a !! ip) as [rec|]; [|done].
  intros [H1 H2]. repeat split; try done; lia.
Qed.

Lemma auth_run_app a ops1 ops2 : auth_run a (ops1 ++ ops2) = auth_run (auth_run a ops1) ops2.
Proof. apply fold_left_app. Qed.

(** The failure that reaches the threshold bans until one duration after it. *)
Lemma failure_bans a ip lo k bound tf :
  0 <= tf -> 0 < banThreshold a -> 0 < banDuration a ->
  counted a ip lo k bound -> 0 <= bound < max_int64 -> banThreshold a <= k + 1 ->
  banned_until (tf + banDuration a) (recordFailure a ip tf) ip.
Proof.
  intros Htf Ht Hd Hc Hb Hk. unfold banned_until, recordFailure. cbn.
  rewrite lookup_insert_eq. eexists. split; [done|]. cbn. unfold counted in Hc.
  destruct (ips a !! ip) as [rec|]; cbn in *;
    rewrite wrap64_id by (unfold is_int64, min_int64, max_int64 in *; lia);
    rewrite (proj2 (Z.leb_le _ _)) by lia; unfold Add;
    (split; [apply nonneg_not_zero|]; lia).
Qed.

(** C22: an address that fails [banThreshold] times within one ban duration is banned from
    its last failure for a whole ban duration, provided none of its requests succeeds, neither
    between the failures nor after them: a success deletes the record of its address, and
    with it the count or the ban. Whatever else happens in between (checks, successes of
    other addresses, sweeps, reloads, further failures), every check of the address in that
    time answers "banned". *)
Theorem ban_after_threshold a ip lo ops1 tf ops2 t1 t2 t3 :
  0 < banThreshold a -> 0 < banDuration a <= max_int64 -> 0 <= lo <= tf ->
  tf <= lo + banDuration a ->
  record_ok a ip -> failure_count a ip + Z.of_nat (length ops1) < max_int64 ->
  Forall (op_within lo tf) ops1 -> Forall (fun o => is_success ip o = false) ops1 ->
  banThreshold a <= Z.of_nat (failures_in ip ops1) + 1 ->
  Forall (op_within tf (tf + banDuration a)) ops2 ->
  Forall (fun o => is_success ip o = false) ops2 ->
  t2 <= tf + banDuration a -> t3 <= tf + banDuration a ->
  (isBanned (auth_run a (ops1 ++ OpFailure ip tf :: ops2)) ip t1 t2 t3).2 = true.
Proof.
  intros Ht Hd Hlo Htf Hok Hlen Hw1 Hs1 Hk Hw2 Hs2 H2 H3.
  assert (Hcnt : 0 <= failure_count a ip).
  { unfold failure_count, record_ok in *. destruct (ips a !! ip); [by destruct Hok|done]. }
  pose proof (counted_run ops1 a ip lo tf 0 (failure_count a ip) (proj1 Hlo) Ht Hd Htf
    (record_ok_counted a ip lo Hok) Hcnt ltac:(lia) Hw1 Hs1) as Hc.
  rewrite auth_run_app. set (a1 := auth_run a ops1) in *.
  destruct (auth_run_params a ops1) as [Hp1 Hp2]. fold a1 in Hp1, Hp2. rewrite <- Hp2 in *.
  change (auth_run a1 (OpFailure ip tf :: ops2)) with (auth_run (recordFailure a1 ip tf) ops2).
  apply (banned_until_isBanned _ _ (tf + banDuration a1)); [|done..].
  pose proof (banned_until_run ops2 (recordFailure a1 ip tf) ip tf) as Hrun.
  change (banDuration (recordFailure a1 ip tf)) with (banDuration a1) in Hrun.
  apply Hrun; try done; try lia.
  eapply failure_bans; [lia|rewrite Hp1; lia|lia|exact Hc|lia|rewrite Hp1; lia].
Qed.

(** Three failures within a minute, another address interleaved, then a check. *)
Lemma ban_after_threshold_witness :
  let a := auth_New [("alice", mkValidatorConfig "ta" (Some ["rpc"]) "info")] 3 (15 * Minute) in
  (isBanned (auth_run a ([OpFailure "1.2.3.4" Second; OpSuccess "5.6.7.8";
      OpIsBanned "1.2.3.4" Minute Minute Minute; OpFailure "1.2.3.4" Minute]
    ++ OpFailure "1.2.3.4" (2 * Minute) :: [OpFailure "5.6.7.8" (3 * Minute)]))
    "1.2.3.4" (17 * Minute) (17 * Minute) (17 * Minute)).2 = true.
Proof.
  apply (ban_after_threshold _ "1.2.3.4" Second); cbv [max_int64 Minute Second]; ground.
Defined.

(** ** No ban without cause *)

(** The record never claims more failures than there were since the last success. *)
Definition justified (a : Authenticator) (ip : string) (n : nat) : Prop :=
  match ips a !! ip with
  | None => True
  | Some rec =>
      min_int64 <= failures rec <= Z.of_nat n
      /\ (IsZero (banExpiry rec) = false -> banThreshold a <= Z.of_nat n)
  end.

Lemma wrap64_succ_le n : min_int64 <= n -> min_int64 <= wrap64 (n + 1) <= n + 1.
Proof.
  intros H. pose proof (wrap64_range (n + 1)) as [Hlo _]. split; [done|].
  unfold wrap64, min_int64 in *.
  pose proof (Z.mod_le (n + 1 + two63) two64). unfold two63, two64 in *. lia.
Qed.

Lemma justified_step a ip n o :
  justified a ip n ->
  justified (auth_step a o) ip
    (if is_success ip o then 0 else if is_failure ip o then S n else n).
Proof.
  unfold justified. intros Hj. destruct o as [ip' t1 t2 t3|ip' t|ip'|l]; cbn.
  - pose proof (isBanned_params a ip' t1 t2 t3) as (_ & Hp1 & _). rewrite Hp1.
    by destruct (isBanned_lookup a ip' t1 t2 t3 ip) as [->|(-> & _)].
  - destruct (decide (ip' = ip)) as [->|Hne].
    + rewrite bool_decide_eq_true_2, lookup_insert_eq by done. cbn.
      destruct (ips a !! ip) as [rec|]; cbn.
      * destruct Hj as [Hj1 Hj2]. pose proof (wrap64_succ_le (failures rec) (proj1 Hj1)).
        split; [lia|]. case_bool; zbool; [lia|]. intros Hz. specialize (Hj2 Hz). lia.
      * pose proof (wrap64_succ_le 0 ltac:(done)). split; [lia|]. case_bool; zbool; [lia|done].
    + by rewrite bool_decide_eq_false_2, lookup_insert_ne by done.
  - destruct (decide (ip' = ip)) as [->|Hne].
    + by rewrite lookup_delete_eq.
    + by rewrite bool_decide_eq_false_2, lookup_delete_ne by done.
  - done.
Qed.

Lemma justified_run ops a ip n :
  justified a ip n ->
  justified (auth_run a ops) ip
    (fold_left (fun n o => if is_success ip o then 0%nat else if is_failure ip o then S n else n) ops n).
Proof.
  revert a n. induction ops as [|o ops IH]; intros a n Hj; [done|].
  change (auth_run a (o :: ops)) with (auth_run (auth_step a o) ops). cbn [fold_left].
  apply IH. by apply justified_step.
Qed.

Lemma isBanned_record a ip t1 t2 t3 :
  (isBanned a ip t1 t2 t3).2 = true ->
  exists rec, ips a !! ip = Some rec /\ IsZero (banExpiry rec) = false /\ t3 <= banExpiry rec.
Proof.
  unfold isBanned. destruct (maybeSweep_lookup a t1 t2 ip) as [->|(-> & _)]; [|done].
  destruct (ips a !! ip) as [rec|]; [|done]. destruct (IsZero (banExpiry rec)) eqn:Hz; [done|].
  unfold After. destruct (Z.ltb_spec (banExpiry rec) t3); [done|]. intros _. eauto.
Qed.

(** C23: an address is reported banned only if it failed at least [banThreshold] times since
    its last success: on any execution from a fresh authenticator, whatever the clock
    does, a client that authenticates successfully is never banned for older failures or
    for the failures of another address. *)
Theorem ban_only_after_threshold order threshold dur ops ip t1 t2 t3 :
  (isBanned (auth_run (auth_New order threshold dur) ops) ip t1 t2 t3).2 = true ->
  threshold <= Z.of_nat (failures_since_success ip ops).
Proof.
  intros Hb. apply isBanned_record in Hb as (rec & Hrec & Hz & _).
  pose proof (justified_run ops (auth_New order threshold dur) ip 0) as Hj.
  unfold justified in Hj. cbn in Hj. rewrite lookup_empty in Hj. specialize (Hj I).
  destruct (auth_run_params (auth_New order threshold dur) ops) as [Hp _].
  rewrite Hrec, Hp in Hj. destruct Hj as [_ Hj]. by apply Hj.
Qed.

Lemma ban_only_after_threshold_witness :
  let ops := [OpFailure "1.2.3.4" Second; OpSuccess "1.2.3.4"; OpFailure "1.2.3.4" Minute;
              OpFailure "1.2.3.4" Minute] in
  (isBanned (auth_run (auth_New [] 2 (15 * Minute)) ops) "1.2.3.4" Minute Minute Minute).2 = true
  /\ 2 <= Z.of_nat (failures_since_success "1.2.3.4" ops).
Proof.
  split; [vm_compute; reflexivity|].
  apply (ban_only_after_threshold [] 2 (15 * Minute) _ "1.2.3.4" Minute Minute Minute).
  vm_compute. reflexivity.
Defined.

(** ** Who is let in *)

Lemma token_index_snoc l p :
  token_index (l ++ [p]) = <[Token p.2 := mkTokenEntry p.1 p.2]> (token_index l).
Proof. unfold token_index. by rewrite fold_left_app. Qed.

(** The index of validators with distinct tokens is exact in both directions. *)
Lemma token_index_lookup l t e :
  NoDup (map (fun p => Token p.2) l) ->
  (token_index l !! t = Some e <->
   (ValidatorName e, te_Config e) ∈ l /\ Token (te_Config e) = t).
Proof.
  induction l as [|p l IH] using rev_ind.
  - intros _. cbn. rewrite lookup_empty. split; [done|]. by intros [H%not_elem_of_nil _].
  - rewrite map_app. cbn [map]. intros Hnd. apply list.NoDup_app in Hnd as (Hnd & Hdisj & _).
    specialize (IH Hnd). rewrite token_index_snoc, lookup_insert_Some, IH, elem_of_app.
    rewrite list_elem_of_singleton. split.
    + intros [[<- <-]|[Hne [Hin Ht]]]; cbn; destruct p; auto.
    + intros [[Hin|Hin] Ht].
      * right. split; [|done]. intros Heq. apply (Hdisj (Token (te_Config e))).
        -- apply list_elem_of_fmap. exists (ValidatorName e, te_Config e). done.
        -- rewrite Ht, <- Heq. by left.
      * left. subst p. cbn. by destruct e.
Qed.

Lemma bearerToken_spec r t :
  t <> EmptyString ->
  (bearerToken r = t <-> Header_Get (ReqHeader r) "Authorization" = "Bearer " +:+ t).
Proof.
  intros Hne. unfold bearerToken, CutPrefix. set (h := Header_Get _ _). split.
  - destruct (strip_prefix "Bearer " h) as [w|] eqn:E; [|done].
    intros <-. by apply strip_prefix_Some.
  - intros H. apply strip_prefix_Some in H. by rewrite H.
Qed.

Lemma auth_Middleware_iff a r ck m order name cfg :
  map_range m order -> tokens a = token_index order ->
  tokens_unique m -> (forall n v, m !! n = Some v -> valid_validator v) ->
  ((auth_Middleware a r ck).2 = Authenticated name cfg <->
   (isBanned a (remoteIP r) (ck1 ck) (ck2 ck) (ck3 ck)).2 = false
   /\ m !! name = Some cfg
   /\ Header_Get (ReqHeader r) "Authorization" = "Bearer " +:+ Token cfg).
Proof.
  intros Hl Htok Hu Hv. apply (tokens_nodup _ _ Hl) in Hu.
  pose proof (isBanned_params a (remoteIP r) (ck1 ck) (ck2 ck) (ck3 ck)) as (Hp & _).
  unfold auth_Middleware. destruct (isBanned a _ _ _ _) as [a1 [|]]; cbn [fst snd] in *.
  { split; [done|]. by intros [? _]. }
  rewrite Hp, Htok. destruct (token_index order !! bearerToken r) as [e|] eqn:He; cbn.
  - apply token_index_lookup in He as [Hin Ht]; [|done].
    apply (map_range_elem _ _ _ _ Hl) in Hin. pose proof (Hv _ _ Hin) as [Hne _]. split.
    + intros [= <- <-]. repeat split; [done|]. by apply bearerToken_spec.
    + intros (_ & Hm & Hh). pose proof (Hv _ _ Hm) as [Hne' _].
      apply bearerToken_spec in Hh; [|done]. rewrite Hh in Ht.
      assert (token_index order !! Token cfg = Some (mkTokenEntry name cfg)) as Heq1.
      { apply token_index_lookup; [done|]. by split; [apply (map_range_elem _ _ _ _ Hl)|]. }
      assert (token_index order !! Token cfg = Some e) as Heq2.
      { apply token_index_lookup; [done|]. by split; [apply (map_range_elem _ _ _ _ Hl)|]. }
      rewrite Heq1 in Heq2. by injection Heq2 as <-.
  - split; [done|]. intros (_ & Hm & Hh). exfalso. pose proof (Hv _ _ Hm) as [Hne' _].
    apply bearerToken_spec in Hh; [|done]. rewrite Hh in He.
    assert (token_index order !! Token cfg = Some (mkTokenEntry name cfg)); [|congruence].
    apply token_index_lookup; [done|]. cbn. by split; [apply (map_range_elem _ _ _ _ Hl)|].
Qed.

(** C13: with the index built from a valid configuration, a request is let through as a
    validator exactly when its address is not banned and its Authorization header is
    "Bearer " followed by that validator's own token; it then runs under that validator's
    name and settings. In particular a missing or malformed header lets nobody in. *)
Theorem auth_Middleware_authenticates a r ck m order name cfg :
  map_range m order -> tokens a = token_index order ->
  tokens_unique m -> (forall n v, m !! n = Some v -> valid_validator v) ->
  ((auth_Middleware a r ck).2 = Authenticated name cfg <->
   (isBanned a (remoteIP r) (ck1 ck) (ck2 ck) (ck3 ck)).2 = false
   /\ m !! name = Some cfg
   /\ Header_Get (ReqHeader r) "Authorization" = "Bearer " +:+ Token cfg).
Proof. apply auth_Middleware_iff. Qed.

(** ** A request as steps

    [Middleware] with what other goroutines do to the authenticator at the two points
    between its critical sections. *)
Definition auth_Middleware_env (e1 e2 : Authenticator -> Authenticator) (a : Authenticator) (r : Request)
    (ck : auth_clock) : Authenticator * list auth_effect * auth_outcome :=
  let ip := remoteIP r in
  let metric reason := if metrics a then [RecordAuthFailure reason] else [] in
  let '(a1, banned) := isBanned a ip (ck1 ck) (ck2 ck) (ck3 ck) in
  if banned then
    (a1, metric "banned" ++ [LogRejected LogWarn "banned" ip (URL_Path r) (tokenPrefix (bearerToken r))],
     Rejected (http_Error ∅ "banned" StatusForbidden))
  else
    let a1 := e1 a1 in
    let token := bearerToken r in
    match tokens a1 !! token with
    | None =>
        (recordFailure (e2 a1) ip (ck4 ck),
         metric "invalid_token" ++ [LogRejected LogInfo "invalid_token" ip (URL_Path r) (tokenPrefix token)],
         Rejected (http_Error ∅ "unauthorized" StatusUnauthorized))
    | Some entry =>
        (recordSuccess (e2 a1) ip, [], Authenticated (ValidatorName entry) (te_Config entry))
    end.

Lemma auth_Middleware_env_id a r ck : auth_Middleware_env id id a r ck = auth_Middleware a r ck.
Proof. reflexivity. Qed.

Lemma isBanned_Reload a o ip t1 t2 t3 :
  isBanned (Reload a o) ip t1 t2 t3 = (Reload (isBanned a ip t1 t2 t3).1 o, (isBanned a ip t1 t2 t3).2).
Proof.
  unfold isBanned. assert (maybeSweep (Reload a o) t1 t2 = Reload (maybeSweep a t1 t2) o) as ->.
  { unfold maybeSweep. cbn [Reload set_tokens lastCleanup banDuration]. by case_bool. }
  cbn [Reload set_tokens ips]. destruct (ips _ !! ip) as [rec|]; [|done]. by repeat case_bool.
Qed.

(** A reload in the middle of a request is a reload before it, when the token is looked up
    after it, and else a reload after it: requests and reloads are linearisable. *)
Theorem Middleware_reload_before a r ck o :
  (isBanned a (remoteIP r) (ck1 ck) (ck2 ck) (ck3 ck)).2 = false ->
  auth_Middleware_env (fun a => Reload a o) id a r ck = auth_Middleware (Reload a o) r ck.
Proof.
  intros Hb. unfold auth_Middleware_env, auth_Middleware. rewrite isBanned_Reload.
  destruct (isBanned a _ _ _ _) as [a1 banned]. cbn [fst snd] in *. by subst banned.
Qed.

Theorem Middleware_reload_after a r ck o :
  (isBanned a (remoteIP r) (ck1 ck) (ck2 ck) (ck3 ck)).2 = false ->
  auth_Middleware_env id (fun a => Reload a o) a r ck
  = let '(a', effs, out) := auth_Middleware a r ck in (Reload a' o, effs, out).
Proof.
  intros Hb. unfold auth_Middleware_env, auth_Middleware.
  destruct (isBanned a _ _ _ _) as [a1 banned]. cbn [fst snd] in *. subst banned. unfold id. by destruct (tokens a1 !! _).
Qed.

(** The critical sections one request goes through, as an execution. *)
Definition request_ops (a : Authenticator) (r : Request) (ck : auth_clock) : list auth_op :=
  let ip := remoteIP r in
  OpIsBanned ip (ck1 ck) (ck2 ck) (ck3 ck)
  :: (if (isBanned a ip (ck1 ck) (ck2 ck) (ck3 ck)).2 then []
      else match tokens a !! bearerToken r with
           | None => [OpFailure ip (ck4 ck)]
           | Some _ => [OpSuccess ip]
           end).

Lemma auth_Middleware_run a r ck : (auth_Middleware a r ck).1.1 = auth_run a (request_ops a r ck).
Proof.
  unfold auth_Middleware, request_ops. cbn [auth_run fold_left auth_step].
  destruct (isBanned_params a (remoteIP r) (ck1 ck) (ck2 ck) (ck3 ck)) as (Ht & _).
  destruct (isBanned a _ _ _ _) as [a1 banned]. cbn [fst snd] in *. rewrite Ht.
  destruct banned; [done|]. by destruct (tokens a !! _).
Qed.

Lemma auth_Middleware_keeps a r ck :
  let a' := (auth_Middleware a r ck).1.1 in
  tokens a' = tokens a /\ banThreshold a' = banThreshold a /\ banDuration a' = banDuration a.
Proof.
  unfold auth_Middleware. destruct (isBanned_params a (remoteIP r) (ck1 ck) (ck2 ck) (ck3 ck)) as (H1 & H2 & H3 & _).
  destruct (isBanned a _ _ _ _) as [a1 banned]. cbn [fst] in *. destruct banned; [done|]. by destruct (tokens a1 !! _).
Qed.

Lemma auth_Middleware_banned a r ck :
  (isBanned a (remoteIP r) (ck1 ck) (ck2 ck) (ck3 ck)).2 = true ->
  (auth_Middleware a r ck).2 = Rejected (http_Error ∅ "banned" StatusForbidden).
Proof. unfold auth_Middleware. destruct (isBanned a _ _ _ _) as [a1 b]. cbn [snd]. by intros ->. Qed.

Lemma auth_Middleware_rejected a r ck resp :
  (auth_Middleware a r ck).2 = Rejected resp -> StatusCode resp = StatusUnauthorized \/ StatusCode resp = StatusForbidden.
Proof.
  unfold auth_Middleware. destruct (isBanned a _ _ _ _) as [a1 [|]]; [intros [= <-]; by right|].
  destruct (tokens a1 !! _); [done|]. intros [= <-]. by left.
Qed.

Definition auth_request (hdr : Header) : Request :=
  mkRequest "POST" "/rpc" "/rpc" hdr "10.0.0.7:51234" (Ok []).

Lemma auth_Middleware_authenticates_witness :
  let m := {[ "alice" := mkValidatorConfig "ta" (Some ["rpc"]) "info" ]} : gmap string ValidatorConfig in
  let a := auth_New (map_to_list m) 3 (15 * Minute) in
  (auth_Middleware a (auth_request {[ "Authorization" := ["Bearer ta"] ]})
     (mkAuthClock Minute Minute Minute Minute)).2
  = Authenticated "alice" (mkValidatorConfig "ta" (Some ["rpc"]) "info").
Proof.
  intros m a.
  apply (auth_Middleware_authenticates a _ _ m (map_to_list m)).
  - apply map_range_map_to_list.
  - reflexivity.
  - intros n1 n2 v1 v2 H1 H2 _. apply lookup_singleton_Some in H1 as [<- _].
    by apply lookup_singleton_Some in H2 as [<- _].
  - intros n v H. apply lookup_singleton_Some in H as [_ <-].
    split; [discriminate|]. cbn. constructor; [|constructor].
    apply (bool_decide_eq_true_1 _). vm_compute. reflexivity.
  - split; [vm_compute; reflexivity|]. split; [|reflexivity]. apply lookup_singleton_eq.
Defined.

(** What a rejected request leaves behind. A banned client gets 403 whatever token it
    shows, its failures are not counted again and its token is never looked up; a client
    with an unknown token gets 401 and exactly its own failure count grows; an admitted
    request clears the record of its address. Records of other addresses only ever
    disappear by the sweep. *)
Theorem auth_Middleware_effects a r ck :
  let '(a', effs, out) := auth_Middleware a r ck in
  let ip := remoteIP r in
  let '(a1, banned) := isBanned a ip (ck1 ck) (ck2 ck) (ck3 ck) in
  match out with
  | Rejected resp =>
      (StatusCode resp = StatusForbidden /\ banned = true /\ a' = a1)
      \/ (StatusCode resp = StatusUnauthorized /\ banned = false
          /\ tokens a !! bearerToken r = None
          /\ failure_count a' ip = wrap64 (failure_count a1 ip + 1)
          /\ forall ip', ip' <> ip -> ips a' !! ip' = ips a1 !! ip')
  | Authenticated _ _ =>
      banned = false /\ effs = [] /\ ips a' !! ip = None
      /\ forall ip', ip' <> ip -> ips a' !! ip' = ips a1 !! ip'
  end.
Proof.
  unfold auth_Middleware.
  pose proof (isBanned_params a (remoteIP r) (ck1 ck) (ck2 ck) (ck3 ck)) as (Hp & _).
  destruct (isBanned a _ _ _ _) as [a1 [|]]; cbn [fst snd] in *; [by left|].
  rewrite Hp. destruct (tokens a !! bearerToken r) as [e|] eqn:He; cbn.
  - split; [done|]. split; [done|]. split; [apply lookup_delete_eq|].
    intros. by rewrite lookup_delete_ne.
  - right. split; [done|]. split; [done|]. split; [done|]. split.
    + unfold failure_count. cbn. rewrite lookup_insert_eq. by destruct (ips a1 !! remoteIP r).
    + intros. by rewrite lookup_insert_ne.
Qed.

(** ** Client addresses *)

Lemma Split_app_last s t c :
  c ∉ bytes_of_string t -> list.last (Split (s +:+ String c t) c) = Some t.
Proof.
  intros Ht. assert (Hone : Split t c = [t]).
  { clear s. induction t as [|a t IH]; [done|]. cbn in Ht. apply not_elem_of_cons in Ht as [Hne Ht].
    cbn. destruct (Ascii.eqb_spec a c); [congruence|]. by rewrite IH. }
  induction s as [|a s IH].
  - change (EmptyString +:+ String c t) with (String c t). cbn [Split].
    by rewrite Ascii.eqb_refl, Hone.
  - change (String a s +:+ String c t) with (String a (s +:+ String c t)). cbn [Split].
    destruct (Split (s +:+ String c t) c) as [|w ws] eqn:E; [by destruct (Split_not_nil _ _ E)|].
    destruct (Ascii.eqb a c); [exact IH|].
    destruct ws as [|w2 ws]; [|exact IH].
    exfalso. clear IH. pose proof (Join_Split (s +:+ String c t) c) as HJ.
    pose proof (Split_no_sep (s +:+ String c t) c) as Hn. rewrite E in HJ, Hn. cbn in HJ.
    apply Forall_cons_iff in Hn as [Hn _]. rewrite HJ, bytes_of_string_app in Hn.
    apply Hn, elem_of_app. right. by left.
Qed.

(** The ban key is the rightmost entry of the first X-Forwarded-For line: whatever a
    client puts in front of the entry its trusted proxy appends, the proxy's entry is the
    one used. *)
Theorem remoteIP_rightmost r s t rest :
  ReqHeader r !! "X-Forwarded-For" = Some ((s +:+ "," +:+ t) :: rest) ->
  comma ∉ bytes_of_string t -> TrimSpace t <> EmptyString ->
  remoteIP r = TrimSpace t.
Proof.
  intros Hh Ht Hne. unfold remoteIP, Header_Get. rewrite Hh.
  rewrite bool_decide_eq_false_2 by (by destruct s).
  change ("," +:+ t) with (String comma t). rewrite Split_app_last by done. cbn.
  by rewrite bool_decide_eq_false_2.
Qed.

Lemma remoteIP_rightmost_witness :
  remoteIP (auth_request {[ "X-Forwarded-For" := ["6.6.6.6, 7.7.7.7, 203.0.113.9"] ]})
  = "203.0.113.9".
Proof.
  rewrite (remoteIP_rightmost _ "6.6.6.6, 7.7.7.7" " 203.0.113.9" []).
  - reflexivity.
  - reflexivity.
  - apply (bool_decide_eq_true_1 _). vm_compute. reflexivity.
  - discriminate.
Defined.

(** With two header lines, of which the proxy added the second, the client's own line is
    the one that is used: only the first line is looked at. *)
Theorem remoteIP_first_line_only :
  remoteIP (auth_request {[ "X-Forwarded-For" := ["6.6.6.6"; "203.0.113.9"] ]}) = "6.6.6.6".
Proof. reflexivity. Qed.

(** ** The gauge *)

Lemma BannedCount_acc now l n :
  fold_left (fun n p => if active_ban now p.2 then n + 1 else n) l n
  = n + Z.of_nat (length (filter (fun p : string * ipRecord => active_ban now p.2 = true) l)).
Proof.
  revert n. induction l as [|p l IH]; intros n; [cbn; lia|]. cbn [fold_left].
  rewrite IH, filter_cons. destruct (active_ban now p.2) eqn:E; cbn [length decide bool_decide].
  - rewrite decide_True by done. cbn [length]. lia.
  - by rewrite decide_False.
Qed.

(** In whichever order the map is visited: how many records have an active ban. *)
Lemma BannedCount_size now m order :
  map_range m order -> BannedCount now order = Z.of_nat (size (filter (fun p : string * ipRecord => active_ban now p.2 = true) m)).
Proof.
  intros Hr. unfold BannedCount. rewrite BannedCount_acc, Z.add_0_l. f_equal.
  rewrite <- length_map_to_list, map_filter_alt, map_to_list_to_map.
  - apply Permutation_length. by rewrite Hr.
  - eapply sublist_NoDup; [apply (NoDup_fst_map_to_list m)|]. apply fmap_sublist, sublist_filter.
Qed.

(** The gauge counts exactly the addresses that a check at the same instant reports as
    banned, in whichever order the map is visited; an expiry that falls on that very
    instant is the one exception ([isBanned] still reports it). *)
Theorem BannedCount_spec a now order :
  map_range (ips a) order ->
  (forall ip rec, ips a !! ip = Some rec -> banExpiry rec <> now) ->
  BannedCount now order
  = Z.of_nat (length (filter (fun p : string * ipRecord => (isBanned a p.1 now now now).2 = true) order)).
Proof.
  intros Hl Hexp. unfold BannedCount. rewrite BannedCount_acc, Z.add_0_l. do 2 f_equal.
  assert (Hin : forall p, p ∈ order -> ips a !! p.1 = Some p.2)
    by (intros [ip rec]; apply (map_range_elem _ _ _ _ Hl)).
  clear Hl. induction order as [|[ip rec] l IH]; [done|].
  assert (Hrec : ips a !! ip = Some rec) by (apply (Hin (ip, rec)); by left).
  assert (Heq : active_ban now rec = true <-> (isBanned a ip now now now).2 = true).
  { unfold active_ban. rewrite andb_true_iff, negb_true_iff, Before_spec. split.
    - intros [Hz Hlt]. apply (banned_until_isBanned _ _ now); [|lia..].
      exists rec. split; [done|]. split; [done|lia].
    - intros (rec' & Hr & Hz & Hle)%isBanned_record. rewrite Hrec in Hr. injection Hr as <-.
      specialize (Hexp _ _ Hrec). split; [done|lia]. }
  rewrite !filter_cons. cbn [fst snd]. rewrite IH by (intros; apply Hin; by right).
  destruct (decide (active_ban now rec = true)) as [H|H].
  - by rewrite decide_True by (by apply Heq).
  - rewrite decide_False; [done|]. by rewrite <- Heq.
Qed.

Lemma BannedCount_spec_witness :
  let a := auth_run (auth_New [] 1 Hour) [OpFailure "1.1.1.1" Minute; OpFailure "2.2.2.2" (40 * Minute)] in
  BannedCount (70 * Minute) (map_to_list (ips a)) = 1.
Proof.
  intros a. rewrite (BannedCount_spec a).
  - vm_compute. reflexivity.
  - apply map_range_map_to_list.
  - intros ip rec H. unfold a in H. cbn in H.
    apply lookup_insert_Some in H as [[_ <-]|[_ H]]; [vm_compute; discriminate|].
    apply lookup_insert_Some in H as [[_ <-]|[_ H]]; [vm_compute; discriminate|].
    by rewrite lookup_empty in H.
Defined.

(** ** The sweep *)

(** A sweep never lifts an active ban, and after it no expired ban and no stale failure
    record is left. *)
Lemma maybeSweep_keeps_active a t1 t2 ip rec :
  ips a !! ip = Some rec -> active_ban t2 rec = true ->
  ips (maybeSweep a t1 t2) !! ip = Some rec.
Proof.
  intros Hrec Ha. unfold active_ban in Ha. apply andb_true_iff in Ha as [Hz Hlt].
  apply negb_true_iff in Hz. apply Before_spec in Hlt.
  destruct (maybeSweep_lookup a t1 t2 ip) as [->|(_ & r & Hr & Hsw)]; [done|].
  rewrite Hrec in Hr. injection Hr as <-.
  by rewrite (swept_banned _ t2 _ t2 Hz) in Hsw by lia.
Qed.

Lemma maybeSweep_bounds a t1 t2 ip rec :
  banDuration a <= Since t1 (lastCleanup a) ->
  ips (maybeSweep a t1 t2) !! ip = Some rec -> swept (banDuration a) t2 rec = false.
Proof.
  intros Hd. unfold maybeSweep. rewrite (proj2 (Z.ltb_ge _ _)) by done. cbn.
  by intros [_ H]%map_lookup_filter_Some.
Qed.

(** The first request of a fresh authenticator sweeps: its last cleanup is the zero time. *)
Lemma auth_New_sweeps order threshold dur t1 t2 :
  clock_ok t1 -> dur <= max_int64 -> lastCleanup (maybeSweep (auth_New order threshold dur) t1 t2) = t2.
Proof.
  intros Hc Hd. unfold maybeSweep. cbn [lastCleanup banDuration auth_New].
  rewrite Since_zero by done. by rewrite (proj2 (Z.ltb_ge _ _)).
Qed.
