(* ===== verification/Delta.v ===== *)
(** * internal/sentinel/delta

    The change filter of the collectors: a hash per key. [crypto/sha256] is written out
    (FIPS 180-4, 32-bit words as [Z]), so that the filter can be evaluated; what its
    correctness needs from the hash, the absence of collisions among the values one key
    takes, is a hypothesis. *)

From Stdlib Require Import Ascii.
From S2P Require Import Prelude GoStrings.

Local Open Scope Z_scope.

(** ** SHA-256 *)

Definition w32 (z : Z) : Z := Z.land z 4294967295.
Definition rotr (n x : Z) : Z := Z.lor (Z.shiftr x n) (w32 (Z.shiftl x (32 - n))).

(** The constants are the first 32 bits of the fractional parts of the cube roots of the
    first 64 primes and of the square roots of the first eight. *)
Definition is_prime (n : Z) : bool :=
  forallb (fun d => negb (n mod d =? 0)) (map Z.of_nat (seq 2 (Z.to_nat (Z.sqrt n) - 1))).

Definition primes (below : nat) : list Z := List.filter is_prime (map Z.of_nat (seq 2 (below - 2))).

(** The integer cube root of a number below [2^105], from the highest bit down. *)
Definition cube_root (x : Z) : Z :=
  fold_left (fun acc i => let c := acc + 2 ^ i in if c * c * c <=? x then c else acc)
    (map Z.of_nat (rev (seq 0 35))) 0.

Definition sha_K : list Z := Eval vm_compute in map (fun p => w32 (cube_root (p * 2 ^ 96))) (primes 312).

Definition sha_init : list Z := Eval vm_compute in map (fun p => w32 (Z.sqrt (p * 2 ^ 64))) (primes 20).

(** Big-endian 32-bit words. *)
Fixpoint be_words (b : bytes) : list Z :=
  match b with
  | x :: y :: z :: t :: b' =>
      (((byte_val x * 256 + byte_val y) * 256 + byte_val z) * 256 + byte_val t) :: be_words b'
  | _ => []
  end.

Definition be_bytes (n : nat) (z : Z) : bytes :=
  map (fun i => byte_of (Z.shiftr z (8 * Z.of_nat (n - 1 - i)))) (seq 0 n).

Definition sha_pad (b : bytes) : bytes :=
  let l := Z.of_nat (length b) in
  b ++ [byte_of 128] ++ repeat (byte_of 0) (Z.to_nat ((55 - l) mod 64)) ++ be_bytes 8 (8 * l).

Definition sigma0 (x : Z) : Z := Z.lxor (Z.lxor (rotr 7 x) (rotr 18 x)) (Z.shiftr x 3).
Definition sigma1 (x : Z) : Z := Z.lxor (Z.lxor (rotr 17 x) (rotr 19 x)) (Z.shiftr x 10).
Definition Sigma0 (x : Z) : Z := Z.lxor (Z.lxor (rotr 2 x) (rotr 13 x)) (rotr 22 x).
Definition Sigma1 (x : Z) : Z := Z.lxor (Z.lxor (rotr 6 x) (rotr 11 x)) (rotr 25 x).

(** One round; [w] is the sliding window of the last sixteen schedule words. *)
Definition sha_round (st w : list Z) (k : Z) : list Z * list Z :=
  let wt := nth 0 w 0 in
  let next := w32 (sigma1 (nth 14 w 0) + nth 9 w 0 + sigma0 (nth 1 w 0) + wt) in
  match st with
  | [a; b; c; d; e; f; g; h] =>
      let t1 := w32 (h + Sigma1 e + Z.lxor (Z.land e f) (Z.land (4294967295 - e) g) + k + wt) in
      let t2 := w32 (Sigma0 a + Z.lxor (Z.lxor (Z.land a b) (Z.land a c)) (Z.land b c)) in
      ([w32 (t1 + t2); a; b; c; w32 (d + t1); e; f; g], drop 1 w ++ [next])
  | _ => (st, w)
  end.

Definition sha_block (st block : list Z) : list Z :=
  let '(st', _) := fold_left (fun p k => sha_round p.1 p.2 k) sha_K (st, block) in
  zip_with (fun x y => w32 (x + y)) st st'.

Fixpoint sha_blocks (fuel : nat) (st ws : list Z) : list Z :=
  match fuel with
  | O => st
  | S f => match ws with
           | [] => st
           | _ => sha_blocks f (sha_block st (take 16 ws)) (drop 16 ws)
           end
  end.

(** [sha256.Sum256]. *)
Definition Sum256 (b : bytes) : bytes :=
  let ws := be_words (sha_pad b) in
  concat (map (be_bytes 4) (sha_blocks (length ws) sha_init ws)).

(** The FIPS test vector. *)
Example Sum256_abc :
  hex_encode (Sum256 (bytes_of_string "abc"))
  = "ba7816bf8f01cfea414140de5dae2223b00361a396177a9cb410ff61f20015ad".
Proof. vm_compute. reflexivity. Qed.

Example Sum256_two_blocks :
  hex_encode (Sum256 (bytes_of_string "abcdbcdecdefdefgefghfghighijhijkijkljklmklmnlmnomnopnopq"))
  = "248d6a61d20638b8e5c026930c3e6039a33ce45964ff2167f6ecedd419db06c1".
Proof. vm_compute. reflexivity. Qed.

(** ** The filter *)

Definition hash_size : nat := 32.

(** The array a missing map key reads as. *)
Definition zero_hash : bytes := repeat (byte_of 0) hash_size.

Record Delta := mkDelta { hashes : gmap string bytes }.

Definition NewDelta : Delta := mkDelta ∅.

Definition Changed (d : Delta) (key : string) (data : bytes) : Delta * bool :=
  let h := Sum256 data in
  if bool_decide (default zero_hash (hashes d !! key) = h) then (d, false)
  else (mkDelta (<[key := h]> (hashes d)), true).

Fixpoint delta_run (d : Delta) (calls : list (string * bytes)) : Delta * list bool :=
  match calls with
  | [] => (d, [])
  | (k, x) :: calls' =>
      let '(d1, r) := Changed d k x in
      let '(d2, rs) := delta_run d1 calls' in
      (d2, r :: rs)
  end.

(** *** Specification: the last value itself per key *)

Definition spec_changed (m : gmap string bytes) (key : string) (data : bytes)
    : gmap string bytes * bool :=
  (<[key := data]> m, negb (bool_decide (m !! key = Some data))).

Fixpoint delta_spec_run (m : gmap string bytes) (calls : list (string * bytes))
    : gmap string bytes * list bool :=
  match calls with
  | [] => (m, [])
  | (k, x) :: calls' =>
      let '(m1, r) := spec_changed m k x in
      let '(m2, rs) := delta_spec_run m1 calls' in
      (m2, r :: rs)
  end.

(** No two values given for one key collide, and none hashes to the zero array. *)
Definition collision_free (vals : list (string * bytes)) : Prop :=
  (forall k x y, (k, x) ∈ vals -> (k, y) ∈ vals -> Sum256 x = Sum256 y -> x = y)
  /\ (forall k x, (k, x) ∈ vals -> Sum256 x <> zero_hash).

Definition tracks (vals : list (string * bytes)) (d : Delta) (m : gmap string bytes) : Prop :=
  forall k, hashes d !! k = Sum256 <$> m !! k
            /\ (forall x, m !! k = Some x -> (k, x) ∈ vals).

Lemma Changed_tracks vals d m k x :
  collision_free vals -> tracks vals d m -> (k, x) ∈ vals ->
  (Changed d k x).2 = (spec_changed m k x).2
  /\ tracks vals (Changed d k x).1 (spec_changed m k x).1.
Proof.
  intros [Hinj Hzero] Ht Hin. unfold Changed, spec_changed. destruct (Ht k) as [Hk Hv].
  rewrite Hk. cbn [fst snd].
  assert (Hiff : default zero_hash (Sum256 <$> m !! k) = Sum256 x <-> m !! k = Some x).
  { destruct (m !! k) as [y|] eqn:E; cbn; split.
    - intros H. f_equal. apply (Hinj k); auto.
    - by intros [= ->].
    - intros H. by destruct (Hzero k x Hin).
    - done. }
  rewrite (bool_decide_ext _ _ Hiff). case_bool; cbn [fst snd negb]; (split; [done|]); zbool.
  - intros k'. destruct (decide (k = k')) as [<-|Hne].
    + rewrite lookup_insert_eq, Hk, E. split; [done|]. by intros ? [= <-].
    + rewrite lookup_insert_ne by done. apply Ht.
  - intros k'. cbn. destruct (decide (k = k')) as [<-|Hne].
    + rewrite !lookup_insert_eq. split; [done|]. by intros ? [= <-].
    + rewrite !lookup_insert_ne by done. apply Ht.
Qed.

Lemma delta_run_tracks vals calls d m :
  collision_free vals -> tracks vals d m -> (forall p, p ∈ calls -> p ∈ vals) ->
  (delta_run d calls).2 = (delta_spec_run m calls).2.
Proof.
  intros Hcf. revert d m. induction calls as [|[k x] calls IH]; intros d m Ht Hin; [done|].
  cbn [delta_run delta_spec_run].
  pose proof (Changed_tracks vals d m k x Hcf Ht (Hin _ ltac:(by left))) as [Hr Ht'].
  destruct (Changed d k x) as [d1 r]. destruct (spec_changed m k x) as [m1 r'].
  cbn in Hr, Ht'. subst r'.
  specialize (IH d1 m1 Ht' ltac:(intros; apply Hin; by right)).
  destruct (delta_run d1 calls), (delta_spec_run m1 calls). cbn in *. by rewrite IH.
Qed.

(** On every sequence of calls the filter answers as if it kept the values themselves:
    a value is reported exactly when it is the first for its key or differs from the one
    before it, provided SHA-256 has no collision among the values of a key. *)
Theorem delta_refines_spec calls :
  collision_free calls ->
  (delta_run NewDelta calls).2 = (delta_spec_run ∅ calls).2.
Proof.
  intros Hcf. apply (delta_run_tracks calls); [done| |done].
  intros k. cbn. by rewrite !lookup_empty.
Qed.

(** A block height that moves, repeats and comes back. *)
Lemma delta_refines_spec_witness :
  let h1 := bytes_of_string "1042" in
  let h2 := bytes_of_string "1043" in
  (delta_run NewDelta [("height", h1); ("peers", h1); ("height", h1); ("height", h2); ("height", h1)]).2
  = [true; true; false; true; true].
Proof.
  intros h1 h2. rewrite delta_refines_spec; [reflexivity|].
  assert (Hv : forall k x, (k, x) ∈ [("height", h1); ("peers", h1); ("height", h1); ("height", h2);
    ("height", h1)] -> x = h1 \/ x = h2).
  { intros k x H. repeat (apply elem_of_cons in H as [[= -> ->]|H]; [auto|]).
    by apply not_elem_of_nil in H. }
  assert (H12 : Sum256 h1 <> Sum256 h2).
  { intros H. apply (f_equal hex_encode) in H. vm_compute in H. discriminate H. }
  split.
  - intros k x y [->| ->]%Hv [->| ->]%Hv; congruence.
  - intros k x [->| ->]%Hv H; apply (f_equal hex_encode) in H; vm_compute in H; discriminate H.
Defined.
