(* ===== verification/SentinelStats.v ===== *)
(** * internal/sentinel/stats

    Counters per collector type: absolute ones, and ones that each [Snapshot] resets. Every
    method holds the mutex, so an execution is a sequence of calls. Counters are [int64]. *)

From S2P Require Import Prelude GoTime.

Local Open Scope Z_scope.

(** The two snapshot shapes share the names of the Go fields. *)
Record TypeSnapshot := mkTypeSnapshot {
  TotalBytes : Z;
  TotalWireBytes : Z;
  TotalDrops : gmap string Z;
  LastSnapshotBytes : Z;
  LastSnapshotDrops : gmap string Z
}.

Record sn_entry := mkEntry {
  totalBytes : Z;
  totalWireBytes : Z;
  totalDrops : gmap string Z;
  lastBytes : Z;
  lastDrops : gmap string Z
}.

Record Stats := mkStats { st_start : Time; st_data : gmap string sn_entry }.

Definition stats_New (now : Time) : Stats := mkStats now ∅.

Definition getOrCreate (s : Stats) (collectorType : string) : sn_entry :=
  default (mkEntry 0 0 ∅ 0 ∅) (st_data s !! collectorType).

Definition put_entry (s : Stats) (k : string) (e : sn_entry) : Stats :=
  mkStats (st_start s) (<[k := e]> (st_data s)).

Definition stats_Record (s : Stats) (collectorType : string) (uncompressed wire : Z) : Stats :=
  let e := getOrCreate s collectorType in
  put_entry s collectorType
    (mkEntry (wrap64 (totalBytes e + uncompressed)) (wrap64 (totalWireBytes e + wire)) (totalDrops e)
       (wrap64 (lastBytes e + uncompressed)) (lastDrops e)).

(** [m[reason]++]: a missing key counts from zero. *)
Definition incr (m : gmap string Z) (k : string) : gmap string Z :=
  <[k := wrap64 (default 0 (m !! k) + 1)]> m.

Definition RecordDrop (s : Stats) (collectorType reason : string) : Stats :=
  let e := getOrCreate s collectorType in
  put_entry s collectorType
    (mkEntry (totalBytes e) (totalWireBytes e) (incr (totalDrops e) reason)
       (lastBytes e) (incr (lastDrops e) reason)).

Definition snapshot_of (e : sn_entry) : TypeSnapshot :=
  mkTypeSnapshot (totalBytes e) (totalWireBytes e) (totalDrops e) (lastBytes e) (lastDrops e).

Definition reset_entry (e : sn_entry) : sn_entry :=
  mkEntry (totalBytes e) (totalWireBytes e) (totalDrops e) 0 ∅.

(** The loop handles every entry on its own: the visiting order does not matter. *)
Definition stats_Snapshot (s : Stats) (now : Time) : Stats * (gmap string TypeSnapshot * Duration) :=
  (mkStats (st_start s) (reset_entry <$> st_data s), (snapshot_of <$> st_data s, Since now (st_start s))).

(** ** Executions *)

Inductive stats_op :=
| OpRecord (k : string) (uncompressed wire : Z)
| OpDrop (k reason : string)
| OpSnapshot (now : Time).

(** The final state and the snapshots taken, in order. *)
Fixpoint stats_run (s : Stats) (ops : list stats_op) : Stats * list (gmap string TypeSnapshot) :=
  match ops with
  | [] => (s, [])
  | OpRecord k u w :: ops' => stats_run (stats_Record s k u w) ops'
  | OpDrop k r :: ops' => stats_run (RecordDrop s k r) ops'
  | OpSnapshot now :: ops' =>
      let '(s1, (snap, _)) := stats_Snapshot s now in
      let '(s2, snaps) := stats_run s1 ops' in
      (s2, snap :: snaps)
  end.

(** What was recorded for a type: bytes, wire bytes, drops for a reason. *)
Fixpoint recorded (k : string) (ops : list stats_op) : Z :=
  match ops with
  | [] => 0
  | OpRecord k' u _ :: ops' => (if bool_decide (k' = k) then u else 0) + recorded k ops'
  | _ :: ops' => recorded k ops'
  end.

Fixpoint recorded_wire (k : string) (ops : list stats_op) : Z :=
  match ops with
  | [] => 0
  | OpRecord k' _ w :: ops' => (if bool_decide (k' = k) then w else 0) + recorded_wire k ops'
  | _ :: ops' => recorded_wire k ops'
  end.

Fixpoint recorded_drops (k r : string) (ops : list stats_op) : Z :=
  match ops with
  | [] => 0
  | OpDrop k' r' :: ops' => (if bool_decide (k' = k /\ r' = r) then 1 else 0) + recorded_drops k r ops'
  | _ :: ops' => recorded_drops k r ops'
  end.

(** What the snapshots reported as new. *)
Definition reported (k : string) (snaps : list (gmap string TypeSnapshot)) : Z :=
  foldr (fun m n => default 0 (LastSnapshotBytes <$> m !! k) + n) 0 snaps.

Definition reported_drops (k r : string) (snaps : list (gmap string TypeSnapshot)) : Z :=
  foldr (fun m n => default 0 (m !! k ≫= fun t => LastSnapshotDrops t !! r) + n) 0 snaps.

(** The counters of a type and reason in a state. *)
Definition ctr_total (s : Stats) (k : string) : Z := totalBytes (getOrCreate s k).
Definition ctr_wire (s : Stats) (k : string) : Z := totalWireBytes (getOrCreate s k).
Definition ctr_last (s : Stats) (k : string) : Z := lastBytes (getOrCreate s k).
Definition ctr_drops (s : Stats) (k r : string) : Z := default 0 (totalDrops (getOrCreate s k) !! r).
Definition ctr_last_drops (s : Stats) (k r : string) : Z := default 0 (lastDrops (getOrCreate s k) !! r).

(** * Properties *)

Lemma getOrCreate_put s k e k' :
  getOrCreate (put_entry s k e) k' = if bool_decide (k = k') then e else getOrCreate s k'.
Proof.
  unfold getOrCreate, put_entry. cbn. case_bool; zbool.
  - subst. by rewrite lookup_insert_eq.
  - by rewrite lookup_insert_ne.
Qed.

Lemma incr_lookup m k k' :
  default 0 (incr m k !! k') = if bool_decide (k = k') then wrap64 (default 0 (m !! k) + 1) else default 0 (m !! k').
Proof.
  unfold incr. case_bool; zbool; [subst; by rewrite lookup_insert_eq|by rewrite lookup_insert_ne].
Qed.

Lemma getOrCreate_reset s now k :
  getOrCreate (stats_Snapshot s now).1 k = reset_entry (getOrCreate s k).
Proof. unfold getOrCreate, stats_Snapshot. cbn. rewrite lookup_fmap. by destruct (st_data s !! k). Qed.

Lemma snapshot_last s now k :
  default 0 (LastSnapshotBytes <$> (stats_Snapshot s now).2.1 !! k) = ctr_last s k.
Proof.
  unfold ctr_last, getOrCreate, stats_Snapshot. cbn. rewrite lookup_fmap. by destruct (st_data s !! k).
Qed.

Lemma snapshot_last_drops s now k r :
  default 0 ((stats_Snapshot s now).2.1 !! k ≫= fun t => LastSnapshotDrops t !! r) = ctr_last_drops s k r.
Proof.
  unfold ctr_last_drops, getOrCreate, stats_Snapshot. cbn. rewrite lookup_fmap.
  destruct (st_data s !! k); cbn; [done|]. by rewrite lookup_empty.
Qed.

(** The relation between a state and the state after further operations. *)
Lemma stats_run_totals ops s k :
  let '(s', snaps) := stats_run s ops in
  wrap64 (ctr_total s' k) = wrap64 (ctr_total s k + recorded k ops)
  /\ wrap64 (ctr_wire s' k) = wrap64 (ctr_wire s k + recorded_wire k ops)
  /\ wrap64 (reported k snaps + ctr_last s' k) = wrap64 (ctr_last s k + recorded k ops).
Proof.
  revert s. induction ops as [|[k' u w|k' r|now] ops IH]; intros s; cbn [stats_run recorded recorded_wire].
  - cbn. by rewrite !Z.add_0_r.
  - specialize (IH (stats_Record s k' u w)). destruct (stats_run _ ops) as [s' snaps].
    unfold stats_Record, ctr_total, ctr_wire, ctr_last in *. rewrite !getOrCreate_put in IH.
    case_bool; zbool; [|by rewrite !Z.add_0_l]. subst k'. cbn [totalBytes totalWireBytes lastBytes] in IH.
    rewrite !wrap64_add_l, <- !Z.add_assoc in IH. done.
  - specialize (IH (RecordDrop s k' r)). destruct (stats_run _ ops) as [s' snaps].
    unfold RecordDrop, ctr_total, ctr_wire, ctr_last in *. rewrite !getOrCreate_put in IH.
    by destruct (bool_decide (k' = k)) eqn:E; zbool; [subst k'|].
  - pose proof (snapshot_last s now k) as Hsnap. pose proof (getOrCreate_reset s now k) as Hreset.
    destruct (stats_Snapshot s now) as [s1 [snap up]]. cbn [fst snd] in *. specialize (IH s1).
    destruct (stats_run s1 ops) as [s' snaps]. unfold ctr_total, ctr_wire, ctr_last in *.
    rewrite Hreset in IH. cbn [reset_entry totalBytes totalWireBytes lastBytes] in IH.
    destruct IH as (H1 & H2 & H3). split; [done|]. split; [done|]. cbn [reported foldr].
    fold (reported k snaps). rewrite Hsnap, <- Z.add_assoc, <- wrap64_add_r, H3, wrap64_add_r. done.
Qed.

Lemma stats_run_drops ops s k r :
  let '(s', snaps) := stats_run s ops in
  wrap64 (ctr_drops s' k r) = wrap64 (ctr_drops s k r + recorded_drops k r ops)
  /\ wrap64 (reported_drops k r snaps + ctr_last_drops s' k r)
     = wrap64 (ctr_last_drops s k r + recorded_drops k r ops).
Proof.
  revert s. induction ops as [|[k' u w|k' r'|now] ops IH]; intros s; cbn [stats_run recorded_drops].
  - cbn. by rewrite !Z.add_0_r.
  - specialize (IH (stats_Record s k' u w)). destruct (stats_run _ ops) as [s' snaps].
    unfold stats_Record, ctr_drops, ctr_last_drops in *. rewrite !getOrCreate_put in IH.
    by destruct (bool_decide (k' = k)) eqn:E; zbool; [subst k'|].
  - specialize (IH (RecordDrop s k' r')). destruct (stats_run _ ops) as [s' snaps].
    unfold RecordDrop, ctr_drops, ctr_last_drops in *. rewrite !getOrCreate_put in IH.
    destruct (decide (k' = k)) as [->|Hk].
    + rewrite bool_decide_eq_true_2 in IH by done. cbn [totalDrops lastDrops] in IH.
      rewrite !incr_lookup in IH. destruct (decide (r' = r)) as [->|Hr].
      * rewrite bool_decide_eq_true_2 in IH by done. rewrite bool_decide_eq_true_2 by done.
        rewrite !wrap64_add_l, <- !Z.add_assoc in IH. done.
      * rewrite bool_decide_eq_false_2 in IH by done. by rewrite bool_decide_eq_false_2 by naive_solver.
    + rewrite bool_decide_eq_false_2 in IH by done. by rewrite bool_decide_eq_false_2 by naive_solver.
  - pose proof (snapshot_last_drops s now k r) as Hsnap. pose proof (getOrCreate_reset s now k) as Hreset.
    destruct (stats_Snapshot s now) as [s1 [snap up]]. cbn [fst snd] in *. specialize (IH s1).
    destruct (stats_run s1 ops) as [s' snaps]. unfold ctr_drops, ctr_last_drops in *.
    rewrite Hreset in IH. cbn [reset_entry totalDrops lastDrops] in IH. rewrite lookup_empty in IH.
    destruct IH as (H1 & H2). split; [done|]. cbn [reported_drops foldr].
    fold (reported_drops k r snaps). rewrite Hsnap, <- Z.add_assoc, <- wrap64_add_r, H2, wrap64_add_r. done.
Qed.

(** Nothing that is recorded is lost or reported twice: on every execution from a fresh
    [Stats], for every collector type and drop reason, the absolute counters are the sums
    of what was recorded, and the sum of the per-snapshot counters over all snapshots plus
    what is still pending is the same sum (in [int64] arithmetic). *)
Theorem stats_conservation now ops k r :
  let '(s', snaps) := stats_run (stats_New now) ops in
  wrap64 (ctr_total s' k) = wrap64 (recorded k ops)
  /\ wrap64 (ctr_wire s' k) = wrap64 (recorded_wire k ops)
  /\ wrap64 (reported k snaps + ctr_last s' k) = wrap64 (recorded k ops)
  /\ wrap64 (ctr_drops s' k r) = wrap64 (recorded_drops k r ops)
  /\ wrap64 (reported_drops k r snaps + ctr_last_drops s' k r) = wrap64 (recorded_drops k r ops).
Proof.
  pose proof (stats_run_totals ops (stats_New now) k) as H1.
  pose proof (stats_run_drops ops (stats_New now) k r) as H2.
  destruct (stats_run (stats_New now) ops) as [s' snaps].
  destruct H1 as (? & ? & ?), H2 as (? & ?). repeat split; done.
Qed.
