(* ===== verification/WtStats.v ===== *)
(** * internal/watchtower/stats

    Byte counts per validator and collector type, with an hourly counter that [Snapshot]
    resets. The entries are reached through one map of maps and are never shared, so they
    are values here. *)

From S2P Require Import Prelude GoTime.

Local Open Scope Z_scope.

Record HourSnapshot := mkHourSnapshot { LastHourBytes : Z; ws_TotalBytes : Z }.
Record ws_entry := mkWsEntry { lastHour : Z; total : Z }.
Record WtStats := mkWtStats { ws_data : gmap string (gmap string ws_entry); startAt : Time }.

Definition ws_New (now : Time) : WtStats := mkWtStats ∅ now.

(** A missing validator or type starts at zero. *)
Definition ws_get (s : WtStats) (v t : string) : ws_entry :=
  default (mkWsEntry 0 0) (ws_data s !! v ≫= fun types => types !! t).

Definition ws_Record (s : WtStats) (validator collectorType : string) (n : Z) : WtStats :=
  let types := default ∅ (ws_data s !! validator) in
  let e := default (mkWsEntry 0 0) (types !! collectorType) in
  let e' := mkWsEntry (wrap64 (lastHour e + n)) (wrap64 (total e + n)) in
  mkWtStats (<[validator := <[collectorType := e']> types]> (ws_data s)) (startAt s).

Definition ws_Snapshot (s : WtStats) (now : Time)
    : WtStats * (gmap string (gmap string HourSnapshot) * Duration) :=
  (mkWtStats ((fun types : gmap string ws_entry => (fun e => mkWsEntry 0 (total e)) <$> types) <$> ws_data s) (startAt s),
   ((fun types : gmap string ws_entry => (fun e => mkHourSnapshot (lastHour e) (total e)) <$> types) <$> ws_data s, Since now (startAt s))).

Inductive ws_op := WsRecord (v t : string) (n : Z) | WsSnapshot (now : Time).

Fixpoint ws_run (s : WtStats) (ops : list ws_op)
    : WtStats * list (gmap string (gmap string HourSnapshot)) :=
  match ops with
  | [] => (s, [])
  | WsRecord v t n :: ops' => ws_run (ws_Record s v t n) ops'
  | WsSnapshot now :: ops' =>
      let '(s1, (snap, _)) := ws_Snapshot s now in
      let '(s2, snaps) := ws_run s1 ops' in
      (s2, snap :: snaps)
  end.

Fixpoint ws_recorded (v t : string) (ops : list ws_op) : Z :=
  match ops with
  | [] => 0
  | WsRecord v' t' n :: ops' => (if bool_decide (v' = v /\ t' = t) then n else 0) + ws_recorded v t ops'
  | _ :: ops' => ws_recorded v t ops'
  end.

Definition ws_hour (m : gmap string (gmap string HourSnapshot)) (v t : string) : Z :=
  default 0 (LastHourBytes <$> (m !! v ≫= fun types => types !! t)).

Definition ws_reported (v t : string) (snaps : list (gmap string (gmap string HourSnapshot))) : Z :=
  foldr (fun m n => ws_hour m v t + n) 0 snaps.

(** * Properties *)

Lemma ws_get_Record s v t n v' t' :
  ws_get (ws_Record s v t n) v' t' =
  if bool_decide (v = v' /\ t = t')
  then mkWsEntry (wrap64 (lastHour (ws_get s v t) + n)) (wrap64 (total (ws_get s v t) + n))
  else ws_get s v' t'.
Proof.
  unfold ws_get, ws_Record. cbn. destruct (decide (v = v')) as [<-|Hv].
  - rewrite lookup_insert_eq. cbn. destruct (decide (t = t')) as [<-|Ht].
    + rewrite bool_decide_eq_true_2, lookup_insert_eq by done. cbn.
      destruct (ws_data s !! v); cbn; [done|]. by rewrite lookup_empty.
    + rewrite bool_decide_eq_false_2, lookup_insert_ne by naive_solver.
      destruct (ws_data s !! v); cbn; [done|]. by rewrite lookup_empty.
  - by rewrite bool_decide_eq_false_2, lookup_insert_ne by naive_solver.
Qed.

Lemma ws_get_Snapshot s now v t :
  ws_get (ws_Snapshot s now).1 v t = mkWsEntry 0 (total (ws_get s v t)).
Proof.
  unfold ws_get, ws_Snapshot. cbn. rewrite lookup_fmap.
  destruct (ws_data s !! v) as [m|]; cbn; [|done]. rewrite lookup_fmap. by destruct (m !! t).
Qed.

Lemma ws_hour_Snapshot s now v t :
  ws_hour (ws_Snapshot s now).2.1 v t = lastHour (ws_get s v t).
Proof.
  unfold ws_hour, ws_get, ws_Snapshot. cbn. rewrite lookup_fmap.
  destruct (ws_data s !! v) as [m|]; cbn; [|done]. rewrite lookup_fmap. by destruct (m !! t).
Qed.

Lemma ws_run_totals ops s v t :
  let '(s', snaps) := ws_run s ops in
  wrap64 (total (ws_get s' v t)) = wrap64 (total (ws_get s v t) + ws_recorded v t ops)
  /\ wrap64 (ws_reported v t snaps + lastHour (ws_get s' v t))
     = wrap64 (lastHour (ws_get s v t) + ws_recorded v t ops).
Proof.
  revert s. induction ops as [|[v' t' n|now] ops IH]; intros s; cbn [ws_run ws_recorded].
  - cbn. by rewrite !Z.add_0_r.
  - specialize (IH (ws_Record s v' t' n)). destruct (ws_run _ ops) as [s' snaps].
    rewrite ws_get_Record in IH. case_bool; [|by rewrite Z.add_0_l].
    apply bool_decide_eq_true_1 in E as [-> ->]. cbn [lastHour total] in IH.
    rewrite !wrap64_add_l, <- !Z.add_assoc in IH. done.
  - pose proof (ws_get_Snapshot s now v t) as Hget. pose proof (ws_hour_Snapshot s now v t) as Hhour.
    destruct (ws_Snapshot s now) as [s1 [snap up]]. cbn [fst snd] in *. specialize (IH s1).
    destruct (ws_run s1 ops) as [s' snaps]. rewrite Hget in IH. cbn [total lastHour] in IH.
    destruct IH as [H1 H2]. split; [done|]. cbn [ws_reported foldr]. fold (ws_reported v t snaps).
    rewrite Hhour, <- Z.add_assoc, <- wrap64_add_r, H2, wrap64_add_r. done.
Qed.

(** Every byte a validator sends is in the total once and in the hourly report of
    exactly one snapshot: on every execution the totals are the sums recorded for that
    validator and type alone, and the hourly reports plus the current hour add up to them
    (in [int64] arithmetic). *)
Theorem ws_conservation now ops v t :
  let '(s', snaps) := ws_run (ws_New now) ops in
  wrap64 (total (ws_get s' v t)) = wrap64 (ws_recorded v t ops)
  /\ wrap64 (ws_reported v t snaps + lastHour (ws_get s' v t)) = wrap64 (ws_recorded v t ops).
Proof. exact (ws_run_totals ops (ws_New now) v t). Qed.
