(* ===== verification/GoJson.v ===== *)
(** * Go's encoding/json

    A parser for the grammar Go's scanner accepts, keeping the text of every value (for
    [json.RawMessage]), and the two encoders the program uses: strings with HTML escaping
    and the compaction of raw messages. Decoding into a Go type is the class [FromJSON].

    Fuel: the parser's functions call each other either after consuming a byte or one level
    down at the same place, so twice the length of the input is enough. *)

From Stdlib Require Import Ascii.
From S2P Require Import Prelude GoStrings.

Local Open Scope Z_scope.

(** ** Values

    Array elements and object members carry the text they were parsed from. Object members
    are in source order, repetitions included; keys and strings are decoded. *)
Inductive jvalue :=
| JNull
| JBool (b : bool)
| JNumber (lit : string)
| JString (s : string)
| JArray (l : list (bytes * jvalue))
| JObject (l : list (string * (bytes * jvalue))).

(** ** Scanning *)

Definition is_ws (a : ascii) : bool :=
  let z := byte_val a in (z =? 32) || (z =? 9) || (z =? 10) || (z =? 13).

Fixpoint skip_ws (s : bytes) : bytes :=
  match s with
  | a :: s' => if is_ws a then skip_ws s' else s
  | [] => []
  end.

Definition is_digit_byte (a : ascii) : bool :=
  match digit_val a with Some _ => true | None => false end.

Fixpoint span_digits (s : bytes) : bytes * bytes :=
  match s with
  | a :: s' => if is_digit_byte a then let '(d, r) := span_digits s' in (a :: d, r) else ([], s)
  | [] => ([], [])
  end.

Definition ch (c : ascii) (s : bytes) : option bytes :=
  match s with a :: s' => if Ascii.eqb a c then Some s' else None | [] => None end.

(** An optional minus sign, an integer without leading zeros, an optional fraction and an
    optional exponent: the longest such prefix is consumed. *)
Definition scan_int (s : bytes) : option bytes :=
  match s with
  | a :: s' =>
      if Ascii.eqb a "0" then Some s'
      else if is_digit_byte a then Some (span_digits s').2 else None
  | [] => None
  end%char.

Definition scan_frac (s : bytes) : option bytes :=
  match ch "." s with
  | None => Some s
  | Some s' => match span_digits s' with ([], _) => None | (_, r) => Some r end
  end%char.

Definition scan_exp (s : bytes) : option bytes :=
  match s with
  | a :: s' =>
      if (Ascii.eqb a "e" || Ascii.eqb a "E") then
        let s' := match s' with
                  | b :: s'' => if Ascii.eqb b "+" || Ascii.eqb b "-" then s'' else s'
                  | [] => s'
                  end in
        match span_digits s' with ([], _) => None | (_, r) => Some r end
      else Some s
  | [] => Some s
  end%char.

Definition scan_number (s : bytes) : option bytes :=
  let s := match ch "-" s with Some s' => s' | None => s end in
  match scan_int s with
  | None => None
  | Some s => match scan_frac s with Some s => scan_exp s | None => None end
  end.

(** [isValidNumber]. *)
Definition valid_number (s : string) : bool :=
  match scan_number (bytes_of_string s) with Some [] => true | _ => false end.

(** ** Strings *)

Definition quote_char : ascii := "034".
Definition backslash : ascii := "092".

Definition hex4 (s : bytes) : option (Z * bytes) :=
  match s with
  | a :: b :: c :: d :: s' =>
      match hex_val a, hex_val b, hex_val c, hex_val d with
      | Some w, Some x, Some y, Some z => Some (((w * 16 + x) * 16 + y) * 16 + z, s')
      | _, _, _, _ => None
      end
  | _ => None
  end.

Definition is_surrogate (r : Z) : bool := (55296 <=? r) && (r <=? 57343).

(** [utf16.DecodeRune], [None] for anything but a high and a low surrogate. *)
Definition surrogate_pair (r1 r2 : Z) : option Z :=
  if (55296 <=? r1) && (r1 <=? 56319) && (56320 <=? r2) && (r2 <=? 57343)
  then Some ((r1 - 55296) * 1024 + (r2 - 56320) + 65536) else None.

Definition escape_char (a : ascii) : option ascii :=
  let z := byte_val a in
  if (z =? 34) || (z =? 92) || (z =? 47) then Some a
  else if z =? 98 then Some (byte_of 8)
  else if z =? 102 then Some (byte_of 12)
  else if z =? 110 then Some (byte_of 10)
  else if z =? 114 then Some (byte_of 13)
  else if z =? 116 then Some (byte_of 9)
  else None.

(** What follows an opening quote: the decoded bytes and the input after the closing
    quote. Every step consumes at least one byte. *)
Fixpoint parse_string (f : nat) (s : bytes) (acc : bytes) : option (bytes * bytes) :=
  match f with
  | O => None
  | S f =>
      match s with
      | [] => None
      | a :: s1 =>
          let z := byte_val a in
          if z =? 34 then Some (rev acc, s1)
          else if z =? 92 then
            match s1 with
            | [] => None
            | b :: s2 =>
                if byte_val b =? 117 then
                  match hex4 s2 with
                  | None => None
                  | Some (r, s3) =>
                      if is_surrogate r then
                        let alone := parse_string f s3 (rev (encode_rune rune_error) ++ acc) in
                        match s3 with
                        | c :: d :: s4 =>
                            if (byte_val c =? 92) && (byte_val d =? 117) then
                              match hex4 s4 with
                              | Some (r2, s5) =>
                                  match surrogate_pair r r2 with
                                  | Some rr => parse_string f s5 (rev (encode_rune rr) ++ acc)
                                  | None => alone
                                  end
                              | None => None
                              end
                            else alone
                        | _ => alone
                        end
                      else parse_string f s3 (rev (encode_rune r) ++ acc)
                  end
                else
                  match escape_char b with
                  | Some e => parse_string f s2 (e :: acc)
                  | None => None
                  end
            end
          else if z <? 32 then None
          else if z <? 128 then parse_string f s1 (a :: acc)
          else let '(r, w) := decode_rune s in
               parse_string f (drop w s) (rev (encode_rune r) ++ acc)
      end
  end.

(** ** Values *)

(** [maxNestingDepth]. *)
Definition max_depth : Z := 10000.

Definition literal (w : string) (v : jvalue) (s : bytes) : option (jvalue * bytes) :=
  match strip_prefix w (string_of_bytes (take (String.length w) s)) with
  | Some EmptyString => Some (v, drop (String.length w) s)
  | _ => None
  end.

(** The text of a value that [rest] follows in [s]. *)
Definition text_of (s rest : bytes) : bytes := take (length s - length rest) s.

Fixpoint parse_value (f : nat) (d : Z) (s : bytes) {struct f} : option (jvalue * bytes) :=
  match f with
  | O => None
  | S f =>
      match s with
      | [] => None
      | a :: s1 =>
          let z := byte_val a in
          if z =? 123 then
            if max_depth <? d + 1 then None
            else match ch "}" (skip_ws s1) with
                 | Some s2 => Some (JObject [], s2)
                 | None => parse_members f (d + 1) (skip_ws s1) []
                 end
          else if z =? 91 then
            if max_depth <? d + 1 then None
            else match ch "]" (skip_ws s1) with
                 | Some s2 => Some (JArray [], s2)
                 | None => parse_elements f (d + 1) (skip_ws s1) []
                 end
          else if z =? 34 then
            match parse_string (length s) s1 [] with
            | Some (b, r) => Some (JString (string_of_bytes b), r)
            | None => None
            end
          else if z =? 110 then literal "null" JNull s
          else if z =? 116 then literal "true" (JBool true) s
          else if z =? 102 then literal "false" (JBool false) s
          else match scan_number s with
               | Some r => Some (JNumber (string_of_bytes (text_of s r)), r)
               | None => None
               end
      end
  end
with parse_elements (f : nat) (d : Z) (s : bytes) (acc : list (bytes * jvalue)) {struct f}
    : option (jvalue * bytes) :=
  match f with
  | O => None
  | S f =>
      match parse_value f d s with
      | None => None
      | Some (v, r) =>
          let acc := (text_of s r, v) :: acc in
          let r := skip_ws r in
          match ch "," r, ch "]" r with
          | Some r', _ => parse_elements f d (skip_ws r') acc
          | None, Some r' => Some (JArray (rev acc), r')
          | None, None => None
          end
      end
  end
with parse_members (f : nat) (d : Z) (s : bytes) (acc : list (string * (bytes * jvalue))) {struct f}
    : option (jvalue * bytes) :=
  match f with
  | O => None
  | S f =>
      match ch quote_char s with
      | None => None
      | Some s1 =>
          match parse_string (length s) s1 [] with
          | None => None
          | Some (k, r) =>
              match ch ":" (skip_ws r) with
              | None => None
              | Some r1 =>
                  let s2 := skip_ws r1 in
                  match parse_value f d s2 with
                  | None => None
                  | Some (v, r2) =>
                      let acc := (string_of_bytes k, (text_of s2 r2, v)) :: acc in
                      let r2 := skip_ws r2 in
                      match ch "," r2, ch "}" r2 with
                      | Some r', _ => parse_members f d (skip_ws r') acc
                      | None, Some r' => Some (JObject (rev acc), r')
                      | None, None => None
                      end
                  end
              end
          end
      end
  end%char.

(** A whole document: the text of the value and the value. *)
Definition json_parse (s : bytes) : option (bytes * jvalue) :=
  let s := skip_ws s in
  match parse_value (2 * length s + 2) 0 s with
  | Some (v, r) => match skip_ws r with [] => Some (text_of s r, v) | _ => None end
  | None => None
  end.

(** ** Decoding

    [from_json text v old] decodes into a variable that holds [old]; [None] is an error.
    The program never uses what a failed call has decoded. *)
Class FromJSON (A : Type) := from_json : bytes -> jvalue -> A -> option A.
Class GoZero (A : Type) := go_zero : A.

(** [json.Unmarshal(data, &v)] for a fresh [v]. *)
Definition Unmarshal {A} `{FromJSON A, GoZero A} (data : bytes) : option A :=
  match json_parse data with
  | Some (t, v) => from_json t v go_zero
  | None => None
  end.

(** [json.NewDecoder(r).Decode(&v)]: the first value of the stream; what follows is left. *)
Definition Decode {A} `{FromJSON A, GoZero A} (data : bytes) : option A :=
  let s := skip_ws data in
  match parse_value (2 * length s + 2) 0 s with
  | Some (v, r) => from_json (text_of s r) v go_zero
  | None => None
  end.

#[export] Instance zero_string : GoZero string := EmptyString.
#[export] Instance zero_bool : GoZero bool := false.
#[export] Instance zero_list {A} : GoZero (list A) := [].
#[export] Instance zero_option {A} : GoZero (option A) := None.
#[export] Instance zero_map {A} : GoZero (gmap string A) := (∅ : gmap string A).

(** Null leaves a string, a number or a struct as it is, and clears a slice, a map or a
    pointer. *)
#[export] Instance from_string : FromJSON string := fun _ v old =>
  match v with JString s => Some s | JNull => Some old | _ => None end.

#[export] Instance from_bool : FromJSON bool := fun _ v old =>
  match v with JBool b => Some b | JNull => Some old | _ => None end.

(** A raw message gets the text whatever the value is. *)
Record RawMessage := mkRaw { raw_text : bytes }.
#[export] Instance zero_raw : GoZero RawMessage := mkRaw [].
#[export] Instance from_raw : FromJSON RawMessage := fun t _ _ => Some (mkRaw t).

(** [json.Number]: a number literal, or a string that spells one. *)
Record Number := mkNumber { number_text : string }.
#[export] Instance zero_number : GoZero Number := mkNumber EmptyString.
#[export] Instance from_number : FromJSON Number := fun _ v old =>
  match v with
  | JNumber l => Some (mkNumber l)
  | JString s => if valid_number s then Some (mkNumber s) else None
  | JNull => Some old
  | _ => None
  end.

Definition Number_Int64 (n : Number) : option Z := ParseInt (number_text n).

(** Integers of the two 64-bit types. *)
Record Int64 := mkInt64 { int64_val : Z }.
#[export] Instance zero_int64 : GoZero Int64 := mkInt64 0.
#[export] Instance from_int64 : FromJSON Int64 := fun _ v old =>
  match v with
  | JNumber l => mkInt64 <$> ParseInt l
  | JNull => Some old
  | _ => None
  end.

Record Uint64 := mkUint64 { uint64_val : Z }.
#[export] Instance zero_uint64 : GoZero Uint64 := mkUint64 0.
#[export] Instance from_uint64 : FromJSON Uint64 := fun _ v old =>
  match v with
  | JNumber l => mkUint64 <$> ParseUint l
  | JNull => Some old
  | _ => None
  end.

(** The elements are decoded one by one into those the slice has, as far as it has any. What
    a slice that was made shorter keeps beyond its length is not told: it takes a key that
    comes three times to see it. *)
Fixpoint from_elements {A} `{FromJSON A, GoZero A} (l : list (bytes * jvalue)) (old : list A) : option (list A) :=
  match l with
  | [] => Some []
  | (t, v) :: l' =>
      match from_json t v (default go_zero (head old)), from_elements l' (tail old) with
      | Some a, Some r => Some (a :: r)
      | _, _ => None
      end
  end.

#[export] Instance from_list {A} `{FromJSON A, GoZero A} : FromJSON (list A) := fun _ v old =>
  match v with
  | JArray l => from_elements l old
  | JNull => Some []
  | _ => None
  end.

(** Members are added to the map one by one; a repeated key is overwritten. *)
#[export] Instance from_map {A} `{FromJSON A, GoZero A} : FromJSON (gmap string A) := fun _ v old =>
  match v with
  | JObject l =>
      fold_left (fun acc p =>
        match acc, from_json p.2.1 p.2.2 go_zero with
        | Some m, Some a => Some (<[p.1 := a]> m)
        | _, _ => None
        end) l (Some old)
  | JNull => Some ∅
  | _ => None
  end.

#[export] Instance from_option {A} `{FromJSON A, GoZero A} : FromJSON (option A) := fun t v old =>
  match v with
  | JNull => Some None
  | _ => Some <$> from_json t v (default go_zero old)
  end.

(** *** Structs

    A member goes to the field with that very name, or else to the first field whose name
    is equal under case folding; a member without a field is skipped. *)
Definition fold_rune (r : Z) : Z :=
  if (65 <=? r) && (r <=? 90) then r + 32
  else if r =? 383 then 115      (* long s *)
  else if r =? 8490 then 107     (* Kelvin sign *)
  else r.

Definition fold_name (s : string) : list Z := map fold_rune (runes s).

Record field (A : Type) := mkField { f_name : string; f_set : bytes -> jvalue -> A -> option A }.
Arguments mkField {A} f_name f_set.
Arguments f_name {A} f.
Arguments f_set {A} f.

Definition find_field {A} (fs : list (field A)) (name : string) : option (field A) :=
  match List.find (fun f => bool_decide (f_name f = name)) fs with
  | Some f => Some f
  | None => List.find (fun f => bool_decide (fold_name (f_name f) = fold_name name)) fs
  end.

Definition from_struct {A} (fs : list (field A)) (v : jvalue) (old : A) : option A :=
  match v with
  | JObject l =>
      fold_left (fun acc p =>
        match acc with
        | None => None
        | Some a => match find_field fs p.1 with
                    | Some f => f_set f p.2.1 p.2.2 a
                    | None => Some a
                    end
        end) l (Some old)
  | JNull => Some old
  | _ => None
  end.

(** A field given by its projection and its update. *)
Definition fld {A B} `{FromJSON B} (name : string) (get : A -> B) (set : A -> B -> A) : field A :=
  mkField name (fun t v a => set a <$> from_json t v (get a)).

(** ** Encoding *)

Definition u_escape (z : Z) : bytes :=
  backslash :: "u"%char :: map (fun i => hex_digit (Z.land (Z.shiftr z (4 * i)) 15)) [3; 2; 1; 0].

(** [appendString] with HTML escaping. Every step consumes a byte. *)
Fixpoint encode_string_body (f : nat) (s : bytes) : bytes :=
  match f with
  | O => []
  | S f =>
      match s with
      | [] => []
      | a :: s' =>
          let z := byte_val a in
          if z <? 128 then
            (if (z =? 34) || (z =? 92) then [backslash; a]
             else if z =? 8 then [backslash; "b"%char]
             else if z =? 12 then [backslash; "f"%char]
             else if z =? 10 then [backslash; "n"%char]
             else if z =? 13 then [backslash; "r"%char]
             else if z =? 9 then [backslash; "t"%char]
             else if (z <? 32) || (z =? 60) || (z =? 62) || (z =? 38) then u_escape z
             else [a]) ++ encode_string_body f s'
          else
            let '(r, w) := decode_rune s in
            (if (r =? rune_error) && Nat.eqb w 1 then u_escape rune_error
             else if (r =? 8232) || (r =? 8233) then u_escape r
             else take w s) ++ encode_string_body f (drop w s)
      end
  end.

Definition encode_string (s : string) : bytes :=
  quote_char :: encode_string_body (String.length s) (bytes_of_string s) ++ [quote_char].

(** [appendCompact] with HTML escaping, on a valid document: white space outside strings
    goes, three ASCII characters and the two line separators are escaped. [ins] says
    whether the position is inside a string, [esc] whether after a backslash. *)
Fixpoint compact_body (s : bytes) (ins esc : bool) : bytes :=
  match s with
  | [] => []
  | a :: s' =>
      let z := byte_val a in
      if negb ins then
        if is_ws a then compact_body s' false false
        else a :: compact_body s' (z =? 34) false
      else
        let ins' := negb ((z =? 34) && negb esc) in
        let esc' := (z =? 92) && negb esc in
        if (z =? 60) || (z =? 62) || (z =? 38) then u_escape z ++ compact_body s' ins' esc'
        else
          match s' with
          | b :: c :: s'' =>
              if (z =? 226) && (byte_val b =? 128) && ((byte_val c =? 168) || (byte_val c =? 169))
              then u_escape (8192 + (byte_val c - 128)) ++ compact_body s'' true false
              else a :: compact_body s' ins' esc'
          | _ => a :: compact_body s' ins' esc'
          end
  end.

(** Marshalling a raw message: nil is null, invalid JSON is an error. *)
Definition encode_raw (r : RawMessage) : option bytes :=
  match raw_text r with
  | [] => Some (bytes_of_string "null")
  | t => match json_parse t with Some _ => Some (compact_body t false false) | None => None end
  end.

Definition comma_byte : ascii := ",".
Definition colon_byte : ascii := ":".

Fixpoint join_bytes (l : list bytes) : bytes :=
  match l with
  | [] => []
  | [w] => w
  | w :: ws => w ++ comma_byte :: join_bytes ws
  end.

Definition encode_array (l : list bytes) : bytes := "["%char :: join_bytes l ++ ["]"%char].

Definition encode_object (l : list (string * bytes)) : bytes :=
  "{"%char :: join_bytes (map (fun p => encode_string p.1 ++ colon_byte :: p.2) l) ++ ["}"%char].

(** Map keys are written in increasing byte order. *)
Fixpoint bytes_le (a b : bytes) : bool :=
  match a, b with
  | [], _ => true
  | _, [] => false
  | x :: a', y :: b' => if byte_val x =? byte_val y then bytes_le a' b' else byte_val x <? byte_val y
  end.

Fixpoint insert_key {A} (p : string * A) (l : list (string * A)) : list (string * A) :=
  match l with
  | [] => [p]
  | q :: l' =>
      if bytes_le (bytes_of_string p.1) (bytes_of_string q.1) then p :: l else q :: insert_key p l'
  end.

Definition sort_keys {A} (l : list (string * A)) : list (string * A) := foldr insert_key [] l.

Definition encode_map (m : list (string * bytes)) : bytes := encode_object (sort_keys m).

(** [json.Marshal] of a [map[string]json.RawMessage]. *)
Definition encode_raw_map (m : gmap string RawMessage) : option bytes :=
  encode_map <$> mapM (fun p => (fun b => (p.1, b)) <$> encode_raw p.2) (map_to_list m).

(** [json.Marshal] of a [map[string]string]. *)
Definition encode_string_map (m : gmap string string) : bytes :=
  encode_map (map (fun p => (p.1, encode_string p.2)) (map_to_list m)).

(** ** Evaluations *)

Definition js (s : string) : bytes := bytes_of_string s.

(** Replaces apostrophes by quotes, to write documents in examples. *)
Definition jq (s : string) : bytes :=
  map (fun a => if Ascii.eqb a "'" then quote_char else a)%char (bytes_of_string s).

Example json_parse_object :
  json_parse (jq " { 'a' : [1, -2.5e3 ,true] , 'b':null } ")
  = Some (jq "{ 'a' : [1, -2.5e3 ,true] , 'b':null }",
          JObject [("a", (jq "[1, -2.5e3 ,true]",
                          JArray [(js "1", JNumber "1"); (js "-2.5e3", JNumber "-2.5e3"); (js "true", JBool true)]));
                   ("b", (js "null", JNull))]).
Proof. vm_compute. reflexivity. Qed.

Example json_parse_bad :
  map json_parse [jq "{'a':1,}"; js "01"; js "[1 2]"; js "nul"; js ""; jq "'a"; js "1 x"]
  = [None; None; None; None; None; None; None].
Proof. vm_compute. reflexivity. Qed.

Example json_escapes :
  json_parse (jq "'a\u0041\n\ud83d\ude00\ud83dx'")
  = Some (jq "'a\u0041\n\ud83d\ude00\ud83dx'",
          JString (string_of_bytes (js "aA" ++ [byte_of 10] ++ map byte_of [240; 159; 152; 128]
                                    ++ map byte_of [239; 191; 189] ++ js "x"))).
Proof. vm_compute. reflexivity. Qed.

Example encode_string_html :
  encode_string "<a&b>" = jq "'\u003ca\u0026b\u003e'".
Proof. vm_compute. reflexivity. Qed.

Example encode_raw_compact :
  encode_raw (mkRaw (jq "{ 'a' : '< x' , 'b':[1, 2] }")) = Some (jq "{'a':'\u003c x','b':[1,2]}").
Proof. vm_compute. reflexivity. Qed.

Example unmarshal_map :
  (Unmarshal (jq "{'k':'v','k':'w'}") : option (gmap string string)) = Some {["k" := "w"]}.
Proof. vm_compute. reflexivity. Qed.
