(* ===== verification/GoJsonText.v ===== *)
(** * The texts encoding/json accepts

    The grammar of JSON texts as inductive predicates, and the parser of GoJson against it:
    what it accepts is a text of the grammar with the value it returns
    ([json_parse_sound]), and every text of the grammar, with white space around it and
    nesting at most [max_depth] deep, is accepted with its value ([json_parse_complete],
    which also shows that the parser's fuel is enough). The token level comes first: runes
    (a valid one is its own encoding whatever follows, an invalid byte stands for U+FFFD),
    strings with their escapes and lone surrogates, numbers. *)

From Stdlib Require Import Ascii.
From S2P Require Import Prelude GoStrings GoJson.

Local Open Scope Z_scope.

(** ** Runes in context *)

Definition noncont (a : ascii) : Prop := cont (byte_val a) = false.

Lemma ascii_noncont a : byte_val a < 128 -> noncont a.
Proof. intros H. unfold noncont, cont. destruct (Z.leb_spec 128 (byte_val a)); [lia|done]. Qed.

(** What follows the first byte of a rune only matters up to its first byte that cannot
    continue one. *)
Inductive agree : bytes -> bytes -> Prop :=
| agree_same x s s' : agree s s' -> agree (x :: s) (x :: s')
| agree_stop x y s s' : noncont x -> noncont y -> agree (x :: s) (y :: s').

Lemma decode_agree a s s' : agree s s' -> decode_rune (a :: s) = decode_rune (a :: s').
Proof.
  intros H. unfold decode_rune. destruct (byte_val a <? 128); [done|].
  inversion H as [x s1 s1' H1|x y s1 s1' Hx Hy]; subst.
  2: { rewrite Hx, Hy, !andb_false_r. cbn [andb]. by destruct s1 as [|? [|? ?]], s1' as [|? [|? ?]]. }
  destruct (_ && _ && cont (byte_val x)); [done|].
  inversion H1 as [x2 s2 s2' H2|x2 y2 s2 s2' Hx2 Hy2]; subst.
  2: { rewrite Hx2, Hy2, !andb_false_r. cbn [andb]. by destruct s2, s2'. }
  destruct (_ && cont (byte_val x) && cont (byte_val x2) && _ && _); [done|].
  inversion H2 as [x3 s3 s3' H3|x3 y3 s3 s3' Hx3 Hy3]; subst; [done|].
  rewrite Hx3, Hy3, !andb_false_r. done.
Qed.

Lemma agree_refl s q r r' : noncont q -> agree (s ++ q :: r) (s ++ q :: r').
Proof. intros Hq. induction s as [|x s IH]; [by apply agree_stop|by apply agree_same]. Qed.

(** The width of a rune, and its bytes. *)
Lemma decode_width a s : let '(r, w) := decode_rune (a :: s) in (1 <= w <= S (length s))%nat.
Proof.
  unfold decode_rune. repeat (first [case_match | progress cbn [length]]); simplify_eq; cbn [length]; lia.
Qed.

(** Beyond ASCII, a decoded rune is the error of width one, or its bytes are its encoding,
    and then what follows does not matter. *)
Definition wide_rune (t : bytes) (r : Z) : Prop :=
  encode_rune r = t /\ 128 <= r /\ is_surrogate r = false
  /\ (forall z, decode_rune (t ++ z) = (r, length t))
  /\ (exists a t', t = a :: t' /\ 194 <= byte_val a /\ Forall (fun b => cont (byte_val b) = true) t').

Lemma byte_of_eq z a : z = byte_val a -> byte_of z = a.
Proof. intros ->. apply byte_of_val. Qed.

Lemma encode_rune_2 r : 128 <= r < 2048 -> encode_rune r = [byte_of (192 + r / 64); byte_of (128 + r mod 64)].
Proof.
  intros H. unfold encode_rune. destruct (Z.leb_spec 0 r), (Z.ltb_spec r 128), (Z.leb_spec 128 r), (Z.ltb_spec r 2048); try lia. done.
Qed.

Lemma encode_rune_3 r :
  2048 <= r < 65536 -> is_surrogate r = false ->
  encode_rune r = [byte_of (224 + r / 4096); byte_of (128 + (r / 64) mod 64); byte_of (128 + r mod 64)].
Proof.
  unfold is_surrogate. intros H Hs. unfold encode_rune. rewrite Hs.
  destruct (Z.leb_spec 0 r), (Z.ltb_spec r 128), (Z.ltb_spec r 0), (Z.leb_spec 128 r), (Z.ltb_spec r 2048), (Z.ltb_spec 1114111 r),
    (Z.ltb_spec r 65536); try lia. done.
Qed.

Lemma encode_rune_4 r :
  65536 <= r <= 1114111 ->
  encode_rune r = [byte_of (240 + r / 262144); byte_of (128 + (r / 4096) mod 64);
                   byte_of (128 + (r / 64) mod 64); byte_of (128 + r mod 64)].
Proof.
  intros H. unfold encode_rune. destruct (Z.leb_spec 0 r), (Z.ltb_spec r 128), (Z.ltb_spec r 0), (Z.leb_spec 128 r), (Z.ltb_spec r 2048), (Z.ltb_spec 1114111 r),
    (Z.leb_spec 55296 r), (Z.leb_spec r 57343), (Z.ltb_spec r 65536); try lia. done.
Qed.

Lemma is_surrogate_false r : r < 55296 \/ 57343 < r -> is_surrogate r = false.
Proof. intros H. unfold is_surrogate. apply andb_false_iff. destruct H; [left|right]; apply Z.leb_gt; lia. Qed.

(** The arithmetic of one byte of an encoding. *)
Ltac rune_byte := apply byte_of_eq; Z.to_euclidean_division_equations; lia.

Lemma cont_iff z : cont z = true <-> 128 <= z <= 191.
Proof. unfold cont. rewrite andb_true_iff, !Z.leb_le. lia. Qed.

Lemma wide_2 a b :
  (194 <=? byte_val a) && (byte_val a <=? 223) && cont (byte_val b) = true ->
  wide_rune [a; b] ((byte_val a - 192) * 64 + (byte_val b - 128)).
Proof.
  intros E. pose proof E as E'. rewrite !andb_true_iff, !Z.leb_le, cont_iff in E. unfold wide_rune. split_and!.
  - rewrite encode_rune_2 by lia. f_equal; [rune_byte|]. f_equal. rune_byte.
  - lia.
  - apply is_surrogate_false. lia.
  - intros z. cbn [app decode_rune length]. destruct (Z.ltb_spec (byte_val a) 128); [lia|]. by rewrite E'.
  - exists a, [b]. split; [done|]. split; [lia|]. constructor; [|done]. apply cont_iff; lia.
Qed.

Lemma wide_3 a b c :
  (224 <=? byte_val a) && (byte_val a <=? 239) && cont (byte_val b) && cont (byte_val c)
   && (if byte_val a =? 224 then 160 <=? byte_val b else true)
   && (if byte_val a =? 237 then byte_val b <=? 159 else true) = true ->
  wide_rune [a; b; c] ((byte_val a - 224) * 4096 + (byte_val b - 128) * 64 + (byte_val c - 128)).
Proof.
  intros E. pose proof E as E'. rewrite !andb_true_iff, !Z.leb_le, !cont_iff in E.
  assert (byte_val a = 224 -> 160 <= byte_val b) as H0.
  { intros Ha. rewrite Ha in E. change (224 =? 224) with true in E. rewrite Z.leb_le in E. lia. }
  assert (byte_val a = 237 -> byte_val b <= 159) as H1.
  { intros Ha. rewrite Ha in E. change (237 =? 237) with true in E. rewrite Z.leb_le in E. lia. }
  assert (is_surrogate ((byte_val a - 224) * 4096 + (byte_val b - 128) * 64 + (byte_val c - 128)) = false) as Hs
    by (apply is_surrogate_false; lia).
  unfold wide_rune. split_and!; [|lia|done| |].
  - rewrite encode_rune_3 by (done || lia). f_equal; [rune_byte|]. f_equal; [rune_byte|]. f_equal. rune_byte.
  - intros z. cbn [app decode_rune length]. destruct (Z.ltb_spec (byte_val a) 128); [lia|].
    assert ((194 <=? byte_val a) && (byte_val a <=? 223) && cont (byte_val b) = false) as ->
      by (rewrite !andb_false_iff, !Z.leb_gt; lia). by rewrite E'.
  - exists a, [b; c]. split; [done|]. split; [lia|]. repeat constructor; apply cont_iff; lia.
Qed.

Lemma wide_4 a b c d :
  (240 <=? byte_val a) && (byte_val a <=? 244) && cont (byte_val b) && cont (byte_val c) && cont (byte_val d)
   && (if byte_val a =? 240 then 144 <=? byte_val b else true)
   && (if byte_val a =? 244 then byte_val b <=? 143 else true) = true ->
  wide_rune [a; b; c; d] ((byte_val a - 240) * 262144 + (byte_val b - 128) * 4096 + (byte_val c - 128) * 64 + (byte_val d - 128)).
Proof.
  intros E. pose proof E as E'. rewrite !andb_true_iff, !Z.leb_le, !cont_iff in E.
  assert (byte_val a = 240 -> 144 <= byte_val b) as H0.
  { intros Ha. rewrite Ha in E. change (240 =? 240) with true in E. rewrite Z.leb_le in E. lia. }
  assert (byte_val a = 244 -> byte_val b <= 143) as H1.
  { intros Ha. rewrite Ha in E. change (244 =? 244) with true in E. rewrite Z.leb_le in E. lia. }
  unfold wide_rune. split_and!.
  - rewrite encode_rune_4 by lia. f_equal; [rune_byte|]. f_equal; [rune_byte|]. f_equal; [rune_byte|]. f_equal. rune_byte.
  - lia.
  - apply is_surrogate_false. lia.
  - intros z. cbn [app decode_rune length]. destruct (Z.ltb_spec (byte_val a) 128); [lia|].
    assert ((194 <=? byte_val a) && (byte_val a <=? 223) && cont (byte_val b) = false) as ->
      by (rewrite !andb_false_iff, !Z.leb_gt; lia).
    assert ((224 <=? byte_val a) && (byte_val a <=? 239) && cont (byte_val b) && cont (byte_val c)
      && (if byte_val a =? 224 then 160 <=? byte_val b else true)
      && (if byte_val a =? 237 then byte_val b <=? 159 else true) = false) as ->
      by (rewrite !andb_false_iff, !Z.leb_gt; lia). by rewrite E'.
  - exists a, [b; c; d]. split; [done|]. split; [lia|]. repeat constructor; apply cont_iff; lia.
Qed.

Lemma decode_wide a s :
  128 <= byte_val a ->
  decode_rune (a :: s) = (rune_error, 1%nat)
  \/ exists t r z, a :: s = t ++ z /\ decode_rune (a :: s) = (r, length t) /\ wide_rune t r.
Proof.
  intros Ha. unfold decode_rune at 1 2. destruct (Z.ltb_spec (byte_val a) 128); [lia|].
  destruct s as [|b s2]; [by left|]. cbv zeta.
  destruct ((194 <=? byte_val a) && (byte_val a <=? 223) && cont (byte_val b)) eqn:E2.
  { right. exists [a; b]. eexists. exists s2. split; [done|]. split; [reflexivity|]. by apply wide_2. }
  destruct s2 as [|c s3]; [by left|].
  destruct ((224 <=? byte_val a) && (byte_val a <=? 239) && cont (byte_val b) && cont (byte_val c)
   && (if byte_val a =? 224 then 160 <=? byte_val b else true)
   && (if byte_val a =? 237 then byte_val b <=? 159 else true)) eqn:E3.
  { right. exists [a; b; c]. eexists. exists s3. split; [done|]. split; [reflexivity|]. by apply wide_3. }
  destruct s3 as [|d s4]; [by left|].
  destruct ((240 <=? byte_val a) && (byte_val a <=? 244) && cont (byte_val b) && cont (byte_val c) && cont (byte_val d)
   && (if byte_val a =? 240 then 144 <=? byte_val b else true)
   && (if byte_val a =? 244 then byte_val b <=? 143 else true)) eqn:E4.
  { right. exists [a; b; c; d]. eexists. exists s4. split; [done|]. split; [reflexivity|]. by apply wide_4. }
  by left.
Qed.

(** ** String tokens

    [str_text body b]: between quotes, [body] spells the bytes [b]. *)

Definition hex_text (h : bytes) (r : Z) : Prop := length h = 4%nat /\ hex4 h = Some (r, []).

(** A high surrogate stands alone: what follows is no escape of a low one. *)
Definition alone (r : Z) (s : bytes) : Prop :=
  match s with
  | c :: d :: s4 =>
      (byte_val c =? 92) && (byte_val d =? 117) = true ->
      exists r2 s5, hex4 s4 = Some (r2, s5) /\ surrogate_pair r r2 = None
  | _ => True
  end.

Definition plain_char (a : ascii) : Prop := 32 <= byte_val a < 128 /\ byte_val a <> 34 /\ byte_val a <> 92.

Inductive str_text : bytes -> bytes -> Prop :=
| st_nil : str_text [] []
| st_plain a s b : plain_char a -> str_text s b -> str_text (a :: s) (a :: b)
| st_escape c e s b : byte_val c <> 117 -> escape_char c = Some e -> str_text s b -> str_text (backslash :: c :: s) (e :: b)
| st_hex h r s b : hex_text h r -> is_surrogate r = false -> str_text s b ->
    str_text (backslash :: "u"%char :: h ++ s) (encode_rune r ++ b)
| st_pair h1 r1 h2 r2 r s b : hex_text h1 r1 -> hex_text h2 r2 -> is_surrogate r1 = true -> surrogate_pair r1 r2 = Some r ->
    str_text s b -> str_text (backslash :: "u"%char :: h1 ++ backslash :: "u"%char :: h2 ++ s) (encode_rune r ++ b)
| st_alone h r s b : hex_text h r -> is_surrogate r = true -> alone r s -> str_text s b ->
    str_text (backslash :: "u"%char :: h ++ s) (encode_rune rune_error ++ b)
| st_wide t r s b : wide_rune t r -> str_text s b -> str_text (t ++ s) (t ++ b)
| st_bad a s b : 128 <= byte_val a -> decode_rune (a :: s ++ [quote_char]) = (rune_error, 1%nat) -> str_text s b ->
    str_text (a :: s) (encode_rune rune_error ++ b).

Lemma quote_noncont : noncont quote_char.
Proof. by apply ascii_noncont. Qed.

Lemma hex4_app h r z : hex_text h r -> hex4 (h ++ z) = Some (r, z).
Proof.
  intros [Hl Hh]. destruct h as [|a [|b [|c [|d [|? ?]]]]]; try discriminate Hl. cbn [app hex4] in *.
  destruct (hex_val a), (hex_val b), (hex_val c), (hex_val d); try discriminate Hh. by injection Hh as <-.
Qed.

Lemma hex4_text s r z : hex4 s = Some (r, z) -> exists h, s = h ++ z /\ hex_text h r.
Proof.
  destruct s as [|a [|b [|c [|d s']]]]; cbn [hex4]; try done.
  destruct (hex_val a) eqn:Ha, (hex_val b) eqn:Hb, (hex_val c) eqn:Hc, (hex_val d) eqn:Hd; try done. intros [= <- <-].
  exists [a; b; c; d]. split; [done|]. split; [done|]. cbn [hex4]. by rewrite Ha, Hb, Hc, Hd.
Qed.

Lemma alone_app r s z : alone r s -> alone r (s ++ quote_char :: z).
Proof.
  destruct s as [|c [|d s4]]; cbn [app alone].
  - intros _. destruct z; [done|]. intros E. discriminate E.
  - intros _ E. apply andb_true_iff in E as [_ E]. discriminate E.
  - intros H E. destruct (H E) as (r2 & s5 & Hx & Hp). apply hex4_text in Hx as (h & -> & Hh).
    exists r2, (s5 ++ quote_char :: z). split; [|done]. rewrite <- (assoc_L (++)). by apply hex4_app.
Qed.

Lemma bytes_eqb_backslash c : (byte_val c =? 92) = true -> c = backslash.
Proof. intros H%Z.eqb_eq. by apply byte_val_inj. Qed.
Lemma bytes_eqb_u c : (byte_val c =? 117) = true -> c = "u"%char.
Proof. intros H%Z.eqb_eq. by apply byte_val_inj. Qed.

(** The parser's steps, case by case. *)
Lemma parse_plain f a s acc : plain_char a -> parse_string (S f) (a :: s) acc = parse_string f s (a :: acc).
Proof.
  intros (H1 & H2 & H3). cbn [parse_string]. rewrite (proj2 (Z.eqb_neq _ _) H2), (proj2 (Z.eqb_neq _ _) H3).
  destruct (Z.ltb_spec (byte_val a) 32), (Z.ltb_spec (byte_val a) 128); try lia. done.
Qed.

Lemma parse_wide f a s acc :
  128 <= byte_val a ->
  parse_string (S f) (a :: s) acc
  = let '(r, w) := decode_rune (a :: s) in parse_string f (drop w (a :: s)) (rev (encode_rune r) ++ acc).
Proof.
  intros H. cbn [parse_string]. destruct (Z.eqb_spec (byte_val a) 34), (Z.eqb_spec (byte_val a) 92), (Z.ltb_spec (byte_val a) 32),
    (Z.ltb_spec (byte_val a) 128); try lia. done.
Qed.

Lemma rev_app_rev (x y acc : bytes) : rev (rev x ++ acc) ++ y = rev acc ++ x ++ y.
Proof. by rewrite rev_app_distr, rev_involutive, <- (assoc_L (++)). Qed.

(** *** Complete *)
Lemma parse_string_complete s b :
  str_text s b -> forall f z acc, (length s < f)%nat ->
  parse_string f (s ++ quote_char :: z) acc = Some (rev acc ++ b, z).
Proof.
  induction 1 as [|a s b Ha _ IH|c e s b Hc He _ IH|h r s b Hh Hs _ IH|h1 r1 h2 r2 r s b Hh1 Hh2 Hs Hp _ IH
    |h r s b Hh Hs Hal _ IH|t r s b Hw _ IH|a s b Ha Hd _ IH]; intros f z acc Hf; destruct f as [|f]; try (cbn in Hf; lia).
  - cbn. by rewrite app_nil_r.
  - cbn [app]. rewrite parse_plain by done. cbn [length] in Hf. rewrite IH by lia. cbn [rev]. by rewrite <- (assoc_L (++)).
  - cbn [app parse_string]. change (byte_val backslash =? 34) with false. change (byte_val backslash =? 92) with true. cbv iota.
    rewrite (proj2 (Z.eqb_neq _ _) Hc), He. cbn [length] in Hf. rewrite IH by lia. cbn [rev]. by rewrite <- (assoc_L (++)).
  - cbn [app parse_string]. change (byte_val backslash =? 34) with false. change (byte_val backslash =? 92) with true. cbv iota.
    change (byte_val "u"%char =? 117) with true. cbv iota. rewrite <- (assoc_L (++)), (hex4_app _ _ _ Hh), Hs.
    cbn [length] in Hf. rewrite length_app in Hf. rewrite IH by lia. by rewrite rev_app_rev.
  - cbn [app parse_string]. change (byte_val backslash =? 34) with false. change (byte_val backslash =? 92) with true. cbv iota.
    change (byte_val "u"%char =? 117) with true. cbv iota. rewrite <- (assoc_L (++)), (hex4_app _ _ _ Hh1), Hs. cbn [app].
    change ((byte_val backslash =? 92) && (byte_val "u"%char =? 117)) with true. cbv iota zeta.
    rewrite <- (assoc_L (++)), (hex4_app _ _ _ Hh2), Hp.
    cbn [length] in Hf. rewrite length_app in Hf. cbn [length] in Hf. rewrite length_app in Hf. rewrite IH by lia. by rewrite rev_app_rev.
  - cbn [app parse_string]. change (byte_val backslash =? 34) with false. change (byte_val backslash =? 92) with true. cbv iota.
    change (byte_val "u"%char =? 117) with true. cbv iota. rewrite <- (assoc_L (++)), (hex4_app _ _ _ Hh), Hs. cbv zeta.
    cbn [length] in Hf. rewrite length_app in Hf. rewrite IH by lia. rewrite rev_app_rev.
    apply (alone_app _ _ z) in Hal. destruct (s ++ quote_char :: z) as [|c' [|d' s4]]; [done|done|]. cbn [alone] in Hal.
    destruct ((byte_val c' =? 92) && (byte_val d' =? 117)); [|done]. destruct (Hal eq_refl) as (r2 & s5 & -> & ->). done.
  - destruct Hw as (He & Hr & Hsur & Hdec & a & t' & -> & Ha & Hall). cbn [app]. rewrite parse_wide by lia.
    change (a :: (t' ++ s) ++ quote_char :: z) with (((a :: t') ++ s) ++ quote_char :: z). rewrite <- (assoc_L (++)), Hdec.
    rewrite drop_app_length, He. rewrite length_app in Hf. cbn [length] in Hf. rewrite IH by lia. by rewrite rev_app_rev.
  - cbn [app]. rewrite parse_wide by done. rewrite (decode_agree a (s ++ quote_char :: z) (s ++ [quote_char])), Hd
      by apply agree_refl, quote_noncont.
    change (drop 1 (a :: ?x)) with x. cbn [length] in Hf. rewrite IH by lia. by rewrite rev_app_rev.
Qed.

Lemma str_text_u s4 b : str_text (backslash :: "u"%char :: s4) b -> exists h r s', s4 = h ++ s' /\ hex_text h r.
Proof.
  intros H. inversion H; subst;
    match goal with
    | Hh : hex_text ?h ?r |- exists _ _ _, ?h ++ ?s = _ /\ _ => exists h, r, s; by split
    | Hp : plain_char backslash |- _ => destruct Hp as (_ & _ & Hp); by contradict Hp
    | Hc : byte_val _ <> 117 |- _ => by contradict Hc
    | Ha : 128 <= byte_val backslash |- _ => change (byte_val backslash) with 92 in Ha; lia
    | Hw : wide_rune _ _, Heq : _ ++ _ = backslash :: _ |- _ =>
        destruct Hw as (_ & _ & _ & _ & a & t' & Ht & Ha & _); rewrite Ht in Heq; injection Heq as Heq _;
        rewrite Heq in Ha; change (byte_val backslash) with 92 in Ha; lia
    end.
Qed.

Lemma alone_body r body b z : str_text body b -> alone r (body ++ quote_char :: z) -> alone r body.
Proof.
  intros Hs. destruct body as [|c [|d s4]]; cbn [app alone]; [done|done|]. intros H E. destruct (H E) as (r2 & s5 & Hx & Hp).
  apply andb_true_iff in E as [->%bytes_eqb_backslash ->%bytes_eqb_u].
  destruct (str_text_u _ _ Hs) as (h & r' & s' & -> & Hh). rewrite <- (assoc_L (++)), (hex4_app _ _ _ Hh) in Hx.
  injection Hx as <- <-. exists r', s'. split; [by apply hex4_app|done].
Qed.

(** *** Sound *)
Lemma parse_string_sound f s acc x z :
  parse_string f s acc = Some (x, z) ->
  exists body b, s = body ++ quote_char :: z /\ x = rev acc ++ b /\ str_text body b.
Proof.
  revert s acc x z. induction f as [|f IH]; intros s acc x z; [done|]. destruct s as [|a s1]; [done|].
  destruct (Z_lt_ge_dec (byte_val a) 128) as [Hlt|Hge].
  2: { rewrite parse_wide by lia. destruct (decode_wide a s1 ltac:(lia)) as [Hd|(t & r & z' & Heq & Hd & Hw)]; rewrite Hd; cbv beta iota.
       - change (drop 1 (a :: s1)) with s1. intros (body & b & -> & -> & Hs)%IH. exists (a :: body), (encode_rune rune_error ++ b).
         split; [done|]. split; [by rewrite rev_app_rev|]. apply st_bad; [lia| |done].
         rewrite <- Hd. apply decode_agree, agree_refl, quote_noncont.
       - rewrite Heq, drop_app_length. clear Hd. intros (body & b & -> & -> & Hs)%IH. destruct Hw as (He & Hw').
         exists (t ++ body), (t ++ b). split; [by rewrite (assoc_L (++))|]. split; [by rewrite rev_app_rev, He|]. by eapply st_wide. }
  cbn [parse_string]. destruct (Z.eqb_spec (byte_val a) 34) as [H34|H34].
  { intros [= <- <-]. exists [], []. assert (a = quote_char) as -> by (by apply byte_val_inj).
    split; [done|]. split; [by rewrite app_nil_r|constructor]. }
  destruct (Z.eqb_spec (byte_val a) 92) as [H92|H92].
  - assert (a = backslash) as -> by (by apply byte_val_inj). destruct s1 as [|b s2]; [done|].
    destruct (byte_val b =? 117) eqn:Hu.
    + apply bytes_eqb_u in Hu as ->. destruct (hex4 s2) as [[r s3]|] eqn:Hx; [|done].
      apply hex4_text in Hx as (h & -> & Hh). destruct (is_surrogate r) eqn:Hsur.
      * assert (alone r s3 -> parse_string f s3 (rev (encode_rune rune_error) ++ acc) = Some (x, z) ->
          exists body b, backslash :: "u"%char :: h ++ s3 = body ++ quote_char :: z /\ x = rev acc ++ b /\ str_text body b) as Halone.
        { intros Hal (body & b & -> & -> & Hs)%IH. exists (backslash :: "u"%char :: h ++ body), (encode_rune rune_error ++ b).
          split; [cbn [app]; by rewrite (assoc_L (++))|]. split; [by rewrite rev_app_rev|]. apply (st_alone h r); try done.
          by eapply alone_body. }
        cbv zeta. destruct s3 as [|c [|d s4]]; [by apply Halone|by apply Halone|].
        destruct ((byte_val c =? 92) && (byte_val d =? 117)) eqn:Hcd; [|apply Halone; cbn [alone]; by rewrite Hcd].
        destruct (hex4 s4) as [[r2 s5]|] eqn:Hx; [|done].
        destruct (surrogate_pair r r2) as [rr|] eqn:Hp; [|apply Halone; cbn [alone]; intros _; by exists r2, s5].
        apply andb_true_iff in Hcd as [->%bytes_eqb_backslash ->%bytes_eqb_u]. apply hex4_text in Hx as (h2 & -> & Hh2).
        intros (body & b & -> & -> & Hs)%IH.
        exists (backslash :: "u"%char :: h ++ backslash :: "u"%char :: h2 ++ body), (encode_rune rr ++ b).
        split; [cbn [app]; rewrite <- !app_assoc; cbn [app]; by rewrite <- ?app_assoc|].
        split; [by rewrite rev_app_rev|]. by apply (st_pair h r h2 r2).
      * intros (body & b & -> & -> & Hs)%IH. exists (backslash :: "u"%char :: h ++ body), (encode_rune r ++ b).
        split; [cbn [app]; by rewrite (assoc_L (++))|]. split; [by rewrite rev_app_rev|]. by apply st_hex.
    + destruct (escape_char b) as [e|] eqn:He; [|done]. intros (body & b' & -> & -> & Hs)%IH.
      exists (backslash :: b :: body), (e :: b'). split; [done|]. split; [cbn [rev]; by rewrite <- (assoc_L (++))|].
      apply st_escape; try done. by apply Z.eqb_neq in Hu.
  - destruct (Z.ltb_spec (byte_val a) 32); [done|]. destruct (Z.ltb_spec (byte_val a) 128); [|lia].
    intros (body & b & -> & -> & Hs)%IH. exists (a :: body), (a :: b). split; [done|]. split; [cbn [rev]; by rewrite <- (assoc_L (++))|].
    by apply st_plain.
Qed.

(** ** Numbers *)

Definition digit_run (d : bytes) : Prop := Forall (fun a => is_digit_byte a = true) d.

(** What may follow a number without being part of it. *)
Definition no_digit (r : bytes) : Prop := match r with a :: _ => is_digit_byte a = false | [] => True end.
Definition delim (r : bytes) : Prop :=
  match r with
  | a :: _ => is_digit_byte a = false /\ a <> "."%char /\ a <> "e"%char /\ a <> "E"%char
  | [] => True
  end.

Definition int_text (t : bytes) : Prop :=
  t = ["0"%char] \/ exists a d, t = a :: d /\ a <> "0"%char /\ is_digit_byte a = true /\ digit_run d.
Definition frac_text (t : bytes) : Prop := t = [] \/ exists d, t = "."%char :: d /\ d <> [] /\ digit_run d.
Definition sign_text (t : bytes) : Prop := t = [] \/ t = ["+"%char] \/ t = ["-"%char].
Definition exp_text (t : bytes) : Prop :=
  t = [] \/ exists e g d, t = e :: g ++ d /\ (e = "e"%char \/ e = "E"%char) /\ sign_text g /\ d <> [] /\ digit_run d.

Definition number (t : bytes) : Prop :=
  exists m i f e, t = m ++ i ++ f ++ e /\ (m = [] \/ m = ["-"%char]) /\ int_text i /\ frac_text f /\ exp_text e.

Lemma delim_no_digit r : delim r -> no_digit r.
Proof. destruct r; [done|]. by intros []. Qed.

Lemma span_digits_sound s d r : span_digits s = (d, r) -> s = d ++ r /\ digit_run d /\ no_digit r.
Proof.
  revert d r. induction s as [|a s IH]; intros d r; cbn [span_digits]; [intros [= <- <-]; split_and!; [done|constructor|done]|].
  destruct (is_digit_byte a) eqn:Ha; [|intros [= <- <-]; split_and!; [done|constructor|exact Ha]].
  destruct (span_digits s) as [d' r'] eqn:E. intros [= <- <-]. destruct (IH _ _ eq_refl) as (-> & Hd & Hr).
  split_and!; [done|by constructor|done].
Qed.

Lemma span_digits_complete d r : digit_run d -> no_digit r -> span_digits (d ++ r) = (d, r).
Proof.
  intros Hd Hr. induction Hd as [|a d Ha Hd IH]; cbn [app span_digits].
  - destruct r as [|a r]; [done|]. cbn [span_digits no_digit] in *. by rewrite Hr.
  - by rewrite Ha, IH.
Qed.

Lemma ch_some c s r : ch c s = Some r -> s = c :: r.
Proof. destruct s as [|a s]; cbn [ch]; [done|]. destruct (Ascii.eqb_spec a c) as [->|]; [|done]. by intros [= ->]. Qed.

Lemma ch_same c s : ch c (c :: s) = Some s.
Proof. cbn [ch]. by rewrite Ascii.eqb_refl. Qed.

Lemma ch_other c s : (forall r, s <> c :: r) -> ch c s = None.
Proof. destruct s as [|a s]; cbn [ch]; [done|]. destruct (Ascii.eqb_spec a c) as [->|]; [|done]. intros H. by destruct (H s). Qed.

Lemma scan_int_sound s r : scan_int s = Some r -> exists i, s = i ++ r /\ int_text i.
Proof.
  destruct s as [|a s]; cbn [scan_int]; [done|]. destruct (Ascii.eqb_spec a "0") as [->|Hn].
  - intros [= ->]. exists ["0"%char]. split; [done|by left].
  - destruct (is_digit_byte a) eqn:Ha; [|done]. destruct (span_digits s) as [d r'] eqn:E. intros [= <-].
    apply span_digits_sound in E as (-> & Hd & _). exists (a :: d). split; [done|]. right. by exists a, d.
Qed.

Lemma scan_int_complete i r : int_text i -> no_digit r -> scan_int (i ++ r) = Some r.
Proof.
  intros [->|(a & d & -> & Hn & Ha & Hd)] Hr; cbn [app scan_int]; [done|].
  destruct (Ascii.eqb_spec a "0"); [done|]. by rewrite Ha, span_digits_complete.
Qed.

Lemma scan_frac_sound s r : scan_frac s = Some r -> exists f, s = f ++ r /\ frac_text f.
Proof.
  unfold scan_frac. destruct (ch "." s) as [s'|] eqn:E; [|intros [= ->]; exists []; split; [done|by left]].
  apply ch_some in E as ->. destruct (span_digits s') as [[|a d] r'] eqn:E; [done|]. intros [= ->].
  apply span_digits_sound in E as (-> & Hd & _). exists ("."%char :: a :: d). split; [done|]. right. by exists (a :: d).
Qed.

Lemma scan_frac_complete f r : frac_text f -> no_digit r -> (forall x, r <> "."%char :: x) -> scan_frac (f ++ r) = Some r.
Proof.
  intros [->|(d & -> & Hne & Hd)] Hr Hdot; unfold scan_frac; cbn [app]; [by rewrite ch_other|].
  rewrite ch_same, span_digits_complete by done. by destruct d.
Qed.

Lemma scan_exp_sound s r : scan_exp s = Some r -> exists e, s = e ++ r /\ exp_text e.
Proof.
  destruct s as [|a s]; cbn [scan_exp]; [intros [= <-]; exists []; split; [done|by left]|].
  destruct (Ascii.eqb a "e" || Ascii.eqb a "E") eqn:Ea; [|intros [= <-]; exists []; split; [done|by left]]. cbv zeta.
  assert (a = "e"%char \/ a = "E"%char) as Ha.
  { apply orb_true_iff in Ea as [E|E]; apply Ascii.eqb_eq in E; auto. }
  assert (exists g, sign_text g /\ s = g ++ match s with b :: s'' => if Ascii.eqb b "+" || Ascii.eqb b "-" then s'' else s | [] => s end)
    as (g & Hg & Hs).
  { destruct s as [|b s]; [exists []; split; [by left|done]|].
    destruct (Ascii.eqb_spec b "+") as [->|]; [exists ["+"%char]; split; [by right; left|done]|].
    destruct (Ascii.eqb_spec b "-") as [->|]; [exists ["-"%char]; split; [by right; right|done]|].
    exists []. split; [by left|done]. }
  revert Hs. generalize (match s with b :: s'' => if Ascii.eqb b "+" || Ascii.eqb b "-" then s'' else s | [] => s end)%char.
  intros s' ->. destruct (span_digits s') as [[|x d] r'] eqn:E; [done|]. intros [= ->].
  apply span_digits_sound in E as (-> & Hd & _). exists (a :: g ++ x :: d). split; [cbn [app]; by rewrite <- app_assoc|].
  right. by exists a, g, (x :: d).
Qed.

Lemma sign_skip g d r : sign_text g -> d <> [] -> digit_run d ->
  match g ++ d ++ r with b :: s'' => if Ascii.eqb b "+" || Ascii.eqb b "-" then s'' else g ++ d ++ r | [] => g ++ d ++ r end%char = d ++ r.
Proof.
  intros [->|[->| ->]] Hne Hd; [|done|done]. destruct d as [|a d]; [done|]. cbn [app].
  apply Forall_cons_1 in Hd as [Ha _].
  destruct (Ascii.eqb_spec a "+") as [->|]; [discriminate Ha|]. destruct (Ascii.eqb_spec a "-") as [->|]; [discriminate Ha|]. done.
Qed.

Lemma scan_exp_complete e r : exp_text e -> delim r -> scan_exp (e ++ r) = Some r.
Proof.
  intros [->|(a & g & d & -> & Ha & Hg & Hne & Hd)] Hr.
  - destruct r as [|a r]; [done|]. destruct Hr as (_ & _ & H1 & H2). cbn [app scan_exp].
    destruct (Ascii.eqb_spec a "e"), (Ascii.eqb_spec a "E"); done.
  - cbn [app scan_exp]. assert (Ascii.eqb a "e" || Ascii.eqb a "E" = true)%char as -> by (by destruct Ha as [-> | ->]). cbv zeta.
    rewrite <- app_assoc, sign_skip, span_digits_complete by (done || by apply delim_no_digit). by destruct d.
Qed.

Lemma exp_delim e r : exp_text e -> delim r -> no_digit (e ++ r) /\ forall x, e ++ r <> "."%char :: x.
Proof.
  intros [->|(a & g & d & -> & Ha & _)] Hr.
  - split; [by apply delim_no_digit|]. intros x H. cbn [app] in H. rewrite H in Hr. by destruct Hr as (_ & Hr & _).
  - by destruct Ha as [-> | ->].
Qed.

Lemma frac_no_digit f r : frac_text f -> no_digit r -> no_digit (f ++ r).
Proof. by intros [->|(d & -> & _)]. Qed.

Lemma scan_number_sound s r : scan_number s = Some r -> exists t, s = t ++ r /\ number t.
Proof.
  unfold scan_number. assert (exists m, (m = [] \/ m = ["-"%char]) /\ s = m ++ match ch "-" s with Some s' => s' | None => s end) as (m & Hm & Hs).
  { destruct (ch "-" s) as [s'|] eqn:E; [apply ch_some in E as ->; exists ["-"%char]|exists []]; auto. }
  revert Hs. generalize (match ch "-" s with Some s' => s' | None => s end). intros s' ->.
  destruct (scan_int s') as [s1|] eqn:E1; [|done]. destruct (scan_frac s1) as [s2|] eqn:E2; [|done]. intros E3.
  apply scan_int_sound in E1 as (i & -> & Hi). apply scan_frac_sound in E2 as (f & -> & Hf). apply scan_exp_sound in E3 as (e & -> & He).
  exists (m ++ i ++ f ++ e). split; [by rewrite !app_assoc|]. by exists m, i, f, e.
Qed.

Lemma int_no_minus i r x : int_text i -> i ++ r <> "-"%char :: x.
Proof. intros [->|(a & d & -> & _ & Ha & _)]; [done|]. intros [= -> _]. discriminate Ha. Qed.

Lemma scan_number_complete t r : number t -> delim r -> scan_number (t ++ r) = Some r.
Proof.
  intros (m & i & f & e & -> & Hm & Hi & Hf & He) Hr. unfold scan_number. destruct (exp_delim e r He Hr) as [Hn Hdot].
  assert (match ch "-" ((m ++ i ++ f ++ e) ++ r) with Some s' => s' | None => (m ++ i ++ f ++ e) ++ r end = i ++ f ++ e ++ r) as ->.
  { rewrite <- !app_assoc. destruct Hm as [-> | ->]; cbn [app]; [|by rewrite ch_same].
    rewrite ch_other; [done|]. intros x. by apply int_no_minus. }
  rewrite scan_int_complete by (done || by apply frac_no_digit).
  rewrite scan_frac_complete by done. by apply scan_exp_complete.
Qed.

(** The first byte of a number selects no other branch of the parser. *)
Lemma number_head t : number t -> exists a t', t = a :: t' /\ (a = "-"%char \/ is_digit_byte a = true).
Proof.
  intros (m & i & f & e & -> & [-> | ->] & Hi & _); [|by eauto].
  destruct Hi as [->|(a & d & -> & _ & Ha & _)]; cbn [app]; eauto.
Qed.

(** ** White space *)

Definition ws (w : bytes) : Prop := Forall (fun a => is_ws a = true) w.
Definition no_ws (s : bytes) : Prop := match s with a :: _ => is_ws a = false | [] => True end.

Lemma skip_ws_split s : exists w, ws w /\ s = w ++ skip_ws s /\ no_ws (skip_ws s).
Proof.
  induction s as [|a s (w & Hw & Hs & Hn)]; [by exists []; split_and!; [constructor|..]|]. cbn [skip_ws].
  destruct (is_ws a) eqn:Ha; [|exists []; split_and!; [constructor|done|exact Ha]].
  exists (a :: w). split_and!; [by constructor|cbn [app]; by f_equal|done].
Qed.

Lemma skip_ws_app w s : ws w -> no_ws s -> skip_ws (w ++ s) = s.
Proof.
  intros Hw Hs. induction Hw as [|a w Ha _ IH]; cbn [app skip_ws]; [|by rewrite Ha].
  destruct s as [|a s]; [done|]. cbn [skip_ws no_ws] in *. by rewrite Hs.
Qed.

Lemma delim_ws w c r : ws w -> delim [c] -> delim (w ++ c :: r).
Proof.
  intros [|a w' Ha _] Hc; cbn [app]; [exact Hc|].
  unfold is_ws in Ha. rewrite !orb_true_iff, !Z.eqb_eq in Ha.
  assert (a = byte_of 32 \/ a = byte_of 9 \/ a = byte_of 10 \/ a = byte_of 13) as [->|[->|[->| ->]]]
    by (destruct Ha as [[[H|H]|H]|H]; apply eq_sym, byte_of_eq in H; auto); by split_and!.
Qed.

Lemma text_of_app t r : text_of (t ++ r) r = t.
Proof.
  unfold text_of. rewrite length_app. replace (length t + length r - length r)%nat with (length t) by lia. apply take_app_length.
Qed.

(** ** The grammar

    [JText n t v]: [t], without white space around it, is the text of [v] and nests at most [n]
    deep. [JElements] and [JMembers] are the elements of an array and the members of an object. *)
Definition str_token (t : bytes) (b : bytes) : Prop := exists body, t = quote_char :: body ++ [quote_char] /\ str_text body b.

Inductive JText : nat -> bytes -> jvalue -> Prop :=
| J_null n : JText n (bytes_of_string "null") JNull
| J_true n : JText n (bytes_of_string "true") (JBool true)
| J_false n : JText n (bytes_of_string "false") (JBool false)
| J_number n t : number t -> JText n t (JNumber (string_of_bytes t))
| J_string n t b : str_token t b -> JText n t (JString (string_of_bytes b))
| J_array_nil n w : ws w -> JText (S n) ("["%char :: w ++ ["]"%char]) (JArray [])
| J_array n w s l : ws w -> JElements n s l -> JText (S n) ("["%char :: w ++ s ++ ["]"%char]) (JArray l)
| J_object_nil n w : ws w -> JText (S n) ("{"%char :: w ++ ["}"%char]) (JObject [])
| J_object n w s l : ws w -> JMembers n s l -> JText (S n) ("{"%char :: w ++ s ++ ["}"%char]) (JObject l)
with JElements : nat -> bytes -> list (bytes * jvalue) -> Prop :=
| JE_one n t v w : JText n t v -> ws w -> JElements n (t ++ w) [(t, v)]
| JE_cons n t v w w' s l : JText n t v -> ws w -> ws w' -> JElements n s l -> JElements n (t ++ w ++ comma_byte :: w' ++ s) ((t, v) :: l)
with JMembers : nat -> bytes -> list (string * (bytes * jvalue)) -> Prop :=
| JM_one n k b w w1 t v w2 : str_token k b -> ws w -> ws w1 -> JText n t v -> ws w2 ->
    JMembers n (k ++ w ++ colon_byte :: w1 ++ t ++ w2) [(string_of_bytes b, (t, v))]
| JM_cons n k b w w1 t v w2 w3 s l : str_token k b -> ws w -> ws w1 -> JText n t v -> ws w2 -> ws w3 -> JMembers n s l ->
    JMembers n (k ++ w ++ colon_byte :: w1 ++ t ++ w2 ++ comma_byte :: w3 ++ s) ((string_of_bytes b, (t, v)) :: l).

Scheme JText_min := Minimality for JText Sort Prop
  with JE_min := Minimality for JElements Sort Prop
  with JM_min := Minimality for JMembers Sort Prop.
Combined Scheme JText_mutual from JText_min, JE_min, JM_min.

(** *** First bytes *)

Definition value_head (a : ascii) : Prop :=
  In a [quote_char; "n"; "t"; "f"; "["; "{"; "-"]%char \/ is_digit_byte a = true.

Lemma digit_byte_cases a : is_digit_byte a = true ->
  In a ["0"; "1"; "2"; "3"; "4"; "5"; "6"; "7"; "8"; "9"]%char.
Proof. destruct a as [[] [] [] [] [] [] [] []]; vm_compute; intros; try discriminate; tauto. Qed.

Lemma JText_head n t v : JText n t v -> exists a t', t = a :: t' /\ value_head a.
Proof.
  intros H. destruct H as [| | |n t Ht|n t b (body & -> & _)| | | |];
    try (eexists _, _; split; [reflexivity|]; left; cbn [In]; tauto).
  destruct (number_head _ Ht) as (a & t' & -> & [-> |Ha]); eexists _, _; (split; [reflexivity|]); [left; cbn [In]; tauto|by right].
Qed.

Lemma value_head_facts a : value_head a -> is_ws a = false /\ a <> "]"%char /\ a <> "}"%char.
Proof.
  intros [H|H%digit_byte_cases]; cbn [In] in H; repeat destruct H as [<-|H]; try done.
Qed.

Lemma JText_no_ws n t v r : JText n t v -> no_ws (t ++ r).
Proof. intros (a & t' & -> & Ha)%JText_head. by destruct (value_head_facts _ Ha). Qed.

Lemma JE_no_ws n s l r : JElements n s l -> no_ws (s ++ r).
Proof. intros H. destruct H; rewrite <- app_assoc; by eapply JText_no_ws. Qed.

Lemma JM_head n s l : JMembers n s l -> exists s', s = quote_char :: s'.
Proof. intros H. destruct H as [????????(body & -> & _)|???????????(body & -> & _)]; cbn [app]; eauto. Qed.

Lemma JE_not_close n s l r x : JElements n s l -> s ++ r <> "]"%char :: x.
Proof.
  intros H. assert (exists a t', s = a :: t' /\ value_head a) as (a & t' & -> & Ha).
  { destruct H as [? ? ? ? (a & t' & -> & Ha)%JText_head|? ? ? ? ? ? ? (a & t' & -> & Ha)%JText_head]; cbn [app]; eauto. }
  destruct (value_head_facts _ Ha) as (_ & Hc & _). by intros [= -> _].
Qed.

(** *** Tokens *)

Lemma literal_sound w v s v' r : literal w v s = Some (v', r) -> v' = v /\ s = bytes_of_string w ++ r.
Proof.
  unfold literal. destruct (strip_prefix w _) as [[|]|] eqn:E; [|done|done]. intros [= <- <-]. split; [done|].
  apply strip_prefix_Some in E. rewrite <- (take_drop (String.length w) s) at 1. f_equal.
  apply (f_equal bytes_of_string) in E. by rewrite bytes_of_string_of_bytes, bytes_of_string_app, app_nil_r in E.
Qed.

Lemma literal_complete w v r : literal w v (bytes_of_string w ++ r) = Some (v, r).
Proof.
  unfold literal. rewrite <- bytes_of_string_length, take_app_length, drop_app_length, string_of_bytes_of_string.
  pose proof (strip_prefix_app w EmptyString) as H. rewrite string_app_nil_r in H. by rewrite H.
Qed.

Lemma ch_app c s x : ch c (c :: s ++ x) = Some (s ++ x).
Proof. apply ch_same. Qed.

(** *** One step of the parser, by the first byte *)

Lemma parse_value_string f d s :
  parse_value (S f) d (quote_char :: s)
  = match parse_string (S (length s)) s [] with Some (b, r) => Some (JString (string_of_bytes b), r) | None => None end.
Proof. done. Qed.

Lemma parse_value_array f d s :
  parse_value (S f) d ("["%char :: s)
  = if max_depth <? d + 1 then None
    else match ch "]" (skip_ws s) with Some s2 => Some (JArray [], s2) | None => parse_elements f (d + 1) (skip_ws s) [] end.
Proof. done. Qed.

Lemma parse_value_object f d s :
  parse_value (S f) d ("{"%char :: s)
  = if max_depth <? d + 1 then None
    else match ch "}" (skip_ws s) with Some s2 => Some (JObject [], s2) | None => parse_members f (d + 1) (skip_ws s) [] end.
Proof. done. Qed.

Lemma parse_value_number f d a s :
  a = "-"%char \/ is_digit_byte a = true ->
  parse_value (S f) d (a :: s)
  = match scan_number (a :: s) with
    | Some r => Some (JNumber (string_of_bytes (text_of (a :: s) r)), r) | None => None end.
Proof. intros [-> |H%digit_byte_cases]; [done|]. cbn [In] in H. by repeat destruct H as [<-|H]. Qed.

(** *** Sound *)

Definition room (d : Z) : nat := Z.to_nat (max_depth - d).

Lemma room_S d : (max_depth <? d + 1) = false -> room d = S (room (d + 1)).
Proof. intros H%Z.ltb_ge. unfold room. lia. Qed.

Lemma str_token_sound f s b r : parse_string f s [] = Some (b, r) -> exists k, quote_char :: s = k ++ r /\ str_token k b.
Proof.
  intros (body & b' & -> & -> & Hs)%parse_string_sound. exists (quote_char :: body ++ [quote_char]).
  split; [cbn [app]; by rewrite <- app_assoc|]. by exists body.
Qed.

Definition value_sound (f : nat) : Prop := forall d s v r,
  parse_value f d s = Some (v, r) -> exists t, s = t ++ r /\ JText (room d) t v.
Definition elements_sound (f : nat) : Prop := forall d s acc v r,
  parse_elements f d s acc = Some (v, r) ->
  exists e l, s = e ++ "]"%char :: r /\ v = JArray (rev acc ++ l) /\ JElements (room d) e l.
Definition members_sound (f : nat) : Prop := forall d s acc v r,
  parse_members f d s acc = Some (v, r) ->
  exists e l, s = e ++ "}"%char :: r /\ v = JObject (rev acc ++ l) /\ JMembers (room d) e l.

Lemma head_is a z : (byte_val a =? z) = true -> a = byte_of z.
Proof. intros H%Z.eqb_eq. symmetry. by apply byte_of_eq. Qed.

Lemma value_sound_step f : elements_sound f -> members_sound f -> value_sound (S f).
Proof.
  intros HE HM d s v r. destruct s as [|a s]; [done|].
  destruct (byte_val a =? 123) eqn:E1.
  { apply head_is in E1 as ->. change (byte_of 123) with "{"%char. rewrite parse_value_object.
    destruct (max_depth <? d + 1) eqn:Hd; [done|]. rewrite (room_S _ Hd).
    destruct (skip_ws_split s) as (w & Hw & Hs & _). generalize dependent (skip_ws s). intros s' ->.
    destruct (ch "}" s') as [s2|] eqn:Ec.
    - intros [= <- <-]. apply ch_some in Ec as ->. exists ("{"%char :: w ++ ["}"%char]).
      split; [cbn [app]; by rewrite <- app_assoc|by constructor].
    - intros (e & l & -> & -> & He)%HM. exists ("{"%char :: w ++ e ++ ["}"%char]).
      split; [cbn [app]; by rewrite <- !app_assoc|by constructor]. }
  destruct (byte_val a =? 91) eqn:E2.
  { apply head_is in E2 as ->. change (byte_of 91) with "["%char. rewrite parse_value_array.
    destruct (max_depth <? d + 1) eqn:Hd; [done|]. rewrite (room_S _ Hd).
    destruct (skip_ws_split s) as (w & Hw & Hs & _). generalize dependent (skip_ws s). intros s' ->.
    destruct (ch "]" s') as [s2|] eqn:Ec.
    - intros [= <- <-]. apply ch_some in Ec as ->. exists ("["%char :: w ++ ["]"%char]).
      split; [cbn [app]; by rewrite <- app_assoc|by constructor].
    - intros (e & l & -> & -> & He)%HE. exists ("["%char :: w ++ e ++ ["]"%char]).
      split; [cbn [app]; by rewrite <- !app_assoc|by constructor]. }
  destruct (byte_val a =? 34) eqn:E3.
  { apply head_is in E3 as ->. change (byte_of 34) with quote_char. rewrite parse_value_string.
    destruct (parse_string _ s []) as [[b r']|] eqn:Ep; [|done]. intros [= <- <-].
    apply str_token_sound in Ep as (k & -> & Hk). exists k. split; [done|by constructor]. }
  cbn [parse_value]. cbv zeta. rewrite E1, E2, E3.
  destruct (byte_val a =? 110). { intros [-> ->]%literal_sound. eexists. split; [reflexivity|constructor]. }
  destruct (byte_val a =? 116). { intros [-> ->]%literal_sound. eexists. split; [reflexivity|constructor]. }
  destruct (byte_val a =? 102). { intros [-> ->]%literal_sound. eexists. split; [reflexivity|constructor]. }
  destruct (scan_number (a :: s)) as [r'|] eqn:En; [|done]. intros [= <- <-].
  apply scan_number_sound in En as (t & -> & Ht). exists t. rewrite text_of_app. split; [done|by constructor].
Qed.

Lemma elements_sound_step f : value_sound f -> elements_sound f -> elements_sound (S f).
Proof.
  intros HV HE d s acc v r. cbn [parse_elements]. destruct (parse_value f d s) as [[v1 r1]|] eqn:Ev; [|done].
  apply HV in Ev as (t & -> & Ht). cbv zeta. rewrite text_of_app. destruct (skip_ws_split r1) as (w & Hw & Hs & _).
  destruct (ch "," (skip_ws r1)) as [r2|] eqn:Ec.
  - apply ch_some in Ec. rewrite Ec in Hs. subst r1. destruct (skip_ws_split r2) as (w' & Hw' & Hs & _).
    intros (e & l & He & -> & Hl)%HE. rewrite He in Hs. subst r2.
    exists (t ++ w ++ comma_byte :: w' ++ e), ((t, v1) :: l). split_and!; [|cbn [rev]; by rewrite <- app_assoc|by constructor].
    rewrite <- !app_assoc. cbn [app]. by rewrite <- !app_assoc.
  - destruct (ch "]" (skip_ws r1)) as [r2|] eqn:Ec2; [|done]. apply ch_some in Ec2. rewrite Ec2 in Hs. subst r1.
    intros [= <- <-]. exists (t ++ w), [(t, v1)]. split_and!; [by rewrite <- app_assoc|done|by constructor].
Qed.

Lemma members_sound_step f : value_sound f -> members_sound f -> members_sound (S f).
Proof.
  intros HV HM d s acc v r. cbn [parse_members].
  destruct (ch quote_char s) as [s1|] eqn:Eq; [|done]. apply ch_some in Eq as ->.
  destruct (parse_string _ s1 []) as [[b r1]|] eqn:Ep; [|done]. apply str_token_sound in Ep as (k & -> & Hk).
  destruct (skip_ws_split r1) as (w & Hw & Hs & _).
  destruct (ch ":" (skip_ws r1)) as [r2|] eqn:Ec; [|done]. apply ch_some in Ec. rewrite Ec in Hs. subst r1.
  destruct (skip_ws_split r2) as (w1 & Hw1 & Hs & _). cbv zeta.
  destruct (parse_value f d (skip_ws r2)) as [[v1 r3]|] eqn:Ev; [|done]. apply HV in Ev as (t & Ht & HJ).
  rewrite Ht, text_of_app. rewrite Ht in Hs. subst r2. destruct (skip_ws_split r3) as (w2 & Hw2 & Hs & _).
  destruct (ch "," (skip_ws r3)) as [r4|] eqn:Ec1.
  - apply ch_some in Ec1. rewrite Ec1 in Hs. subst r3. destruct (skip_ws_split r4) as (w3 & Hw3 & Hs & _).
    intros (e & l & He & -> & Hl)%HM. rewrite He in Hs. subst r4.
    exists (k ++ w ++ colon_byte :: w1 ++ t ++ w2 ++ comma_byte :: w3 ++ e), ((string_of_bytes b, (t, v1)) :: l).
    split_and!; [|cbn [rev]; by rewrite <- app_assoc|by constructor].
    repeat (rewrite <- !app_assoc; cbn [app]). done.
  - destruct (ch "}" (skip_ws r3)) as [r4|] eqn:Ec2; [|done]. apply ch_some in Ec2. rewrite Ec2 in Hs. subst r3.
    intros [= <- <-]. exists (k ++ w ++ colon_byte :: w1 ++ t ++ w2), [(string_of_bytes b, (t, v1))].
    split_and!; [|done|by constructor]. repeat (rewrite <- !app_assoc; cbn [app]). done.
Qed.

Lemma parse_sound f : value_sound f /\ elements_sound f /\ members_sound f.
Proof.
  induction f as [|f (HV & HE & HM)]; [by split_and!|].
  split_and!; [by apply value_sound_step|by apply elements_sound_step|by apply members_sound_step].
Qed.

(** *** Complete *)

Lemma str_token_complete k b r : str_token k b ->
  exists s, k ++ r = quote_char :: s /\ parse_string (S (length s)) s [] = Some (b, r).
Proof.
  intros (body & -> & Hs). exists (body ++ quote_char :: r). split; [cbn [app]; by rewrite <- app_assoc|].
  rewrite (parse_string_complete _ _ Hs); [done|]. rewrite length_app. lia.
Qed.

Definition value_complete (n : nat) (t : bytes) (v : jvalue) : Prop := forall f d r,
  d + Z.of_nat n <= max_depth -> (2 * length t <= f)%nat -> delim r -> parse_value f d (t ++ r) = Some (v, r).
Definition elements_complete (n : nat) (s : bytes) (l : list (bytes * jvalue)) : Prop := forall f d r acc,
  d + Z.of_nat n <= max_depth -> (2 * length s < f)%nat ->
  parse_elements f d (s ++ "]"%char :: r) acc = Some (JArray (rev acc ++ l), r).
Definition members_complete (n : nat) (s : bytes) (l : list (string * (bytes * jvalue))) : Prop := forall f d r acc,
  d + Z.of_nat n <= max_depth -> (2 * length s < f)%nat ->
  parse_members f d (s ++ "}"%char :: r) acc = Some (JObject (rev acc ++ l), r).

Lemma literal_word w v n : (exists a w', w = String a w' /\ forall f d r, parse_value (S f) d (bytes_of_string w ++ r) = literal w v (bytes_of_string w ++ r)) ->
  value_complete n (bytes_of_string w) v.
Proof.
  intros (a & w' & -> & H) f d r _ Hf _. destruct f as [|f]; [cbn in Hf; lia|]. rewrite H. apply literal_complete.
Qed.

Lemma number_complete n t : number t -> value_complete n t (JNumber (string_of_bytes t)).
Proof.
  intros Ht f d r _ Hf Hr. destruct (number_head _ Ht) as (a & t' & E & Ha). pose proof E as E'. rewrite E' in Hf.
  destruct f as [|f]; [cbn in Hf; lia|]. rewrite E'. cbn [app]. rewrite parse_value_number by done.
  change (a :: t' ++ r) with ((a :: t') ++ r). rewrite <- E', (scan_number_complete _ _ Ht Hr), text_of_app. done.
Qed.

Lemma string_complete n t b : str_token t b -> value_complete n t (JString (string_of_bytes b)).
Proof.
  intros Ht f d r _ Hf _. destruct (str_token_complete _ _ r Ht) as (s & -> & Hp).
  destruct f as [|f]; [destruct Ht as (? & -> & _); cbn in Hf; lia|]. by rewrite parse_value_string, Hp.
Qed.

Lemma deeper d n : d + Z.of_nat (S n) <= max_depth -> (max_depth <? d + 1) = false /\ d + 1 + Z.of_nat n <= max_depth.
Proof. intros H. split; [apply Z.ltb_ge|]; lia. Qed.

Lemma array_nil_complete n w : ws w -> value_complete (S n) ("["%char :: w ++ ["]"%char]) (JArray []).
Proof.
  intros Hw f d r [Hd _]%deeper Hf _. destruct f as [|f]; [cbn in Hf; lia|]. cbn [app]. rewrite parse_value_array, Hd.
  rewrite <- app_assoc, skip_ws_app by done. cbn [app]. by rewrite ch_same.
Qed.

Lemma object_nil_complete n w : ws w -> value_complete (S n) ("{"%char :: w ++ ["}"%char]) (JObject []).
Proof.
  intros Hw f d r [Hd _]%deeper Hf _. destruct f as [|f]; [cbn in Hf; lia|]. cbn [app]. rewrite parse_value_object, Hd.
  rewrite <- app_assoc, skip_ws_app by done. cbn [app]. by rewrite ch_same.
Qed.

Lemma array_complete n w s l : ws w -> JElements n s l -> elements_complete n s l ->
  value_complete (S n) ("["%char :: w ++ s ++ ["]"%char]) (JArray l).
Proof.
  intros Hw Hs IH f d r [Hd Hd']%deeper Hf _. destruct f as [|f]; [cbn in Hf; lia|]. cbn [app]. rewrite parse_value_array, Hd.
  rewrite <- !app_assoc, skip_ws_app by (done || by eapply JE_no_ws). cbn [app].
  rewrite ch_other by (intros x; by eapply JE_not_close). rewrite IH; [done|done|].
  cbn [length] in Hf. rewrite !length_app in Hf. lia.
Qed.

Lemma object_complete n w s l : ws w -> JMembers n s l -> members_complete n s l ->
  value_complete (S n) ("{"%char :: w ++ s ++ ["}"%char]) (JObject l).
Proof.
  intros Hw Hs IH f d r [Hd Hd']%deeper Hf _. destruct f as [|f]; [cbn in Hf; lia|]. cbn [app]. rewrite parse_value_object, Hd.
  destruct (JM_head _ _ _ Hs) as (s' & E).
  rewrite <- !app_assoc, skip_ws_app by (done || by rewrite E). cbn [app].
  rewrite ch_other by (intros x; by rewrite E). rewrite IH; [done|done|].
  cbn [length] in Hf. rewrite !length_app in Hf. lia.
Qed.

Lemma elements_one_complete n t v w : value_complete n t v -> ws w -> elements_complete n (t ++ w) [(t, v)].
Proof.
  intros IH Hw f d r acc Hd Hf. destruct f as [|f]; [lia|]. cbn [parse_elements]. rewrite length_app in Hf.
  rewrite <- app_assoc, IH; [|done|lia|by apply delim_ws]. rewrite text_of_app, skip_ws_app by done. done.
Qed.

Lemma elements_cons_complete n t v w w' s l :
  value_complete n t v -> ws w -> ws w' -> JElements n s l -> elements_complete n s l ->
  elements_complete n (t ++ w ++ comma_byte :: w' ++ s) ((t, v) :: l).
Proof.
  intros IHv Hw Hw' Hs IH f d r acc Hd Hf. destruct f as [|f]; [lia|]. cbn [parse_elements].
  rewrite !length_app in Hf. cbn [length] in Hf. rewrite length_app in Hf.
  rewrite <- !app_assoc. cbn [app]. rewrite IHv; [|done|lia|by apply delim_ws]. cbv zeta.
  rewrite text_of_app, skip_ws_app by done. unfold comma_byte at 1. rewrite ch_same.
  rewrite <- app_assoc, skip_ws_app by (done || by eapply JE_no_ws). rewrite IH by (done || lia).
  cbn [rev]. by rewrite <- app_assoc.
Qed.

(** One member of an object. *)
Lemma member_step f d k b w w1 t v n rest acc :
  str_token k b -> ws w -> ws w1 -> value_complete n t v -> (forall x, no_ws (t ++ x)) ->
  d + Z.of_nat n <= max_depth -> (2 * length t <= f)%nat -> delim rest ->
  parse_members (S f) d (k ++ w ++ colon_byte :: w1 ++ t ++ rest) acc
  = match ch "," (skip_ws rest), ch "}" (skip_ws rest) with
    | Some r', _ => parse_members f d (skip_ws r') ((string_of_bytes b, (t, v)) :: acc)
    | None, Some r' => Some (JObject (rev ((string_of_bytes b, (t, v)) :: acc)), r')
    | None, None => None
    end.
Proof.
  intros Hk Hw Hw1 IH Hns Hd Hf Hr. cbn [parse_members].
  destruct (str_token_complete k b (w ++ colon_byte :: w1 ++ t ++ rest) Hk) as (s & E & Hp). rewrite E, ch_same.
  cbn [length]. rewrite Hp. rewrite skip_ws_app by done. unfold colon_byte at 1. rewrite ch_same. cbv zeta.
  rewrite skip_ws_app, IH, text_of_app by done. done.
Qed.

Lemma members_one_complete n k b w w1 t v w2 :
  str_token k b -> ws w -> ws w1 -> JText n t v -> value_complete n t v -> ws w2 ->
  members_complete n (k ++ w ++ colon_byte :: w1 ++ t ++ w2) [(string_of_bytes b, (t, v))].
Proof.
  intros Hk Hw Hw1 HJ IH Hw2 f d r acc Hd Hf. destruct f as [|f]; [lia|].
  repeat (rewrite <- !app_assoc; cbn [app]). repeat (rewrite length_app in Hf; cbn [length] in Hf).
  rewrite (member_step f d k b w w1 t v n) by (done || lia || (by apply delim_ws) || (intros; by eapply JText_no_ws)).
  rewrite skip_ws_app by done. done.
Qed.

Lemma members_cons_complete n k b w w1 t v w2 w3 s l :
  str_token k b -> ws w -> ws w1 -> JText n t v -> value_complete n t v -> ws w2 -> ws w3 -> JMembers n s l -> members_complete n s l ->
  members_complete n (k ++ w ++ colon_byte :: w1 ++ t ++ w2 ++ comma_byte :: w3 ++ s) ((string_of_bytes b, (t, v)) :: l).
Proof.
  intros Hk Hw Hw1 HJ IHv Hw2 Hw3 Hs IH f d r acc Hd Hf. destruct f as [|f]; [lia|].
  repeat (rewrite <- !app_assoc; cbn [app]). repeat (rewrite length_app in Hf; cbn [length] in Hf).
  rewrite (member_step f d k b w w1 t v n) by (done || lia || (by apply delim_ws) || (intros; by eapply JText_no_ws)).
  rewrite skip_ws_app by done. unfold comma_byte at 1 2. rewrite ch_same.
  destruct (JM_head _ _ _ Hs) as (s' & E). rewrite skip_ws_app by (done || by rewrite E).
  rewrite IH by (done || lia). cbn [rev]. by rewrite <- app_assoc.
Qed.

Lemma parse_complete :
  (forall n t v, JText n t v -> value_complete n t v)
  /\ (forall n s l, JElements n s l -> elements_complete n s l)
  /\ (forall n s l, JMembers n s l -> members_complete n s l).
Proof.
  apply JText_mutual; intros.
  1-3: apply literal_word; eexists _, _; split; [reflexivity|]; reflexivity.
  all: eauto using number_complete, string_complete, array_nil_complete, array_complete, object_nil_complete, object_complete,
    elements_one_complete, elements_cons_complete, members_one_complete, members_cons_complete.
Qed.

(** *** Documents *)

Definition max_nat : nat := Z.to_nat max_depth.

Lemma json_parse_sound s t v : json_parse s = Some (t, v) ->
  exists w w', s = w ++ t ++ w' /\ ws w /\ ws w' /\ JText max_nat t v.
Proof.
  unfold json_parse. destruct (skip_ws_split s) as (w & Hw & Hs & _). generalize dependent (skip_ws s). intros s' -> E. cbv zeta in E.
  destruct (parse_value _ 0 s') as [[v' r]|] eqn:Ep; [|done]. apply parse_sound in Ep as (t' & -> & Ht).
  rewrite text_of_app in E. destruct (skip_ws_split r) as (w' & Hw' & Hs & _). destruct (skip_ws r); [|done]. injection E as -> ->.
  exists w, w'. rewrite app_nil_r in Hs. subst r. by split_and!.
Qed.

Lemma json_parse_complete n w t v w' : ws w -> ws w' -> JText n t v -> (n <= max_nat)%nat -> json_parse (w ++ t ++ w') = Some (t, v).
Proof.
  intros Hw Hw' HJ Hn. unfold json_parse. rewrite skip_ws_app by (done || by eapply JText_no_ws). cbv zeta.
  destruct parse_complete as (Hv & _). rewrite (Hv _ _ _ HJ).
  - rewrite text_of_app. rewrite <- (app_nil_r w'), skip_ws_app by done. done.
  - unfold max_nat in Hn. change max_depth with 10000 in *. lia.
  - rewrite length_app. lia.
  - destruct w' as [|a w']; [done|]. change (delim (a :: w')) with (delim [a]). by apply Forall_cons_1 in Hw' as [Ha _]; apply (delim_ws [a] comma_byte []); [constructor|].
Qed.
