(* ===== verification/GoJsonEncode.v ===== *)
(** * What encoding/json writes

    Compaction keeps the value of a text, and everything the encoders of GoJson write is in
    the grammar of GoJsonText. With the completeness of the parser this reads back what was
    written: [encode_map_decode] for maps, whatever order they are written in, and
    [encode_raw_map_decode] for raw messages, whose texts come back compacted. *)

From Stdlib Require Import Ascii.
From S2P Require Import Prelude GoStrings GoJson GoJsonText.

Local Open Scope Z_scope.

(** ** Compacting string tokens *)

Definition html_byte (z : Z) : bool := (z =? 60) || (z =? 62) || (z =? 38).
Definition separator (a : ascii) (s : bytes) : bool :=
  match s with
  | b :: c :: _ => (byte_val a =? 226) && (byte_val b =? 128) && ((byte_val c =? 168) || (byte_val c =? 169))
  | _ => false
  end.

Lemma compact_copy a s esc :
  html_byte (byte_val a) = false -> separator a s = false ->
  compact_body (a :: s) true esc
  = a :: compact_body s (negb ((byte_val a =? 34) && negb esc)) ((byte_val a =? 92) && negb esc).
Proof.
  unfold html_byte, separator. intros H1 H2. cbn [compact_body negb]. cbv zeta. rewrite H1.
  destruct s as [|b [|c s]]; [done|done|]. by rewrite H2.
Qed.

Lemma compact_ascii a s esc :
  byte_val a < 128 -> html_byte (byte_val a) = false ->
  compact_body (a :: s) true esc
  = a :: compact_body s (negb ((byte_val a =? 34) && negb esc)) ((byte_val a =? 92) && negb esc).
Proof.
  intros Ha Hh. apply compact_copy; [done|]. unfold separator. destruct s as [|b [|c s]]; [done|done|].
  destruct (Z.eqb_spec (byte_val a) 226); [lia|done].
Qed.

Lemma compact_plain a s : plain_char a -> html_byte (byte_val a) = false -> compact_body (a :: s) true false = a :: compact_body s true false.
Proof.
  intros (H1 & H2 & H3) Hh. rewrite compact_ascii by (done || lia).
  by rewrite (proj2 (Z.eqb_neq _ _) H2), (proj2 (Z.eqb_neq _ _) H3).
Qed.

Lemma compact_html a s : html_byte (byte_val a) = true -> compact_body (a :: s) true false = u_escape (byte_val a) ++ compact_body s true false.
Proof.
  unfold html_byte. intros H. cbn [compact_body negb]. cbv zeta. rewrite H.
  destruct (Z.eqb_spec (byte_val a) 34) as [E|]; [by rewrite E in H|].
  destruct (Z.eqb_spec (byte_val a) 92) as [E|]; [by rewrite E in H|]. done.
Qed.

Lemma compact_backslash c s :
  byte_val c < 128 -> html_byte (byte_val c) = false ->
  compact_body (backslash :: c :: s) true false = backslash :: c :: compact_body s true false.
Proof.
  intros Hc Hh. rewrite compact_ascii by done. change (byte_val backslash =? 34) with false. change (byte_val backslash =? 92) with true.
  cbn [negb andb]. rewrite compact_ascii by done. cbn [negb]. by rewrite !andb_false_r.
Qed.

Lemma hex_val_range a v : hex_val a = Some v ->
  48 <= byte_val a <= 57 \/ 65 <= byte_val a <= 70 \/ 97 <= byte_val a <= 102.
Proof.
  unfold hex_val. intros H. repeat (case_match; [destruct_and?; rewrite ?andb_true_iff, ?Z.leb_le in *; lia|]). done.
Qed.

Lemma compact_hex_digit a v s : hex_val a = Some v -> compact_body (a :: s) true false = a :: compact_body s true false.
Proof.
  intros H%hex_val_range. apply compact_plain; [unfold plain_char; lia|].
  unfold html_byte. rewrite !orb_false_iff, !Z.eqb_neq. lia.
Qed.

Lemma compact_hex h r z : hex_text h r -> compact_body (h ++ z) true false = h ++ compact_body z true false.
Proof.
  intros [Hl Hh]. destruct h as [|a [|b [|c [|d [|? ?]]]]]; try discriminate Hl. cbn [app hex4] in *.
  destruct (hex_val a) eqn:Ha, (hex_val b) eqn:Hb, (hex_val c) eqn:Hc, (hex_val d) eqn:Hd; try discriminate Hh.
  by erewrite !compact_hex_digit by done.
Qed.

Lemma compact_u h r z : hex_text h r ->
  compact_body (backslash :: "u"%char :: h ++ z) true false = backslash :: "u"%char :: h ++ compact_body z true false.
Proof. intros Hh. rewrite compact_backslash by done. by erewrite compact_hex. Qed.

(** Bytes of a rune: only the two line separators change. *)
Lemma compact_high a s :
  128 <= byte_val a -> separator a s = false -> compact_body (a :: s) true false = a :: compact_body s true false.
Proof.
  intros Ha Hs. rewrite compact_copy; [|unfold html_byte; rewrite !orb_false_iff, !Z.eqb_neq; lia|done].
  rewrite (proj2 (Z.eqb_neq _ 34)), (proj2 (Z.eqb_neq _ 92)) by lia. done.
Qed.

Lemma compact_conts t z :
  Forall (fun b => cont (byte_val b) = true) t -> compact_body (t ++ z) true false = t ++ compact_body z true false.
Proof.
  induction 1 as [|a t Ha _ IH]; [done|]. cbn [app]. apply cont_iff in Ha. rewrite compact_high; [by rewrite IH|lia|].
  unfold separator. destruct (t ++ z) as [|b [|c s]]; [done|done|]. destruct (Z.eqb_spec (byte_val a) 226); [lia|done].
Qed.

Lemma separator_bytes a s : separator a s = true ->
  exists c s', s = byte_of 128 :: c :: s' /\ a = byte_of 226 /\ (c = byte_of 168 \/ c = byte_of 169).
Proof.
  unfold separator. destruct s as [|b [|c s]]; [done|done|].
  rewrite !andb_true_iff, orb_true_iff, !Z.eqb_eq. intros [[Ha Hb] Hc]. exists c, s.
  apply eq_sym, byte_of_eq in Ha as <-. apply eq_sym, byte_of_eq in Hb as <-.
  split_and!; [done|done|]. destruct Hc as [Hc|Hc]; apply eq_sym, byte_of_eq in Hc as <-; auto.
Qed.

Lemma separator_decode a s : separator a s = true ->
  exists c, (decode_rune (a :: s) = (8192 + (byte_val c - 128), 3%nat)) /\ (c = byte_of 168 \/ c = byte_of 169)
  /\ compact_body (a :: s) true false = u_escape (8192 + (byte_val c - 128)) ++ compact_body (drop 3 (a :: s)) true false.
Proof.
  intros (c & s' & -> & -> & Hc)%separator_bytes. exists c. destruct Hc as [-> | ->]; split_and!; auto.
Qed.

Lemma compact_wide t r : wide_rune t r ->
  (r = 8232 \/ r = 8233) /\ (forall z, compact_body (t ++ z) true false = u_escape r ++ compact_body z true false)
  \/ (forall z, compact_body (t ++ z) true false = t ++ compact_body z true false).
Proof.
  intros (He & Hr & Hs & Hd & a & t' & -> & Ha & Hall).
  destruct (decide (r = 8232 \/ r = 8233)) as [Hsep|Hsep].
  - left. split; [done|]. intros z. rewrite <- He. by destruct Hsep as [-> | ->].
  - right. intros z. cbn [app]. destruct (separator a (t' ++ z)) eqn:E.
    + exfalso. destruct (separator_decode _ _ E) as (c & Hdec & Hc & _).
      specialize (Hd z). cbn [app] in Hd. rewrite Hd in Hdec. injection Hdec as -> Hlen.
      apply Hsep. destruct Hc as [-> | ->]; [by left|by right].
    + rewrite compact_high by (lia || done). by rewrite compact_conts.
Qed.

Definition u_digits (z : Z) : bytes := map (fun i => hex_digit (Z.land (Z.shiftr z (4 * i)) 15)) [3; 2; 1; 0].

Lemma u_escape_eq z : u_escape z = backslash :: "u"%char :: u_digits z.
Proof. done. Qed.

Lemma nibble z i : 0 <= i -> Z.land (Z.shiftr z (4 * i)) 15 = (z / 2 ^ (4 * i)) mod 16.
Proof. intros Hi. change 15 with (Z.ones 4). rewrite Z.land_ones, Z.shiftr_div_pow2 by lia. done. Qed.

Lemma hex_text_u z : 0 <= z < 65536 -> hex_text (u_digits z) z.
Proof.
  intros Hz. split; [done|]. cbn [u_digits map hex4]. rewrite !nibble by lia.
  change (2 ^ (4 * 3)) with 4096. change (2 ^ (4 * 2)) with 256. change (2 ^ (4 * 1)) with 16. change (2 ^ (4 * 0)) with 1.
  rewrite !hex_val_digit by (apply Z.mod_pos_bound; lia). f_equal. f_equal. Z.to_euclidean_division_equations; lia.
Qed.

(** The escape of a character of the basic plane spells the character. *)
Lemma st_u_escape z s b : 0 <= z < 55296 \/ 57343 < z < 65536 -> str_text s b -> str_text (u_escape z ++ s) (encode_rune z ++ b).
Proof.
  intros Hz Hs. rewrite u_escape_eq. cbn [app]. apply st_hex; [apply hex_text_u; lia|apply is_surrogate_false; lia|done].
Qed.

Lemma encode_rune_ascii a : byte_val a < 128 -> encode_rune (byte_val a) = [a].
Proof.
  intros Ha. pose proof (byte_val_range a). unfold encode_rune.
  destruct (Z.leb_spec 0 (byte_val a)), (Z.ltb_spec (byte_val a) 128); try lia. cbn [andb]. by rewrite byte_of_val.
Qed.

(** The new text starts with the escape of a low surrogate only where the old one does. *)
Definition low_kept (s s' : bytes) : Prop :=
  forall h r z, s' = backslash :: "u"%char :: h ++ z -> hex_text h r -> 56320 <= r ->
  r <= 57343 -> exists z', s = backslash :: "u"%char :: h ++ z'.

Lemma low_kept_head x s s' : x <> backslash -> low_kept s (x :: s').
Proof. intros Hx h r z [= -> _]. done. Qed.

Lemma low_kept_escape c s s' : c <> "u"%char -> low_kept s (backslash :: c :: s').
Proof. intros Hc h r z [= -> _]. done. Qed.

Lemma hex_text_eq h1 r1 h2 r2 z1 z2 : hex_text h1 r1 -> hex_text h2 r2 -> h1 ++ z1 = h2 ++ z2 -> h1 = h2 /\ r1 = r2.
Proof.
  intros [Hl1 Hx1] [Hl2 Hx2] H. apply app_inj_1 in H as [-> _]; [|congruence]. split; [done|congruence].
Qed.

Lemma low_kept_u h s s' : length h = 4%nat -> low_kept (backslash :: "u"%char :: h ++ s) (backslash :: "u"%char :: h ++ s').
Proof.
  intros Hl h' r z [= H] [Hl' _] _ _. apply app_inj_1 in H as [-> _]; [|congruence]. by exists s.
Qed.

Lemma low_kept_u_escape z s s' : 0 <= z < 55296 \/ 57343 < z < 65536 -> low_kept s (u_escape z ++ s').
Proof.
  intros Hz h r w H Hh H1 H2. rewrite u_escape_eq in H. injection H as H.
  destruct (hex_text_eq (u_digits z) z h r s' w) as [_ ->]; [apply hex_text_u; lia|done|exact H|lia].
Qed.

Lemma surrogate_pair_low r1 r2 rr : surrogate_pair r1 r2 = Some rr -> 56320 <= r2 <= 57343.
Proof.
  unfold surrogate_pair. destruct (_ && _ && _ && _) eqn:E; [|done]. rewrite !andb_true_iff, !Z.leb_le in E. lia.
Qed.

Lemma alone_kept r s s' b : low_kept s s' -> str_text s' b -> alone r s -> alone r s'.
Proof.
  intros Hlow Hs' Hal. destruct s' as [|c [|d s4]]; [done|done|]. cbn [alone]. intros E.
  apply andb_true_iff in E as [->%bytes_eqb_backslash ->%bytes_eqb_u].
  destruct (str_text_u _ _ Hs') as (h & r2 & z & -> & Hh). exists r2, z. split; [by apply hex4_app|].
  destruct (surrogate_pair r r2) as [rr|] eqn:Hp; [|done]. exfalso.
  pose proof (surrogate_pair_low _ _ _ Hp) as Hr. destruct (Hlow h r2 z eq_refl Hh ltac:(lia) ltac:(lia)) as (z' & ->).
  destruct (Hal eq_refl) as (r3 & s5 & Hx & Hn). rewrite (hex4_app _ _ _ Hh) in Hx. congruence.
Qed.

Lemma agree_app t s s' : agree s s' -> agree (t ++ s) (t ++ s').
Proof. intros H. induction t as [|x t IH]; [done|by apply agree_same]. Qed.

Lemma agree_head x y s s' : byte_val x < 128 -> byte_val y < 128 -> agree (x :: s) (y :: s').
Proof. intros. by apply agree_stop; apply ascii_noncont. Qed.

Lemma wide_noncont t r s : wide_rune t r -> exists x t', t ++ s = x :: t' /\ noncont x /\ x <> backslash.
Proof.
  intros (_ & _ & _ & _ & a & t' & -> & Ha & _). exists a, (t' ++ s). split; [done|]. split.
  - unfold noncont. destruct (cont (byte_val a)) eqn:E; [apply cont_iff in E; lia|done].
  - intros ->. by change (byte_val backslash) with 92 in Ha.
Qed.

Lemma escape_char_ascii c e : escape_char c = Some e -> byte_val c < 128 /\ html_byte (byte_val c) = false.
Proof.
  unfold escape_char, html_byte. cbv zeta. intros H.
  repeat (case_match; [repeat match goal with E : _ || _ = true |- _ => apply orb_true_iff in E as [E|E] end;
    match goal with E : (_ =? _) = true |- _ => apply Z.eqb_eq in E; rewrite E; by split end|]). done.
Qed.

(** [s'] is what compaction makes of the token body [s], which spells [b]. *)
Definition compacted_to (s b s' : bytes) : Prop :=
  (forall z, compact_body (s ++ quote_char :: z) true false = s' ++ quote_char :: compact_body z false false)
  /\ str_text s' b /\ low_kept s s' /\ agree (s ++ [quote_char]) (s' ++ [quote_char]).

(** One character more in front, by kind. *)
Lemma compact_one_plain a s b s' :
  plain_char a -> compacted_to s b s' -> exists s2, compacted_to (a :: s) (a :: b) s2.
Proof.
  intros Ha (Hcomp & Htext & Hlow & Hagree). destruct (html_byte (byte_val a)) eqn:Hh.
  - assert (0 <= byte_val a < 55296) by (destruct Ha; lia).
    exists (u_escape (byte_val a) ++ s'). split_and!.
    + intros z. cbn [app]. by rewrite compact_html, Hcomp, <- app_assoc.
    + change (a :: b) with ([a] ++ b). rewrite <- (encode_rune_ascii a) by (destruct Ha; lia). apply st_u_escape; [lia|done].
    + by apply low_kept_u_escape; left.
    + apply agree_head; [destruct Ha; lia|done].
  - exists (a :: s'). split_and!; [intros z; cbn [app]; by rewrite compact_plain, Hcomp|by apply st_plain| |by apply agree_same].
    apply low_kept_head. intros ->. by destruct Ha as (_ & _ & []).
Qed.

Lemma compact_one_wide t r s b s' : wide_rune t r -> compacted_to s b s' -> exists s2, compacted_to (t ++ s) (t ++ b) s2.
Proof.
  intros Hw (Hcomp & Htext & Hlow & Hagree).
  destruct (wide_noncont t r (s' ++ [quote_char]) Hw) as (x & t' & Heq & Hx & Hxb).
  destruct (compact_wide t r Hw) as [[Hr Hcw]|Hcw].
  - assert (0 <= r < 55296 \/ 57343 < r < 65536) as Hr' by lia.
    exists (u_escape r ++ s'). split_and!; [| |by apply low_kept_u_escape|].
    + intros z. by rewrite <- app_assoc, Hcw, Hcomp, <- app_assoc.
    + pose proof Hw as (He & _). rewrite <- He. by apply st_u_escape.
    + destruct (wide_noncont t r (s ++ [quote_char]) Hw) as (y & t2 & Heq2 & Hy & _).
      rewrite <- app_assoc, Heq2. by apply agree_stop.
  - exists (t ++ s'). split_and!; [|by eapply st_wide| |rewrite <- !app_assoc; by apply agree_app].
    + intros z. by rewrite <- app_assoc, Hcw, Hcomp, <- app_assoc.
    + destruct (wide_noncont t r s' Hw) as (y & t2 & -> & _ & Hy). by apply low_kept_head.
Qed.

Lemma compact_one_bad a s b s' :
  128 <= byte_val a -> decode_rune (a :: s ++ [quote_char]) = (rune_error, 1%nat) -> compacted_to s b s' ->
  exists s2, compacted_to (a :: s) (encode_rune rune_error ++ b) s2.
Proof.
  intros Ha Hd (Hcomp & Htext & Hlow & Hagree). assert (noncont quote_char) as Hq by apply quote_noncont.
  assert (forall z, separator a (s ++ quote_char :: z) = false) as Hsep.
  { intros z. destruct (separator a (s ++ quote_char :: z)) eqn:E; [|done].
    destruct (separator_decode _ _ E) as (c & Hdec & _).
    rewrite (decode_agree a (s ++ quote_char :: z) (s ++ [quote_char])), Hd in Hdec by by apply agree_refl. done. }
  exists (a :: s'). split_and!; [| | |by apply agree_same].
  - intros z. cbn [app]. by rewrite compact_high, Hcomp.
  - apply st_bad; [done| |done]. rewrite <- Hd. symmetry. by apply decode_agree.
  - apply low_kept_head. intros ->. by change (byte_val backslash) with 92 in Ha.
Qed.

(** Compaction keeps what a string token spells. *)
Lemma compact_str_text s b : str_text s b -> exists s', compacted_to s b s'.
Proof.
  induction 1 as [|a s b Ha _ IH|c e s b Hc He _ IH|h r s b Hh Hs _ IH|h1 r1 h2 r2 r s b Hh1 Hh2 Hs Hp _ IH
    |h r s b Hh Hs Hal _ IH|t r s b Hw Hst IH|a s b Ha Hd Hst IH]; [|destruct IH as (s' & IH)..].
  - exists []. split_and!; [intros z; exact (compact_ascii quote_char z false eq_refl eq_refl)|constructor|by intros h r z [=]|].
    apply agree_stop; apply quote_noncont.
  - by eapply compact_one_plain.
  - destruct IH as (Hcomp & Htext & Hlow & Hagree). destruct (escape_char_ascii _ _ He) as [Hc1 Hc2]. exists (backslash :: c :: s').
    split_and!; [intros z; cbn [app]; by rewrite compact_backslash, Hcomp|by apply st_escape| |by apply agree_head].
    apply low_kept_escape. by intros ->.
  - destruct IH as (Hcomp & Htext & Hlow & Hagree). exists (backslash :: "u"%char :: h ++ s').
    split_and!; [|by apply st_hex|apply low_kept_u, Hh|by apply agree_head].
    intros z. cbn [app]. rewrite <- !app_assoc. by rewrite (compact_u h r), Hcomp.
  - destruct IH as (Hcomp & Htext & Hlow & Hagree). exists (backslash :: "u"%char :: h1 ++ backslash :: "u"%char :: h2 ++ s').
    split_and!; [|by apply (st_pair h1 r1 h2 r2)|apply low_kept_u, Hh1|by apply agree_head].
    intros z. cbn [app]. rewrite <- !app_assoc, (compact_u h1 r1) by done. cbn [app]. by rewrite <- !app_assoc, (compact_u h2 r2), Hcomp.
  - destruct IH as (Hcomp & Htext & Hlow & Hagree). exists (backslash :: "u"%char :: h ++ s'). split_and!.
    + intros z. cbn [app]. rewrite <- !app_assoc. by rewrite (compact_u h r), Hcomp.
    + apply (st_alone h r); try done. by eapply alone_kept.
    + apply low_kept_u, Hh.
    + by apply agree_head.
  - by eapply compact_one_wide.
  - by eapply compact_one_bad.
Qed.

(** ** Compaction

    Compacting the text of a value gives the text of the same value, its parts compacted. *)

Definition compact (t : bytes) : bytes := compact_body t false false.

Fixpoint jcompact (v : jvalue) : jvalue :=
  match v with
  | JArray l => JArray (map (fun p => (compact p.1, jcompact p.2)) l)
  | JObject l => JObject (map (fun p => (p.1, (compact p.2.1, jcompact p.2.2))) l)
  | v => v
  end.

(** The compaction of [s] does not depend on what follows, and its result is [s']. *)
Definition compacts (s s' : bytes) : Prop := forall r, compact (s ++ r) = s' ++ compact r.

Lemma compacts_eq s s' : compacts s s' -> compact s = s'.
Proof. intros H. specialize (H []). by rewrite !app_nil_r in H. Qed.

Lemma compacts_app s1 s1' s2 s2' : compacts s1 s1' -> compacts s2 s2' -> compacts (s1 ++ s2) (s1' ++ s2').
Proof. intros H1 H2 r. by rewrite <- !app_assoc, H1, H2. Qed.

Lemma compacts_nil : compacts [] [].
Proof. by intros r. Qed.

Lemma compacts_ws w : ws w -> compacts w [].
Proof. intros Hw r. induction Hw as [|a w Ha _ IH]; [done|]. unfold compact in *. cbn [app compact_body negb]. cbv zeta. by rewrite Ha. Qed.

Lemma compacts_cons a s s' : is_ws a = false -> a <> quote_char -> compacts s s' -> compacts (a :: s) (a :: s').
Proof.
  intros Ha Hq H r. unfold compact in *. cbn [app compact_body negb]. cbv zeta. rewrite Ha.
  destruct (Z.eqb_spec (byte_val a) 34) as [E|]; [destruct Hq; by apply byte_val_inj|f_equal; apply H].
Qed.

Lemma compacts_token k b : str_token k b -> exists k', compacts k k' /\ str_token k' b.
Proof.
  intros (body & -> & Hs). destruct (compact_str_text _ _ Hs) as (s' & Hc & Hs' & _).
  exists (quote_char :: s' ++ [quote_char]). split; [|by exists s'].
  intros r. unfold compact. cbn [app compact_body negb]. rewrite <- !app_assoc. cbn [app].
  change (is_ws quote_char) with false. change (byte_val quote_char =? 34) with true. by rewrite Hc.
Qed.

(** A run of bytes without white space or quotes. *)
Definition copied (a : ascii) : Prop := is_ws a = false /\ a <> quote_char.

Lemma compacts_copied t : Forall copied t -> compacts t t.
Proof. induction 1 as [|a t [Ha Hq] _ IH]; [apply compacts_nil|by apply compacts_cons]. Qed.

Lemma digit_run_copied d : digit_run d -> Forall copied d.
Proof.
  apply Forall_impl. intros a H%digit_byte_cases. cbn [In] in H. by repeat destruct H as [<-|H].
Qed.

Lemma number_copied t : number t -> Forall copied t.
Proof.
  assert (forall a, In a ["-"; "+"; "."; "e"; "E"; "0"]%char -> copied a) as Hc.
  { intros a H. cbn [In] in H. by repeat destruct H as [<-|H]. }
  intros (m & i & f & e & -> & Hm & Hi & Hf & He). repeat apply Forall_app_2.
  - destruct Hm as [-> | ->]; [constructor|]. apply Forall_singleton, Hc. cbn [In]. tauto.
  - destruct Hi as [->|(a & d & -> & _ & Ha & Hd)]; [apply Forall_singleton, Hc; cbn [In]; tauto|]. apply digit_run_copied. by constructor.
  - destruct Hf as [->|(d & -> & _ & Hd)]; [constructor|]. constructor; [apply Hc; cbn [In]; tauto|by apply digit_run_copied].
  - destruct He as [->|(a & g & d & -> & Ha & Hg & _ & Hd)]; [constructor|]. constructor; [apply Hc; cbn [In]; destruct Ha as [-> | ->]; tauto|].
    apply Forall_app_2; [|by apply digit_run_copied].
    destruct Hg as [->|[-> | ->]]; [constructor|apply Forall_singleton, Hc; cbn [In]; tauto..].
Qed.

Definition value_compacts (n : nat) (t : bytes) (v : jvalue) : Prop :=
  compacts t (compact t) /\ JText n (compact t) (jcompact v).
Definition elements_compacts (n : nat) (s : bytes) (l : list (bytes * jvalue)) : Prop :=
  compacts s (compact s) /\ JElements n (compact s) (map (fun p => (compact p.1, jcompact p.2)) l).
Definition members_compacts (n : nat) (s : bytes) (l : list (string * (bytes * jvalue))) : Prop :=
  compacts s (compact s) /\ JMembers n (compact s) (map (fun p => (p.1, (compact p.2.1, jcompact p.2.2))) l).

(** To compact [s] to [s'], compact its pieces. *)
Lemma value_compacts_intro n t t' v : compacts t t' -> JText n t' (jcompact v) -> value_compacts n t v.
Proof. intros H HJ. unfold value_compacts. by rewrite (compacts_eq _ _ H). Qed.
Lemma elements_compacts_intro n t t' l : compacts t t' -> JElements n t' (map (fun p => (compact p.1, jcompact p.2)) l) -> elements_compacts n t l.
Proof. intros H HJ. unfold elements_compacts. by rewrite (compacts_eq _ _ H). Qed.
Lemma members_compacts_intro n t t' l : compacts t t' -> JMembers n t' (map (fun p => (p.1, (compact p.2.1, jcompact p.2.2))) l) -> members_compacts n t l.
Proof. intros H HJ. unfold members_compacts. by rewrite (compacts_eq _ _ H). Qed.

Lemma ws_nil : ws [].
Proof. constructor. Qed.
Local Hint Resolve ws_nil compacts_app compacts_ws compacts_nil : core.

Lemma grammar_compacts :
  (forall n t v, JText n t v -> value_compacts n t v)
  /\ (forall n s l, JElements n s l -> elements_compacts n s l)
  /\ (forall n s l, JMembers n s l -> members_compacts n s l).
Proof.
  assert (forall t, (Forall copied t) -> compacts t t) as Hcop by exact compacts_copied.
  apply JText_mutual.
  - intros n. eapply value_compacts_intro; [apply Hcop; by repeat constructor|constructor].
  - intros n. eapply value_compacts_intro; [apply Hcop; by repeat constructor|constructor].
  - intros n. eapply value_compacts_intro; [apply Hcop; by repeat constructor|constructor].
  - intros n t Ht. eapply value_compacts_intro; [by apply Hcop, number_copied|by constructor].
  - intros n t b Ht. destruct (compacts_token _ _ Ht) as (k' & Hk & Hk'). eapply value_compacts_intro; [exact Hk|by constructor].
  - intros n w Hw. eapply value_compacts_intro; [|by apply (J_array_nil n [])].
    apply compacts_cons; [done..|]. apply (compacts_app w []); [auto|]. by apply compacts_copied; repeat constructor.
  - intros n w s l Hw _ [Hs IH]. eapply value_compacts_intro; [|by apply (J_array n [])].
    apply compacts_cons; [done..|]. apply (compacts_app w []); [auto|]. apply compacts_app; [done|].
    by apply compacts_copied; repeat constructor.
  - intros n w Hw. eapply value_compacts_intro; [|by apply (J_object_nil n [])].
    apply compacts_cons; [done..|]. apply (compacts_app w []); [auto|]. by apply compacts_copied; repeat constructor.
  - intros n w s l Hw _ [Hs IH]. eapply value_compacts_intro; [|by apply (J_object n [])].
    apply compacts_cons; [done..|]. apply (compacts_app w []); [auto|]. apply compacts_app; [done|].
    by apply compacts_copied; repeat constructor.
  - intros n t v w _ [Ht IH] Hw. eapply elements_compacts_intro; [apply compacts_app; [exact Ht|by apply compacts_ws]|].
    by apply (JE_one n _ _ []).
  - intros n t v w w' s l _ [Ht IHt] Hw Hw' _ [Hs IHs]. eapply elements_compacts_intro.
    + apply compacts_app; [exact Ht|]. apply (compacts_app w []); [auto|]. apply compacts_cons; [done..|].
      apply (compacts_app w' []); [auto|exact Hs].
    + by apply (JE_cons n _ _ [] []).
  - intros n k b w w1 t v w2 Hk Hw Hw1 _ [Ht IHt] Hw2. destruct (compacts_token _ _ Hk) as (k' & Hk1 & Hk2).
    eapply members_compacts_intro.
    + apply compacts_app; [exact Hk1|]. apply (compacts_app w []); [auto|]. apply compacts_cons; [done..|].
      apply (compacts_app w1 []); [auto|]. apply compacts_app; [exact Ht|by apply compacts_ws].
    + by apply (JM_one n _ _ [] [] _ _ []).
  - intros n k b w w1 t v w2 w3 s l Hk Hw Hw1 _ [Ht IHt] Hw2 Hw3 _ [Hs IHs]. destruct (compacts_token _ _ Hk) as (k' & Hk1 & Hk2).
    eapply members_compacts_intro.
    + apply compacts_app; [exact Hk1|]. apply (compacts_app w []); [auto|]. apply compacts_cons; [done..|].
      apply (compacts_app w1 []); [auto|]. apply compacts_app; [exact Ht|]. apply (compacts_app w2 []); [auto|].
      apply compacts_cons; [done..|]. apply (compacts_app w3 []); [auto|exact Hs].
    + by apply (JM_cons n _ _ [] [] _ _ [] []).
Qed.

(** The text a raw message is written as. *)
Lemma json_parse_compact s t v :
  json_parse s = Some (t, v) -> json_parse (compact s) = Some (compact s, jcompact v) /\ compact s = compact t.
Proof.
  intros (w & w' & -> & Hw & Hw' & HJ)%json_parse_sound. destruct (proj1 grammar_compacts _ _ _ HJ) as [Hc HJ'].
  assert (compact (w ++ t ++ w') = compact t) as ->.
  { erewrite (compacts_ws _ Hw), Hc, <- (app_nil_r w'), (compacts_ws _ Hw'). by rewrite !app_nil_r. }
  split; [|done]. pose proof (json_parse_complete _ [] _ _ [] ws_nil ws_nil HJ' ltac:(lia)) as H. by rewrite app_nil_r in H.
Qed.

(** ** Depth *)

Fixpoint jdepth (v : jvalue) : nat :=
  match v with
  | JArray l => S (fold_right (fun p d => Nat.max (jdepth p.2) d) O l)
  | JObject l => S (fold_right (fun p d => Nat.max (jdepth p.2.2) d) O l)
  | _ => O
  end.

Lemma JText_depth :
  (forall n t v, JText n t v -> forall m, (jdepth v <= m)%nat -> JText m t v)
  /\ (forall n s l, JElements n s l -> forall m, (fold_right (fun p d => Nat.max (jdepth p.2) d) O l <= m)%nat -> JElements m s l)
  /\ (forall n s l, JMembers n s l -> forall m, (fold_right (fun p d => Nat.max (jdepth p.2.2) d) O l <= m)%nat -> JMembers m s l).
Proof.
  apply JText_mutual; try (intros; by constructor).
  - intros n w Hw m Hm. destruct m as [|m]; [cbn in Hm; lia|by constructor].
  - intros n w s l Hw _ IH m Hm. cbn [jdepth] in Hm. destruct m as [|m]; [lia|]. constructor; [done|]. apply IH. lia.
  - intros n w Hw m Hm. destruct m as [|m]; [cbn in Hm; lia|by constructor].
  - intros n w s l Hw _ IH m Hm. cbn [jdepth] in Hm. destruct m as [|m]; [lia|]. constructor; [done|]. apply IH. lia.
  - intros n t v w _ IH Hw m Hm. cbn in Hm. constructor; [|done]. apply IH. lia.
  - intros n t v w w' s l _ IH Hw Hw' _ IHs m Hm. cbn in Hm. constructor; try done; [apply IH|apply IHs]; lia.
  - intros n k b w w1 t v w2 Hk Hw Hw1 _ IH Hw2 m Hm. cbn in Hm. constructor; try done. apply IH. lia.
  - intros n k b w w1 t v w2 w3 s l Hk Hw Hw1 _ IH Hw2 Hw3 _ IHs m Hm. cbn in Hm. constructor; try done; [apply IH|apply IHs]; lia.
Qed.

Lemma jdepth_compact v : jdepth (jcompact v) = jdepth v.
Proof.
  revert v. fix IH 1. intros [| | | |l|l]; cbn [jcompact jdepth]; try reflexivity; f_equal.
  - induction l as [|[t v] l IHl]; [reflexivity|]. cbn. rewrite IHl, IH. reflexivity.
  - induction l as [|[k [t v]] l IHl]; [reflexivity|]. cbn. rewrite IHl, IH. reflexivity.
Qed.

(** The nesting of a document. *)
Definition json_depth (s : bytes) : nat := match json_parse s with Some (_, v) => jdepth v | None => O end.

(** ** Encoders write the grammar *)

(** What is left of a string after encoding: invalid bytes have become U+FFFD. *)
Definition sanitize (s : string) : string := string_of_bytes (concat (map encode_rune (runes s))).
Definition valid_utf8 (s : string) : Prop := sanitize s = s.
#[export] Instance valid_utf8_dec s : Decision (valid_utf8 s).
Proof. unfold valid_utf8. apply _. Defined.

Lemma decode_ascii a s : byte_val a < 128 -> decode_rune (a :: s) = (byte_val a, 1%nat).
Proof. intros H. unfold decode_rune. destruct (Z.ltb_spec (byte_val a) 128); [done|lia]. Qed.

Lemma str_text_ascii a s b :
  byte_val a < 128 -> str_text s b ->
  str_text ((let z := byte_val a in
     if (z =? 34) || (z =? 92) then [backslash; a]
     else if z =? 8 then [backslash; "b"%char]
     else if z =? 12 then [backslash; "f"%char]
     else if z =? 10 then [backslash; "n"%char]
     else if z =? 13 then [backslash; "r"%char]
     else if z =? 9 then [backslash; "t"%char]
     else if (z <? 32) || (z =? 60) || (z =? 62) || (z =? 38) then u_escape z
     else [a]) ++ s) (a :: b).
Proof.
  intros Ha Hs. cbv zeta. pose proof (byte_val_range a) as Hr.
  destruct ((byte_val a =? 34) || (byte_val a =? 92)) eqn:E1.
  { apply orb_true_iff in E1 as [E|E]; apply head_is in E as ->; by apply st_escape. }
  destruct (byte_val a =? 8) eqn:E2; [apply head_is in E2 as ->; by apply (st_escape "b"%char)|].
  destruct (byte_val a =? 12) eqn:E3; [apply head_is in E3 as ->; by apply (st_escape "f"%char)|].
  destruct (byte_val a =? 10) eqn:E4; [apply head_is in E4 as ->; by apply (st_escape "n"%char)|].
  destruct (byte_val a =? 13) eqn:E5; [apply head_is in E5 as ->; by apply (st_escape "r"%char)|].
  destruct (byte_val a =? 9) eqn:E6; [apply head_is in E6 as ->; by apply (st_escape "t"%char)|].
  destruct (((byte_val a <? 32) || (byte_val a =? 60)) || (byte_val a =? 62) || (byte_val a =? 38)) eqn:E7.
  - change (a :: b) with ([a] ++ b). rewrite <- (encode_rune_ascii a) by done. apply st_u_escape; [lia|done].
  - apply st_plain; [|done]. apply orb_false_iff in E1 as [E1 E1']. apply Z.eqb_neq in E1, E1'.
    rewrite !orb_false_iff, Z.ltb_ge in E7. unfold plain_char. lia.
Qed.

Lemma encode_string_text f s :
  (length s <= f)%nat -> str_text (encode_string_body f s) (concat (map encode_rune (runes_fuel f s))).
Proof.
  revert s. induction f as [|f IH]; intros s Hf; [constructor|]. destruct s as [|a s]; [constructor|]. cbn [length] in Hf.
  cbn [encode_string_body runes_fuel]. cbv zeta. destruct (Z.ltb_spec (byte_val a) 128) as [Ha|Ha].
  - rewrite decode_ascii by done. cbn [map concat]. rewrite encode_rune_ascii by done. cbn [app].
    apply (str_text_ascii a); [done|]. apply IH. change (drop 1 (a :: s)) with s. lia.
  - destruct (decode_wide a s Ha) as [Hd|(t & r & z & Heq & Hd & Hw)]; rewrite Hd; cbn [map concat].
    + change (drop 1 (a :: s)) with s. apply st_u_escape; [unfold rune_error; lia|]. apply IH. lia.
    + rewrite Heq, drop_app_length, take_app_length. clear Hd. pose proof Hw as (He & Hr & _ & _ & a' & t' & -> & _).
      assert (length z <= f)%nat as Hz.
      { apply (f_equal length) in Heq. rewrite length_app in Heq. cbn [length] in Heq. lia. }
      destruct ((r =? rune_error) && Nat.eqb (length (a' :: t')) 1) eqn:Ebad.
      { apply andb_true_iff in Ebad as [E _]. apply Z.eqb_eq in E as ->. apply st_u_escape; [unfold rune_error; lia|]. by apply IH. }
      destruct ((r =? 8232) || (r =? 8233)) eqn:Esep.
      { apply orb_true_iff in Esep as [E|E]; apply Z.eqb_eq in E as ->; (apply st_u_escape; [lia|by apply IH]). }
      rewrite He. eapply st_wide; [exact Hw|]. by apply IH.
Qed.

Lemma encode_string_token s : str_token (encode_string s) (bytes_of_string (sanitize s)).
Proof.
  eexists. split; [reflexivity|]. unfold sanitize. rewrite bytes_of_string_of_bytes.
  apply encode_string_text. by rewrite bytes_of_string_length.
Qed.

Lemma JText_encode_string n s : JText n (encode_string s) (JString (sanitize s)).
Proof. rewrite <- (string_of_bytes_of_string (sanitize s)). constructor. apply encode_string_token. Qed.

Lemma sanitize_ascii s : Forall (fun a => byte_val a < 128) (bytes_of_string s) -> valid_utf8 s.
Proof.
  intros H. unfold valid_utf8, sanitize, runes. rewrite <- bytes_of_string_length.
  etrans; [|apply string_of_bytes_of_string]. f_equal. induction H as [|a l Ha _ IH]; [done|].
  cbn [length runes_fuel]. rewrite decode_ascii by done. cbn [map concat]. rewrite encode_rune_ascii by done.
  cbn [app]. f_equal. exact IH.
Qed.

(** Objects and arrays. *)
Definition member_of (n : nat) (p : string * bytes) (q : string * (bytes * jvalue)) : Prop :=
  q.1 = sanitize p.1 /\ q.2.1 = p.2 /\ JText n p.2 q.2.2.

Lemma JM_join n p q l lv :
  member_of n p q -> Forall2 (member_of n) l lv ->
  JMembers n (join_bytes (map (fun p => encode_string p.1 ++ colon_byte :: p.2) (p :: l))) (q :: lv).
Proof.
  intros Hp Hl. revert p q Hp. induction Hl as [|p' q' l lv Hp' _ IH]; intros [k t] [k' [t' v]] (E1 & E2 & HJ);
    cbn [fst snd] in *; subst; rewrite <- (string_of_bytes_of_string (sanitize k)).
  - cbn [map join_bytes fst snd]. pose proof (JM_one n _ _ [] [] t v [] (encode_string_token k) ws_nil ws_nil HJ ws_nil) as H.
    cbn [app] in H. by rewrite app_nil_r in H.
  - change (map ?f ((k, t) :: ?l)) with ((encode_string k ++ colon_byte :: t) :: map f l). cbn [join_bytes].
    specialize (IH _ _ Hp').
    pose proof (JM_cons n _ _ [] [] t v [] [] _ _ (encode_string_token k) ws_nil ws_nil HJ ws_nil ws_nil IH) as H.
    cbn [map] in *. rewrite <- app_assoc. cbn [app] in *. exact H.
Qed.

Lemma JText_encode_object n l lv : Forall2 (member_of n) l lv -> JText (S n) (encode_object l) (JObject lv).
Proof.
  intros [|p q l' lv' Hp Hl]; [by apply (J_object_nil n [])|]. apply (J_object n []); [constructor|by apply JM_join].
Qed.

Lemma JE_join n t v l lv :
  JText n t v -> Forall2 (JText n) l lv -> JElements n (join_bytes (t :: l)) ((t, v) :: zip l lv).
Proof.
  intros Hp Hl. revert t v Hp. induction Hl as [|t' v' l lv Hp' _ IH]; intros t v Hp.
  - cbn [join_bytes zip_with]. pose proof (JE_one n t v [] Hp ws_nil) as H. by rewrite app_nil_r in H.
  - pose proof (JE_cons n t v [] [] _ _ Hp ws_nil ws_nil (IH _ _ Hp')) as H. exact H.
Qed.

Lemma JText_encode_array n l lv : Forall2 (JText n) l lv -> JText (S n) (encode_array l) (JArray (zip l lv)).
Proof.
  intros [|t v l' lv' Hp Hl]; [by apply (J_array_nil n [])|]. apply (J_array n []); [constructor|by apply JE_join].
Qed.

(** Numbers. *)
Lemma utoa_fuel_lead f n acc :
  0 < n < 2 ^ Z.of_nat f -> exists a s, utoa_fuel f n acc = String a s /\ a <> "0"%char.
Proof.
  revert n acc. induction f as [|f IH]; intros n acc Hn; [change (2 ^ Z.of_nat 0) with 1 in Hn; lia|].
  rewrite Nat2Z.inj_succ, Z.pow_succ_r in Hn by lia. cbn [utoa_fuel]. destruct (Z.eqb_spec (n / 10) 0).
  - eexists _, _. split; [reflexivity|]. intros H0%(f_equal byte_val). unfold digit_char in H0.
    rewrite byte_val_of, Z.mod_small in H0 by (Z.to_euclidean_division_equations; lia).
    change (byte_val "0") with 48 in H0. Z.to_euclidean_division_equations; lia.
  - apply IH. Z.to_euclidean_division_equations; lia.
Qed.

Lemma digit_byte_Some a : is_Some (digit_val a) -> is_digit_byte a = true.
Proof. unfold is_digit_byte. by intros [x ->]. Qed.

Lemma utoa_int n : 0 <= n -> int_text (bytes_of_string (utoa n)).
Proof.
  intros Hn. destruct (Z.eq_dec n 0) as [->|]; [by left|]. right. pose proof (utoa_digits n Hn) as Hd. revert Hd. unfold utoa.
  destruct (utoa_fuel_lead (S (Z.to_nat (Z.log2 n))) n EmptyString) as (a & s & -> & Ha).
  { pose proof (utoa_fuel_enough n Hn). lia. }
  change (bytes_of_string (String a s)) with (a :: bytes_of_string s). intros [Hda Hds]%Forall_cons_1.
  exists a, (bytes_of_string s). split_and!; [done|done|by apply digit_byte_Some|].
  revert Hds. apply Forall_impl. intros x. apply digit_byte_Some.
Qed.

Lemma number_Itoa z : number (bytes_of_string (Itoa z)).
Proof.
  unfold Itoa. destruct (Z.ltb_spec z 0).
  - exists ["-"%char], (bytes_of_string (utoa (- z))), [], []. rewrite !app_nil_r.
    split_and!; [done|by right|apply utoa_int; lia|by left|by left].
  - exists [], (bytes_of_string (utoa z)), [], []. rewrite !app_nil_r. split_and!; [done|by left|by apply utoa_int|by left|by left].
Qed.

Lemma JText_Itoa n z : JText n (bytes_of_string (Itoa z)) (JNumber (Itoa z)).
Proof. rewrite <- (string_of_bytes_of_string (Itoa z)) at 2. constructor. apply number_Itoa. Qed.

(** Raw messages: [null] for nil, the compacted text otherwise. *)
Definition raw_sent (r : RawMessage) : RawMessage :=
  match raw_text r with [] => mkRaw (bytes_of_string "null") | t => mkRaw (compact t) end.

Lemma encode_raw_J r b n :
  encode_raw r = Some b -> (json_depth (raw_text r) <= n)%nat -> b = raw_text (raw_sent r) /\ exists v, JText n b v.
Proof.
  unfold encode_raw, raw_sent, json_depth. destruct (raw_text r) as [|a t] eqn:Er.
  - intros [= <-] _. split; [done|]. exists JNull. constructor.
  - destruct (json_parse (a :: t)) as [[t' v]|] eqn:Ep; [|done]. change (compact_body (a :: t) false false) with (compact (a :: t)). intros H Hn.
    apply Some_inj in H as <-. split; [done|].
    destruct (json_parse_compact _ _ _ Ep) as [_ Hc]. apply json_parse_sound in Ep as (w & w' & _ & _ & _ & HJ).
    exists (jcompact v). destruct (proj1 grammar_compacts _ _ _ HJ) as [_ HJ'].
    rewrite Hc. eapply (proj1 JText_depth); [exact HJ'|]. by rewrite jdepth_compact.
Qed.

(** ** Reading back *)

Lemma Unmarshal_text {A} `{FromJSON A, GoZero A} n t v :
  JText n t v -> (n <= max_nat)%nat -> Unmarshal t = from_json t v go_zero.
Proof.
  intros HJ Hn. unfold Unmarshal. pose proof (json_parse_complete n [] t v [] ws_nil ws_nil HJ Hn) as E.
  rewrite app_nil_r in E. cbn [app] in E. by rewrite E.
Qed.

(** The first value of a stream, with blanks behind it. *)
Lemma Decode_text {A} `{FromJSON A, GoZero A} n t v w :
  JText n t v -> (n <= max_nat)%nat -> ws w -> Decode (t ++ w) = from_json t v go_zero.
Proof.
  intros HJ Hn Hw. unfold Decode. pose proof (skip_ws_app [] (t ++ w) ws_nil) as Hs. cbn [app] in Hs.
  rewrite Hs by (by eapply JText_no_ws).
  destruct parse_complete as (Hv & _). rewrite (Hv _ _ _ HJ).
  - by rewrite text_of_app.
  - unfold max_nat in Hn. change max_depth with 10000 in *. lia.
  - rewrite length_app. lia.
  - destruct w as [|a w]; [done|]. change (delim (a :: w)) with (delim [a]).
    by apply Forall_cons_1 in Hw as [Ha _]; apply (delim_ws [a] comma_byte []); [constructor|].
Qed.

Lemma insert_key_perm {A} (p : string * A) l : insert_key p l ≡ₚ p :: l.
Proof.
  induction l as [|q l IH]; cbn [insert_key]; [done|]. destruct (bytes_le _ _); [done|].
  rewrite IH. apply Permutation_swap.
Qed.

Lemma sort_keys_perm {A} (l : list (string * A)) : sort_keys l ≡ₚ l.
Proof. induction l as [|p l IH]; [done|]. unfold sort_keys in *. cbn [foldr]. by rewrite insert_key_perm, IH. Qed.

Lemma insert_key_map {A B} (g : A -> B) (p : string * A) l :
  insert_key (p.1, g p.2) (map (fun q => (q.1, g q.2)) l) = map (fun q => (q.1, g q.2)) (insert_key p l).
Proof. induction l as [|q l IH]; [done|]. cbn [map insert_key fst]. destruct (bytes_le _ _); [done|]. cbn [map]. by rewrite IH. Qed.

Lemma sort_keys_map {A B} (g : A -> B) l :
  sort_keys (map (fun q => (q.1, g q.2)) l) = map (fun q => (q.1, g q.2)) (sort_keys l).
Proof. induction l as [|p l IH]; [done|]. unfold sort_keys in *. cbn [map foldr]. by rewrite IH, insert_key_map. Qed.

Lemma from_map_members {B} `{FromJSON B, GoZero B} (l : list (string * B)) lv t old :
  Forall2 (fun p q => q.1 = p.1 /\ from_json q.2.1 q.2.2 go_zero = Some p.2) l lv -> NoDup l.*1 ->
  from_json t (JObject lv) old = Some ((list_to_map l : gmap string B) ∪ old).
Proof.
  unfold from_json at 2, from_map. intros Hl. revert old.
  induction Hl as [|[k a] [k' [t' v]] l lv [Hk Hv] _ IH]; intros old Hnd.
  - cbn [fold_left]. cbn [list_to_map foldr]. by rewrite (left_id_L ∅ (∪)).
  - cbn [fst snd] in *. subst k'. rewrite fmap_cons in Hnd. apply list.NoDup_cons in Hnd as [Hk Hnd].
    cbn [fold_left fst snd]. rewrite Hv, IH by done. f_equal. cbn [list_to_map foldr].
    rewrite <- insert_union_r by by apply not_elem_of_list_to_map_1. by rewrite insert_union_l.
Qed.

(** A map with values that read back is read back, whatever order it is written in. *)
Lemma encode_map_decode {A B} `{FromJSON B, GoZero B} n (enc : A -> bytes) (dec : A -> B) (m : gmap string A) :
  (forall k a, m !! k = Some a ->
    valid_utf8 k /\ exists v, JText n (enc a) v /\ from_json (enc a) v go_zero = Some (dec a)) ->
  exists lv, JText (S n) (encode_map (map (fun p => (p.1, enc p.2)) (map_to_list m))) (JObject lv)
    /\ forall t, from_json t (JObject lv) ∅ = Some (dec <$> m : gmap string B).
Proof.
  intros Hm. unfold encode_map. rewrite sort_keys_map. set (l := sort_keys (map_to_list m)).
  assert (l ≡ₚ map_to_list m) as Hp by apply sort_keys_perm.
  assert (Forall (fun p => valid_utf8 p.1 /\ exists v, JText n (enc p.2) v /\ from_json (enc p.2) v go_zero = Some (dec p.2)) l) as Hl.
  { rewrite list.Forall_forall. intros [k a]. rewrite Hp, elem_of_map_to_list. apply Hm. }
  assert (exists lv, Forall2 (member_of n) (map (fun p => (p.1, enc p.2)) l) lv
    /\ Forall2 (fun p q => q.1 = p.1 /\ from_json q.2.1 q.2.2 go_zero = Some p.2) (map (fun p => (p.1, dec p.2)) l) lv) as (lv & H1 & H2).
  { clear Hp. induction Hl as [|[k a] l (Hk & v & HJ & Hv) _ (lv & H1 & H2)]; [by exists []|].
    exists ((k, (enc a, v)) :: lv). split; (constructor; [|done]); [split_and!; [by symmetry|done|done]|done]. }
  exists lv. split; [by apply JText_encode_object|]. intros t.
  assert (map_to_list (dec <$> m) ≡ₚ map (fun p => (p.1, dec p.2)) l) as Hp'.
  { rewrite map_to_list_fmap, Hp. change (prod_map id dec <$> map_to_list m) with (map (prod_map id dec) (map_to_list m)).
    by erewrite map_ext by by intros []. }
  rewrite (from_map_members _ _ t ∅ H2).
  - rewrite (right_id_L ∅ (∪)). f_equal. symmetry. by apply list_to_map_flip.
  - rewrite <- Hp'. apply NoDup_fst_map_to_list.
Qed.

Lemma mapM_raw (l : list (string * RawMessage)) l' :
  mapM (fun p => (fun b => (p.1, b)) <$> encode_raw p.2) l = Some l' ->
  l' = map (fun p => (p.1, raw_text (raw_sent p.2))) l /\ Forall (fun p => encode_raw p.2 = Some (raw_text (raw_sent p.2))) l.
Proof.
  intros Hl%mapM_Some. induction Hl as [|[k r] [k' b] l l' H _ [-> IH]]; [by split; [|constructor]|].
  apply fmap_Some in H as (b' & Hb & [= -> ->]). cbn [fst snd] in Hb.
  destruct (encode_raw_J r b' _ Hb (le_n _)) as [-> _]. split; [done|by constructor].
Qed.

(** A map of raw messages is read back with the texts compacted. *)
Lemma encode_raw_map_decode n m b :
  encode_raw_map m = Some b ->
  (forall k r, m !! k = Some r -> valid_utf8 k /\ (json_depth (raw_text r) <= n)%nat) ->
  exists lv, JText (S n) b (JObject lv) /\ forall t, from_json t (JObject lv) ∅ = Some (raw_sent <$> m : gmap string RawMessage).
Proof.
  unfold encode_raw_map. intros (l & [-> Hl]%mapM_raw & ->)%fmap_Some Hm.
  apply (encode_map_decode n (fun r => raw_text (raw_sent r)) raw_sent). intros k r Hk. destruct (Hm k r Hk) as [Hv Hd].
  split; [done|]. assert (encode_raw r = Some (raw_text (raw_sent r))) as He.
  { apply elem_of_map_to_list in Hk. rewrite list.Forall_forall in Hl. apply (Hl _ Hk). }
  destruct (encode_raw_J r _ n He Hd) as [_ [v HJ]]. exists v. split; [done|]. by destruct (raw_sent r).
Qed.

(** ** What was decoded is valid UTF-8 *)

Definition scalar (r : Z) : Prop := 0 <= r <= 1114111 /\ is_surrogate r = false.

Lemma wide_rune_eq t r r' : wide_rune t r -> r = r' -> wide_rune t r'.
Proof. by intros H <-. Qed.

Lemma wide_scalar r : 128 <= r -> scalar r -> wide_rune (encode_rune r) r.
Proof.
  intros H128 [Hr Hs]. pose proof Hs as Hs'. unfold is_surrogate in Hs'. apply andb_false_iff in Hs'. rewrite !Z.leb_gt in Hs'.
  destruct (Z_lt_ge_dec r 2048) as [H2|H2]; [|destruct (Z_lt_ge_dec r 65536) as [H3|H3]].
  - rewrite encode_rune_2 by lia. eapply wide_rune_eq; [apply wide_2|]; rewrite !byte_val_of, !Z.mod_small by (Z.to_euclidean_division_equations; lia).
    + rewrite !andb_true_iff, !Z.leb_le, cont_iff. Z.to_euclidean_division_equations; lia.
    + Z.to_euclidean_division_equations; lia.
  - rewrite encode_rune_3 by (done || lia). eapply wide_rune_eq; [apply wide_3|]; rewrite !byte_val_of, !(Z.mod_small _ 256) by (Z.to_euclidean_division_equations; lia).
    + rewrite !andb_true_iff, !Z.leb_le, !cont_iff. repeat case_match; rewrite ?Z.eqb_eq, ?Z.eqb_neq, ?Z.leb_le in *; Z.to_euclidean_division_equations; lia.
    + Z.to_euclidean_division_equations; lia.
  - rewrite encode_rune_4 by lia. eapply wide_rune_eq; [apply wide_4|]; rewrite !byte_val_of, !(Z.mod_small _ 256) by (Z.to_euclidean_division_equations; lia).
    + rewrite !andb_true_iff, !Z.leb_le, !cont_iff. repeat case_match; rewrite ?Z.eqb_eq, ?Z.eqb_neq, ?Z.leb_le in *; Z.to_euclidean_division_equations; lia.
    + Z.to_euclidean_division_equations; lia.
Qed.

Lemma wide_rune_scalar t r : wide_rune t r -> scalar r.
Proof.
  intros (He & Hr & Hs & Hd & a & t' & Ht & _). split; [|done]. split; [lia|].
  destruct (Z_le_gt_dec r 1114111) as [|Hgt]; [done|exfalso].
  assert (encode_rune r = encode_rune rune_error) as E.
  { unfold encode_rune. destruct (Z.leb_spec 0 r), (Z.ltb_spec r 128), (Z.leb_spec 128 r), (Z.ltb_spec r 2048),
      (Z.ltb_spec r 0), (Z.ltb_spec 1114111 r); try lia. reflexivity. }
  specialize (Hd []). rewrite <- He, E, app_nil_r in Hd. change (decode_rune (encode_rune rune_error)) with (rune_error, 3%nat) in Hd.
  assert (rune_error = r) as Hr' by congruence. unfold rune_error in Hr'. lia.
Qed.

Lemma encode_rune_ascii_val r : 0 <= r < 128 -> encode_rune r = [byte_of r].
Proof. intros H. unfold encode_rune. destruct (Z.leb_spec 0 r), (Z.ltb_spec r 128); try lia. done. Qed.

Lemma decode_scalar r z : scalar r -> decode_rune (encode_rune r ++ z) = (r, length (encode_rune r)) /\ encode_rune r <> [].
Proof.
  intros Hr. destruct (Z_lt_ge_dec r 128) as [Hlt|Hge].
  - destruct Hr as [Hr _]. rewrite encode_rune_ascii_val by lia. split; [|done]. cbn [app length].
    rewrite decode_ascii; rewrite byte_val_of, Z.mod_small by lia; [done|lia].
  - destruct (wide_scalar r ltac:(lia) Hr) as (_ & _ & _ & Hd & a & t' & E & _). split; [apply Hd|by rewrite E].
Qed.

Lemma runes_scalars rs f :
  Forall scalar rs -> (length (concat (map encode_rune rs)) <= f)%nat -> runes_fuel f (concat (map encode_rune rs)) = rs.
Proof.
  intros H. revert f. induction H as [|r rs Hr _ IH]; intros f Hf; [by destruct f|]. cbn [map concat] in *.
  destruct (decode_scalar r (concat (map encode_rune rs)) Hr) as [Hd Hne]. rewrite length_app in Hf.
  destruct (encode_rune r) as [|a t] eqn:E; [done|]. cbn [length] in Hf. destruct f as [|f]; [lia|]. cbn [app runes_fuel].
  change (a :: t ++ ?x) with ((a :: t) ++ x). rewrite Hd, drop_app_length. f_equal. apply IH. lia.
Qed.

Definition scalars (b : bytes) : Prop := exists rs, b = concat (map encode_rune rs) /\ Forall scalar rs.

Lemma scalars_cons r b : scalar r -> scalars b -> scalars (encode_rune r ++ b).
Proof. intros Hr (rs & -> & Hrs). exists (r :: rs). split; [done|by constructor]. Qed.

Lemma scalar_error : scalar rune_error.
Proof. split; [unfold rune_error; lia|done]. Qed.

Lemma scalars_ascii a b : byte_val a < 128 -> scalars b -> scalars (a :: b).
Proof.
  intros Ha Hb. change (a :: b) with ([a] ++ b). rewrite <- (encode_rune_ascii a Ha). pose proof (byte_val_range a).
  apply scalars_cons; [|done]. split; [lia|]. apply is_surrogate_false. lia.
Qed.

Lemma hex_val_bound a v : hex_val a = Some v -> 0 <= v <= 15.
Proof.
  intros H. pose proof (hex_val_range a v H) as Hr. unfold hex_val in H. cbv zeta in H.
  destruct (Z.leb_spec 48 (byte_val a)), (Z.leb_spec (byte_val a) 57), (Z.leb_spec 97 (byte_val a)), (Z.leb_spec (byte_val a) 102),
    (Z.leb_spec 65 (byte_val a)), (Z.leb_spec (byte_val a) 70); cbn [andb] in H; try lia; injection H as <-; lia.
Qed.

Lemma hex_text_range h r : hex_text h r -> 0 <= r < 65536.
Proof.
  intros [Hl Hh]. destruct h as [|a [|b [|c [|d [|? ?]]]]]; try discriminate Hl. cbn [hex4] in Hh.
  destruct (hex_val a) eqn:Ha, (hex_val b) eqn:Hb, (hex_val c) eqn:Hc, (hex_val d) eqn:Hd; try discriminate Hh.
  apply hex_val_bound in Ha, Hb, Hc, Hd. injection Hh as <-. lia.
Qed.

Lemma surrogate_pair_scalar r1 r2 r : surrogate_pair r1 r2 = Some r -> scalar r.
Proof.
  unfold surrogate_pair. destruct (_ && _ && _ && _) eqn:E; [|done]. intros [= <-].
  rewrite !andb_true_iff, !Z.leb_le in E. split; [lia|]. apply is_surrogate_false. lia.
Qed.

Lemma escape_char_value c e : escape_char c = Some e -> byte_val e < 128.
Proof.
  intros H. pose proof (escape_char_ascii c e H) as [Hc _]. revert H. unfold escape_char. cbv zeta.
  destruct (_ || _ || _); [by intros [= <-]|]. repeat (case_match; [by intros [= <-]|]). done.
Qed.

Lemma str_text_scalars s b : str_text s b -> scalars b.
Proof.
  induction 1 as [|a s b Ha _ IH|c e s b Hc He _ IH|h r s b Hh Hs _ IH|h1 r1 h2 r2 r s b Hh1 Hh2 Hs Hp _ IH
    |h r s b Hh Hs Hal _ IH|t r s b Hw _ IH|a s b Ha Hd _ IH].
  - by exists [].
  - apply scalars_ascii; [destruct Ha; lia|done].
  - apply scalars_ascii; [by eapply escape_char_value|done].
  - apply scalars_cons; [|done]. split; [|done]. apply hex_text_range in Hh. lia.
  - apply scalars_cons; [by eapply surrogate_pair_scalar|done].
  - apply scalars_cons; [apply scalar_error|done].
  - pose proof (wide_rune_scalar _ _ Hw). destruct Hw as (<- & _). by apply scalars_cons.
  - apply scalars_cons; [apply scalar_error|done].
Qed.

Lemma scalars_valid b : scalars b -> valid_utf8 (string_of_bytes b).
Proof.
  intros (rs & -> & Hrs). unfold valid_utf8, sanitize, runes. f_equal. rewrite <- bytes_of_string_length, bytes_of_string_of_bytes.
  by rewrite runes_scalars.
Qed.

Lemma str_token_valid k b : str_token k b -> valid_utf8 (string_of_bytes b).
Proof. intros (body & _ & Hs). by eapply scalars_valid, str_text_scalars. Qed.

(** ** The depth of a text of the grammar, and the members of an object *)

Lemma JText_depth_le :
  (forall n t v, JText n t v -> (jdepth v <= n)%nat)
  /\ (forall n s l, JElements n s l -> (fold_right (fun p d => Nat.max (jdepth p.2) d) O l <= n)%nat)
  /\ (forall n s l, JMembers n s l -> (fold_right (fun p d => Nat.max (jdepth p.2.2) d) O l <= n)%nat).
Proof. apply JText_mutual; intros; cbn [jdepth fold_right snd] in *; lia. Qed.

Lemma json_depth_text n t v : JText n t v -> (n <= max_nat)%nat -> (json_depth t <= n)%nat.
Proof.
  intros HJ Hn. unfold json_depth. pose proof (json_parse_complete n [] t v [] ws_nil ws_nil HJ Hn) as E.
  rewrite app_nil_r in E. cbn [app] in E. rewrite E. by eapply (proj1 JText_depth_le).
Qed.

Definition member_fits (n : nat) (q : string * (bytes * jvalue)) : Prop := valid_utf8 q.1 /\ JText n q.2.1 q.2.2.

Lemma JMembers_fit n s l : JMembers n s l -> Forall (member_fits n) l.
Proof.
  induction 1 as [n k b w w1 t v w2 Hk _ _ HJ _|n k b w w1 t v w2 w3 s l Hk _ _ HJ _ _ _ IH];
    (constructor; [|done || constructor]); (split; [by eapply str_token_valid|done]).
Qed.

Lemma JObject_members n t l : JText n t (JObject l) -> exists m, n = S m /\ Forall (member_fits m) l.
Proof. intros H. inversion H; subst; eexists; (split; [reflexivity|]); [constructor|by eapply JMembers_fit]. Qed.

(** What [Unmarshal] makes of an object, as a map of raw messages. *)
Lemma raw_map_lookup l old k r :
  fold_left (fun acc (p : string * (bytes * jvalue)) =>
    match acc, from_json p.2.1 p.2.2 go_zero with Some m, Some a => Some (<[p.1 := a]> m) | _, _ => None end) l (Some old)
  = Some r -> forall x, (r : gmap string RawMessage) !! k = Some x -> old !! k = Some x \/ exists q, In q l /\ q.1 = k /\ x = mkRaw q.2.1.
Proof.
  revert old. induction l as [|[k' [t v]] l IH]; intros old; cbn [fold_left fst snd]; [intros [= ->]; by left|].
  change (from_json t v (go_zero : RawMessage)) with (Some (mkRaw t)). intros H x Hx.
  destruct (IH _ H x Hx) as [Hi|(q & Hq & H1 & H2)]; [|right; exists q; split; [by right|done]].
  destruct (decide (k' = k)) as [->|Hne].
  - rewrite lookup_insert_eq in Hi. injection Hi as <-. right. exists (k, (t, v)). split; [by left|done].
  - rewrite lookup_insert_ne in Hi by done. by left.
Qed.

Lemma raw_map_total l old : exists r,
  fold_left (fun acc (p : string * (bytes * jvalue)) =>
    match acc, from_json p.2.1 p.2.2 go_zero with Some m, Some a => Some (<[p.1 := a]> m) | _, _ => None end) l (Some old)
  = Some (r : gmap string RawMessage).
Proof.
  revert old. induction l as [|[k' [t v]] l IH]; intros old; [by eexists|]. cbn [fold_left fst snd].
  change (from_json t v (go_zero : RawMessage)) with (Some (mkRaw t)). apply IH.
Qed.
