(* ===== verification/GoFloatText.v ===== *)
(** * Floats in JSON

    What encoding/json and [strconv.FormatFloat] print for a finite float64 is a number of
    the grammar, and a quotient of two integers of the size of an int64 is finite. The
    bounds on exponents here are loose: rounding moves an exponent by no more than the
    digits of the mantissa. *)

From Stdlib Require Import Ascii.
From S2P Require Import Prelude GoStrings GoFloat GoJson GoJsonText GoJsonEncode.

Local Open Scope Z_scope.

(** ** Digits *)

Definition unsigned (t : bytes) : Prop :=
  exists i f e, t = i ++ f ++ e /\ int_text i /\ frac_text f /\ exp_text e.

Lemma number_signed (neg : bool) s :
  unsigned (bytes_of_string s) -> number (bytes_of_string (if neg then "-" +:+ s else s)).
Proof.
  intros (i & f & e & Ht & Hi & Hf & He). destruct neg.
  - exists ["-"%char], i, f, e. rewrite bytes_of_string_app, Ht. split_and!; auto.
  - exists [], i, f, e. rewrite Ht. split_and!; auto.
Qed.

Lemma utoa_run d : 0 <= d -> digit_run (bytes_of_string (utoa d)).
Proof. intros Hd. pose proof (utoa_digits d Hd) as H. revert H. apply Forall_impl. intros x. apply digit_byte_Some. Qed.

Lemma utoa_nonempty d : bytes_of_string (utoa d) <> [].
Proof. intros H. apply (utoa_not_nil d). by rewrite <- (string_of_bytes_of_string (utoa d)), H. Qed.

Lemma zeros_run n : digit_run (bytes_of_string (zeros n)).
Proof. unfold zeros. rewrite bytes_of_string_of_bytes. induction (Z.to_nat n); by constructor. Qed.

Lemma utoa_lead d : 0 < d -> exists a r, bytes_of_string (utoa d) = a :: r /\ a <> "0"%char /\ is_digit_byte a = true /\ digit_run r.
Proof.
  intros Hd. destruct (utoa_int d ltac:(lia)) as [E|(a & r & E & H)]; [|by exists a, r].
  exfalso. pose proof (parse_uint_utoa d ltac:(lia)) as Hp.
  assert (utoa d = "0") as E' by (by apply bytes_of_string_inj). rewrite E' in Hp. change (parse_uint "0") with (Some 0) in Hp. injection Hp as Hp; lia.
Qed.

Lemma count_digits_length d : count_digits d = Z.of_nat (length (bytes_of_string (utoa d))).
Proof. unfold count_digits. by rewrite bytes_of_string_length. Qed.

Lemma int_only i : int_text i -> unsigned i.
Proof. intros Hi. exists i, [], []. rewrite !app_nil_r. split_and!; auto; by left. Qed.

Lemma int_frac i d : int_text i -> d <> [] -> digit_run d -> unsigned (i ++ "."%char :: d).
Proof.
  intros Hi Hne Hd. exists i, ("."%char :: d), []. rewrite app_nil_r. split_and!; [done|done|right; by exists d|by left].
Qed.

Lemma digit_run_app a b : digit_run a -> digit_run b -> digit_run (a ++ b).
Proof. apply Forall_app_2. Qed.

Lemma format_plain_unsigned d e : 0 <= d -> unsigned (bytes_of_string (format_plain d e)).
Proof.
  intros Hd. unfold format_plain. cbv zeta. destruct (Z.eqb_spec d 0) as [->|Hnz]; [apply int_only; by left|].
  destruct (utoa_lead d ltac:(lia)) as (a & r & E & Ha & Had & Hr). rewrite count_digits_length.
  assert (digit_run (a :: r)) as Hrun by (by constructor).
  destruct (Z.leb_spec 0 e).
  { rewrite bytes_of_string_app, E. apply int_only. right. exists a, (r ++ bytes_of_string (zeros e)).
    split_and!; [done..|]. apply digit_run_app; [done|apply zeros_run]. }
  rewrite E. destruct (Z.leb_spec (Z.of_nat (length (a :: r)) + e) 0) as [Hle|Hgt].
  - rewrite !bytes_of_string_app, E. change (bytes_of_string "0.") with (["0"%char] ++ ["."%char]). rewrite <- app_assoc.
    apply int_frac; [by left|by intros [_ H0]%app_eq_nil|]. apply digit_run_app; [apply zeros_run|done].
  - rewrite !bytes_of_string_app, !bytes_of_string_of_bytes.
    set (k := Z.to_nat (Z.of_nat (length (a :: r)) + e)). change (bytes_of_string ".") with ["."%char]. cbn [app].
    assert (0 < k < length (a :: r))%nat as Hk by (unfold k; lia). apply int_frac.
    + right. destruct k as [|k]; [lia|]. exists a, (take k r). split_and!; [done..|]. by apply Forall_take.
    + intros H0%(f_equal length). rewrite length_drop in H0. cbn [length] in *. lia.
    + by apply Forall_drop.
Qed.

Lemma format_exp_unsigned d e : 0 <= d -> unsigned (bytes_of_string (format_exp d e)).
Proof.
  intros Hd. unfold format_exp. cbv zeta. set (x := e + count_digits d - 1).
  assert (exists i r, bytes_of_string (utoa d) = i ++ r /\ take 1 (bytes_of_string (utoa d)) = i /\ drop 1 (bytes_of_string (utoa d)) = r
    /\ int_text i /\ digit_run r) as (i & r & _ & -> & -> & Hi & Hr).
  { pose proof (utoa_run d Hd) as Hrun. destruct (Z.eq_dec d 0) as [->|Hnz].
    - exists ["0"%char], []. split_and!; try done; [by left|constructor].
    - destruct (utoa_lead d ltac:(lia)) as (a & r & E & Ha & Had & Hr). rewrite E. exists [a], r.
      split_and!; try done. right. exists a, []. split_and!; try done. constructor. }
  assert (exists g ds, sign_text g /\ ds <> [] /\ digit_run ds
    /\ bytes_of_string (if x <? 0 then "-" +:+ utoa (- x) else "+" +:+ (if x <? 10 then "0" else EmptyString) +:+ utoa x) = g ++ ds)
    as (g & ds & Hg & Hne & Hds & Eg).
  { destruct (Z.ltb_spec x 0).
    - exists ["-"%char], (bytes_of_string (utoa (- x))). split_and!; [by right; right|apply utoa_nonempty|apply utoa_run; lia|].
      by rewrite bytes_of_string_app.
    - exists ["+"%char], (bytes_of_string ((if x <? 10 then "0" else EmptyString) +:+ utoa x)). rewrite !bytes_of_string_app.
      split_and!; [by right; left| | |done].
      + intros [_ H0]%app_eq_nil. by apply utoa_nonempty in H0.
      + apply digit_run_app; [destruct (x <? 10); by repeat constructor|by apply utoa_run]. }
  exists i, (match r with [] => [] | _ => "."%char :: r end), ("e"%char :: g ++ ds).
  rewrite !bytes_of_string_app, bytes_of_string_of_bytes, Eg. split_and!; [|done| |].
  - destruct r as [|a r]; [by rewrite <- app_assoc|]. rewrite bytes_of_string_app, bytes_of_string_of_bytes. by rewrite <- app_assoc.
  - destruct r as [|a r]; [by left|right]. by exists (a :: r).
  - right. exists "e"%char, g, ds. split_and!; auto.
Qed.

(** ** The shortest digits are not negative *)

Lemma scale_down_nonneg v p : 0 <= v.1 -> 0 < v.2 -> 0 <= (scale_down v p).1.
Proof.
  intros H1 H2. unfold scale_down. destruct (Z.leb_spec 0 p); cbn [fst].
  - apply Z.div_pos; [done|]. apply Z.mul_pos_pos; [done|]. apply Z.pow_pos_nonneg; lia.
  - apply Z.div_pos; [|done]. apply Z.mul_nonneg_nonneg; [done|]. apply Z.pow_nonneg. lia.
Qed.

Lemma shortest_digits_nonneg f x v k n : 0 <= v.1 -> 0 < v.2 -> 0 <= (shortest_digits f x v k n).1.
Proof.
  intros H1 H2. revert n. induction f as [|f IH]; intros n; cbn [shortest_digits];
    pose proof (scale_down_nonneg v (k - n) H1 H2) as Hq; destruct (scale_down v (k - n)) as [q c]; cbn [fst] in Hq; cbv zeta;
    pose proof (Z.mod_pos_bound q 2 ltac:(lia)) as Hm.
  - destruct c; cbn [fst]; lia.
  - destruct (reads_back _ _ _); [destruct c; cbn [fst]; lia|]. destruct (reads_back _ _ _); [|apply IH].
    cbn [fst]. destruct c; repeat case_match; lia.
Qed.

Lemma strip_zeros_nonneg f m e : 0 <= m -> 0 <= (strip_zeros f m e).1.
Proof.
  revert m e. induction f as [|f IH]; intros m e Hm; cbn [strip_zeros]; [done|]. case_match; [|done]. apply IH. by apply Z.div_pos.
Qed.

Lemma shortest_nonneg m e : 0 <= (shortest m e).1.
Proof.
  unfold shortest. assert (0 <= (frac_of m e).1 /\ 0 < (frac_of m e).2) as [H1 H2].
  { unfold frac_of. destruct (Z.leb_spec 0 e); cbn [fst snd].
    - split; [|done]. apply Z.mul_nonneg_nonneg; [done|]. by apply Z.pow_nonneg.
    - split; [done|]. apply Z.pow_pos_nonneg; lia. }
  pose proof (shortest_digits_nonneg 17 (S754_finite false m e) (frac_of m e) (decimal_exp m e) 1 H1 H2) as H.
  destruct (shortest_digits _ _ _ _ _) as [d p]. by apply strip_zeros_nonneg.
Qed.

(** ** What is printed is a number *)

Definition is_finite (x : float64) : bool := match x with S754_zero _ | S754_finite _ _ _ => true | _ => false end.

Lemma number_digits_only s : int_text (bytes_of_string s) -> number (bytes_of_string s).
Proof. intros H. apply (number_signed false), int_only, H. Qed.

Lemma FormatFloat_f_number x : is_finite x = true -> number (bytes_of_string (FormatFloat_f x)).
Proof.
  destruct x as [s|s| |s m e]; try done; intros _.
  - apply (number_signed s "0"), int_only. by left.
  - cbn [FormatFloat_f]. pose proof (shortest_nonneg m e) as Hd. destruct (shortest m e) as [d p].
    apply number_signed, format_plain_unsigned, Hd.
Qed.

Lemma encode_float_finite x : is_finite x = true -> exists b, encode_float x = Some b /\ number b.
Proof.
  unfold encode_float. destruct x as [s|s| |s m e]; try done; intros _.
  - eexists. split; [reflexivity|]. apply (number_signed s "0"), int_only. by left.
  - cbn [f64_json]. pose proof (shortest_nonneg m e) as Hd. destruct (shortest m e) as [d p]. cbn [fst] in Hd.
    eexists. split; [reflexivity|]. apply number_signed. case_match; [by apply format_exp_unsigned|by apply format_plain_unsigned].
Qed.

Lemma encode_float_number x b : encode_float x = Some b -> number b.
Proof.
  intros H. assert (is_finite x = true) as Hf by (by destruct x). destruct (encode_float_finite x Hf) as (b' & Hb & Hn). congruence.
Qed.

(** ** Finite quotients *)

Lemma iter_pos_inv {A} (f : A -> A) (P : A -> Prop) n x : (forall y, P y -> P (f y)) -> P x -> P (iter_pos f n x).
Proof. intros Hf. revert x. induction n as [n IH|n IH|]; intros x Hx; cbn [iter_pos]; auto. Qed.

(** A shift to the right keeps a mantissa between 0 and its bound. *)
Lemma shr_1_bound b mrs : 0 <= shr_m mrs <= b -> 0 <= shr_m (shr_1 mrs) <= b.
Proof. destruct mrs as [m r s]. cbn [shr_m]. destruct m as [|p|p]; [done| |lia]. destruct p; cbn; lia. Qed.

Lemma shr_bound b mrs e n : 0 <= shr_m mrs <= b -> 0 <= shr_m (shr mrs e n).1 <= b /\ (shr mrs e n).2 = e + Z.max 0 n.
Proof.
  intros H. unfold shr. destruct n as [|p|p]; cbn [fst snd]; (split; [|lia]); try done.
  apply (iter_pos_inv shr_1 (fun x => 0 <= shr_m x <= b)); [|done]. intros y. apply shr_1_bound.
Qed.

Lemma shr_record_m m l : shr_m (shr_record_of_loc m l) = m.
Proof. by destruct l as [|[]]. Qed.

Lemma digits2_log2 m : 0 <= m -> Zdigits2 m <= Z.log2 m + 1.
Proof.
  destruct m as [|p|p]; [done| |lia]. intros _. cbn [Zdigits2].
  assert (Z.pos (digits2_pos p) = Z.log2 (Z.pos p) + 1) as ->; [|lia].
  induction p as [p IH|p IH|]; cbn [digits2_pos]; [| |done]; rewrite Pos2Z.inj_succ, IH.
  - rewrite (Pos2Z.inj_xI p), Z.log2_succ_double by lia. lia.
  - rewrite (Pos2Z.inj_xO p), Z.log2_double by lia. lia.
Qed.

(** A float with bounds on its mantissa and exponent. *)
Definition fbound (D E : Z) (x : float64) : Prop :=
  match x with S754_zero _ => True | S754_finite _ m e => Z.pos m < 2 ^ D /\ e <= E | _ => False end.

Lemma fbound_finite D E x : fbound D E x -> is_finite x = true.
Proof. by destruct x. Qed.

Lemma digits2_bound m D : 0 <= m < 2 ^ D -> 0 <= D -> Zdigits2 m <= D.
Proof.
  intros [H0 H1] HD. destruct (Z.eq_dec m 0) as [->|Hnz]; [done|].
  pose proof (digits2_log2 m H0). assert (Z.log2 m < D) by (apply Z.log2_lt_pow2; lia). lia.
Qed.

Lemma shr_fexp_bound m e l D : 0 <= m < 2 ^ D -> 0 <= D ->
  let r := shr_fexp f64_prec f64_emax m e l in
  0 <= shr_m r.1 < 2 ^ D /\ r.2 <= Z.max (-1074) (e + D).
Proof.
  intros Hm HD. cbv zeta. unfold shr_fexp. pose proof (digits2_bound m D Hm HD) as Hd.
  destruct (shr_bound m (shr_record_of_loc m l) e (fexp f64_prec f64_emax (Zdigits2 m + e) - e)) as [H1 H2];
    [rewrite shr_record_m; lia|].
  split; [lia|]. rewrite H2. unfold fexp, emin, f64_prec, f64_emax. lia.
Qed.

Lemma round_even_bound m l b : 0 <= m < b -> 0 <= round_nearest_even m l <= b.
Proof. intros H. unfold round_nearest_even. destruct l as [|[]]; repeat case_match; lia. Qed.

(** Rounding a number that is not too large yields a finite float. *)
Lemma round_bound s m e l D E :
  0 <= m < 2 ^ D -> 0 <= D -> e <= E -> -1000 <= E -> E + 2 * D < 971 ->
  fbound (D + 1) (E + 2 * D + 1) (binary_round_aux f64_prec f64_emax s m e l).
Proof.
  intros Hm HD He HE Hlim. unfold binary_round_aux.
  destruct (shr_fexp_bound m e l D Hm HD) as [H1 H2]. destruct (shr_fexp _ _ m e l) as [r1 e1]. cbn [fst snd] in *.
  pose proof (round_even_bound (shr_m r1) (loc_of_shr_record r1) _ H1) as Hr.
  assert (0 <= round_nearest_even (shr_m r1) (loc_of_shr_record r1) < 2 ^ (D + 1)) as Hm2.
  { rewrite Z.pow_add_r by lia. lia. }
  destruct (shr_fexp_bound _ e1 loc_Exact (D + 1) Hm2 ltac:(lia)) as [H3 H4].
  destruct (shr_fexp _ _ _ e1 loc_Exact) as [r2 e2]. cbn [fst snd] in *.
  destruct (shr_m r2) as [|p|p]; [done| |lia]. change (f64_emax - f64_prec) with 971.
  destruct (Z.leb_spec e2 971); [|lia]. cbn. lia.
Qed.

Lemma iter_xO m d : Z.pos (Pos.iter xO m d) = Z.pos m * 2 ^ Z.pos d.
Proof.
  induction d as [|d IH] using Pos.peano_ind; [cbn; lia|].
  rewrite Pos.iter_succ, Pos2Z.inj_succ, Z.pow_succ_r by lia. rewrite Pos2Z.inj_xO, IH. lia.
Qed.

Lemma shifted_bound a k D K : 0 <= a < 2 ^ D -> 0 <= D -> 0 <= k <= K -> 0 <= a * 2 ^ k < 2 ^ (D + K).
Proof.
  intros Ha HD Hk. assert (0 < 2 ^ k <= 2 ^ K) by (split; [apply Z.pow_pos_nonneg|apply Z.pow_le_mono_r]; lia).
  rewrite Z.pow_add_r by lia. nia.
Qed.

Lemma binary_round_bound s m D : Z.pos m < 2 ^ D -> 0 <= D <= 400 ->
  fbound (D + 54) (2 * D + 107) (binary_round f64_prec f64_emax s m 0).
Proof.
  intros Hm HD. unfold binary_round, shl_align.
  assert (fexp f64_prec f64_emax (Z.pos (digits2_pos m) + 0) >= -53) as Hf by (unfold fexp, emin, f64_prec, f64_emax; lia).
  destruct (fexp _ _ _ - 0) as [|p|p] eqn:Ed.
  1-2: pose proof (round_bound s (Z.pos m) 0 loc_Exact (D + 53) 0) as H;
    rewrite Z.pow_add_r in H by lia; replace (D + 54) with (D + 53 + 1) by lia; replace (2 * D + 107) with (0 + 2 * (D + 53) + 1) by lia;
    apply H; lia.
  pose proof (round_bound s (Z.pos (Pos.iter xO m p)) (fexp f64_prec f64_emax (Z.pos (digits2_pos m) + 0)) loc_Exact (D + 53) 0) as H.
  replace (D + 54) with (D + 53 + 1) by lia. replace (2 * D + 107) with (0 + 2 * (D + 53) + 1) by lia. apply H; try lia.
  rewrite iter_xO. apply shifted_bound; lia.
Qed.

Lemma f64_of_Z_bound n D : Z.abs n < 2 ^ D -> 0 <= D <= 400 -> fbound (D + 54) (2 * D + 107) (f64_of_Z n).
Proof. intros Hn HD. unfold f64_of_Z, binary_normalize. destruct n as [|p|p]; [done|..]; by apply binary_round_bound. Qed.

(** A quotient: the dividend is shifted left by at most the digits of the divisor and 53. *)
Lemma f64_div_bound s m e D E d m2 e2 :
  Z.pos m < 2 ^ D -> e <= E -> Zdigits2 (Z.pos m2) = d -> 0 <= D -> 0 <= d -> -1000 <= E - e2 ->
  E - e2 + 2 * (D + d + 53) < 971 ->
  is_finite (f64_div (S754_finite s m e) (S754_finite false m2 e2)) = true.
Proof.
  intros Hm He Hd HD Hd0 HE Hlim. unfold f64_div, SFdiv. unfold SFdiv_core_binary. rewrite Hd.
  set (e' := Z.min _ _). assert (e' <= e - e2) as He' by lia.
  assert (e - e2 - e' <= d + 53) as Hs.
  { unfold e', fexp, emin, f64_prec, f64_emax. assert (1 <= Zdigits2 (Z.pos m)) by (cbn; lia). lia. }
  set (k := e - e2 - e') in *. assert (0 <= k) by lia.
  set (m' := match k with Z0 => _ | Z.pos _ => _ | Z.neg _ => _ end).
  assert (0 <= m' < 2 ^ (D + d + 53)) as Hm'.
  { assert (m' = Z.pos m * 2 ^ k) as ->.
    { unfold m'. destruct k as [|p|p]; [lia|by rewrite Z.shiftl_mul_pow2|lia]. }
    rewrite <- Z.add_assoc. apply shifted_bound; lia. }
  pose proof (Z_div_mod m' (Z.pos m2) ltac:(lia)) as Hq. destruct (Z.div_eucl m' (Z.pos m2)) as [q r]. destruct Hq as [Hq Hr].
  apply (fbound_finite (D + d + 53 + 1) (E - e2 + 2 * (D + d + 53) + 1)). apply round_bound; try lia. nia.
Qed.

(** The seconds of an int64 count of nanoseconds. *)
Lemma seconds_finite n : Z.abs n <= 2 ^ 63 -> is_finite (f64_div (f64_of_Z n) (f64_of_Z 1000000000)) = true.
Proof.
  intros Hn. assert (f64_of_Z 1000000000 = S754_finite false 8388608000000000 (-23)) as -> by (vm_compute; reflexivity).
  pose proof (f64_of_Z_bound n 64 ltac:(lia) ltac:(lia)) as Hb. destruct (f64_of_Z n) as [b|b| |b m e]; try done.
  destruct Hb as [Hm He]. eapply (f64_div_bound b m e _ _ 53 8388608000000000 (-23) Hm He); [reflexivity|lia..].
Qed.
