(* ===== verification/GoFloatExact.v ===== *)
(** * Whole numbers as floats

    Below two to the 53rd a [float64] holds a whole number exactly: the conversion rounds
    nothing, and neither does the sum of two such numbers. What counts in floats counts
    right up to there. *)

From Stdlib Require Import Ascii.
From S2P Require Import Prelude GoFloat.

Local Open Scope Z_scope.

Definition float_limit : Z := 2 ^ 53.

(** The float with the value of a whole number: 53 bits, the first of which is one. *)
Definition float_of_nat (n : Z) : float64 :=
  if n =? 0 then f64_zero else S754_finite false (Z.to_pos (n * 2 ^ (52 - Z.log2 n))) (Z.log2 n - 52).

(** ** Digits and shifts *)

Lemma digits_log2 p : Zdigits2 (Z.pos p) = Z.log2 (Z.pos p) + 1.
Proof.
  induction p as [p IH|p IH|]; [| |done]; cbn [Zdigits2 digits2_pos] in *; rewrite Pos2Z.inj_succ, IH.
  - rewrite (Pos2Z.inj_xI p), Z.log2_succ_double by lia. lia.
  - rewrite (Pos2Z.inj_xO p), Z.log2_double by lia. lia.
Qed.

Lemma digits_of m : 0 < m -> Zdigits2 m = Z.log2 m + 1.
Proof. destruct m as [|p|p]; try lia. intros _. apply digits_log2. Qed.

Lemma shr_1_even m : 0 < m -> shr_1 (Build_shr_record (2 * m) false false) = Build_shr_record m false false.
Proof. by destruct m. Qed.

Lemma iter_shr_exact p m : 0 < m ->
  iter_pos shr_1 p (Build_shr_record (m * 2 ^ Z.pos p) false false) = Build_shr_record m false false.
Proof.
  revert m. induction p as [p IH|p IH|]; intros m Hm; cbn [iter_pos].
  - replace (m * 2 ^ Z.pos p~1) with (2 * (m * 2 ^ Z.pos p * 2 ^ Z.pos p)).
    + rewrite shr_1_even by lia. rewrite IH by lia. by apply IH.
    + rewrite (Pos2Z.inj_xI p). replace (2 * Z.pos p + 1) with (Z.pos p + Z.pos p + 1) by lia.
      rewrite !Z.pow_add_r by lia. lia.
  - replace (m * 2 ^ Z.pos p~0) with (m * 2 ^ Z.pos p * 2 ^ Z.pos p).
    + rewrite IH by lia. by apply IH.
    + rewrite (Pos2Z.inj_xO p). replace (2 * Z.pos p) with (Z.pos p + Z.pos p) by lia.
      rewrite !Z.pow_add_r by lia. lia.
  - replace (m * 2 ^ 1) with (2 * m) by lia. by apply shr_1_even.
Qed.

Lemma shr_exact m e j : 0 < m -> 0 <= j ->
  shr (Build_shr_record (m * 2 ^ j) false false) e j = (Build_shr_record m false false, e + j).
Proof.
  intros Hm Hj. destruct j as [|p|p]; [|cbn [shr]; by rewrite iter_shr_exact|lia].
  cbn [shr]. by rewrite Z.mul_1_r, Z.add_0_r.
Qed.

(** ** Rounding what needs none *)

(** Bits that are zero are dropped without loss. *)
Lemma round_aux_exact m e j :
  2 ^ 52 <= m < 2 ^ 53 -> 0 <= j -> -1074 <= e <= 971 ->
  binary_round_aux f64_prec f64_emax false (m * 2 ^ j) (e - j) loc_Exact = S754_finite false (Z.to_pos m) e.
Proof.
  intros Hm Hj He. assert (Hl : Z.log2 m = 52) by (apply Z.log2_unique; lia).
  assert (H0 : 0 < m * 2 ^ j) by (apply Z.mul_pos_pos; [lia|apply Z.pow_pos_nonneg; lia]).
  unfold binary_round_aux, shr_fexp. cbn [shr_record_of_loc].
  rewrite (digits_of (m * 2 ^ j)) by done. rewrite Z.log2_mul_pow2, Hl by lia.
  replace (fexp f64_prec f64_emax (j + 52 + 1 + (e - j)) - (e - j)) with j
    by (unfold fexp, emin, f64_prec, f64_emax; lia).
  rewrite shr_exact by lia. cbn [shr_m loc_of_shr_record round_nearest_even].
  rewrite (digits_of m), Hl by lia. replace (e - j + j) with e by lia.
  replace (fexp f64_prec f64_emax (52 + 1 + e) - e) with 0 by (unfold fexp, emin, f64_prec, f64_emax; lia).
  cbn [shr shr_m]. destruct m as [|p|p]; try lia. change (f64_emax - f64_prec) with 971.
  destruct (Z.leb_spec e 971); [done|lia].
Qed.

Lemma iter_xO_pow m d : Z.pos (Pos.iter xO m d) = Z.pos m * 2 ^ Z.pos d.
Proof.
  induction d as [|d IH] using Pos.peano_ind; [cbn; lia|].
  rewrite Pos.iter_succ, Pos2Z.inj_succ, Z.pow_succ_r by lia. rewrite Pos2Z.inj_xO, IH. lia.
Qed.

Lemma log2_limit n : 0 < n < float_limit -> 0 <= Z.log2 n <= 52.
Proof.
  intros Hn. split; [apply Z.log2_nonneg|]. assert (Z.log2 n < 53); [|lia].
  apply Z.log2_lt_pow2; [lia|]. exact (proj2 Hn).
Qed.

(** The 53 bits of a whole number. *)
Lemma mantissa_range n : 0 < n < float_limit -> 2 ^ 52 <= n * 2 ^ (52 - Z.log2 n) < 2 ^ 53.
Proof.
  intros Hn. pose proof (log2_limit n Hn) as Hl. pose proof (Z.log2_spec n (proj1 Hn)) as [H1 H2].
  replace (2 ^ 52) with (2 ^ Z.log2 n * 2 ^ (52 - Z.log2 n)) by (rewrite <- Z.pow_add_r by lia; f_equal; lia).
  replace (2 ^ 53) with (2 ^ Z.succ (Z.log2 n) * 2 ^ (52 - Z.log2 n)) by (rewrite <- Z.pow_add_r by lia; f_equal; lia).
  assert (0 < 2 ^ (52 - Z.log2 n)) by (apply Z.pow_pos_nonneg; lia). nia.
Qed.

(** A whole number written with [k] more bits below it. *)
Lemma normalize_exact n k :
  0 < n < float_limit -> 0 <= k <= 900 ->
  binary_normalize f64_prec f64_emax (n * 2 ^ k) (- k) false = float_of_nat n.
Proof.
  intros Hn Hk. pose proof (log2_limit n Hn) as Hl. pose proof (mantissa_range n Hn) as Hr.
  assert (H0 : 0 < n * 2 ^ k) by (apply Z.mul_pos_pos; [lia|apply Z.pow_pos_nonneg; lia]).
  assert (Hd : Zdigits2 (n * 2 ^ k) = Z.log2 n + k + 1) by (rewrite digits_of, Z.log2_mul_pow2 by lia; lia).
  unfold float_of_nat. destruct (Z.eqb_spec n 0); [lia|].
  unfold binary_normalize. destruct (n * 2 ^ k) as [|m|m] eqn:Em; try lia.
  unfold binary_round, shl_align. cbn [Zdigits2] in Hd. rewrite Hd.
  replace (fexp f64_prec f64_emax (Z.log2 n + k + 1 + - k)) with (Z.log2 n - 52)
    by (unfold fexp, emin, f64_prec, f64_emax; lia).
  destruct (Z.log2 n - 52 - - k) as [|j|j] eqn:Ej.
  - replace (Z.pos m) with (n * 2 ^ (52 - Z.log2 n) * 2 ^ 0) by (rewrite Z.mul_1_r, <- Em; do 2 f_equal; lia).
    replace (- k) with (Z.log2 n - 52 - 0) by lia. apply round_aux_exact; lia.
  - replace (Z.pos m) with (n * 2 ^ (52 - Z.log2 n) * 2 ^ Z.pos j).
    2: { rewrite <- Em, <- Z.mul_assoc, <- Z.pow_add_r by lia. do 2 f_equal. lia. }
    replace (- k) with (Z.log2 n - 52 - Z.pos j) by lia. apply round_aux_exact; lia.
  - rewrite iter_xO_pow, <- Em. replace (n * 2 ^ k * 2 ^ Z.pos j) with (n * 2 ^ (52 - Z.log2 n) * 2 ^ 0).
    2: { rewrite Z.mul_1_r, <- Z.mul_assoc, <- Z.pow_add_r by lia. do 2 f_equal. lia. }
    replace (Z.log2 n - 52) with (Z.log2 n - 52 - 0) at 1 by lia. apply round_aux_exact; lia.
Qed.

Lemma f64_of_Z_exact n : 0 <= n < float_limit -> f64_of_Z n = float_of_nat n.
Proof.
  intros Hn. destruct (Z.eq_dec n 0) as [->|Hz]; [done|]. unfold f64_of_Z.
  rewrite <- (normalize_exact n 0) by lia. by rewrite Z.mul_1_r.
Qed.

(** The mantissa of a whole number, moved to a smaller exponent. *)
Lemma aligned n k :
  0 < n < float_limit -> 52 - Z.log2 n <= k ->
  Z.pos (shl_align (Z.to_pos (n * 2 ^ (52 - Z.log2 n))) (Z.log2 n - 52) (- k)).1 = n * 2 ^ k.
Proof.
  intros Hn Hk. pose proof (mantissa_range n Hn) as Hr. pose proof (log2_limit n Hn) as Hl. unfold shl_align.
  destruct (- k - (Z.log2 n - 52)) as [|j|j] eqn:Ej; cbn [fst].
  - rewrite Z2Pos.id by lia. do 2 f_equal. lia.
  - lia.
  - rewrite iter_xO_pow, Z2Pos.id by lia. rewrite <- Z.mul_assoc, <- Z.pow_add_r by lia. do 2 f_equal. lia.
Qed.

(** Sums of whole numbers are whole numbers. *)
Lemma f64_add_exact a b :
  0 <= a -> 0 <= b -> a + b < float_limit -> f64_add (f64_of_Z a) (f64_of_Z b) = f64_of_Z (a + b).
Proof.
  intros Ha Hb Hab. rewrite !f64_of_Z_exact by lia.
  destruct (Z.eq_dec a 0) as [->|Ha0].
  { rewrite Z.add_0_l. unfold float_of_nat. cbn. by destruct (b =? 0). }
  destruct (Z.eq_dec b 0) as [->|Hb0].
  { rewrite Z.add_0_r. unfold float_of_nat. cbn. by destruct (a =? 0). }
  pose proof (log2_limit a ltac:(lia)) as Hla. pose proof (log2_limit b ltac:(lia)) as Hlb.
  set (k := 52 - Z.min (Z.log2 a) (Z.log2 b)).
  rewrite <- (normalize_exact (a + b) k) by (unfold k; lia).
  unfold float_of_nat. destruct (Z.eqb_spec a 0); [lia|]. destruct (Z.eqb_spec b 0); [lia|].
  unfold f64_add, SFadd. replace (Z.min (Z.log2 a - 52) (Z.log2 b - 52)) with (- k) by (unfold k; lia).
  cbn [cond_Zopp]. rewrite !aligned by (unfold k; lia). by rewrite Z.mul_add_distr_r.
Qed.

(** Products of whole numbers are whole numbers. *)
Lemma f64_mul_exact a b :
  0 <= a < float_limit -> 0 <= b < float_limit -> a * b < float_limit ->
  f64_mul (f64_of_Z a) (f64_of_Z b) = f64_of_Z (a * b).
Proof.
  intros Ha Hb Hab. rewrite !f64_of_Z_exact by nia. unfold float_of_nat.
  destruct (Z.eqb_spec a 0) as [->|Ha0].
  { cbn. by destruct (b =? 0). }
  destruct (Z.eqb_spec b 0) as [->|Hb0].
  { rewrite Z.mul_0_r. done. }
  destruct (Z.eqb_spec (a * b) 0); [nia|].
  pose proof (log2_limit a ltac:(lia)) as Hla. pose proof (log2_limit b ltac:(lia)) as Hlb.
  pose proof (log2_limit (a * b) ltac:(nia)) as Hlab. pose proof (mantissa_range (a * b) ltac:(nia)) as Hr.
  pose proof (Z.log2_mul_below a b ltac:(lia) ltac:(lia)) as Hlow.
  pose proof (mantissa_range a ltac:(lia)) as Hra. pose proof (mantissa_range b ltac:(lia)) as Hrb.
  unfold f64_mul, SFmul. rewrite Pos2Z.inj_mul, !Z2Pos.id by lia. cbn [xorb].
  set (j := 52 - Z.log2 a - Z.log2 b + Z.log2 (a * b)).
  replace (a * 2 ^ (52 - Z.log2 a) * (b * 2 ^ (52 - Z.log2 b))) with (a * b * 2 ^ (52 - Z.log2 (a * b)) * 2 ^ j).
  - replace (Z.log2 a - 52 + (Z.log2 b - 52)) with (Z.log2 (a * b) - 52 - j) by (unfold j; lia).
    apply round_aux_exact; unfold j; lia.
  - replace (a * 2 ^ (52 - Z.log2 a) * (b * 2 ^ (52 - Z.log2 b))) with (a * b * (2 ^ (52 - Z.log2 a) * 2 ^ (52 - Z.log2 b))) by lia.
    rewrite <- Z.mul_assoc, <- !Z.pow_add_r by (unfold j; lia). do 2 f_equal. unfold j. lia.
Qed.

(** [int64] of a whole number is the number. *)
Lemma f64_trunc_exact n : 0 <= n < float_limit -> f64_trunc (f64_of_Z n) = n.
Proof.
  intros Hn. rewrite f64_of_Z_exact by done. unfold float_of_nat. destruct (Z.eqb_spec n 0) as [->|Hz]; [done|].
  pose proof (log2_limit n ltac:(lia)) as Hl. pose proof (mantissa_range n ltac:(lia)) as Hr.
  unfold f64_trunc. rewrite Z2Pos.id by lia.
  assert ((if 0 <=? Z.log2 n - 52 then n * 2 ^ (52 - Z.log2 n) * 2 ^ (Z.log2 n - 52)
           else n * 2 ^ (52 - Z.log2 n) / 2 ^ (- (Z.log2 n - 52))) = n) as ->.
  - destruct (Z.leb_spec 0 (Z.log2 n - 52)) as [H|H].
    + replace (Z.log2 n) with 52 by lia. cbn. lia.
    + replace (- (Z.log2 n - 52)) with (52 - Z.log2 n) by lia. apply Z.div_mul. apply Z.pow_nonzero; lia.
  - unfold float_limit, min_int64, max_int64 in *. rewrite (proj2 (Z.leb_le _ _)), (proj2 (Z.leb_le _ _)) by lia. done.
Qed.
