(* ===== verification/GoRfc3339.v ===== *)
(** * RFC 3339 timestamps

    [time.Parse] with the RFC 3339 layouts, printing with [time.RFC3339Nano], and
    [time.Time]'s JSON decoding and encoding; what is printed is read back. Go accepts a
    little more than the RFC: a one-digit hour, a comma before the fraction, offsets up to
    24:60; digits of the fraction beyond the ninth are ignored. *)

From Stdlib Require Import Ascii.
From S2P Require Import Prelude GoStrings GoTime GoJson.

Local Open Scope Z_scope.

(** Days since 1970-01-01 of a date of the proleptic Gregorian calendar. *)
Definition days_of_civil (y m d : Z) : Z :=
  let y' := if m <=? 2 then y - 1 else y in
  let era := y' / 400 in
  let yoe := y' - era * 400 in
  let mp := (m + 9) mod 12 in
  let doy := (153 * mp + 2) / 5 + d - 1 in
  let doe := yoe * 365 + yoe / 4 - yoe / 100 + doy in
  era * 146097 + doe - 719468.

Definition is_leap (y : Z) : bool :=
  (y mod 4 =? 0) && (negb (y mod 100 =? 0) || (y mod 400 =? 0)).

Definition days_in (m y : Z) : Z :=
  if m =? 2 then (if is_leap y then 29 else 28)
  else if (m =? 4) || (m =? 6) || (m =? 9) || (m =? 11) then 30 else 31.

(** [n] digits. *)
Fixpoint digits_n (n : nat) (s : bytes) (acc : Z) : option (Z * bytes) :=
  match n with
  | O => Some (acc, s)
  | S n => match s with
           | a :: s' => match digit_val a with
                        | Some d => digits_n n s' (10 * acc + d)
                        | None => None
                        end
           | [] => None
           end
  end.

(** [getnum] without the fixed-width flag: one or two digits. *)
Definition getnum (s : bytes) : option (Z * bytes) :=
  match digits_n 2 s 0 with
  | Some r => Some r
  | None => digits_n 1 s 0
  end.

Definition in_range (lo hi z : Z) : bool := (lo <=? z) && (z <=? hi).

(** Up to nine digits, scaled to nanoseconds. *)
Definition nanos_of (ds : bytes) : Z :=
  let ds := take 9 ds in
  match parse_digits (string_of_bytes ds) 0 with
  | Some v => v * 10 ^ (9 - Z.of_nat (length ds))
  | None => 0
  end.

Definition parse_fraction (s : bytes) : Z * bytes :=
  match s with
  | a :: s' =>
      if Ascii.eqb a "." || Ascii.eqb a "," then
        match span_digits s' with
        | ([], _) => (0, s)
        | (ds, r) => (nanos_of ds, r)
        end
      else (0, s)
  | [] => (0, s)
  end.

(** The offset in seconds east of UTC; nothing may follow it. *)
Definition parse_zone (s : bytes) : option Z :=
  match s with
  | a :: s' =>
      if Ascii.eqb a "Z" then match s' with [] => Some 0 | _ => None end
      else if Ascii.eqb a "+" || Ascii.eqb a "-" then
        match digits_n 2 s' 0 with
        | Some (hh, r) =>
            match ch ":" r with
            | Some r =>
                match digits_n 2 r 0 with
                | Some (mm, []) =>
                    if (hh <=? 24) && (mm <=? 60) then
                      let o := (hh * 60 + mm) * 60 in
                      Some (if Ascii.eqb a "-" then - o else o)
                    else None
                | _ => None
                end
            | None => None
            end
        | None => None
        end
      else None
  | [] => None
  end.

Definition parse_date (s : bytes) : option (Z * Z * Z * bytes) :=
  match digits_n 4 s 0 with
  | None => None
  | Some (y, s) =>
      match ch "-" s ≫= fun s => digits_n 2 s 0 with
      | None => None
      | Some (m, s) =>
          match ch "-" s ≫= fun s => digits_n 2 s 0 with
          | None => None
          | Some (d, s) =>
              if in_range 1 12 m && in_range 1 (days_in m y) d then Some (y, m, d, s) else None
          end
      end
  end.

Definition parse_clock (s : bytes) : option (Z * bytes) :=
  match getnum s with
  | None => None
  | Some (h, s) =>
      match ch ":" s ≫= fun s => digits_n 2 s 0 with
      | None => None
      | Some (mi, s) =>
          match ch ":" s ≫= fun s => digits_n 2 s 0 with
          | None => None
          | Some (se, s) =>
              if in_range 0 23 h && in_range 0 59 mi && in_range 0 59 se
              then Some (h * 3600 + mi * 60 + se, s) else None
          end
      end
  end.

(** [time.Parse(time.RFC3339, s)]; with [time.RFC3339Nano] the outcome is the same. *)
Definition ParseRFC3339 (s : bytes) : option Time :=
  match parse_date s with
  | None => None
  | Some (y, m, d, s) =>
      match ch "T" s ≫= parse_clock with
      | None => None
      | Some (secs, s) =>
          let '(ns, s) := parse_fraction s in
          match parse_zone s with
          | None => None
          | Some o => Some ((days_of_civil y m d * 86400 + secs - o) * Second + ns)
          end
      end
  end.

(** [time.Time.UnmarshalJSON] looks at the text between the quotes as it stands. *)
Record JSONTime := mkJSONTime { json_time : Time }.
#[export] Instance zero_time : GoZero JSONTime := mkJSONTime zeroTime.
#[export] Instance from_time : FromJSON JSONTime := fun t v old =>
  match v with
  | JNull => Some old
  | JString _ => mkJSONTime <$> ParseRFC3339 (take (length t - 2) (drop 1 t))
  | _ => None
  end.

Example ParseRFC3339_examples :
  map (fun s => ParseRFC3339 (bytes_of_string s))
    ["1970-01-01T00:00:00Z"; "2026-04-01T00:00:00Z"; "2026-04-01T02:30:00.5+02:30";
     "0001-01-01T00:00:00Z"; "2024-02-29T12:00:00Z"; "2023-02-29T12:00:00Z"; "2026-04-01 00:00:00Z"]
  = [Some 0; Some 1775001600000000000; Some 1775001600500000000; Some zeroTime;
     Some 1709208000000000000; None; None].
Proof. vm_compute. reflexivity. Qed.

(** ** Dates of a day number, the inverse of [days_of_civil] *)

Definition civil_of_days (n : Z) : Z * Z * Z :=
  let z := n + 719468 in
  let era := z / 146097 in
  let doe := z - era * 146097 in
  let yoe := (doe - doe / 1460 + doe / 36524 - doe / 146096) / 365 in
  let doy := doe - (365 * yoe + yoe / 4 - yoe / 100) in
  let mp := (5 * doy + 2) / 153 in
  let d := doy - (153 * mp + 2) / 5 + 1 in
  let m := if mp <? 10 then mp + 3 else mp - 9 in
  (yoe + era * 400 + (if m <=? 2 then 1 else 0), m, d).
Lemma yoe_doy doe : 0 <= doe < 146097 ->
  let yoe := (doe - doe / 1460 + doe / 36524 - doe / 146096) / 365 in
  let doy := doe - (365 * yoe + yoe / 4 - yoe / 100) in
  0 <= yoe < 400 /\ 0 <= doy /\ (doy < 365 \/ doy = 365 /\ (yoe+1) mod 4 = 0 /\ ((yoe+1) mod 100 <> 0 \/ yoe = 399)).
Proof. intros H yoe doy. subst yoe doy. 
repeat split; Z.to_euclidean_division_equations; lia. Qed.

(** A day of a year that starts in March, as a month and a day. *)
Lemma month_day doy : 0 <= doy <= 365 ->
  let mp := (5 * doy + 2) / 153 in
  let d := doy - (153 * mp + 2) / 5 + 1 in
  0 <= mp <= 11 /\ 1 <= d <= 31 /\ (153 * mp + 2) / 5 + d - 1 = doy
  /\ (mp = 1 \/ mp = 3 \/ mp = 6 \/ mp = 8 -> d <= 30) /\ (mp = 11 -> d <= 29) /\ (mp = 11 -> d = 29 -> doy = 365).
Proof. intros H mp d. subst mp d. repeat split; Z.to_euclidean_division_equations; lia. Qed.

Lemma civil_of_days_spec n :
  let '(y, m, d) := civil_of_days n in
  days_of_civil y m d = n /\ 1 <= m <= 12 /\ 1 <= d <= days_in m y.
Proof.
  unfold civil_of_days.
  set (era := (n + 719468) / 146097). set (doe := n + 719468 - era * 146097).
  assert (0 <= doe < 146097) as Hdoe by (unfold doe, era; Z.to_euclidean_division_equations; lia).
  destruct (yoe_doy doe Hdoe) as (Hy & Hd0 & Hd).
  set (yoe := (doe - doe / 1460 + doe / 36524 - doe / 146096) / 365) in *.
  set (doy := doe - (365 * yoe + yoe / 4 - yoe / 100)) in *. cbv zeta in *.
  destruct (month_day doy ltac:(lia)) as (Hmp & Hday & Hback & H30 & H29 & Hleap).
  set (mp := (5 * doy + 2) / 153) in *. set (d := doy - (153 * mp + 2) / 5 + 1) in *. cbv zeta in *.
  set (m := if mp <? 10 then mp + 3 else mp - 9).
  assert (1 <= m <= 12 /\ (m + 9) mod 12 = mp) as [Hm Hmod].
  { unfold m. destruct (Z.ltb_spec mp 10); split; try lia; Z.to_euclidean_division_equations; lia. }
  split; [|split; [exact Hm|]].
  - unfold days_of_civil. rewrite Hmod.
    assert ((if m <=? 2 then yoe + era * 400 + (if m <=? 2 then 1 else 0) - 1 else yoe + era * 400 + (if m <=? 2 then 1 else 0)) = yoe + era * 400) as ->
      by (destruct (m <=? 2); lia).
    assert ((yoe + era * 400) / 400 = era) as -> by (Z.to_euclidean_division_equations; lia).
    replace (yoe + era * 400 - era * 400) with yoe by lia. unfold doy, doe in *. lia.
  - split; [lia|]. unfold days_in. destruct (Z.eqb_spec m 2) as [Hm2|Hm2].
    + assert (mp = 11) as Hmp11 by (unfold m in *; destruct (mp <? 10) eqn:E; zbool; lia).
      rewrite Hm2. change (2 <=? 2) with true. cbv iota. unfold is_leap.
      destruct (Z.eq_dec d 29) as [Hd29|]; [|case_bool; lia].
      assert ((yoe + era * 400 + 1) mod 4 = 0 /\ ((yoe + era * 400 + 1) mod 100 <> 0 \/ (yoe + era * 400 + 1) mod 400 = 0)) as [H4 H100].
      { specialize (Hleap Hmp11 Hd29). destruct Hd as [Hd|(Hd & H4 & H1)]; [lia|].
        split; [Z.to_euclidean_division_equations; lia|]. destruct H1; [left|right]; Z.to_euclidean_division_equations; lia. }
      rewrite (proj2 (Z.eqb_eq _ _) H4). cbn [andb]. destruct H100 as [H1|H1].
      * rewrite (proj2 (Z.eqb_neq _ _) H1). cbn. lia.
      * rewrite (proj2 (Z.eqb_eq _ _) H1), orb_true_r. lia.
    + destruct ((m =? 4) || (m =? 6) || (m =? 9) || (m =? 11)) eqn:E; [|lia]. apply H30.
      unfold m in *. destruct (mp <? 10) eqn:E2; zbool; lia.
Qed.

(** ** Printing *)

(** The lowest [w] decimal digits, zero-padded. *)
Fixpoint pad_digits (w : nat) (n : Z) : bytes :=
  match w with
  | O => []
  | S w => pad_digits w (n / 10) ++ [digit_char (n mod 10)]
  end.

(** The fraction of [.999999999]: without trailing zeros, and nothing when it is zero. *)
Definition format_nanos (ns : Z) : bytes :=
  if ns =? 0 then []
  else "."%char :: rev (drop_while (fun a => Ascii.eqb a "0"%char) (rev (pad_digits 9 ns))).

Definition format_clock (secs : Z) : bytes :=
  pad_digits 2 (secs / 3600) ++ ":"%char :: pad_digits 2 (secs / 60 mod 60) ++ ":"%char :: pad_digits 2 (secs mod 60).

Definition format_date (y m d : Z) : bytes :=
  pad_digits 4 y ++ "-"%char :: pad_digits 2 m ++ "-"%char :: pad_digits 2 d.

(** [t.UTC().Format(time.RFC3339Nano)] for a year of four digits. *)
Definition format_rfc3339nano (t : Time) : bytes :=
  let days := t / (86400 * Second) in
  let secs := t / Second mod 86400 in
  let '(y, m, d) := civil_of_days days in
  format_date y m d ++ "T"%char :: format_clock secs ++ format_nanos (t mod Second) ++ ["Z"%char].

Definition year_of (t : Time) : Z := (civil_of_days (t / (86400 * Second))).1.1.

(** [time.Time.MarshalJSON] of a UTC time: years beyond 0 to 9999 are an error. *)
Definition encode_time (t : Time) : option bytes :=
  if in_range 0 9999 (year_of t) then Some (quote_char :: format_rfc3339nano t ++ [quote_char]) else None.

(** *** Reading back *)

Definition all_digits (ds : bytes) : Prop := Forall (fun a => is_Some (digit_val a)) ds.

Definition dval (acc : Z) (ds : bytes) : Z :=
  fold_left (fun acc a => 10 * acc + default 0 (digit_val a)) ds acc.

Lemma dval_app acc a b : dval acc (a ++ b) = dval (dval acc a) b.
Proof. apply fold_left_app. Qed.

Lemma digits_n_dval ds s acc : all_digits ds -> digits_n (length ds) (ds ++ s) acc = Some (dval acc ds, s).
Proof.
  intros H. revert acc. induction H as [|a ds [v Hv] H IH]; intros acc; [done|].
  cbn [length app digits_n dval fold_left]. rewrite Hv. apply IH.
Qed.

Lemma pad_digits_length w n : length (pad_digits w n) = w.
Proof. revert n. induction w as [|w IH]; intros n; [done|]. cbn [pad_digits]. rewrite length_app, IH. cbn. lia. Qed.

Lemma pad_digits_digits w n : all_digits (pad_digits w n).
Proof.
  revert n. induction w as [|w IH]; intros n; [constructor|]. apply Forall_app. split; [apply IH|].
  constructor; [|constructor]. rewrite digit_val_char by (apply Z.mod_pos_bound; lia). by eexists.
Qed.

Lemma dval_pad w n acc : 0 <= n < 10 ^ Z.of_nat w -> dval acc (pad_digits w n) = acc * 10 ^ Z.of_nat w + n.
Proof.
  revert n. induction w as [|w IH]; intros n Hn.
  - cbn in *. lia.
  - cbn [pad_digits]. rewrite Nat2Z.inj_succ, Z.pow_succ_r in * by lia. rewrite dval_app, IH.
    + cbn [dval fold_left]. rewrite digit_val_char by (apply Z.mod_pos_bound; lia). change (default 0 (Some (n mod 10))) with (n mod 10).
      pose proof (Z.div_mod n 10 ltac:(lia)). nia.
    + split; [apply Z.div_pos; lia|apply Z.div_lt_upper_bound; lia].
Qed.

Lemma digits_n_pad w n s : 0 <= n < 10 ^ Z.of_nat w -> digits_n w (pad_digits w n ++ s) 0 = Some (n, s).
Proof.
  intros Hn. pose proof (digits_n_dval (pad_digits w n) s 0 (pad_digits_digits w n)) as H.
  rewrite pad_digits_length, dval_pad in H by done. exact H.
Qed.

Lemma parse_digits_dval ds acc : all_digits ds -> parse_digits (string_of_bytes ds) acc = Some (dval acc ds).
Proof.
  intros H. revert acc. induction H as [|a ds [v Hv] H IH]; intros acc; [done|].
  cbn. rewrite Hv. cbn [dval fold_left default]. apply IH.
Qed.

Lemma span_digits_app ds a s : all_digits ds -> is_digit_byte a = false -> span_digits (ds ++ a :: s) = (ds, a :: s).
Proof.
  intros H Ha. induction H as [|b ds [v Hv] H IH]; cbn [app span_digits]; [by rewrite Ha|].
  assert (is_digit_byte b = true) as ->; [|by rewrite IH].
  unfold is_digit_byte. by rewrite Hv.
Qed.

Lemma drop_while_spec p (s : bytes) : exists k, s = k ++ drop_while p s /\ Forall (fun a => p a = true) k.
Proof.
  induction s as [|a s (k & IH & Hk)]; [by exists []|]. cbn [drop_while]. destruct (p a) eqn:Ha.
  - exists (a :: k). split; [by rewrite IH at 1|by constructor].
  - by exists [].
Qed.

(** The fraction is read back as the nanoseconds. *)
Lemma nanos_of_strip k ds :
  all_digits ds -> (length ds + k = 9)%nat -> nanos_of ds = dval 0 (ds ++ repeat "0"%char k).
Proof.
  intros Hd Hl. unfold nanos_of. rewrite take_ge by lia. rewrite parse_digits_dval by done.
  rewrite dval_app. replace (9 - Z.of_nat (length ds)) with (Z.of_nat k) by lia.
  generalize (dval 0 ds) as v. clear. induction k as [|k IH]; intros v; [cbn; lia|].
  rewrite Nat2Z.inj_succ, Z.pow_succ_r by lia. cbn [repeat dval fold_left].
  change (default 0 (digit_val "0"%char)) with 0. fold (dval (10 * v + 0) (repeat "0"%char k)). rewrite <- IH. lia.
Qed.

Lemma parse_fraction_format ns s :
  0 <= ns < 1000000000 -> parse_fraction (format_nanos ns ++ "Z"%char :: s) = (ns, "Z"%char :: s).
Proof.
  intros Hns. unfold format_nanos. destruct (Z.eqb_spec ns 0) as [->|Hnz]; [done|].
  set (p := fun a => Ascii.eqb a "0"%char).
  destruct (drop_while_spec p (rev (pad_digits 9 ns))) as (zs & Hz & Hall).
  set (ds := rev (drop_while p (rev (pad_digits 9 ns)))) in *.
  assert (zs = repeat "0"%char (length zs)) as Hrep.
  { clear -Hall. induction Hall as [|a l Ha H IH]; [done|]. cbn. apply Ascii.eqb_eq in Ha. by rewrite Ha, <- IH. }
  assert (pad_digits 9 ns = ds ++ repeat "0"%char (length zs)) as Hpad.
  { apply (f_equal (@rev _)) in Hz. rewrite rev_involutive, rev_app_distr in Hz. rewrite Hz. f_equal.
    rewrite Hrep at 1. apply rev_repeat. }
  pose proof (pad_digits_digits 9 ns) as Hdig. rewrite Hpad in Hdig. apply Forall_app in Hdig as [Hdig _].
  pose proof (pad_digits_length 9 ns) as Hlen. rewrite Hpad, length_app, repeat_length in Hlen.
  pose proof (dval_pad 9 ns 0 Hns) as Hval. rewrite Hpad in Hval. cbn [Z.mul] in Hval. rewrite Z.add_0_l in Hval.
  assert (nanos_of ds = ns) as Hnano by (by rewrite (nanos_of_strip (length zs))).
  cbn [app parse_fraction]. rewrite (proj2 (Ascii.eqb_eq "." ".") eq_refl). cbn [orb].
  rewrite span_digits_app by done. clearbody ds. destruct ds as [|a ds']; [|by rewrite Hnano].
  exfalso. apply Hnz. rewrite <- Hnano. reflexivity.
Qed.

Lemma ch_cons c s : ch c (c :: s) = Some s.
Proof. cbn [ch]. by rewrite (proj2 (Ascii.eqb_eq c c) eq_refl). Qed.

Lemma getnum_pad n s : 0 <= n < 100 -> getnum (pad_digits 2 n ++ s) = Some (n, s).
Proof. intros Hn. unfold getnum. by rewrite digits_n_pad. Qed.

Lemma parse_clock_format secs s :
  0 <= secs < 86400 -> parse_clock (format_clock secs ++ s) = Some (secs, s).
Proof.
  intros Hs. unfold parse_clock, format_clock. rewrite <- !app_assoc. cbn [app].
  rewrite getnum_pad by (Z.to_euclidean_division_equations; lia). rewrite ch_cons. cbn [mbind option_bind]. rewrite <- ?app_assoc. cbn [app].
  rewrite digits_n_pad by (change (10 ^ Z.of_nat 2) with 100; Z.to_euclidean_division_equations; lia).
  rewrite ch_cons. cbn [mbind option_bind].
  rewrite digits_n_pad by (change (10 ^ Z.of_nat 2) with 100; Z.to_euclidean_division_equations; lia).
  assert (in_range 0 23 (secs / 3600) && in_range 0 59 (secs / 60 mod 60) && in_range 0 59 (secs mod 60) = true) as ->.
  { unfold in_range. rewrite !andb_true_iff, !Z.leb_le. Z.to_euclidean_division_equations; lia. }
  do 2 f_equal. Z.to_euclidean_division_equations; lia.
Qed.

Lemma parse_date_format y m d s :
  0 <= y <= 9999 -> 1 <= m <= 12 -> 1 <= d <= days_in m y ->
  parse_date (format_date y m d ++ s) = Some (y, m, d, s).
Proof.
  intros Hy Hm Hd. assert (days_in m y <= 31) as Hle by (unfold days_in; repeat case_match; lia).
  unfold parse_date, format_date. rewrite <- !app_assoc. cbn [app].
  rewrite digits_n_pad by (change (10 ^ Z.of_nat 4) with 10000; lia). rewrite ch_cons. cbn [mbind option_bind]. rewrite <- !app_assoc. cbn [app].
  rewrite digits_n_pad by (change (10 ^ Z.of_nat 2) with 100; lia). rewrite ch_cons. cbn [mbind option_bind].
  rewrite digits_n_pad by (change (10 ^ Z.of_nat 2) with 100; lia).
  assert (in_range 1 12 m && in_range 1 (days_in m y) d = true) as ->; [|done].
  unfold in_range. rewrite !andb_true_iff, !Z.leb_le. lia.
Qed.

Lemma ParseRFC3339_format t : 0 <= year_of t <= 9999 -> ParseRFC3339 (format_rfc3339nano t) = Some t.
Proof.
  intros Hy. unfold ParseRFC3339, format_rfc3339nano, year_of in *.
  pose proof (civil_of_days_spec (t / (86400 * Second))) as Hc.
  destruct (civil_of_days (t / (86400 * Second))) as [[y m] d]. destruct Hc as (Hdays & Hm & Hd). cbn [fst] in Hy.
  rewrite parse_date_format by done. rewrite ch_cons. cbn [mbind option_bind].
  rewrite parse_clock_format by (apply Z.mod_pos_bound; lia).
  rewrite parse_fraction_format by (apply (Z.mod_pos_bound t 1000000000); lia).
  change (parse_zone ["Z"%char]) with (Some 0). cbv iota beta. rewrite Hdays. f_equal.
  unfold Second. Z.to_euclidean_division_equations; lia.
Qed.

Lemma from_time_quoted s t v old :
  ParseRFC3339 s = Some t -> from_json (quote_char :: s ++ [quote_char]) (JString v) old = Some (mkJSONTime t).
Proof.
  intros Hp. unfold from_json, from_time. cbn [length]. rewrite length_app. cbn [length].
  replace (S (length s + 1) - 2)%nat with (length s) by lia.
  change (drop 1 (quote_char :: s ++ [quote_char])) with (s ++ [quote_char]). by rewrite take_app_length, Hp.
Qed.

(** A time that marshals is read back as the same instant. *)
Lemma encode_time_decode t b v old :
  encode_time t = Some b -> from_json b (JString v) old = Some (mkJSONTime t).
Proof.
  unfold encode_time. destruct (in_range 0 9999 (year_of t)) eqn:Hy; [|done]. intros H. apply Some_inj in H as <-.
  unfold in_range in Hy. apply andb_true_iff in Hy as [H1 H2]. apply Z.leb_le in H1, H2.
  apply from_time_quoted, ParseRFC3339_format. lia.
Qed.

Example format_rfc3339nano_examples :
  map (fun t => string_of_bytes (format_rfc3339nano t))
    [0; 1775001600500000000; 1709208000000000001; zeroTime; 951782399999999990]
  = ["1970-01-01T00:00:00Z"; "2026-04-01T00:00:00.5Z"; "2024-02-29T12:00:00.000000001Z";
     "0001-01-01T00:00:00Z"; "2000-02-28T23:59:59.99999999Z"].
Proof. vm_compute. reflexivity. Qed.
