(* ===== verification/DurationText.v ===== *)
(** * Durations written as text

    [time.Duration.String], which pkg/tomlutil writes with [MarshalText], and that
    [time.ParseDuration], which it reads with, gives the duration back. The writer fills a
    buffer from its end; here [buf] is what is in it. *)

From Stdlib Require Import Ascii.
From S2P Require Import Prelude GoStrings GoTime GoFloat GoFloatExact GoDuration GoRfc3339.

Local Open Scope Z_scope.

(** ** Writing *)

(** [fmtFrac]: [prec] digits from the lowest, the zeros before the first other one left out.
    The first result says whether any was written. *)
Fixpoint fmt_frac_loop (prec : nat) (v : Z) (print : bool) (buf : bytes) : bool * bytes * Z :=
  match prec with
  | O => (print, buf, v)
  | S prec =>
      let digit := v mod 10 in
      let print := print || negb (digit =? 0) in
      fmt_frac_loop prec (v / 10) print (if print then digit_char digit :: buf else buf)
  end.

Definition fmtFrac (buf : bytes) (v : Z) (prec : nat) : bytes * Z :=
  let '(print, buf, v) := fmt_frac_loop prec v false buf in
  (if (print : bool) then "."%char :: buf else buf, v).

Definition fmtInt (buf : bytes) (v : Z) : bytes := bytes_of_string (utoa v) ++ buf.

(** Hours, minutes and seconds; below a second the largest unit that fits. *)
Definition format_duration (u : Z) : bytes :=
  if u <? Second then
    if u =? 0 then bytes_of_string "0s"
    else
      let '(unit, prec) :=
        if u <? Microsecond then ("ns", 0%nat) else if u <? Millisecond then (micro1, 3%nat) else ("ms", 6%nat) in
      let '(buf, u) := fmtFrac (bytes_of_string unit) u prec in fmtInt buf u
  else
    let '(buf, u) := fmtFrac (bytes_of_string "s") u 9 in
    let buf := fmtInt buf (u mod 60) in
    let u := u / 60 in
    if 0 <? u then
      let buf := fmtInt ("m"%char :: buf) (u mod 60) in
      let u := u / 60 in
      if 0 <? u then fmtInt ("h"%char :: buf) u else buf
    else buf.

Definition Duration_String (d : Duration) : string :=
  let buf := format_duration (Z.abs d) in
  string_of_bytes (if d <? 0 then "-"%char :: buf else buf).

(** [MarshalText] of the wrapper. *)
Definition Duration_MarshalText (d : Duration) : string := Duration_String d.

Example Duration_String_examples :
  map Duration_String [0; 1; 1500; 2500000; 3000000000; 90 * Minute; 100 * Millisecond; - (90 * Second); 1000000001;
                       2160 * Hour; max_int64; min_int64]
  = ["0s"; "1ns"; "1.5" +:+ micro1; "2.5ms"; "3s"; "1h30m0s"; "100ms"; "-1m30s"; "1.000000001s";
     "2160h0m0s"; "2562047h47m16.854775807s"; "-2562047h47m16.854775808s"].
Proof. vm_compute. reflexivity. Qed.

(** ** The fraction *)

Lemma fmt_frac_print p v buf :
  0 <= v -> fmt_frac_loop p v true buf = (true, pad_digits p (v mod 10 ^ Z.of_nat p) ++ buf, v / 10 ^ Z.of_nat p).
Proof.
  revert v buf. induction p as [|p IH]; intros v buf Hv; [cbn; by rewrite Z.div_1_r|].
  cbn [fmt_frac_loop orb]. rewrite IH by (apply Z.div_pos; lia). cbn [pad_digits].
  rewrite Nat2Z.inj_succ, Z.pow_succ_r by lia. rewrite Z.div_div by lia.
  pose proof (Z.pow_pos_nonneg 10 (Z.of_nat p) ltac:(lia) ltac:(lia)) as Hp.
  assert (v mod (10 * 10 ^ Z.of_nat p) = v mod 10 + 10 * ((v / 10) mod 10 ^ Z.of_nat p)) as -> by (apply Z.rem_mul_r; lia).
  rewrite <- app_assoc. cbn [app]. do 3 f_equal.
  - f_equal. rewrite (Z.mul_comm 10), Z.div_add by lia. rewrite (Z.div_small (v mod 10)) by (apply Z.mod_pos_bound; lia). lia.
  - rewrite (Z.mul_comm 10), Z.mod_add by lia. by rewrite Z.mod_mod by lia.
Qed.

(** Either the digits are all zero, or the first [k] are written and the others are zero. *)
Lemma fmt_frac_spec p v buf :
  0 <= v ->
  let '(print, buf', v') := fmt_frac_loop p v false buf in
  v' = v / 10 ^ Z.of_nat p
  /\ if (print : bool) then
       exists k f, (0 < k <= p)%nat /\ 0 < f < 10 ^ Z.of_nat k /\ f * 10 ^ Z.of_nat (p - k) = v mod 10 ^ Z.of_nat p
         /\ buf' = pad_digits k f ++ buf
     else v mod 10 ^ Z.of_nat p = 0 /\ buf' = buf.
Proof.
  revert v buf. induction p as [|p IH]; intros v buf Hv.
  { cbn. rewrite Z.div_1_r, Z.mod_1_r. done. }
  cbn [fmt_frac_loop orb]. pose proof (Z.pow_pos_nonneg 10 (Z.of_nat p) ltac:(lia) ltac:(lia)) as Hp.
  assert (H10 : 10 ^ Z.of_nat (S p) = 10 * 10 ^ Z.of_nat p) by (rewrite Nat2Z.inj_succ, Z.pow_succ_r by lia; lia).
  assert (Hmod : v mod 10 ^ Z.of_nat (S p) = v mod 10 + 10 * ((v / 10) mod 10 ^ Z.of_nat p)) by (rewrite H10; apply Z.rem_mul_r; lia).
  assert (Hdiv : v / 10 / 10 ^ Z.of_nat p = v / 10 ^ Z.of_nat (S p)) by (rewrite Z.div_div, H10 by lia; done).
  destruct (Z.eqb_spec (v mod 10) 0) as [H0|H0]; cbn [negb].
  - specialize (IH (v / 10) buf ltac:(apply Z.div_pos; lia)).
    destruct (fmt_frac_loop p (v / 10) false buf) as [[print buf'] v']. destruct IH as [-> IH]. split; [done|].
    destruct print.
    + destruct IH as (k & f & Hk & Hf & Hval & ->). exists k, f. split_and!; [lia..| |done].
      rewrite Hmod, <- Hval, H0. replace (S p - k)%nat with (S (p - k)) by lia. rewrite Nat2Z.inj_succ, Z.pow_succ_r by lia. lia.
    + destruct IH as [Hz ->]. split; [|done]. rewrite Hmod, H0, Hz. lia.
  - rewrite fmt_frac_print by (apply Z.div_pos; lia). split; [done|].
    pose proof (Z.mod_pos_bound v 10 ltac:(lia)). pose proof (Z.mod_pos_bound (v / 10) (10 ^ Z.of_nat p) ltac:(lia)).
    assert (0 < v mod 10 ^ Z.of_nat (S p) < 10 ^ Z.of_nat (S p)) as Hf.
    { pose proof (Z.mod_pos_bound v (10 ^ Z.of_nat (S p)) ltac:(lia)). lia. }
    exists (S p), (v mod 10 ^ Z.of_nat (S p)). split; [lia|]. split; [done|]. split.
    + rewrite Nat.sub_diag. cbn. lia.
    + cbn [pad_digits]. rewrite <- app_assoc. cbn [app]. rewrite Hmod. f_equal.
      * f_equal. rewrite (Z.mul_comm 10), Z.div_add by lia. rewrite (Z.div_small (v mod 10)) by lia. lia.
      * do 2 f_equal. rewrite (Z.mul_comm 10), Z.mod_add by lia. by rewrite Z.mod_mod by lia.
Qed.

(** ** Reading *)

(** What follows a number ends it. *)
Definition ends_number (s : bytes) : Prop := match s with [] => True | a :: _ => digit_val a = None end.

Lemma dval_cons acc a v ds : digit_val a = Some v -> dval acc (a :: ds) = dval (10 * acc + v) ds.
Proof. intros Hv. cbn [dval fold_left]. by rewrite Hv. Qed.

Lemma dval_mono acc ds : all_digits ds -> 0 <= acc -> acc <= dval acc ds.
Proof.
  intros H. revert acc. induction H as [|a ds [v Hv] H IH]; intros acc Ha; [done|].
  rewrite (dval_cons _ _ _ _ Hv). pose proof (digit_val_range _ _ Hv). specialize (IH (10 * acc + v) ltac:(lia)). lia.
Qed.

Lemma leading_int_digits ds s x :
  all_digits ds -> 0 <= x -> dval x ds <= two63 -> ends_number s -> leading_int (ds ++ s) x = Some (dval x ds, s).
Proof.
  intros H. revert x. induction H as [|a ds [v Hv] H IH]; intros x Hx Hlim Hs.
  - cbn [app dval fold_left]. destruct s as [|a s]; [done|]. cbn in Hs |- *. by rewrite Hs.
  - rewrite (dval_cons _ _ _ _ Hv) in *. cbn [app leading_int]. rewrite Hv. pose proof (digit_val_range _ _ Hv).
    pose proof (dval_mono (10 * x + v) ds H ltac:(lia)).
    assert (x <= two63 / 10) by (apply Z.div_le_lower_bound; lia).
    destruct (Z.ltb_spec (two63 / 10) x); [lia|]. rewrite (Z.mul_comm x).
    destruct (Z.ltb_spec two63 (10 * x + v)); [lia|]. by apply IH; [lia|..].
Qed.

Lemma utoa_dval n : 0 <= n -> all_digits (bytes_of_string (utoa n)) /\ dval 0 (bytes_of_string (utoa n)) = n.
Proof.
  intros Hn. pose proof (utoa_digits n Hn) as Hd. split; [done|].
  pose proof (parse_digits_dval (bytes_of_string (utoa n)) 0 Hd) as H. rewrite string_of_bytes_of_string in H.
  pose proof (parse_uint_utoa n Hn) as Hp. unfold parse_uint in Hp. destruct (utoa n) eqn:E; [done|]. congruence.
Qed.

Lemma leading_fraction_digits ds s x i :
  all_digits ds -> 0 <= x -> dval x ds <= max_int64 -> 0 <= i -> i + Z.of_nat (length ds) <= 15 -> ends_number s ->
  leading_fraction (ds ++ s) x (f64_of_Z (10 ^ i)) false = (dval x ds, f64_of_Z (10 ^ (i + Z.of_nat (length ds))), s).
Proof.
  intros H. revert x i. induction H as [|a ds [v Hv] H IH]; intros x i Hx Hlim Hi Hlen Hs.
  - cbn [app length dval fold_left]. rewrite Z.add_0_r. destruct s as [|a s]; [done|]. cbn in Hs |- *. by rewrite Hs.
  - rewrite (dval_cons _ _ _ _ Hv) in *. cbn [app leading_fraction length] in *. rewrite Hv. pose proof (digit_val_range _ _ Hv).
    pose proof (dval_mono (10 * x + v) ds H ltac:(lia)).
    assert (x <= max_int64 / 10) by (apply Z.div_le_lower_bound; lia).
    destruct (Z.ltb_spec (max_int64 / 10) x); [lia|]. rewrite (Z.mul_comm x).
    destruct (Z.ltb_spec two63 (10 * x + v)); [unfold two63, max_int64 in *; lia|].
    assert (0 < 10 ^ i) by (apply Z.pow_pos_nonneg; lia). assert (10 ^ (i + 1) <= 10 ^ 15) by (apply Z.pow_le_mono_r; lia).
    assert (10 ^ (i + 1) = 10 ^ i * 10) as H10 by (rewrite Z.pow_add_r by lia; done).
    rewrite f64_mul_exact by (unfold float_limit; lia). rewrite <- H10. rewrite IH by (done || lia).
    do 2 f_equal. f_equal. f_equal. lia.
Qed.

(** The power of ten of a unit with a fraction. *)
Lemma unit_over_scale (p k : nat) :
  (p = 3 \/ p = 6 \/ p = 9)%nat -> (k <= p)%nat ->
  f64_div (f64_of_Z (10 ^ Z.of_nat p)) (f64_of_Z (10 ^ Z.of_nat k)) = f64_of_Z (10 ^ Z.of_nat (p - k)).
Proof.
  intros Hp Hk. destruct Hp as [->|[->| ->]]; do 10 (destruct k as [|k]; [first [lia|vm_compute; reflexivity]|]); lia.
Qed.

(** The value of the fraction, computed in floats, is exact. *)
Lemma fraction_value p k f :
  (p = 3 \/ p = 6 \/ p = 9)%nat -> (k <= p)%nat -> 0 <= f < 10 ^ Z.of_nat k ->
  f64_trunc (f64_mul (f64_of_Z f) (f64_div (f64_of_Z (10 ^ Z.of_nat p)) (f64_of_Z (10 ^ Z.of_nat k)))) = f * 10 ^ Z.of_nat (p - k).
Proof.
  intros Hp Hk Hf. rewrite unit_over_scale by done.
  assert (10 ^ Z.of_nat k * 10 ^ Z.of_nat (p - k) = 10 ^ Z.of_nat p) as Hpow by (rewrite <- Z.pow_add_r by lia; f_equal; lia).
  assert (10 ^ Z.of_nat p <= 10 ^ 9) as H9 by (apply Z.pow_le_mono_r; lia).
  assert (0 < 10 ^ Z.of_nat (p - k)) by (apply Z.pow_pos_nonneg; lia).
  assert (0 < 10 ^ Z.of_nat k) by (apply Z.pow_pos_nonneg; lia).
  assert (f * 10 ^ Z.of_nat (p - k) < 10 ^ Z.of_nat p) by nia.
  rewrite f64_mul_exact by (unfold float_limit; nia). apply f64_trunc_exact. unfold float_limit. nia.
Qed.

Lemma span_unit_text u s : Forall (fun a => is_num a = false) u -> match s with [] => True | a :: _ => is_num a = true end ->
  span_unit (u ++ s) = (u, s).
Proof.
  intros Hu Hs. induction Hu as [|a u Ha Hu IH]; cbn [app].
  - destruct s as [|a s]; [done|]. cbn. by rewrite Hs.
  - cbn [span_unit]. by rewrite Ha, IH.
Qed.

(** The digits of a fraction, with its point; nothing for none. *)
Definition fraction_text (k : nat) (f : Z) : bytes := match k with O => [] | _ => "."%char :: pad_digits k f end.

Lemma fraction_reads k f u s :
  0 <= f < 10 ^ Z.of_nat k -> (k <= 9)%nat -> ends_number u -> match u with [] => True | a :: _ => is_num a = false end ->
  match fraction_text k f ++ u ++ s with
  | b :: s1' =>
      if Ascii.eqb b "." then
        let '(f, scale, r) := leading_fraction s1' 0 (f64_of_Z 1) false in
        (f, scale, negb (Nat.eqb (length r) (length s1')), r)
      else (0, f64_of_Z 1, false, fraction_text k f ++ u ++ s)
  | [] => (0, f64_of_Z 1, false, fraction_text k f ++ u ++ s)
  end = (f, f64_of_Z (10 ^ Z.of_nat k), negb (Nat.eqb k 0), u ++ s) \/ u = [].
Proof.
  intros Hf Hk Hu Hn. destruct u as [|a u]; [by right|left]. destruct k as [|k].
  - cbn in Hf. assert (f = 0) as -> by lia. cbn [fraction_text app]. unfold is_num in Hn. cbn in Hu. rewrite Hu in Hn. by rewrite Hn.
  - unfold fraction_text. cbn [app]. rewrite Ascii.eqb_refl.
    assert (10 ^ Z.of_nat (S k) <= 10 ^ 9) by (apply Z.pow_le_mono_r; lia).
    assert (dval 0 (pad_digits (S k) f) = f) as Hd by (rewrite dval_pad by done; lia).
    pose proof (leading_fraction_digits (pad_digits (S k) f) ((a :: u) ++ s) 0 0 (pad_digits_digits _ _) ltac:(lia)) as Hl.
    rewrite pad_digits_length, Hd in Hl. change (10 ^ 0) with 1 in Hl. cbn [app] in Hl. rewrite Hl by (unfold max_int64; done || lia).
    rewrite Z.add_0_l. rewrite length_app, pad_digits_length. do 2 f_equal.
    by destruct (Nat.eqb_spec (length (a :: u ++ s)) (S k + length (a :: u ++ s))); [lia|].
Qed.

(** The text of a unit. *)
Definition unit_text (u : bytes) (unit : Z) : Prop :=
  unit_of (string_of_bytes u) = Some unit /\ 0 < unit /\ u <> [] /\ Forall (fun a => is_num a = false) u.

Lemma is_num_digit a : is_num a = false -> digit_val a = None.
Proof. unfold is_num. by destruct (digit_val a). Qed.

Lemma fraction_ends k f u s : u <> [] -> Forall (fun a => is_num a = false) u -> ends_number (fraction_text k f ++ u ++ s).
Proof. intros Hn Hu. destruct k as [|k]; [|done]. destruct Hu as [|a u Ha Hu]; [done|]. by apply is_num_digit. Qed.

(** A number with its fraction and its unit is read as what it says. *)
Lemma parse_component_text n k f p u unit (s : bytes) :
  0 <= n -> 0 <= f < 10 ^ Z.of_nat k -> unit_text u unit ->
  (k = 0%nat \/ ((p = 3 \/ p = 6 \/ p = 9) /\ k <= p)%nat /\ unit = 10 ^ Z.of_nat p) ->
  n * unit + f * 10 ^ Z.of_nat (p - k) <= two63 -> match s with [] => True | a :: _ => is_num a = true end ->
  parse_component (bytes_of_string (utoa n) ++ fraction_text k f ++ u ++ s) = Some (n * unit + f * 10 ^ Z.of_nat (p - k), s).
Proof.
  intros Hn Hf (Hunit & Hpos & Hne & Hu) Hk Hlim Hs. destruct (utoa_dval n Hn) as [Hd Hv].
  assert (Hpow : 0 < 10 ^ Z.of_nat (p - k)) by (apply Z.pow_pos_nonneg; lia).
  pose proof (fraction_ends k f u s Hne Hu) as He.
  pose proof (leading_int_digits _ _ 0 Hd (Z.le_refl 0) ltac:(rewrite Hv; nia) He) as Hli. rewrite Hv in Hli.
  unfold parse_component. destruct (bytes_of_string (utoa n)) as [|a ds] eqn:Eds.
  { exfalso. apply (utoa_not_nil n). by rewrite <- (string_of_bytes_of_string (utoa n)), Eds. }
  apply Forall_cons_iff in Hd as [[d Had] _]. cbn [app]. assert (is_num a = true) as -> by (unfold is_num; by rewrite Had).
  change (a :: ds ++ fraction_text k f ++ u ++ s) with ((a :: ds) ++ fraction_text k f ++ u ++ s). rewrite Hli. cbn [negb].
  set (rest := fraction_text k f ++ u ++ s) in *. rewrite length_app.
  assert (Nat.eqb (length rest) (length (a :: ds) + length rest) = false) as -> by (apply Nat.eqb_neq; cbn; lia).
  destruct (fraction_reads k f u s Hf ltac:(lia)) as [Hfr| ->]; [..|done].
  { destruct Hu as [|b u Hb Hu]; [done|]. by apply is_num_digit. }
  { by destruct Hu. }
  fold rest in Hfr. rewrite Hfr. cbn [negb andb]. rewrite span_unit_text, Hunit by done.
  assert (n <= two63 / unit) by (apply Z.div_le_lower_bound; nia).
  destruct (Z.ltb_spec (two63 / unit) n); [lia|].
  assert ((if 0 <? f then n * unit + f64_trunc (f64_mul (f64_of_Z f) (f64_div (f64_of_Z unit) (f64_of_Z (10 ^ Z.of_nat k)))) else n * unit)
          = n * unit + f * 10 ^ Z.of_nat (p - k)) as ->.
  { destruct (Z.ltb_spec 0 f) as [Hf0|Hf0]; [|assert (f = 0) as -> by lia; lia].
    destruct Hk as [->|((Hp & Hkp) & ->)]; [cbn in Hf; lia|]. by rewrite fraction_value. }
  by destruct (Z.ltb_spec two63 (n * unit + f * 10 ^ Z.of_nat (p - k))); [lia|].
Qed.

(** ** The components of a duration *)

Definition component (n : Z) (k : nat) (f : Z) (u : bytes) : bytes := bytes_of_string (utoa n) ++ fraction_text k f ++ u.

Lemma fmtFrac_text buf v p :
  0 <= v -> exists k f, (k <= p)%nat /\ 0 <= f < 10 ^ Z.of_nat k /\ f * 10 ^ Z.of_nat (p - k) = v mod 10 ^ Z.of_nat p
    /\ fmtFrac buf v p = (fraction_text k f ++ buf, v / 10 ^ Z.of_nat p).
Proof.
  intros Hv. unfold fmtFrac. pose proof (fmt_frac_spec p v buf Hv) as H. destruct (fmt_frac_loop p v false buf) as [[print buf'] v'].
  destruct H as [-> H]. destruct print.
  - destruct H as (k & f & Hk & Hf & Hval & ->). exists k, f. split_and!; [lia..|done|]. unfold fraction_text. by destruct k; [lia|].
  - destruct H as [Hz ->]. exists 0%nat, 0. split_and!; [lia..|]. done.
Qed.

Lemma component_length n k f u : u <> [] -> (2 <= length (component n k f u))%nat.
Proof.
  intros Hu. unfold component. rewrite !length_app. destruct u as [|a u]; [done|]. cbn [length].
  destruct (bytes_of_string (utoa n)) eqn:E; [|cbn; lia]. exfalso. apply (utoa_not_nil n).
  by rewrite <- (string_of_bytes_of_string (utoa n)), E.
Qed.

Lemma component_head n k f u s : 0 <= n -> exists a r, component n k f u ++ s = a :: r /\ is_Some (digit_val a).
Proof.
  intros Hn. destruct (utoa_dval n Hn) as [Hd _]. unfold component. destruct (bytes_of_string (utoa n)) as [|a ds] eqn:E.
  - exfalso. apply (utoa_not_nil n). by rewrite <- (string_of_bytes_of_string (utoa n)), E.
  - apply Forall_cons_iff in Hd as [Ha _]. by eexists a, _.
Qed.

Lemma component_num n k f u s : 0 <= n -> match component n k f u ++ s with [] => True | a :: _ => is_num a = true end.
Proof. intros Hn. destruct (component_head n k f u s Hn) as (a & r & -> & [d Hd]). unfold is_num. by rewrite Hd. Qed.

(** One turn of the loop over the components. *)
Lemma components_step fuel d n k f p u unit (s : bytes) :
  0 <= n -> 0 <= f < 10 ^ Z.of_nat k -> unit_text u unit ->
  (k = 0%nat \/ ((p = 3 \/ p = 6 \/ p = 9) /\ k <= p)%nat /\ unit = 10 ^ Z.of_nat p) ->
  match s with [] => True | a :: _ => is_num a = true end ->
  0 <= d -> d + (n * unit + f * 10 ^ Z.of_nat (p - k)) <= two63 -> (length (component n k f u ++ s) <= fuel)%nat ->
  exists fuel', (length s <= fuel')%nat
    /\ parse_components fuel (component n k f u ++ s) d = parse_components fuel' s (d + (n * unit + f * 10 ^ Z.of_nat (p - k))).
Proof.
  intros Hn Hf Hu Hk Hs Hd Hlim Hfuel. pose proof (component_length n k f u (proj1 (proj2 (proj2 Hu)))) as Hl.
  rewrite length_app in Hfuel. destruct fuel as [|fuel]; [lia|]. exists fuel. split; [lia|].
  assert (0 <= n * unit + f * 10 ^ Z.of_nat (p - k)) as Hv.
  { destruct Hu as (_ & Hpos & _). pose proof (Z.pow_pos_nonneg 10 (Z.of_nat (p - k)) ltac:(lia) ltac:(lia)). nia. }
  pose proof (parse_component_text n k f p u unit s Hn Hf Hu Hk ltac:(lia) Hs) as Hc.
  destruct (component_head n k f u s Hn) as (a & r & Ea & _). cbn [parse_components]. rewrite Ea, <- Ea.
  unfold component. rewrite <- !app_assoc, Hc. unfold uwrap64. rewrite Z.mod_small by (unfold two63, two64 in *; lia).
  by destruct (Z.ltb_spec two63 (d + (n * unit + f * 10 ^ Z.of_nat (p - k)))); [lia|].
Qed.

Lemma units_text :
  unit_text (bytes_of_string "ns") Nanosecond /\ unit_text (bytes_of_string micro1) Microsecond
  /\ unit_text (bytes_of_string "ms") Millisecond /\ unit_text (bytes_of_string "s") Second
  /\ unit_text ["m"%char] Minute /\ unit_text ["h"%char] Hour.
Proof. unfold unit_text. split_and!; try done; repeat constructor. Qed.

(** What is written is one to three components. *)
Inductive written_as (u : Z) : bytes -> Prop :=
| written_small n k f p (ut : bytes) unit :
    0 <= n -> 0 <= f < 10 ^ Z.of_nat k -> unit_text ut unit ->
    (k = 0%nat \/ ((p = 3 \/ p = 6 \/ p = 9) /\ k <= p)%nat /\ unit = 10 ^ Z.of_nat p) ->
    u = n * unit + f * 10 ^ Z.of_nat (p - k) -> written_as u (component n k f ut)
| written_minutes m n k f :
    0 <= m -> 0 <= n -> 0 <= f < 10 ^ Z.of_nat k -> (k <= 9)%nat ->
    u = m * Minute + (n * Second + f * 10 ^ Z.of_nat (9 - k)) ->
    written_as u (component m 0 0 ["m"%char] ++ component n k f (bytes_of_string "s"))
| written_hours h m n k f :
    0 <= h -> 0 <= m -> 0 <= n -> 0 <= f < 10 ^ Z.of_nat k -> (k <= 9)%nat ->
    u = h * Hour + (m * Minute + (n * Second + f * 10 ^ Z.of_nat (9 - k))) ->
    written_as u (component h 0 0 ["h"%char] ++ component m 0 0 ["m"%char] ++ component n k f (bytes_of_string "s")).

Lemma written_below_second u : 0 < u < Second -> written_as u (format_duration u).
Proof.
  intros Hu. destruct units_text as (Hns & Hus & Hms & _). unfold format_duration.
  destruct (Z.ltb_spec u Second); [|lia]. destruct (Z.eqb_spec u 0); [lia|].
  destruct (Z.ltb_spec u Microsecond); [|destruct (Z.ltb_spec u Millisecond)].
  - cbn [fmtFrac fmt_frac_loop]. unfold fmtInt.
    apply (written_small u u 0 0 0 _ _ ltac:(lia) ltac:(cbn; lia) Hns); [by left|cbn; unfold Nanosecond; lia].
  - destruct (fmtFrac_text (bytes_of_string micro1) u 3 ltac:(lia)) as (k & f & Hk & Hf & Hv & ->). unfold fmtInt.
    apply (written_small u (u / 10 ^ Z.of_nat 3) k f 3 _ _ ltac:(apply Z.div_pos; lia) Hf Hus); [right; split; [lia|done]|].
    rewrite Hv. pose proof (Z.div_mod u (10 ^ Z.of_nat 3) ltac:(lia)). change Microsecond with (10 ^ Z.of_nat 3). lia.
  - destruct (fmtFrac_text (bytes_of_string "ms") u 6 ltac:(lia)) as (k & f & Hk & Hf & Hv & ->). unfold fmtInt.
    apply (written_small u (u / 10 ^ Z.of_nat 6) k f 6 _ _ ltac:(apply Z.div_pos; lia) Hf Hms); [right; split; [lia|done]|].
    rewrite Hv. pose proof (Z.div_mod u (10 ^ Z.of_nat 6) ltac:(lia)). change Millisecond with (10 ^ Z.of_nat 6). lia.
Qed.

Lemma written_from_second u : Second <= u -> written_as u (format_duration u).
Proof.
  intros Hu. destruct units_text as (_ & _ & _ & Hs & _). unfold format_duration.
  destruct (Z.ltb_spec u Second); [lia|].
  destruct (fmtFrac_text (bytes_of_string "s") u 9 ltac:(unfold Second in *; lia)) as (k & f & Hk & Hf & Hv & ->).
  change (10 ^ Z.of_nat 9) with Second in *. cbv zeta. unfold fmtInt. set (t := u / Second).
  assert (Ht : u = t * Second + f * 10 ^ Z.of_nat (9 - k)) by (rewrite Hv; pose proof (Z.div_mod u Second ltac:(unfold Second; lia)); unfold t; lia).
  assert (0 < t) as Ht0 by (unfold t; apply Z.div_str_pos; unfold Second in *; lia).
  pose proof (Z.div_mod t 60 ltac:(lia)) as Hdm. pose proof (Z.mod_pos_bound t 60 ltac:(lia)) as Hm60.
  destruct (Z.ltb_spec 0 (t / 60)) as [Hm|Hm].
  - pose proof (Z.div_mod (t / 60) 60 ltac:(lia)) as Hdh. pose proof (Z.mod_pos_bound (t / 60) 60 ltac:(lia)) as Hh60.
    destruct (Z.ltb_spec 0 (t / 60 / 60)) as [Hh|Hh].
    + replace (bytes_of_string (utoa (t / 60 / 60)) ++ _) with
        (component (t / 60 / 60) 0 0 ["h"%char] ++ component (t / 60 mod 60) 0 0 ["m"%char] ++ component (t mod 60) k f (bytes_of_string "s"))
        by (unfold component; by rewrite <- !app_assoc).
      apply written_hours; [lia..|done|lia|]. rewrite Ht. unfold Hour, Minute, Second. lia.
    + replace (bytes_of_string (utoa (t / 60 mod 60)) ++ _) with
        (component (t / 60 mod 60) 0 0 ["m"%char] ++ component (t mod 60) k f (bytes_of_string "s"))
        by (unfold component; by rewrite <- !app_assoc).
      apply written_minutes; [lia..|done|lia|]. rewrite Ht. unfold Minute, Second. lia.
  - apply (written_small u (t mod 60) k f 9 _ _ ltac:(lia) Hf Hs); [right; split; [lia|done]|].
    rewrite Ht. assert (t / 60 = 0) by (pose proof (Z.div_pos t 60); lia). replace (t mod 60) with t by lia. done.
Qed.

Lemma minute_step fuel d m n k f :
  0 <= m -> 0 <= n -> 0 <= d -> d + m * Minute <= two63 ->
  (length (component m 0 0 ["m"%char] ++ component n k f (bytes_of_string "s")) <= fuel)%nat ->
  exists fuel', (length (component n k f (bytes_of_string "s")) <= fuel')%nat
    /\ parse_components fuel (component m 0 0 ["m"%char] ++ component n k f (bytes_of_string "s")) d
       = parse_components fuel' (component n k f (bytes_of_string "s")) (d + m * Minute).
Proof.
  intros Hm Hn Hd Hlim Hfuel. destruct units_text as (_ & _ & _ & _ & Hut & _). set (bs := component n k f (bytes_of_string "s")) in *.
  assert (match bs with [] => True | a :: _ => is_num a = true end) as Hnum
    by (unfold bs; rewrite <- (app_nil_r (component _ _ _ _)); by apply component_num).
  destruct (components_step fuel d m 0 0 0 ["m"%char] Minute bs Hm ltac:(cbn; lia) Hut (or_introl eq_refl) Hnum Hd
              ltac:(cbn; lia) Hfuel) as (f1 & Hf1 & ->).
  exists f1. split; [done|]. f_equal. cbn. lia.
Qed.

Lemma second_end fuel d n k f u :
  0 <= n -> 0 <= d -> u = d + (n * Second + f * 10 ^ Z.of_nat (9 - k)) -> u <= two63 ->
  0 <= f < 10 ^ Z.of_nat k -> (k <= 9)%nat -> (length (component n k f (bytes_of_string "s")) <= fuel)%nat ->
  parse_components fuel (component n k f (bytes_of_string "s")) d = Some u.
Proof.
  intros Hn Hd -> Hlim Hf Hk Hfuel. destruct units_text as (_ & _ & _ & Hs & _).
  rewrite <- (app_nil_r (component n k f _)) in Hfuel |- *.
  destruct (components_step fuel d n k f 9 _ Second [] Hn Hf Hs ltac:(right; split; [lia|done]) I Hd Hlim Hfuel) as (f1 & _ & ->).
  by destruct f1.
Qed.

Lemma written_reads u b : written_as u b -> u <= two63 ->
  parse_components (length b) b 0 = Some u /\ (2 <= length b)%nat /\ exists a r, b = a :: r /\ is_Some (digit_val a).
Proof.
  destruct units_text as (_ & _ & _ & Hs & Hm & Hh). intros Hw Hlim.
  assert (Hend : forall f (d : Z), parse_components f [] d = Some d) by by intros [|].
  assert (Hpow : forall k, 0 < 10 ^ Z.of_nat k) by (intros; apply Z.pow_pos_nonneg; lia).
  destruct Hw as [n k f p ut unit Hn Hf Hu Hk ->|m n k f Hm0 Hn Hf Hk ->|h m n k f Hh0 Hm0 Hn Hf Hk ->].
  - split_and!; [|apply component_length, Hu|by rewrite <- (app_nil_r (component n k f ut)); apply component_head].
    destruct (components_step (length (component n k f ut)) 0 n k f p ut unit []) as (fuel & _ & Hp);
      rewrite ?app_nil_r; try done; try lia. rewrite app_nil_r in Hp. by rewrite Hp, Hend.
  - specialize (Hpow (9 - k)%nat). unfold Minute, Second in Hlim.
    split_and!; [|rewrite length_app; pose proof (component_length m 0 0 ["m"%char] ltac:(done)); lia|by apply component_head].
    destruct (minute_step (length (component m 0 0 ["m"%char] ++ component n k f (bytes_of_string "s"))) 0 m n k f) as (f1 & Hf1 & ->);
      [done..|unfold Minute; nia|done|].
    apply second_end; [done|unfold Minute; lia|lia|unfold Minute, Second; lia|done..].
  - specialize (Hpow (9 - k)%nat). unfold Hour, Minute, Second in Hlim.
    split_and!; [|rewrite length_app; pose proof (component_length h 0 0 ["h"%char] ltac:(done)); lia|by apply component_head].
    set (bm := component m 0 0 ["m"%char] ++ component n k f (bytes_of_string "s")).
    destruct (components_step (length (component h 0 0 ["h"%char] ++ bm)) 0 h 0 0 0 ["h"%char] Hour bm Hh0 ltac:(cbn; lia) Hh
                (or_introl eq_refl) (component_num m 0 0 _ _ Hm0) (Z.le_refl 0) ltac:(cbn; unfold Hour; lia) (Nat.le_refl _)) as (f1 & Hf1 & ->).
    replace (0 + (h * Hour + 0 * 10 ^ Z.of_nat (0 - 0))) with (0 + h * Hour) by (cbn; lia). unfold bm in *.
    destruct (minute_step f1 (0 + h * Hour) m n k f) as (f2 & Hf2 & ->); [done..|unfold Hour; lia|unfold Hour, Minute; nia|done|].
    apply second_end; [done|unfold Hour, Minute; lia|lia|unfold Hour, Minute, Second; lia|done..].
Qed.

Lemma format_duration_reads u : 0 <= u <= two63 ->
  parse_components (length (format_duration u)) (format_duration u) 0 = Some u
  /\ (2 <= length (format_duration u))%nat /\ exists a r, format_duration u = a :: r /\ is_Some (digit_val a).
Proof.
  intros Hu. destruct (Z.eq_dec u 0) as [->|Hz].
  { split; [vm_compute; reflexivity|]. split; [vm_compute; lia|]. eexists _, _. split; [vm_compute; reflexivity|by eexists]. }
  apply written_reads; [|lia]. destruct (Z.ltb_spec u Second); [apply written_below_second|apply written_from_second]; lia.
Qed.

(** C20: what is written for a duration is read back as that duration, for every [int64], the two
    extremes included; the fractions, which the parser computes in floats, are exact. *)
Theorem Duration_roundtrip d : is_int64 d -> Duration_UnmarshalText (Duration_MarshalText d) = Some d.
Proof.
  intros [Hmin Hmax]. unfold Duration_UnmarshalText, Duration_MarshalText, Duration_String, ParseDuration.
  destruct (format_duration_reads (Z.abs d)) as (Hp & Hlen & a & r & Eb & Ha); [unfold min_int64, max_int64, two63 in *; lia|].
  destruct (digit_not_sign a Ha) as [H1 H2]. apply Ascii.eqb_neq in H1, H2.
  assert (Hnot : bool_decide (string_of_bytes (format_duration (Z.abs d)) = "0") = false).
  { apply bool_decide_eq_false_2. intros H0. apply (f_equal bytes_of_string) in H0. rewrite bytes_of_string_of_bytes in H0.
    rewrite H0 in Hlen. cbn in Hlen. lia. }
  rewrite bytes_of_string_of_bytes. destruct (Z.ltb_spec d 0) as [Hd|Hd].
  - rewrite Ascii.eqb_refl, Hnot, Hp, Eb. f_equal. lia.
  - rewrite Eb in *. rewrite H1, H2, Hnot, Hp. destruct (Z.ltb_spec max_int64 (Z.abs d)); [lia|]. f_equal. lia.
Qed.

Lemma Duration_roundtrip_witness : Duration_UnmarshalText "-2562047h47m16.854775808s" = Some min_int64.
Proof. exact (Duration_roundtrip min_int64 ltac:(unfold is_int64; vm_compute; split; discriminate)). Defined.

