(* ===== verification/Protocol.v ===== *)
(** * pkg/protocol

    The payloads a sentinel posts. [RPCPayload] and [MetricsPayload] have the same fields
    and share the record [payload]. [encode_payload] and [encode_LogPayload] are
    [json.Marshal] of values whose map and slice are not nil, as every sender makes them. *)

From Stdlib Require Import Ascii.
From S2P Require Import Prelude GoStrings GoTime GoJson GoRfc3339 GoJsonText GoJsonEncode.

Local Open Scope Z_scope.

Record payload := mkPayload { CollectedAt : JSONTime; Data : gmap string RawMessage }.
#[export] Instance zero_payload : GoZero payload := mkPayload go_zero go_zero.
#[export] Instance from_payload : FromJSON payload := fun _ =>
  from_struct
    [fld "collected_at" CollectedAt (fun r x => mkPayload x (Data r));
     fld "data" Data (fun r x => mkPayload (CollectedAt r) x)].

Record LogPayload := mkLogPayload { lp_Level : string; lp_Lines : list RawMessage }.
#[export] Instance zero_LogPayload : GoZero LogPayload := mkLogPayload go_zero go_zero.
#[export] Instance from_LogPayload : FromJSON LogPayload := fun _ =>
  from_struct
    [fld "level" lp_Level (fun r x => mkLogPayload x (lp_Lines r));
     fld "lines" lp_Lines (fun r x => mkLogPayload (lp_Level r) x)].

(** ** Marshalling *)

Definition encode_payload (p : payload) : option bytes :=
  match encode_time (json_time (CollectedAt p)), encode_raw_map (Data p) with
  | Some t, Some d => Some (encode_object [("collected_at", t); ("data", d)])
  | _, _ => None
  end.

Definition encode_LogPayload (p : LogPayload) : option bytes :=
  (fun lines => encode_object [("level", encode_string (lp_Level p)); ("lines", encode_array lines)])
  <$> mapM encode_raw (lp_Lines p).

Example encode_payload_example :
  string_of_bytes <$> encode_payload (mkPayload (mkJSONTime 1775001600500000000) {["height" := mkRaw (js " 12 ")]})
  = Some (string_of_bytes (jq "{'collected_at':'2026-04-01T00:00:00.5Z','data':{'height':12}}")).
Proof. vm_compute. reflexivity. Qed.

Example payload_read_back_example :
  let p := mkPayload (mkJSONTime 1775001600500000000) {["a<b" := mkRaw (jq "{'x':[1,2]}"); "h" := mkRaw (js "12")]} in
  (encode_payload p ≫= fun b => (Unmarshal b : option payload)) = Some p.
Proof. vm_compute. reflexivity. Qed.

(** ** What a sentinel marshals is what the watchtower unmarshals *)

(** The characters of a timestamp. *)
Definition time_char (a : ascii) : Prop := plain_char a /\ html_byte (byte_val a) = false.

Lemma pad_digits_time w n : Forall time_char (pad_digits w n).
Proof.
  revert n. induction w as [|w IH]; intros n; [constructor|]. cbn [pad_digits]. apply Forall_app_2; [apply IH|].
  apply Forall_singleton. pose proof (Z.mod_pos_bound n 10 ltac:(lia)). unfold time_char, plain_char, html_byte, digit_char.
  rewrite byte_val_of, Z.mod_small by lia. rewrite !orb_false_iff, !Z.eqb_neq. lia.
Qed.

Lemma format_nanos_time ns : Forall time_char (format_nanos ns).
Proof.
  unfold format_nanos. case_match; [constructor|]. constructor; [done|].
  destruct (drop_while_spec (fun a => Ascii.eqb a "0") (rev (pad_digits 9 ns)))%char as (zs & Hz & _).
  pose proof (pad_digits_time 9 ns) as Hp. rewrite <- (rev_involutive (pad_digits 9 ns)), Hz, rev_app_distr in Hp.
  by apply Forall_app in Hp as [Hp _].
Qed.

Lemma format_rfc3339nano_time t : Forall time_char (format_rfc3339nano t).
Proof.
  unfold format_rfc3339nano. destruct (civil_of_days _) as [[y m] d]. unfold format_date, format_clock.
  repeat first [apply pad_digits_time | apply format_nanos_time | apply Forall_app_2 | constructor; [done|] | constructor].
Qed.

Lemma str_text_plain s : Forall plain_char s -> str_text s s.
Proof. induction 1; by constructor. Qed.

Lemma JText_time n t b : encode_time t = Some b -> exists v, JText n b v /\ forall old, from_json b v old = Some (mkJSONTime t).
Proof.
  intros H. exists (JString (string_of_bytes (format_rfc3339nano t))). split; [|intros old; by apply encode_time_decode].
  unfold encode_time in H. destruct (in_range _ _ _); [|done]. apply Some_inj in H as <-. constructor.
  eexists. split; [reflexivity|]. apply str_text_plain.
  eapply List.Forall_impl; [|apply format_rfc3339nano_time]. by intros a [].
Qed.

(** A timestamp is compact already. *)
Lemma compact_body_time s z : Forall time_char s -> compact_body (s ++ z) true false = s ++ compact_body z true false.
Proof. induction 1 as [|a s [Ha Hh] _ IH]; [done|]. cbn [app]. by rewrite compact_plain, IH. Qed.

Lemma compact_quoted s : Forall time_char s -> compact (quote_char :: s ++ [quote_char]) = quote_char :: s ++ [quote_char].
Proof.
  intros Hs. change (compact (quote_char :: s ++ [quote_char])) with (quote_char :: compact_body (s ++ [quote_char]) true false).
  by rewrite compact_body_time.
Qed.

Lemma compact_time t b : encode_time t = Some b -> compact b = b.
Proof.
  unfold encode_time. destruct (in_range _ _ _); [|done]. intros H. apply Some_inj in H as <-.
  apply compact_quoted, format_rfc3339nano_time.
Qed.

(** The nesting of a raw message leaves room for the object and the map around it. *)
Definition raw_fits (r : RawMessage) : Prop := Z.of_nat (json_depth (raw_text r)) + 2 <= max_depth.
#[export] Instance raw_fits_dec r : Decision (raw_fits r).
Proof. unfold raw_fits. apply _. Defined.

Lemma raw_fits_room r : raw_fits r -> (json_depth (raw_text r) <= max_nat - 2)%nat.
Proof. unfold raw_fits, max_nat. lia. Qed.

Lemma max_nat_S2 : S (S (max_nat - 2)) = max_nat.
Proof. unfold max_nat. change max_depth with 10000. lia. Qed.

Lemma find_field_exact {A} (fs : list (field A)) name f :
  List.find (fun f => bool_decide (f_name f = name)) fs = Some f -> find_field fs name = Some f.
Proof. unfold find_field. by intros ->. Qed.

(** What the watchtower has of a payload: the raw messages in compact form. *)
Definition payload_sent (p : payload) : payload := mkPayload (CollectedAt p) (raw_sent <$> Data p).

Lemma payload_read_back p b :
  encode_payload p = Some b ->
  map_Forall (fun k r => valid_utf8 k /\ raw_fits r) (Data p) ->
  (Unmarshal b : option payload) = Some (payload_sent p).
Proof.
  unfold encode_payload. intros He Hm. destruct (encode_time _) as [bt|] eqn:Ht; [|done].
  destruct (encode_raw_map (Data p)) as [bd|] eqn:Hd; [|done]. apply Some_inj in He as <-.
  destruct (JText_time (S (max_nat - 2)) _ _ Ht) as (vt & Jt & Dt).
  destruct (encode_raw_map_decode (max_nat - 2) _ _ Hd) as (lv & Jd & Dd).
  { intros k r Hk. destruct (Hm k r Hk) as [Hv Hf]. split; [done|by apply raw_fits_room]. }
  assert (JText (S (S (max_nat - 2))) (encode_object [("collected_at", bt); ("data", bd)])
    (JObject [("collected_at", (bt, vt)); ("data", (bd, JObject lv))])) as HJ.
  { apply JText_encode_object. by repeat (constructor; [by split_and!|]). }
  rewrite (Unmarshal_text _ _ _ HJ) by (rewrite max_nat_S2; lia).
  unfold from_json at 1, from_payload, from_struct. cbn [fold_left fst snd].
  erewrite find_field_exact by reflexivity. cbn [fld f_set]. rewrite Dt. cbn [fmap option_fmap option_map CollectedAt Data].
  erewrite find_field_exact by reflexivity. cbn [fld f_set Data CollectedAt].
  change (Data go_zero) with (∅ : gmap string RawMessage). rewrite Dd. by destruct p as [[t] d].
Qed.

(** C18: Every payload a sentinel can marshal, whatever its keys and values and in whatever
    order Go writes the map, is unmarshalled by the watchtower to the same instant and the
    same map, each raw message with its white space gone and its HTML characters escaped;
    the keys must be valid UTF-8 and the messages must leave room for two levels of nesting
    below the decoder's limit. *)
Theorem payload_roundtrip p b :
  encode_payload p = Some b ->
  map_Forall (fun k r => valid_utf8 k /\ raw_fits r) (Data p) ->
  (Unmarshal b : option payload) = Some (payload_sent p).
Proof. apply payload_read_back. Qed.

Lemma payload_roundtrip_witness :
  let p := mkPayload (mkJSONTime 1775001600500000000)
    {["status" := mkRaw (jq " {'a<b': [1, -2.5e3 ]} "); "é" := mkRaw []]} in
  let b := default [] (encode_payload p) in
  encode_payload p = Some b
  /\ (Unmarshal b : option payload) = Some (mkPayload (mkJSONTime 1775001600500000000)
       {["status" := mkRaw (jq "{'a\u003cb':[1,-2.5e3]}"); "é" := mkRaw (js "null")]}).
Proof.
  set (p := mkPayload _ _). set (b := default [] (encode_payload p)). cbv zeta.
  assert (encode_payload p = Some b) as He by (vm_compute; reflexivity). split; [exact He|].
  assert (payload_sent p = mkPayload (mkJSONTime 1775001600500000000)
       {["status" := mkRaw (jq "{'a\u003cb':[1,-2.5e3]}"); "é" := mkRaw (js "null")]}) as <- by (vm_compute; reflexivity).
  apply (payload_roundtrip p b He). apply (bool_decide_unpack _). vm_compute. exact I.
Defined.

Definition LogPayload_sent (p : LogPayload) : LogPayload := mkLogPayload (lp_Level p) (map raw_sent (lp_Lines p)).

Lemma from_list_texts {A} `{FromJSON A, GoZero A} (g : bytes -> A) l lv t old :
  length l = length lv -> (forall t v old, from_json t v old = Some (g t)) ->
  from_json t (JArray (zip l lv)) old = Some (map g l).
Proof.
  intros Hl Hg. unfold from_json at 1, from_list. revert lv old Hl. induction l as [|x l IH]; intros [|v lv] old Hl; try done.
  cbn [zip_with from_elements fst snd map]. injection Hl as Hl. rewrite (IH lv _ Hl). by rewrite Hg.
Qed.

Lemma lines_text n l bs :
  mapM encode_raw l = Some bs -> Forall (fun r => json_depth (raw_text r) <= n)%nat l ->
  bs = map (fun r => raw_text (raw_sent r)) l /\ exists lv, Forall2 (JText n) bs lv.
Proof.
  intros Hl%mapM_Some. induction Hl as [|r b l bs Hr _ IH]; intros Hd; [split; [done|by exists []]|].
  apply Forall_cons_1 in Hd as [Hd1 Hd2]. destruct (IH Hd2) as [-> [lv Hlv]].
  destruct (encode_raw_J _ _ n Hr Hd1) as [-> [v HJ]]. split; [done|]. exists (v :: lv). by constructor.
Qed.

Lemma LogPayload_read_back p b :
  encode_LogPayload p = Some b ->
  valid_utf8 (lp_Level p) -> Forall raw_fits (lp_Lines p) ->
  (Unmarshal b : option LogPayload) = Some (LogPayload_sent p).
Proof.
  unfold encode_LogPayload. intros (bs & Hl & ->)%fmap_Some Hu Hf.
  apply (lines_text (max_nat - 2)) in Hl as [-> [lv Hlv]].
  2: { revert Hf. apply Forall_impl. intros r. apply raw_fits_room. }
  pose proof (Forall2_length Hlv) as Hlen.
  assert (JText (S (S (max_nat - 2))) (encode_object
     [("level", encode_string (lp_Level p)); ("lines", encode_array (map (fun r => raw_text (raw_sent r)) (lp_Lines p)))])
    (JObject [("level", (encode_string (lp_Level p), JString (sanitize (lp_Level p))));
       ("lines", (encode_array (map (fun r => raw_text (raw_sent r)) (lp_Lines p)),
          JArray (zip (map (fun r => raw_text (raw_sent r)) (lp_Lines p)) lv)))])) as HJ.
  { apply JText_encode_object. constructor; [split_and!; [done|done|apply JText_encode_string]|].
    constructor; [split_and!; [done|done|by apply JText_encode_array]|constructor]. }
  rewrite (Unmarshal_text _ _ _ HJ) by (rewrite max_nat_S2; lia).
  unfold from_json at 1, from_LogPayload, from_struct. cbn [fold_left fst snd].
  erewrite find_field_exact by reflexivity. cbn [fld f_set].
  change (from_json _ (JString (sanitize (lp_Level p))) _) with (Some (sanitize (lp_Level p))). cbn [fmap option_fmap option_map].
  erewrite find_field_exact by reflexivity. cbn [fld f_set lp_Level lp_Lines].
  rewrite (from_list_texts mkRaw) by done. rewrite Hu, map_map. unfold LogPayload_sent. cbn. do 2 f_equal.
  apply map_ext. intros r. by destruct (raw_sent r).
Qed.

(** Every batch of log lines a sentinel can marshal is unmarshalled by the watchtower to
    the same level and the same lines in the same order, in compact form. *)
Theorem LogPayload_roundtrip p b :
  encode_LogPayload p = Some b ->
  valid_utf8 (lp_Level p) -> Forall raw_fits (lp_Lines p) ->
  (Unmarshal b : option LogPayload) = Some (LogPayload_sent p).
Proof. apply LogPayload_read_back. Qed.

Lemma LogPayload_roundtrip_witness :
  let p := mkLogPayload "warn" [mkRaw (jq "{ 'level': 'warn' }"); mkRaw (jq "{'msg':'a&b'}")] in
  (encode_LogPayload p ≫= fun b => (Unmarshal b : option LogPayload))
  = Some (mkLogPayload "warn" [mkRaw (jq "{'level':'warn'}"); mkRaw (jq "{'msg':'a\u0026b'}")]).
Proof.
  set (p := mkLogPayload _ _). cbv zeta. set (b := default [] (encode_LogPayload p)).
  assert (encode_LogPayload p = Some b) as He by (vm_compute; reflexivity). rewrite He. cbn [mbind option_bind].
  assert (LogPayload_sent p = mkLogPayload "warn" [mkRaw (jq "{'level':'warn'}"); mkRaw (jq "{'msg':'a\u0026b'}")]) as <-
    by (vm_compute; reflexivity).
  apply (LogPayload_roundtrip p b He); apply (bool_decide_unpack _); vm_compute; exact I.
Defined.
