(* ===== verification/Gpub.v ===== *)
(** * pkg/gpub

    The bech32 form of an ed25519 key. Bytes and 5-bit groups are [Z]; [polymod] works on
    32-bit words and the accumulator of [convertBits] on a 64-bit one. *)

From Stdlib Require Import Ascii.
From S2P Require Import Prelude GoStrings.

Local Open Scope Z_scope.

(** ** Base64 *)

Definition base64_val (a : ascii) : option Z :=
  let z := byte_val a in
  if (65 <=? z) && (z <=? 90) then Some (z - 65)
  else if (97 <=? z) && (z <=? 122) then Some (z - 71)
  else if (48 <=? z) && (z <=? 57) then Some (z + 4)
  else if z =? 43 then Some 62
  else if z =? 47 then Some 63
  else None.

Definition is_newline (a : ascii) : bool := (byte_val a =? 10) || (byte_val a =? 13).

Definition pad_byte : ascii := "=".

(** Groups of four characters; padding only at the very end. The bits a padded group
    leaves over are ignored. *)
Fixpoint base64_groups (s : bytes) : option bytes :=
  match s with
  | [] => Some []
  | a :: b :: c :: d :: s' =>
      match base64_val a, base64_val b with
      | Some x, Some y =>
          match base64_val c, base64_val d with
          | Some z, Some w =>
              match base64_groups s' with
              | Some r => Some (byte_of (x * 4 + y / 16) :: byte_of (y * 16 + z / 4)
                                :: byte_of (z * 64 + w) :: r)
              | None => None
              end
          | Some z, None =>
              if Ascii.eqb d pad_byte && bool_decide (s' = [])
              then Some [byte_of (x * 4 + y / 16); byte_of (y * 16 + z / 4)] else None
          | None, _ =>
              if Ascii.eqb c pad_byte && Ascii.eqb d pad_byte && bool_decide (s' = [])
              then Some [byte_of (x * 4 + y / 16)] else None
          end
      | _, _ => None
      end
  | _ => None
  end.

(** [base64.StdEncoding.DecodeString]: carriage returns and newlines are skipped. *)
Definition base64_decode (s : string) : option bytes :=
  base64_groups (List.filter (fun a => negb (is_newline a)) (bytes_of_string s)).

(** ** bech32 *)

Definition charset : string := "qpzry9x8gf2tvdw0s3jn54khce6mua7l".

Definition bech32Gen : list Z := [0x3b6a57b2; 0x26508e6d; 0x1ea119fa; 0x3d4233dd; 0x2a1462b3].

(** The inner loop of [convertBits]: emits groups while there are enough bits. One byte
    holds at most [fromBits / toBits + 1] further groups. *)
Fixpoint emit_groups (fuel : nat) (acc bits toBits : Z) : Z * list Z :=
  match fuel with
  | O => (bits, [])
  | S f =>
      if toBits <=? bits then
        let bits := bits - toBits in
        let g := Z.land (Z.shiftr acc bits) (2 ^ toBits - 1) in
        let '(b, r) := emit_groups f acc bits toBits in (b, g mod 256 :: r)
      else (bits, [])
  end.

Fixpoint convert_loop (data : list Z) (acc bits fromBits toBits : Z) : Z * Z * list Z :=
  match data with
  | [] => (acc, bits, [])
  | b :: data' =>
      let acc := Z.lor (uwrap64 (Z.shiftl acc fromBits)) b in
      let '(bits, out) := emit_groups (Z.to_nat (bits + fromBits)) acc (bits + fromBits) toBits in
      let '(acc, bits, out') := convert_loop data' acc bits fromBits toBits in
      (acc, bits, out ++ out')
  end.

Definition convertBits (data : list Z) (fromBits toBits : Z) (pad : bool) : list Z :=
  let '(acc, bits, out) := convert_loop data 0 0 fromBits toBits in
  if pad && (0 <? bits)
  then out ++ [Z.land (uwrap64 (Z.shiftl acc (toBits - bits))) (2 ^ toBits - 1) mod 256]
  else out.

(** One value of [polymod] on a 32-bit word. *)
Definition polymod_step (chk v : Z) : Z :=
  let top := Z.shiftr chk 25 in
  let chk := Z.lxor (Z.shiftl (Z.land chk 0x1ffffff) 5) v in
  fold_left (fun c p => if Z.testbit top (Z.of_nat p.1) then Z.lxor c p.2 else c)
    (imap (fun i g => (i, g)) bech32Gen) chk.

Definition polymod (values : list Z) : Z := fold_left polymod_step values 1.

(** [for i, c := range hrp]: the runes with the positions of their first bytes. The fuel is
    the length: every rune has a byte of its own. *)
Fixpoint runes_from (fuel i : nat) (s : bytes) : list (nat * Z) :=
  match fuel, s with
  | S f, _ :: _ => let '(c, w) := decode_rune s in (i, c) :: runes_from f (i + w) (drop w s)
  | _, _ => []
  end.

(** The result has room for two entries a byte: what belongs to the second and later bytes of
    a rune stays zero. [byte(c)] drops the high bits of a rune. *)
Definition hrpExpand (hrp : string) : list Z :=
  let b := bytes_of_string hrp in
  fold_left (fun out p => <[(p.1 + length b + 1)%nat := Z.land (p.2 mod 256) 31]> (<[p.1 := Z.shiftr (p.2 mod 256) 5]> out))
    (runes_from (length b) 0 b) (repeat 0 (2 * length b + 1)).

Example hrpExpand_examples :
  hrpExpand "gpub" = [3; 3; 3; 3; 0; 7; 16; 21; 2]
  /\ hrpExpand (string_of_bytes (map byte_of [195; 169; 103])) = [7; 0; 3; 0; 9; 0; 7].
Proof. vm_compute. by split. Qed.

Definition checksum_of (pm : Z) : list Z :=
  map (fun i => Z.land (Z.shiftr pm (5 * (5 - i))) 31) [0; 1; 2; 3; 4; 5].

Definition createChecksum (hrp : string) (data : list Z) : list Z :=
  let values := hrpExpand hrp ++ data ++ [0; 0; 0; 0; 0; 0] in
  checksum_of (Z.lxor (polymod values) 1).

Definition vals (s : bytes) : list Z := map byte_val s.

(** [None] is the index panic of [charset[b]]. *)
Definition charset_at (b : Z) : option ascii := bytes_of_string charset !! Z.to_nat b.

Definition bech32Encode (hrp : string) (data : bytes) : option string :=
  let d5 := convertBits (vals data) 8 5 true in
  let combined := d5 ++ createChecksum hrp d5 in
  match mapM charset_at combined with
  | Some cs => Some (hrp +:+ "1" +:+ string_of_bytes cs)
  | None => None
  end.

Definition encodeEd25519 (pk : bytes) : option string :=
  let typeURL := bytes_of_string "/tm.PubKeyEd25519" in
  let wrapped := [byte_of 10; byte_of (Z.of_nat (length typeURL))] ++ typeURL
                 ++ [byte_of 18; byte_of 34; byte_of 10; byte_of 32] ++ pk in
  bech32Encode "gpub" wrapped.

Inductive gpub_error := ErrBase64 | ErrKeyLength (got : nat).

(** The panic of [bech32Encode] would be [None] inside; it does not happen. *)
Definition EncodeEd25519FromBase64 (b64 : string) : result (option string) gpub_error :=
  match base64_decode b64 with
  | None => Err ErrBase64
  | Some raw =>
      if negb (bool_decide (length raw = 32%nat)) then Err (ErrKeyLength (length raw))
      else Ok (encodeEd25519 raw)
  end.

(** The key of the package's test. *)
Example EncodeEd25519_example :
  EncodeEd25519FromBase64 "mKsg1XPxANeixURll0tm+FdymdT7qyOMs8h0lliCK6w="
  = Ok (Some "gpub1pggj7ard9eg82cjtv4u52epjx56nzwgjyg9zpx9tyr2h8ugq673v23r9ja9kd7zhw2vaf7atywxt8jr5jevgy2avyp9krz").
Proof. vm_compute. reflexivity. Qed.

(** * Properties *)

(** ** The checksum is linear *)

Definition gen_sum (top : Z) : Z :=
  fold_left (fun c p => if Z.testbit top (Z.of_nat p.1) then Z.lxor c p.2 else c)
    (imap (fun i g => (i, g)) bech32Gen) 0.

Definition shift5 (c : Z) : Z := Z.shiftl (Z.land c 0x1ffffff) 5.
Definition poly_L (c : Z) : Z := Z.lxor (shift5 c) (gen_sum (Z.shiftr c 25)).

Lemma fold_gens_acc top x :
  fold_left (fun c p => if Z.testbit top (Z.of_nat p.1) then Z.lxor c p.2 else c)
    (imap (fun i g => (i, g)) bech32Gen) x = Z.lxor x (gen_sum top).
Proof.
  unfold gen_sum. generalize (imap (fun i g => (i, g)) bech32Gen) as l. intros l. revert x.
  assert (H : forall l x, fold_left (fun c (p : nat * Z) => if Z.testbit top (Z.of_nat p.1) then Z.lxor c p.2 else c) l x
    = Z.lxor x (fold_left (fun c (p : nat * Z) => if Z.testbit top (Z.of_nat p.1) then Z.lxor c p.2 else c) l 0)).
  { clear l. induction l as [|p l IH]; intros x; cbn [fold_left]; [by rewrite Z.lxor_0_r|].
    rewrite IH, (IH (if Z.testbit _ _ then _ else 0)).
    destruct (Z.testbit top _); [|done]. by rewrite Z.lxor_0_l, Z.lxor_assoc. }
  intros x. apply H.
Qed.

Lemma polymod_step_L c v : polymod_step c v = Z.lxor (poly_L c) v.
Proof.
  unfold polymod_step, poly_L. rewrite fold_gens_acc. fold (shift5 c).
  by rewrite Z.lxor_assoc, (Z.lxor_comm v), Z.lxor_assoc.
Qed.

Lemma gen_sum_lxor a b : gen_sum (Z.lxor a b) = Z.lxor (gen_sum a) (gen_sum b).
Proof.
  unfold gen_sum. cbn -[Z.testbit Z.lxor Z.of_nat]. rewrite !Z.lxor_spec.
  destruct (Z.testbit a (Z.of_nat 0)), (Z.testbit a (Z.of_nat 1)), (Z.testbit a (Z.of_nat 2)),
    (Z.testbit a (Z.of_nat 3)), (Z.testbit a (Z.of_nat 4)),
    (Z.testbit b (Z.of_nat 0)), (Z.testbit b (Z.of_nat 1)), (Z.testbit b (Z.of_nat 2)),
    (Z.testbit b (Z.of_nat 3)), (Z.testbit b (Z.of_nat 4)); reflexivity.
Qed.

Lemma land_lxor_distr a b m : Z.land (Z.lxor a b) m = Z.lxor (Z.land a m) (Z.land b m).
Proof.
  apply Z.bits_inj'. intros n _. rewrite !Z.land_spec, !Z.lxor_spec, !Z.land_spec.
  by destruct (Z.testbit a n), (Z.testbit b n), (Z.testbit m n).
Qed.

Lemma lxor_bound n a b : 0 <= n -> 0 <= a < 2 ^ n -> 0 <= b < 2 ^ n -> 0 <= Z.lxor a b < 2 ^ n.
Proof.
  intros Hn Ha Hb.
  assert (Z.lxor a b = Z.lxor a b mod 2 ^ n) as ->; [|apply Z.mod_pos_bound; lia].
  rewrite <- Z.land_ones, land_lxor_distr, !Z.land_ones, !Z.mod_small by lia. done.
Qed.

Lemma poly_L_lxor a b : poly_L (Z.lxor a b) = Z.lxor (poly_L a) (poly_L b).
Proof.
  unfold poly_L, shift5. rewrite Z.shiftr_lxor, gen_sum_lxor, land_lxor_distr, Z.shiftl_lxor.
  rewrite !Z.lxor_assoc. f_equal. rewrite <- !Z.lxor_assoc. f_equal. apply Z.lxor_comm.
Qed.

Lemma poly_L_small c : 0 <= c < 2 ^ 25 -> poly_L c = Z.shiftl c 5.
Proof.
  intros H. unfold poly_L, shift5. rewrite (Z.shiftr_div_pow2 c 25), Z.div_small by lia.
  change (gen_sum 0) with 0. rewrite Z.lxor_0_r. f_equal.
  change 0x1ffffff with (Z.ones 25). by rewrite Z.land_ones, Z.mod_small by lia.
Qed.

Lemma poly_L_range c : 0 <= poly_L c < 2 ^ 30.
Proof.
  unfold poly_L. apply lxor_bound; [lia|..].
  - unfold shift5. change 0x1ffffff with (Z.ones 25). rewrite Z.land_ones by lia.
    rewrite Z.shiftl_mul_pow2 by lia. pose proof (Z.mod_pos_bound c (2 ^ 25)). lia.
  - unfold gen_sum. cbn -[Z.testbit Z.lxor Z.of_nat].
    destruct (Z.testbit _ (Z.of_nat 0)), (Z.testbit _ (Z.of_nat 1)), (Z.testbit _ (Z.of_nat 2)),
      (Z.testbit _ (Z.of_nat 3)), (Z.testbit _ (Z.of_nat 4)); vm_compute; split; congruence.
Qed.

(** Six groups taken from a 30-bit word put the word together again. *)
Lemma groups_of_word pm :
  0 <= pm < 2 ^ 30 ->
  Z.lxor (Z.shiftl (Z.land (Z.shiftr pm 25) 31) 25)
    (Z.lxor (Z.shiftl (Z.land (Z.shiftr pm 20) 31) 20)
       (Z.lxor (Z.shiftl (Z.land (Z.shiftr pm 15) 31) 15)
          (Z.lxor (Z.shiftl (Z.land (Z.shiftr pm 10) 31) 10)
             (Z.lxor (Z.shiftl (Z.land (Z.shiftr pm 5) 31) 5) (Z.land (Z.shiftr pm 0) 31))))) = pm.
Proof.
  intros H. apply Z.bits_inj'. intros n Hn.
  assert (Hbit : forall k, 0 <= k -> Z.testbit (Z.shiftl (Z.land (Z.shiftr pm k) 31) k) n
    = (k <=? n) && (n <? k + 5) && Z.testbit pm n).
  { intros k Hk. destruct (Z.leb_spec k n).
    - rewrite Z.shiftl_spec_high by lia. change 31 with (Z.ones 5).
      destruct (Z.ltb_spec n (k + 5)).
      + rewrite Z.land_spec, Z.ones_spec_low, Z.shiftr_spec, andb_true_r by lia. cbn.
        f_equal. lia.
      + by rewrite Z.land_spec, Z.ones_spec_high, andb_false_r by lia.
    - by rewrite Z.shiftl_spec_low by lia. }
  rewrite !Z.lxor_spec, !Hbit by lia. rewrite <- (Z.shiftl_0_r (Z.land _ 31)), Hbit by lia.
  destruct (Z.leb_spec 30 n).
  - rewrite <- (Z.mod_small pm (2 ^ 30)), Z.mod_pow2_bits_high by lia. by rewrite !andb_false_r.
  - destruct (Z.testbit pm n); rewrite ?andb_false_r, ?andb_true_r; [|done].
    destruct (Z.leb_spec 25 n), (Z.leb_spec 20 n), (Z.leb_spec 15 n), (Z.leb_spec 10 n),
      (Z.leb_spec 5 n), (Z.leb_spec 0 n), (Z.ltb_spec n (25 + 5)), (Z.ltb_spec n (20 + 5)),
      (Z.ltb_spec n (15 + 5)), (Z.ltb_spec n (10 + 5)), (Z.ltb_spec n (5 + 5)),
      (Z.ltb_spec n (0 + 5)); try lia; done.
Qed.

Lemma land31_range x : 0 <= Z.land x 31 < 32.
Proof. change 31 with (Z.ones 5). rewrite Z.land_ones by lia. apply Z.mod_pos_bound. lia. Qed.

(** Running [polymod] on over the checksum of its own continuation gives 1. *)
Lemma polymod_checksum s :
  fold_left polymod_step
    (checksum_of (Z.lxor (fold_left polymod_step [0; 0; 0; 0; 0; 0] s) 1)) s = 1.
Proof.
  set (pm := Z.lxor _ 1).
  assert (Hs6 : fold_left polymod_step [0; 0; 0; 0; 0; 0] s
    = poly_L (poly_L (poly_L (poly_L (poly_L (poly_L s)))))).
  { cbn [fold_left]. by rewrite !polymod_step_L, !Z.lxor_0_r. }
  assert (Hpm : 0 <= pm < 2 ^ 30).
  { unfold pm. rewrite Hs6. apply lxor_bound; [lia|apply poly_L_range|lia]. }
  unfold checksum_of. cbn [map fold_left Z.sub Z.mul]. rewrite !polymod_step_L.
  change (5 * (5 - 0)) with 25. change (5 * (5 - 1)) with 20. change (5 * (5 - 2)) with 15.
  change (5 * (5 - 3)) with 10. change (5 * (5 - 4)) with 5. change (5 * (5 - 5)) with 0.
  set (c0 := Z.land (Z.shiftr pm 25) 31). set (c1 := Z.land (Z.shiftr pm 20) 31).
  set (c2 := Z.land (Z.shiftr pm 15) 31). set (c3 := Z.land (Z.shiftr pm 10) 31).
  set (c4 := Z.land (Z.shiftr pm 5) 31). set (c5 := Z.land (Z.shiftr pm 0) 31).
  rewrite !poly_L_lxor.
  assert (HL : forall k c, 0 <= c < 32 -> 0 <= k <= 20 -> poly_L (Z.shiftl c k) = Z.shiftl c (k + 5)).
  { intros k c Hc Hk. rewrite poly_L_small; [by rewrite Z.shiftl_shiftl by lia|].
    rewrite Z.shiftl_mul_pow2 by lia. split; [lia|].
    apply Z.lt_le_trans with (32 * 2 ^ k); [apply Z.mul_lt_mono_pos_r; lia|].
    change 32 with (2 ^ 5). rewrite <- Z.pow_add_r by lia. apply Z.pow_le_mono_r; lia. }
  assert (H1 : forall c, 0 <= c < 32 -> poly_L c = Z.shiftl c 5).
  { intros c Hc. apply poly_L_small. lia. }
  assert (Hr : 0 <= c0 < 32 /\ 0 <= c1 < 32 /\ 0 <= c2 < 32 /\ 0 <= c3 < 32 /\ 0 <= c4 < 32)
    by (repeat split; apply land31_range).
  destruct Hr as (R0 & R1 & R2 & R3 & R4).
  rewrite (H1 c0), (H1 c1), (H1 c2), (H1 c3), (H1 c4), (HL 5 c0), (HL 5 c1), (HL 5 c2), (HL 5 c3) by lia.
  change (5 + 5) with 10. rewrite (HL 10 c0), (HL 10 c1), (HL 10 c2) by lia.
  change (10 + 5) with 15. rewrite (HL 15 c0), (HL 15 c1) by lia.
  change (15 + 5) with 20. rewrite (HL 20 c0) by lia. change (20 + 5) with 25.
  pose proof (groups_of_word pm Hpm) as Hg. fold c0 c1 c2 c3 c4 c5 in Hg.
  rewrite <- Hs6. rewrite !Z.lxor_assoc. rewrite Hg. unfold pm.
  by rewrite <- Z.lxor_assoc, Z.lxor_nilpotent.
Qed.

Lemma createChecksum_valid hrp data :
  polymod (hrpExpand hrp ++ data ++ createChecksum hrp data) = 1.
Proof.
  unfold polymod, createChecksum. rewrite !app_assoc, !fold_left_app.
  set (s := fold_left polymod_step data _).
  unfold polymod. rewrite !fold_left_app. fold s. apply polymod_checksum.
Qed.

(** ** Regrouping loses nothing *)

(** The number that digits spell in a base. *)
Definition digits_from (base v : Z) (l : list Z) : Z := fold_left (fun n d => n * base + d) l v.
Definition number (base : Z) (l : list Z) : Z := digits_from base 0 l.

Lemma digits_from_acc base v l : digits_from base v l = v * base ^ Z.of_nat (length l) + number base l.
Proof.
  unfold number, digits_from. revert v. induction l as [|d l IH]; intros v; cbn [fold_left length].
  - change (Z.of_nat 0) with 0. rewrite Z.pow_0_r. lia.
  - rewrite IH, (IH (0 * base + d)), Nat2Z.inj_succ, Z.pow_succ_r by lia. lia.
Qed.

Lemma number_app base a b : number base (a ++ b) = number base a * base ^ Z.of_nat (length b) + number base b.
Proof. unfold number at 1, digits_from. rewrite fold_left_app. apply digits_from_acc. Qed.

Lemma number_cons base d l : number base (d :: l) = d * base ^ Z.of_nat (length l) + number base l.
Proof. unfold number at 1. cbn. rewrite Z.mul_0_l || idtac. apply digits_from_acc. Qed.

Definition is_group (v : Z) : Prop := 0 <= v < 32.

(** Emitting groups splits the pending bits. *)
Lemma emit_groups_spec fuel acc bits :
  0 <= acc -> 0 <= bits <= Z.of_nat fuel ->
  let '(bits', out) := emit_groups fuel acc bits 5 in
  0 <= bits' < 5 \/ fuel = 0%nat ->
  bits = bits' + 5 * Z.of_nat (length out) /\ Forall is_group out
  /\ (0 < bits -> 0 <= bits' < 5)
  /\ acc mod 2 ^ bits = number 32 out * 2 ^ bits' + acc mod 2 ^ bits'.
Proof.
  revert bits. induction fuel as [|f IH]; intros bits Ha Hb; cbn [emit_groups].
  - intros _. assert (bits = 0) as -> by lia. cbn. repeat split; try done; lia.
  - destruct (Z.leb_spec 5 bits) as [Hge|Hlt].
    + specialize (IH (bits - 5) Ha ltac:(lia)).
      destruct (emit_groups f acc (bits - 5) 5) as [b r].
      intros Hb'. destruct IH as (H1 & H2 & H3 & H4).
      { destruct Hb' as [|]; [by left|lia]. }
      set (g := Z.land (Z.shiftr acc (bits - 5)) (2 ^ 5 - 1)).
      assert (Hg : g = (acc / 2 ^ (bits - 5)) mod 32).
      { unfold g. change (2 ^ 5 - 1) with (Z.ones 5). rewrite Z.land_ones, Z.shiftr_div_pow2 by lia. done. }
      pose proof (Z.mod_pos_bound (acc / 2 ^ (bits - 5)) 32 ltac:(lia)) as Hgr.
      rewrite <- Hg in Hgr. rewrite (Z.mod_small g 256) by lia.
      split; [cbn [length]; lia|]. split; [by constructor|].
      split; [destruct Hb' as [|]; lia|].
      assert (Hpow : 2 ^ bits = 2 ^ (bits - 5) * 32).
      { change 32 with (2 ^ 5). rewrite <- Z.pow_add_r by lia. f_equal. lia. }
      rewrite Hpow, Z.rem_mul_r by lia. rewrite <- Hg, H4, number_cons.
      assert (2 ^ (bits - 5) = 32 ^ Z.of_nat (length r) * 2 ^ b) as ->; [|lia].
      destruct (Z.eq_dec (bits - 5) 0) as [E|E].
      { assert (b = 0 /\ length r = 0%nat) as [-> ->]; [|by rewrite E].
        assert (0 <= b) by (destruct Hb' as [|]; lia). lia. }
      specialize (H3 ltac:(lia)). change 32 with (2 ^ 5). rewrite <- Z.pow_mul_r, <- Z.pow_add_r by lia.
      f_equal. lia.
    + intros _. cbn. repeat split; try done; lia.
Qed.

Lemma emit_groups_bits fuel acc bits :
  0 <= bits <= Z.of_nat fuel -> 0 <= (emit_groups fuel acc bits 5).1 < 5.
Proof.
  revert bits. induction fuel as [|f IH]; intros bits Hb; cbn [emit_groups]; [cbn; lia|].
  destruct (Z.leb_spec 5 bits); [|cbn; lia].
  specialize (IH (bits - 5) ltac:(lia)). by destruct (emit_groups f acc (bits - 5) 5).
Qed.

Definition is_byte (v : Z) : Prop := 0 <= v < 256.

(** One byte enters the accumulator; its high bits may be lost, the pending ones are not. *)
Lemma acc_step acc bits b :
  0 <= acc -> 0 <= bits < 5 -> is_byte b ->
  let acc' := Z.lor (uwrap64 (Z.shiftl acc 8)) b in
  0 <= acc' /\ acc' mod 2 ^ (bits + 8) = (acc mod 2 ^ bits) * 256 + b.
Proof.
  intros Ha Hbits Hb. cbn zeta. unfold is_byte in Hb.
  assert (Hw : uwrap64 (Z.shiftl acc 8) = (acc mod 2 ^ 56) * 256).
  { unfold uwrap64. rewrite Z.shiftl_mul_pow2 by lia. change two64 with (2 ^ 56 * 2 ^ 8).
    change 256 with (2 ^ 8). by rewrite Z.mul_mod_distr_r by lia. }
  pose proof (Z.mod_pos_bound acc (2 ^ 56) ltac:(lia)) as Hm.
  assert (Hlor : Z.lor (uwrap64 (Z.shiftl acc 8)) b = acc mod 2 ^ 56 * 256 + b).
  { rewrite <- Z.add_nocarry_lor; [by rewrite Hw|]. rewrite Hw. apply Z.bits_inj'. intros n Hn.
    rewrite Z.land_spec, Z.bits_0. change 256 with (2 ^ 8). rewrite <- Z.shiftl_mul_pow2 by lia.
    destruct (Z.ltb_spec n 8).
    - by rewrite Z.shiftl_spec_low by lia.
    - rewrite <- (Z.mod_small b (2 ^ 8)) by lia. rewrite Z.mod_pow2_bits_high by lia.
      apply andb_false_r. }
  rewrite Hlor. split; [lia|].
  rewrite Z.pow_add_r by lia. change (2 ^ 8) with 256.
  rewrite Z.add_mul_mod_distr_r by lia. do 2 f_equal.
  assert (Hp : 2 ^ 56 = 2 ^ bits * 2 ^ (56 - bits)) by (rewrite <- Z.pow_add_r by lia; f_equal; lia).
  rewrite Hp, Z.rem_mul_r by lia. rewrite Z.mul_comm, Z.mod_add by lia. apply Z.mod_mod. lia.
Qed.

Lemma convert_loop_spec data acc bits :
  Forall is_byte data -> 0 <= acc -> 0 <= bits < 5 ->
  let '(acc', bits', out) := convert_loop data acc bits 8 5 in
  0 <= acc' /\ 0 <= bits' < 5 /\ Forall is_group out
  /\ bits + 8 * Z.of_nat (length data) = bits' + 5 * Z.of_nat (length out)
  /\ digits_from 256 (acc mod 2 ^ bits) data = number 32 out * 2 ^ bits' + acc' mod 2 ^ bits'.
Proof.
  revert acc bits. induction data as [|b data IH]; intros acc bits Hd Ha Hb; cbn [convert_loop].
  { cbn. repeat split; try done; lia. }
  apply Forall_cons_iff in Hd as [Hb0 Hd].
  pose proof (acc_step acc bits b Ha Hb Hb0) as [Ha1 Hmod]. cbn zeta in *.
  set (acc1 := Z.lor _ b) in *. set (fuel := Z.to_nat (bits + 8)).
  assert (Hfuel : 0 <= bits + 8 <= Z.of_nat fuel) by (unfold fuel; lia).
  pose proof (emit_groups_spec fuel acc1 (bits + 8) Ha1 Hfuel) as He.
  pose proof (emit_groups_bits fuel acc1 (bits + 8) Hfuel) as Hbits1.
  destruct (emit_groups fuel acc1 (bits + 8) 5) as [bits1 out1]. cbn [fst] in Hbits1.
  destruct (He (or_introl Hbits1)) as (H1 & H2 & _ & H4).
  specialize (IH acc1 bits1 Hd Ha1 Hbits1).
  destruct (convert_loop data acc1 bits1 8 5) as [[acc2 bits2] out2].
  destruct IH as (A1 & A2 & A3 & A4 & A5).
  split; [done|]. split; [done|]. split; [by apply Forall_app|].
  split; [rewrite length_app; cbn [length]; lia|].
  change (digits_from 256 (acc mod 2 ^ bits) (b :: data))
    with (digits_from 256 (acc mod 2 ^ bits * 256 + b) data).
  rewrite <- Hmod, H4, number_app, !digits_from_acc in *.
  assert (Hpow : 2 ^ bits1 * 256 ^ Z.of_nat (length data) = 32 ^ Z.of_nat (length out2) * 2 ^ bits2).
  { change 256 with (2 ^ 8). change 32 with (2 ^ 5). rewrite <- !Z.pow_mul_r, <- !Z.pow_add_r by lia.
    f_equal. lia. }
  rewrite Z.mul_add_distr_r, <- Z.mul_assoc, Hpow. lia.
Qed.

Lemma pow_split b : 0 <= b <= 5 -> 2 ^ b * 2 ^ (5 - b) = 32.
Proof. intros. rewrite <- Z.pow_add_r by lia. by replace (b + (5 - b)) with 5 by lia. Qed.

(** The last, padded group. *)
Lemma last_group acc bits :
  0 <= acc -> 0 < bits < 5 ->
  let g := Z.land (uwrap64 (Z.shiftl acc (5 - bits))) (2 ^ 5 - 1) mod 256 in
  g = acc mod 2 ^ bits * 2 ^ (5 - bits) /\ is_group g.
Proof.
  intros Ha Hb. cbn zeta. pose proof (pow_split bits ltac:(lia)) as Hp.
  pose proof (Z.mod_pos_bound acc (2 ^ bits) ltac:(lia)) as Hm.
  assert (Hlt : 0 <= acc mod 2 ^ bits * 2 ^ (5 - bits) < 32).
  { split; [apply Z.mul_nonneg_nonneg; lia|]. rewrite <- Hp. apply Z.mul_lt_mono_pos_r; lia. }
  unfold uwrap64. change (2 ^ 5 - 1) with (Z.ones 5). rewrite Z.land_ones by lia.
  rewrite Z.shiftl_mul_pow2 by lia. change two64 with (32 * 2 ^ 59). change (2 ^ 5) with 32.
  rewrite Z.rem_mul_r, (Z.mul_comm 32), Z.mod_add, Z.mod_mod by lia.
  rewrite <- Hp, Z.mul_mod_distr_r by lia. rewrite Z.mod_small by lia. done.
Qed.

(** The groups of [convertBits data 8 5 true] spell the same number, shifted by the padding. *)
Lemma convertBits_spec data :
  Forall is_byte data ->
  exists pad, 0 <= pad < 5 /\ Forall is_group (convertBits data 8 5 true)
  /\ 5 * Z.of_nat (length (convertBits data 8 5 true)) = 8 * Z.of_nat (length data) + pad
  /\ number 32 (convertBits data 8 5 true) = number 256 data * 2 ^ pad.
Proof.
  intros Hd. unfold convertBits.
  pose proof (convert_loop_spec data 0 0 Hd ltac:(lia) ltac:(lia)) as H.
  destruct (convert_loop data 0 0 8 5) as [[acc bits] out]. destruct H as (H1 & H2 & H3 & H4 & H5).
  change (digits_from 256 (0 mod 2 ^ 0) data) with (number 256 data) in H5.
  destruct (Z.ltb_spec 0 bits) as [Hpos|Hz]; cbn [andb].
  - exists (5 - bits). split; [lia|].
    pose proof (last_group acc bits H1 ltac:(lia)) as [Hg Hgr]. cbn zeta in *.
    set (g := Z.land _ _ mod 256) in *. clearbody g.
    split; [apply Forall_app; split; [done|by constructor]|].
    split; [rewrite length_app; cbn [length]; lia|].
    rewrite number_app, H5. cbn [length]. change (32 ^ Z.of_nat 1) with 32.
    change (number 32 [g]) with g. rewrite Hg, Z.mul_add_distr_r, <- Z.mul_assoc.
    by rewrite (pow_split bits) by lia.
  - exists 0. assert (bits = 0) as -> by lia. split; [lia|]. split; [done|]. split; [lia|].
    rewrite H5. rewrite Z.pow_0_r, Z.mod_1_r. lia.
Qed.

(** ** The encoded string *)

Lemma charset_at_group v : is_group v -> is_Some (charset_at v).
Proof.
  intros [H1 H2]. unfold charset_at. apply lookup_lt_is_Some.
  change (length (bytes_of_string charset)) with 32%nat. lia.
Qed.

Lemma charset_at_inj v w c : is_group v -> is_group w -> charset_at v = Some c -> charset_at w = Some c -> v = w.
Proof.
  unfold charset_at, is_group. intros Hv Hw H1 H2.
  assert (Hnd : NoDup (bytes_of_string charset)) by (apply (bool_decide_eq_true_1 _); vm_compute; reflexivity).
  pose proof (NoDup_lookup _ _ _ _ Hnd H1 H2). lia.
Qed.

Lemma vals_bytes s : Forall is_byte (vals s).
Proof. apply list.Forall_forall. intros v (a & -> & _)%list_elem_of_fmap. apply byte_val_range. Qed.

Lemma createChecksum_groups hrp data : Forall is_group (createChecksum hrp data).
Proof.
  unfold createChecksum, checksum_of. cbn [map]. repeat constructor; apply land31_range.
Qed.

(** [bech32Encode] never indexes out of the character set. *)
Lemma bech32Encode_total hrp data :
  exists cs, bech32Encode hrp data = Some (hrp +:+ "1" +:+ string_of_bytes cs)
  /\ Forall2 (fun v c => charset_at v = Some c)
       (convertBits (vals data) 8 5 true
        ++ createChecksum hrp (convertBits (vals data) 8 5 true)) cs.
Proof.
  unfold bech32Encode. set (all := _ ++ _).
  assert (Hall : Forall is_group all).
  { apply Forall_app. split; [|apply createChecksum_groups].
    destruct (convertBits_spec (vals data) (vals_bytes data)) as (pad & _ & Hg & _). done. }
  destruct (mapM charset_at all) as [cs|] eqn:Hm.
  - exists cs. split; [done|]. by apply mapM_Some.
  - exfalso. apply mapM_None in Hm. apply Exists_exists in Hm as (v & Hin & Hv).
    rewrite list.Forall_forall in Hall. apply list_elem_of_In, Hall, charset_at_group in Hin as [c Hc]. congruence.
Qed.

(** C40: the encoder never panics, and its output is a valid bech32 string for its data: the
    human-readable part, the separator and character-set digits such that the BIP173
    checksum verifies and the data digits spell exactly the input, followed by fewer than
    five zero bits of padding. *)
Theorem bech32Encode_valid hrp data :
  exists d5 checksum cs pad,
    bech32Encode hrp data = Some (hrp +:+ "1" +:+ string_of_bytes cs)
    /\ Forall2 (fun v c => charset_at v = Some c) (d5 ++ checksum) cs
    /\ length checksum = 6%nat
    /\ polymod (hrpExpand hrp ++ d5 ++ checksum) = 1
    /\ 0 <= pad < 5
    /\ 5 * Z.of_nat (length d5) = 8 * Z.of_nat (length data) + pad
    /\ number 32 d5 = number 256 (vals data) * 2 ^ pad.
Proof.
  destruct (bech32Encode_total hrp data) as (cs & Hcs & Hf).
  destruct (convertBits_spec (vals data) (vals_bytes data)) as (pad & Hpad & _ & Hlen & Hnum).
  unfold vals in Hlen. rewrite length_map in Hlen.
  eexists _, _, cs, pad. split; [exact Hcs|]. split; [exact Hf|]. split; [done|].
  split; [apply createChecksum_valid|]. done.
Qed.

(** ** Distinct keys have distinct encodings *)

Lemma digits_inj base a b :
  1 < base -> length a = length b -> Forall (fun d => 0 <= d < base) a -> Forall (fun d => 0 <= d < base) b ->
  number base a = number base b -> a = b.
Proof.
  intros Hb. revert b. induction a as [|x a IH] using rev_ind; intros b Hl Ha Hbb Hn.
  { by destruct b. }
  destruct b as [|y b _] using rev_ind; [by rewrite length_app in Hl; cbn in Hl; lia|].
  rewrite !length_app in Hl. cbn in Hl. apply Forall_app in Ha as [Ha Hx], Hbb as [Hbb Hy].
  apply Forall_cons_iff in Hx as [Hx _], Hy as [Hy _].
  rewrite !number_app in Hn. cbn [length] in Hn. change (Z.of_nat 1) with 1 in Hn. rewrite !Z.pow_1_r in Hn.
  change (number base [x]) with (0 * base + x) in Hn. change (number base [y]) with (0 * base + y) in Hn.
  assert (number base a = number base b) by nia.
  assert (x = y) by nia. subst y. f_equal. apply IH; try done. lia.
Qed.

Lemma Forall2_charset_inj l1 l2 cs :
  Forall is_group l1 -> Forall is_group l2 ->
  Forall2 (fun v c => charset_at v = Some c) l1 cs -> Forall2 (fun v c => charset_at v = Some c) l2 cs ->
  l1 = l2.
Proof.
  intros H1 H2 HF. revert l2 H2. induction HF as [|v c l1 cs Hv HF IH]; intros l2 H2 HF2.
  - by inversion HF2.
  - inversion HF2 as [|w ? l2' ? Hw HF2' E1 E2]; subst. apply Forall_cons_iff in H1 as [Hg1 H1], H2 as [Hg2 H2].
    f_equal; [by eapply charset_at_inj|]. by apply IH.
Qed.

(** Two keys with the same canonical form are the same key: the label that dashboards
    join on identifies the validator. *)
Theorem encodeEd25519_inj pk1 pk2 :
  length pk1 = length pk2 -> encodeEd25519 pk1 = encodeEd25519 pk2 -> pk1 = pk2.
Proof.
  intros Hl. unfold encodeEd25519. set (w1 := _ ++ _). set (w2 := _ ++ bytes_of_string _ ++ _ ++ pk2).
  destruct (bech32Encode_total "gpub" w1) as (c1 & -> & H1).
  destruct (bech32Encode_total "gpub" w2) as (c2 & -> & H2). intros Heq.
  apply Some_inj, string_app_inv_l, string_app_inv_l, (f_equal bytes_of_string) in Heq.
  rewrite !bytes_of_string_of_bytes in Heq. subst c2.
  destruct (convertBits_spec (vals w1) (vals_bytes w1)) as (p1 & Hp1 & G1 & L1 & N1).
  destruct (convertBits_spec (vals w2) (vals_bytes w2)) as (p2 & Hp2 & G2 & L2 & N2).
  pose proof (fun G1 G2 => Forall2_charset_inj _ _ c1 G1 G2 H1 H2) as Hall.
  specialize (Hall (proj2 (Forall_app _ _ _) (conj G1 (createChecksum_groups _ _)))
                (proj2 (Forall_app _ _ _) (conj G2 (createChecksum_groups _ _)))).
  assert (Hw : length (vals w1) = length (vals w2)).
  { unfold vals. rewrite !length_map. unfold w1, w2. rewrite !length_app. lia. }
  rewrite Hw in L1. apply app_inj_1 in Hall as [Hd _]; [|lia].
  rewrite Hd in N1, L1. assert (p1 = p2) as -> by lia.
  assert (Hnum : number 256 (vals w1) = number 256 (vals w2)).
  { apply (Z.mul_reg_r _ _ (2 ^ p2)); [lia|]. congruence. }
  apply digits_inj in Hnum; [|lia|done|apply vals_bytes..].
  apply (list_fmap_eq_inj byte_val) in Hnum; [|intros a b; apply byte_val_inj].
  unfold w1, w2 in Hnum. by repeat apply app_inv_head in Hnum.
Qed.

Lemma encodeEd25519_inj_witness :
  encodeEd25519 (repeat (byte_of 7) 32) <> encodeEd25519 (repeat (byte_of 8) 32).
Proof.
  intros H. apply encodeEd25519_inj in H; [|reflexivity]. vm_compute in H. discriminate H.
Defined.
