(* ===== verification/Sender.v ===== *)
(** * internal/sentinel/sender (sender.go)

    Requests to the upstream server and the retry loop. The network is an argument: it maps
    the request that is sent to what [http.Client.Do] returns. In the retry loop the
    function under retry and the two [select] statements act on a world [W]: a [select]
    returns [None] when the timer fired and the context's error when the context was done.
    The loop also returns what it did, in order. *)

From Stdlib Require Import Ascii.
From S2P Require Import Prelude GoStrings GoTime GoHttp NoiseConfig.

Local Open Scope Z_scope.

(** ** Construction *)

(** The client's transport: plain, or connections dialled with a Noise configuration. *)
Inductive sender_transport := PlainTransport | NoiseTransport (cfg : Config).

Record Sender := mkSender { serverURL : string; token : string; client : sender_transport }.

Inductive new_error := ErrNoKeypair.

Definition sender_New (url tok : string) (noiseCfg : option Config) : result Sender new_error :=
  if HasPrefix url "noise://" then
    match noiseCfg with
    | None => Err ErrNoKeypair
    | Some cfg =>
        let rewritten := "http://" +:+ TrimPrefix url "noise://" in
        Ok (mkSender rewritten tok (NoiseTransport (Clone cfg)))
    end
  else Ok (mkSender url tok PlainTransport).

(** ** One request *)

Record outgoing := mkOutgoing {
  out_method : string;
  out_url : string;
  out_header : Header;
  out_body : bytes
}.

Inductive http_outcome :=
| CreateFailed                             (* [NewRequestWithContext] refuses the URL *)
| DoFailed                                 (* no response *)
| Responded (status : Z) (header : Header).

Inductive post_error :=
| ErrCreateRequest
| ErrPost (path : string)
| ErrRateLimited (path : string)
| ErrRetryAfter (wait : Duration) (path : string)
| ErrUnexpectedStatus (path : string) (status : Z).

Definition max_retry_after : Duration := 30 * Second.

(** The wait of a [retryAfterError]: [time.Duration(secs) * time.Second] wraps before it is
    compared. *)
Definition retry_after (secs : Z) : Duration :=
  let wait := wrap64 (secs * Second) in
  if max_retry_after <? wait then max_retry_after else wait.

Definition post_request (s : Sender) (path : string) (body : bytes) (contentType contentEncoding : string)
    : outgoing :=
  let h := Header_Set (Header_Set ∅ "Authorization" ("Bearer " +:+ token s)) "Content-Type" contentType in
  let h := if bool_decide (contentEncoding = EmptyString) then h
           else Header_Set h "Content-Encoding" contentEncoding in
  mkOutgoing "POST" (serverURL s +:+ path) h body.

Definition post_result (path : string) (o : http_outcome) : option post_error :=
  match o with
  | CreateFailed => Some ErrCreateRequest
  | DoFailed => Some (ErrPost path)
  | Responded status h =>
      if status =? StatusTooManyRequests then
        let ra := Header_Get h "Retry-After" in
        if bool_decide (ra = EmptyString) then Some (ErrRateLimited path)
        else match ParseInt ra with
             | Some secs => Some (ErrRetryAfter (retry_after secs) path)
             | None => Some (ErrRateLimited path)
             end
      else if (status <? 200) || (300 <=? status) then Some (ErrUnexpectedStatus path status)
      else None
  end.

Definition sender_post (net : sender_transport -> outgoing -> http_outcome) (s : Sender) (path : string)
    (body : bytes) (contentType contentEncoding : string) : option post_error :=
  post_result path (net (client s) (post_request s path body contentType contentEncoding)).

Definition SendRaw net (s : Sender) (path : string) (body : bytes) (contentType : string) : option post_error :=
  sender_post net s path body contentType EmptyString.

(** ** Retry *)

Inductive retry_error (C : Type) :=
| ErrCtx (c : C)
| ErrAllAttempts (maxAttempts : Z) (last : option post_error).
Arguments ErrCtx {C} c.
Arguments ErrAllAttempts {C} maxAttempts last.

Inductive retry_event :=
| EvWait (d : Duration)
| EvAttempt (err : option post_error).

Section Retry.
Context {W C : Type}.
Context (fn : W -> W * option post_error).
(** [select] between the context and a timer of the given duration. *)
Context (sleep : W -> Duration -> W * option C).

Definition next_backoff (backoff : Duration) : Duration :=
  let b := wrap64 (backoff * 2) in
  if max_retry_after <? b then max_retry_after else b.

Definition retry_run : Type := W * list retry_event * option (retry_error C).

Definition note (evs : list retry_event) (x : retry_run) : retry_run :=
  let '(w, evs', r) := x in (w, evs ++ evs', r).

(** The call of [fn] and what follows it in one iteration; [rest skip err w] are the
    remaining iterations. *)
Definition retry_attempt (rest : bool -> option post_error -> W -> retry_run) (w : W) : retry_run :=
  let '(w, err) := fn w in
  match err with
  | None => (w, [EvAttempt None], None)
  | Some (ErrRetryAfter wait p) =>
      if wait =? 0 then note [EvAttempt err] (rest true err w)
      else
        let '(w, cancelled) := sleep w wait in
        match cancelled with
        | Some c => (w, [EvAttempt err; EvWait wait], Some (ErrCtx c))
        | None => note [EvAttempt err; EvWait wait] (rest true err w)
        end
  | Some _ => note [EvAttempt err] (rest false err w)
  end.

(** [n] iterations are left, [i] were made. *)
Fixpoint retry_loop (n : nat) (i : nat) (maxAttempts : Z) (backoff : Duration) (skipBackoff : bool)
    (lastErr : option post_error) (w : W) : retry_run :=
  match n with
  | O => (w, [], Some (ErrAllAttempts maxAttempts lastErr))
  | S n =>
      if Nat.ltb 0 i && negb skipBackoff then
        let '(w, cancelled) := sleep w backoff in
        match cancelled with
        | Some c => (w, [EvWait backoff], Some (ErrCtx c))
        | None =>
            note [EvWait backoff]
              (retry_attempt (retry_loop n (S i) maxAttempts (next_backoff backoff)) w)
        end
      else retry_attempt (retry_loop n (S i) maxAttempts backoff) w
  end.

(** [range maxAttempts] makes no iteration when it is not positive. *)
Definition retry (maxAttempts : Z) (initialBackoff : Duration) (w : W)
    : retry_run :=
  retry_loop (Z.to_nat maxAttempts) 0 maxAttempts initialBackoff false None w.

(** ** What the loop did *)

Definition attempts (evs : list retry_event) : list (option post_error) :=
  omap (fun e => match e with EvAttempt err => Some err | EvWait _ => None end) evs.

Definition waits (evs : list retry_event) : list Duration :=
  omap (fun e => match e with EvWait d => Some d | EvAttempt _ => None end) evs.

(** Every wait comes from a backoff or from the server. *)
Definition wait_ok (b0 : Duration) (d : Duration) : Prop :=
  d <= max_retry_after \/ d <= b0.

(** The outcome against the attempts made. *)
Definition retry_outcome_ok (n : nat) (errs : list (option post_error)) (r : option (retry_error C)) : Prop :=
  match r with
  | None => exists es, errs = es ++ [None] /\ Forall (fun e => e <> None) es /\ (length es < n)%nat
  | Some (ErrAllAttempts _ last) =>
      Forall (fun e => e <> None) errs /\ length errs = n
  | Some (ErrCtx _) => Forall (fun e => e <> None) errs /\ (length errs <= n)%nat
  end.

Definition fn_waits_bounded : Prop :=
  forall w w' d p, fn w = (w', Some (ErrRetryAfter d p)) -> d <= max_retry_after.

Lemma next_backoff_le b : next_backoff b <= max_retry_after.
Proof. unfold next_backoff. case_bool; zbool; lia. Qed.

Definition run_ok (b0 : Duration) (n : nat) (x : retry_run) : Prop :=
  let '(_, evs, r) := x in
  retry_outcome_ok n (attempts evs) r /\ Forall (wait_ok b0) (waits evs).

Lemma run_ok_wait b0 n d x : wait_ok b0 d -> run_ok b0 n x -> run_ok b0 n (note [EvWait d] x).
Proof. destruct x as [[w evs] r]. intros Hd [H1 H2]. split; [done|by constructor]. Qed.

Lemma run_ok_attempt b0 n e x :
  e <> None -> run_ok b0 n x -> run_ok b0 (S n) (note [EvAttempt e] x).
Proof.
  destruct x as [[w evs] r]. intros He [H1 H2]. split; [|done].
  change (attempts ([EvAttempt e] ++ evs)) with (e :: attempts evs).
  revert H1. generalize (attempts evs) as l. intros l H1. destruct r as [[c|m last]|]; cbn in *.
  - destruct H1. split; [by constructor|lia].
  - destruct H1. split; [by constructor|lia].
  - destruct H1 as (es & -> & H3 & H4). exists (e :: es). split; [done|]. split; [by constructor|]. cbn. lia.
Qed.

Lemma retry_attempt_ok b0 n rest w :
  fn_waits_bounded -> (forall sk e w, run_ok b0 n (rest sk e w)) -> run_ok b0 (S n) (retry_attempt rest w).
Proof.
  intros Hfn Hrest. unfold retry_attempt. destruct (fn w) as [w1 err] eqn:Hw.
  destruct err as [e|].
  2: { split; [|constructor]. exists []. split; [done|]. split; [constructor|]. cbn. lia. }
  destruct e as [| | |d p|]; try (by apply run_ok_attempt).
  assert (Hd : wait_ok b0 d) by (left; by eapply Hfn).
  destruct (d =? 0); [by apply run_ok_attempt|].
  destruct (sleep w1 d) as [w2 [c|]].
  - split; [|by constructor]. cbn. split; [by constructor|lia].
  - change (note [EvAttempt ?e; EvWait d] ?x) with (note ([EvAttempt e] ++ [EvWait d]) x).
    assert (Hn : forall a b x, note (a ++ b) x = note a (note b x)).
    { intros a b [[w' evs] r]. cbn. by rewrite app_assoc. }
    rewrite Hn. apply run_ok_attempt; [done|]. by apply run_ok_wait.
Qed.

Lemma retry_loop_spec n i maxAttempts backoff skip lastErr w b0 :
  fn_waits_bounded -> wait_ok b0 backoff ->
  run_ok b0 n (retry_loop n i maxAttempts backoff skip lastErr w).
Proof.
  intros Hfn. revert i backoff skip lastErr w.
  induction n as [|n IH]; intros i backoff skip lastErr w Hb.
  { split; [split; [constructor|done]|constructor]. }
  cbn [retry_loop].
  destruct (Nat.ltb 0 i && negb skip).
  - destruct (sleep w backoff) as [w1 [c|]].
    + split; [split; [constructor|cbn; lia]|by constructor].
    + apply run_ok_wait; [done|]. apply retry_attempt_ok; [done|]. intros. apply IH.
      left. apply next_backoff_le.
  - apply retry_attempt_ok; [done|]. intros. by apply IH.
Qed.

(** A run that ends with the context's error ends in a world a [select] left that way. *)
Lemma retry_loop_ctx (P : W -> Prop) n i maxAttempts backoff skip lastErr w w' evs c :
  (forall w d w' c, sleep w d = (w', Some c) -> P w') ->
  retry_loop n i maxAttempts backoff skip lastErr w = (w', evs, Some (ErrCtx c)) -> P w'.
Proof.
  intros HP. revert i backoff skip lastErr w w' evs. induction n as [|n IH]; intros i backoff skip lastErr w w' evs; [done|].
  assert (forall b w w' evs, retry_attempt (retry_loop n (S i) maxAttempts b) w = (w', evs, Some (ErrCtx c)) -> P w') as Ha.
  { clear w w' evs. intros b w w' evs. unfold retry_attempt. destruct (fn w) as [w1 err].
    assert (forall e sk l w, note e (retry_loop n (S i) maxAttempts b sk l w) = (w', evs, Some (ErrCtx c)) -> P w') as Hn.
    { intros e sk l w2. destruct (retry_loop n (S i) maxAttempts b sk l w2) as [[w3 evs3] r] eqn:Hr. cbn.
      intros [= <- _ ->]. by eapply IH. }
    destruct err as [[| | |d p|]|]; try apply Hn; [|done]. destruct (d =? 0); [apply Hn|].
    destruct (sleep w1 d) as [w2 [c'|]] eqn:Hs; [|apply Hn]. intros [= <- _ _]. by eapply HP. }
  cbn [retry_loop]. destruct (Nat.ltb 0 i && negb skip); [|apply Ha].
  destruct (sleep w backoff) as [w1 [c'|]] eqn:Hs; [intros [= <- _ _]; by eapply HP|].
  destruct (retry_attempt _ w1) as [[w2 evs2] r] eqn:Hr. cbn. intros [= <- _ ->]. by eapply Ha.
Qed.

(** C32: the retry loop stops at the first success and reports it; it gives up only after
    exactly [maxAttempts] failures (or when the context ends), so it never makes more than
    [maxAttempts] attempts; and it never waits longer than thirty seconds or the initial
    backoff, whatever the server asks for. *)
Theorem retry_spec maxAttempts initialBackoff w :
  fn_waits_bounded ->
  let '(_, evs, r) := retry maxAttempts initialBackoff w in
  retry_outcome_ok (Z.to_nat maxAttempts) (attempts evs) r
  /\ Forall (wait_ok initialBackoff) (waits evs)
  /\ Z.of_nat (length (attempts evs)) <= Z.max 0 maxAttempts.
Proof.
  intros Hfn. unfold retry.
  pose proof (retry_loop_spec (Z.to_nat maxAttempts) 0 maxAttempts initialBackoff false None w
    initialBackoff Hfn (or_intror (Z.le_refl _))) as H.
  destruct (retry_loop _ _ _ _ _ _ w) as [[w' evs] r]. destruct H as [H1 H2].
  split; [done|]. split; [done|].
  destruct r as [[c|m l]|]; cbn in H1; [destruct H1 as [_ H1]; lia|destruct H1 as [_ H1]; lia|].
  destruct H1 as (es & Hes & _ & H1). rewrite Hes, length_app. cbn [length]. lia.
Qed.
End Retry.

(** [post] never asks for a longer wait. *)
Lemma retry_after_le secs : retry_after secs <= max_retry_after.
Proof. unfold retry_after. case_bool; zbool; lia. Qed.

Lemma post_result_wait path o d p : post_result path o = Some (ErrRetryAfter d p) -> d <= max_retry_after.
Proof.
  unfold post_result. destruct o as [| |status h]; [done..|]. case_bool.
  - case_bool; [done|]. destruct (ParseInt _); [|done]. intros [= <- _]. apply retry_after_le.
  - by case_bool.
Qed.

(** [SendRawWithRetry] and [SendCompressedBytesWithRetry]: the network answers from its
    state. *)
Definition SendRawWithRetry {W C} (net : W -> sender_transport -> outgoing -> W * http_outcome)
    (sleep : W -> Duration -> W * option C) (s : Sender) (path : string) (body : bytes)
    (contentType : string) (maxAttempts : Z) (initialBackoff : Duration) (w : W) :=
  retry (fun w => let '(w', o) := net w (client s) (post_request s path body contentType EmptyString) in
                  (w', post_result path o)) sleep maxAttempts initialBackoff w.

Definition SendCompressedBytesWithRetry {W C} (net : W -> sender_transport -> outgoing -> W * http_outcome)
    (sleep : W -> Duration -> W * option C) (s : Sender) (path : string) (body : bytes)
    (maxAttempts : Z) (initialBackoff : Duration) (w : W) :=
  retry (fun w => let '(w', o) := net w (client s) (post_request s path body "application/json" "zstd") in
                  (w', post_result path o)) sleep maxAttempts initialBackoff w.

(** A network that answers from a list, and a clock that always fires. *)
Definition scripted (w : list http_outcome) (_ : sender_transport) (_ : outgoing)
    : list http_outcome * http_outcome :=
  match w with o :: w' => (w', o) | [] => ([], DoFailed) end.
Definition fires (w : list http_outcome) (_ : Duration) : list http_outcome * option unit := (w, None).

Definition sample_sender : Sender := mkSender "https://watchtower.example" "tok" PlainTransport.

Lemma retry_spec_witness :
  let '(_, evs, r) := SendRawWithRetry scripted fires sample_sender "/rpc" [] "application/json" 5 Second
    [DoFailed; Responded 429 {["Retry-After" := ["3"]]}; Responded 503 ∅; Responded 200 ∅] in
  r = None /\ waits evs = [Second; 3 * Second; 2 * Second] /\ Z.of_nat (length (attempts evs)) <= 5.
Proof.
  unfold SendRawWithRetry.
  set (fn := fun w : list http_outcome => _).
  assert (Hfn : fn_waits_bounded fn).
  { intros w w' d p. unfold fn. destruct (scripted w _ _) as [w1 o]. intros [= _ H].
    by eapply post_result_wait. }
  pose proof (retry_spec fn fires 5 Second
    [DoFailed; Responded 429 {["Retry-After" := ["3"]]}; Responded 503 ∅; Responded 200 ∅] Hfn) as H.
  destruct (retry fn fires 5 Second _) as [[w' evs] r] eqn:E. vm_compute in E.
  injection E as <- <- <-. destruct H as (_ & _ & H).
  split; [reflexivity|]. split; [reflexivity|exact H].
Defined.

(** *** Routing *)

(** A noise URL is routed over Noise or refused: the client never falls back to a plain
    connection for it, and it dials the configured keys; any other URL is used as it
    stands. The host and path of the URL are kept. *)
Theorem sender_New_routing url tok noiseCfg :
  match sender_New url tok noiseCfg with
  | Err ErrNoKeypair => HasPrefix url "noise://" = true /\ noiseCfg = None
  | Ok s =>
      token s = tok
      /\ ((exists rest cfg, url = "noise://" +:+ rest /\ noiseCfg = Some cfg
            /\ serverURL s = "http://" +:+ rest /\ client s = NoiseTransport cfg)
          \/ (HasPrefix url "noise://" = false /\ serverURL s = url /\ client s = PlainTransport))
  end.
Proof.
  unfold sender_New. destruct (HasPrefix url "noise://") eqn:Hp.
  - destruct noiseCfg as [cfg|]; [|done]. cbn [token]. split; [done|]. left.
    apply HasPrefix_spec in Hp as [rest ->]. exists rest, cfg. rewrite Clone_id.
    split; [done|]. split; [done|]. split; [|done]. cbn [serverURL].
    by rewrite (TrimPrefix_app "noise://" rest).
  - split; [done|]. right. done.
Qed.

(** ** Behaviours worth knowing *)

(** A Retry-After beyond 2^63 nanoseconds wraps: the server's "wait 292 years" becomes an
    immediate retry instead of the thirty-second cap. *)
Theorem retry_after_overflow :
  retry_after 9223372037 < 0 /\ retry_after 9223372036 = max_retry_after.
Proof. vm_compute. split; reflexivity. Qed.

(** Refusals that a retry cannot cure, like 401 and 403, are retried like any other. *)
Theorem retry_retries_forbidden :
  let '(_, evs, _) := SendRawWithRetry scripted fires sample_sender "/rpc" [] "application/json" 3 Second
    [Responded 403 ∅; Responded 403 ∅; Responded 403 ∅] in
  length (attempts evs) = 3%nat.
Proof. reflexivity. Qed.
