(* ===== verification/WtMetrics.v ===== *)
(** * internal/watchtower/metrics

    The calls the watchtower makes on its Prometheus collectors: a method is the list of the
    updates it makes, in order. What the library does with them, as far as the program
    relies on it, is the class [Prometheus]; from its laws follows what the page shows. *)

From S2P Require Import Prelude GoStrings GoTime GoFloat GoFloatExact.

Local Open Scope Z_scope.

Inductive vector :=
| ReceivedBytes | ReceivedPayloads | RateLimited | LogsBelowMinLevel | AuthFailures
| PermissionDenied | Retention.

#[export] Instance vector_eq_dec : EqDecision vector.
Proof. solve_decision. Defined.

(** The names the collectors are registered under. *)
Definition vector_name (v : vector) : string :=
  match v with
  | ReceivedBytes => "watchtower_received_bytes_total"
  | ReceivedPayloads => "watchtower_received_payloads_total"
  | RateLimited => "watchtower_rate_limited_total"
  | LogsBelowMinLevel => "watchtower_logs_below_min_level_total"
  | AuthFailures => "watchtower_auth_failures_total"
  | PermissionDenied => "watchtower_permission_denied_total"
  | Retention => "watchtower_config_retention_seconds"
  end.

Definition vector_labels (v : vector) : list string :=
  match v with
  | ReceivedBytes | ReceivedPayloads => ["validator"; "type"]
  | RateLimited | LogsBelowMinLevel => ["validator"]
  | AuthFailures => ["reason"]
  | PermissionDenied => ["validator"; "permission"]
  | Retention => ["backend"]
  end.

(** [WithLabelValues(labels...)] followed by [Add], [Inc] or [Set]. *)
Inductive metric_op :=
| MAdd (v : vector) (labels : list string) (x : float64)
| MInc (v : vector) (labels : list string)
| MSet (v : vector) (labels : list string) (x : float64)
| MLogWarn (backend : string).

Definition m_RecordReceived (validator dataType : string) (n : Z) : list metric_op :=
  [MAdd ReceivedBytes [validator; dataType] (f64_of_Z n); MInc ReceivedPayloads [validator; dataType]].

Definition m_RecordRateLimited (validator : string) : list metric_op := [MInc RateLimited [validator]].

Definition m_RecordLogsBelowMinLevel (validator : string) : list metric_op :=
  [MInc LogsBelowMinLevel [validator]].

Definition m_RecordAuthFailure (reason : string) : list metric_op := [MInc AuthFailures [reason]].

Definition m_RecordPermissionDenied (validator permission : string) : list metric_op :=
  [MInc PermissionDenied [validator; permission]].

(** [d.Seconds()]: whole seconds and the rest, added as floats. *)
Definition Seconds (d : Duration) : float64 :=
  f64_add (f64_of_Z (Z.quot d Second)) (f64_div (f64_of_Z (Z.rem d Second)) (f64_of_Z 1000000000)).

Definition BackendLoki : string := "loki".
Definition BackendVM : string := "vm".

Definition m_SetRetention (backend : string) (d : Duration) : list metric_op :=
  (if d <=? 0 then [MLogWarn backend] else []) ++ [MSet Retention [backend] (Seconds d)].

(** A library panics when the number of label values is wrong. *)
Definition op_ok (o : metric_op) : bool :=
  match o with
  | MAdd v l _ | MInc v l | MSet v l _ => Nat.eqb (length l) (length (vector_labels v))
  | MLogWarn _ => true
  end.

Lemma metric_labels_ok validator dataType reason backend n d :
  forallb op_ok (m_RecordReceived validator dataType n ++ m_RecordRateLimited validator
    ++ m_RecordLogsBelowMinLevel validator ++ m_RecordAuthFailure reason
    ++ m_RecordPermissionDenied validator dataType ++ m_SetRetention backend d) = true.
Proof. unfold m_SetRetention. by destruct (d <=? 0). Qed.

(** An unset retention publishes the value zero: the series exists. *)
Theorem SetRetention_zero backend :
  MSet Retention [backend] f64_zero ∈ m_SetRetention backend 0.
Proof. right. left. Qed.

(** ** The registry *)

(** What is registered: a vector, a gauge whose value is a function called when the page is
    asked for, and the library's two collectors for the runtime and the process. *)
Inductive collector := CVec (v : vector) | CGaugeFunc (name : string) | CGo | CProcess.

#[export] Instance collector_eq_dec : EqDecision collector.
Proof. solve_decision. Defined.

(** The series an update is about. *)
Definition op_series (o : metric_op) : option (string * list string) :=
  match o with
  | MAdd v ls _ | MInc v ls | MSet v ls _ => Some (vector_name v, ls)
  | MLogWarn _ => None
  end.

(** What the program relies on. [shown r f name ls] is the sample of a series on the page, with
    [f] the values of the gauge functions at that time. Counters are only asked to count
    whole numbers that a float64 holds. *)
Class Prometheus (Reg : Type) := {
  NewRegistry : Reg;
  MustRegister : Reg -> list collector -> option Reg;
  update : Reg -> metric_op -> Reg;
  shown : Reg -> (string -> float64) -> string -> list string -> option float64;
  registered : Reg -> list string;
  go_names : list string;
  process_names : list string;
  collector_names := (fun c => match c with
                               | CVec v => [vector_name v] | CGaugeFunc n => [n]
                               | CGo => go_names | CProcess => process_names
                               end);
  (** The library's own names are distinct and not the program's. *)
  own_names : NoDup (go_names ++ process_names)
    /\ Forall (fun n => strip_prefix "watchtower_" n = None) (go_names ++ process_names);
  registered_new : registered NewRegistry = [];
  shown_new f n ls : shown NewRegistry f n ls = None;
  (** [MustRegister] panics exactly when a name is taken. *)
  register_fresh r cs : NoDup (registered r ++ flat_map collector_names cs) ->
    exists r', MustRegister r cs = Some r' /\ registered r' = registered r ++ flat_map collector_names cs;
  register_taken r cs : ~ NoDup (registered r ++ flat_map collector_names cs) -> MustRegister r cs = None;
  (** A vector has no series before its first update; a function is called for each page. *)
  shown_register r cs r' f n ls : MustRegister r cs = Some r' -> n ∉ go_names ++ process_names ->
    shown r' f n ls = if bool_decide (CGaugeFunc n ∈ cs /\ ls = []) then Some (f n) else shown r f n ls;
  registered_update r o : registered (update r o) = registered r;
  shown_other r o f n ls : op_series o <> Some (n, ls) -> shown (update r o) f n ls = shown r f n ls;
  shown_add r v ls f a b : vector_name v ∈ registered r -> op_ok (MInc v ls) = true ->
    shown r f (vector_name v) ls = f64_of_Z <$> a -> 0 <= default 0 a -> 0 <= b -> default 0 a + b < float_limit ->
    shown (update r (MAdd v ls (f64_of_Z b))) f (vector_name v) ls = Some (f64_of_Z (default 0 a + b));
  shown_inc r v ls f a : vector_name v ∈ registered r -> op_ok (MInc v ls) = true ->
    shown r f (vector_name v) ls = f64_of_Z <$> a -> 0 <= default 0 a -> default 0 a + 1 < float_limit ->
    shown (update r (MInc v ls)) f (vector_name v) ls = Some (f64_of_Z (default 0 a + 1))
}.

Section Registry.
Context `{Prometheus Reg}.

Definition own_vectors : list vector :=
  [ReceivedBytes; ReceivedPayloads; RateLimited; LogsBelowMinLevel; AuthFailures; PermissionDenied; Retention].

(** [New]; a panic is [None]. *)
Definition m_New : option Reg :=
  r ← MustRegister NewRegistry (map CVec own_vectors);
  MustRegister r [CGo; CProcess].

Definition banned_ips : string := "watchtower_banned_ips".

Definition SetBannedCountSource (r : Reg) : option Reg := MustRegister r [CGaugeFunc banned_ips].

(** The sample of a series on the page that [Handler] serves; [src] is what the function given
    to [SetBannedCountSource] returns then. *)
Definition m_Handler (r : Reg) (src : Z) (name : string) (ls : list string) : option float64 :=
  shown r (fun _ => f64_of_Z src) name ls.

Definition updates (r : Reg) (ops : list metric_op) : Reg := fold_left update ops r.

Lemma vector_name_own v : strip_prefix "watchtower_" (vector_name v) <> None.
Proof. by destruct v. Qed.

Lemma own_not_library n : strip_prefix "watchtower_" n <> None -> n ∉ go_names ++ process_names.
Proof. intros Hn Hin. destruct own_names as [_ Ho]. apply Hn. rewrite List.Forall_forall in Ho. by apply Ho, list_elem_of_In. Qed.

(** The program's own names, in the order of registration. *)
Definition own_names_order : list string := map vector_name own_vectors ++ go_names ++ process_names.

Lemma own_order_nodup : NoDup (own_names_order ++ [banned_ips]).
Proof.
  unfold own_names_order. rewrite <- app_assoc. apply list.NoDup_app. split_and!.
  - apply (bool_decide_unpack _). vm_compute. exact I.
  - intros n Hn [Hl|Hb]%elem_of_app.
    + revert Hl. apply own_not_library. apply list_elem_of_fmap in Hn as (v & -> & _). apply vector_name_own.
    + apply list_elem_of_singleton in Hb as ->. revert Hn. apply (bool_decide_unpack (_ ∉ _)). vm_compute. exact I.
  - apply list.NoDup_app. split_and!; [apply own_names| |apply NoDup_singleton].
    intros n Hl Hb%list_elem_of_singleton. subst n. by apply (own_not_library banned_ips).
Qed.

(** The registry of [New]. *)
Lemma m_New_registered :
  exists r, m_New = Some r /\ registered r = own_names_order
    /\ forall f n ls, n ∉ go_names ++ process_names -> shown r f n ls = None.
Proof.
  pose proof own_order_nodup as Hnd. unfold own_names_order in Hnd.
  apply list.NoDup_app in Hnd as (Hnd & _). pose proof Hnd as Hnd0. apply list.NoDup_app in Hnd0 as (Hv & _).
  destruct (register_fresh NewRegistry (map CVec own_vectors)) as (r0 & Hr0 & Hn0); [by rewrite registered_new|].
  rewrite registered_new in Hn0. unfold m_New. rewrite Hr0. cbn [mbind option_bind].
  destruct (register_fresh r0 [CGo; CProcess]) as (r & Hr & Hn).
  { rewrite Hn0. cbn [flat_map]. rewrite app_nil_r. exact Hnd. }
  exists r. split; [done|]. split.
  - rewrite Hn, Hn0. cbn [flat_map]. rewrite app_nil_r. done.
  - intros f n ls Hl. rewrite (shown_register _ _ _ _ _ _ Hr Hl), bool_decide_eq_false_2.
    2: { intros [Hin _]. rewrite !elem_of_cons, elem_of_nil in Hin. naive_solver. }
    rewrite (shown_register _ _ _ _ _ _ Hr0 Hl), bool_decide_eq_false_2; [apply shown_new|].
    intros [Hin _]. apply list_elem_of_fmap in Hin as (v & Hv' & _). done.
Qed.

(** Start-up cannot panic on a name that is taken; a second source for the gauge would. Until
    something is counted the page shows none of the program's series, except the gauge of
    the banned addresses, which always has the value its source has then. *)
Theorem metrics_start :
  exists r r', m_New = Some r /\ SetBannedCountSource r = Some r' /\ SetBannedCountSource r' = None
    /\ (forall v, vector_name v ∈ registered r')
    /\ forall src n ls, strip_prefix "watchtower_" n <> None ->
       m_Handler r' src n ls = if bool_decide (n = banned_ips /\ ls = []) then Some (f64_of_Z src) else None.
Proof.
  destruct m_New_registered as (r & Hr & Hn & Hs). exists r.
  destruct (register_fresh r [CGaugeFunc banned_ips]) as (r' & Hr' & Hn'); [rewrite Hn; apply own_order_nodup|].
  exists r'. split_and!; [done..| | |].
  - apply register_taken. rewrite Hn'. cbn. intros [_ [Hd _]]%list.NoDup_app. apply (Hd banned_ips); [apply elem_of_app; right; left|left].
  - intros v. rewrite Hn', Hn. apply elem_of_app. left. apply elem_of_app. left.
    apply list_elem_of_fmap. exists v. split; [done|]. unfold own_vectors. destruct v; repeat (left || right).
  - intros src n ls Ho. pose proof (own_not_library n Ho) as Hl. unfold m_Handler.
    rewrite (shown_register _ _ _ _ _ _ Hr' Hl), Hs by done.
    apply (f_equal (fun b : bool => if b then _ else _)).
    apply bool_decide_ext. rewrite list_elem_of_singleton. naive_solver.
Qed.

(** *** What a series counts *)

Definition on_series (v : vector) (ls : list string) (o : metric_op) : bool :=
  bool_decide (op_series o = Some (vector_name v, ls)).

Lemma updates_registered r ops : registered (updates r ops) = registered r.
Proof. revert r. induction ops as [|o ops IH]; intros r; [done|]. cbn. unfold updates in IH. by rewrite IH, registered_update. Qed.

(** No update is about the gauge of the banned addresses. *)
Lemma updates_banned r ops f ls : shown (updates r ops) f banned_ips ls = shown r f banned_ips ls.
Proof.
  revert r. induction ops as [|o ops IH]; intros r; [done|]. change (updates r (o :: ops)) with (updates (update r o) ops).
  rewrite IH. apply shown_other. destruct o as [v l x|v l|v l x|b]; cbn; [by destruct v..|done].
Qed.

(** What [Add] and [Inc] with whole amounts show, whatever else is updated in between. *)
Lemma updates_shown v ls ops ns f r a :
  vector_name v ∈ registered r -> op_ok (MInc v ls) = true ->
  Forall2 (fun o n => o = MAdd v ls (f64_of_Z n) \/ o = MInc v ls /\ n = 1) (List.filter (on_series v ls) ops) ns ->
  Forall (fun n => 0 <= n) ns -> shown r f (vector_name v) ls = f64_of_Z <$> a -> 0 <= default 0 a ->
  default 0 a + foldr Z.add 0 ns < float_limit ->
  shown (updates r ops) f (vector_name v) ls
  = if bool_decide (ns = []) then f64_of_Z <$> a else Some (f64_of_Z (default 0 a + foldr Z.add 0 ns)).
Proof.
  revert ns r a. induction ops as [|o ops IH]; intros ns r a Hr Hok Hf Hpos Hs Ha Hlim.
  { inversion Hf; subst. exact Hs. }
  cbn [List.filter] in Hf. change (updates r (o :: ops)) with (updates (update r o) ops).
  rewrite <- (registered_update r o) in Hr. destruct (on_series v ls o) eqn:Ho.
  - inversion Hf as [|o' n l ns' Hon Hf' Ho' Hns]; subst. apply Forall_cons_iff in Hpos as [Hn Hpos].
    assert (0 <= foldr Z.add 0 ns') as Hsum by (clear -Hpos; induction Hpos; cbn; lia). cbn [foldr] in Hlim |- *.
    assert (Hs' : shown (update r o) f (vector_name v) ls = f64_of_Z <$> Some (default 0 a + n)).
    { rewrite registered_update in Hr. destruct Hon as [->|[-> ->]]; [apply shown_add|apply shown_inc]; done || lia. }
    rewrite (IH ns' (update r o) (Some (default 0 a + n)) Hr Hok Hf' Hpos Hs') by (cbn; lia). cbn [default].
    rewrite (bool_decide_eq_false_2 (_ :: _ = [])) by done. case_bool_decide as Hb; [subst; cbn; by rewrite Z.add_0_r|].
    unfold id. do 2 f_equal. lia.
  - apply bool_decide_eq_false_1 in Ho. apply (IH ns (update r o) a); try done. by rewrite shown_other.
Qed.
End Registry.
