(* ===== verification/RateLimit.v ===== *)
(** * internal/watchtower/ratelimit

    One token bucket per validator. The bucket is [golang.org/x/time/rate]'s: its
    constructor and [Allow] are parameters, and [Allow] takes the clock reading it makes. *)

From S2P Require Import Prelude GoTime GoFloat GoHttp WtConfig.

Local Open Scope Z_scope.

Section RateLimit.
Context {L : Type}.
Context (NewLimiter : float64 -> Z -> L).
Context (Allow : L -> Time -> L * bool).

(** [limiters] holds the bucket of every validator seen so far. *)
Record Limiter := mkLimiter { rps : float64; burst : Z; limiters : gmap string L }.

Definition rl_New (r : float64) (b : Z) : Limiter := mkLimiter r b ∅.

(** The bucket is created and stored under the mutex, and asked outside it: it has a lock
    of its own, so the two steps commute with other validators' steps. *)
Definition allow (l : Limiter) (validatorName : string) (now : Time) : Limiter * bool :=
  let lim := match limiters l !! validatorName with
             | Some lim => lim
             | None => NewLimiter (rps l) (burst l)
             end in
  let '(lim', ok) := Allow lim now in
  (mkLimiter (rps l) (burst l) (<[validatorName := lim']> (limiters l)), ok).

(** The two steps: the bucket of a validator is there afterwards; then it is asked. *)
Definition get_limiter (l : Limiter) (validatorName : string) : Limiter :=
  match limiters l !! validatorName with
  | Some _ => l
  | None => mkLimiter (rps l) (burst l) (<[validatorName := NewLimiter (rps l) (burst l)]> (limiters l))
  end.

Definition ask_limiter (l : Limiter) (validatorName : string) (now : Time) : Limiter * bool :=
  match limiters l !! validatorName with
  | None => (l, false)
  | Some lim =>
      let '(lim', ok) := Allow lim now in
      (mkLimiter (rps l) (burst l) (<[validatorName := lim']> (limiters l)), ok)
  end.

Lemma allow_steps l v now : ask_limiter (get_limiter l v) v now = allow l v now.
Proof.
  unfold allow, ask_limiter, get_limiter. destruct (limiters l !! v) as [lim|] eqn:E; [by rewrite E|].
  cbn [limiters rps burst]. rewrite lookup_insert_eq. destruct (Allow _ now). by rewrite insert_insert_eq.
Qed.

Inductive rl_outcome :=
| RlReject (validator : option string) (resp : Response)
| RlPass.

(** [ctx] is what [auth.ValidatorFromContext] finds. A rejection with a validator calls the
    [onLimit] hook with it. *)
Definition rl_Middleware (l : Limiter) (ctx : option (string * ValidatorConfig)) (now : Time)
    : Limiter * rl_outcome :=
  match ctx with
  | None => (l, RlReject None (http_Error ∅ "unauthorized" StatusUnauthorized))
  | Some (name, _) =>
      let '(l', ok) := allow l name now in
      if (ok : bool) then (l', RlPass)
      else (l', RlReject (Some name)
                  (http_Error (Header_Set ∅ "Retry-After" "1") "rate limit exceeded" StatusTooManyRequests))
  end.

(** ** Executions *)

Fixpoint rl_run (l : Limiter) (reqs : list (string * Time)) : Limiter * list bool :=
  match reqs with
  | [] => (l, [])
  | (v, t) :: reqs' =>
      let '(l1, ok) := allow l v t in
      let '(l2, oks) := rl_run l1 reqs' in
      (l2, ok :: oks)
  end.

Fixpoint bucket_run (b : L) (ts : list Time) : list bool :=
  match ts with
  | [] => []
  | t :: ts' => let '(b', ok) := Allow b t in ok :: bucket_run b' ts'
  end.

(** The requests of one validator, and the answers they got. *)
Fixpoint times_of (v : string) (reqs : list (string * Time)) : list Time :=
  match reqs with
  | [] => []
  | (v', t) :: reqs' => if bool_decide (v' = v) then t :: times_of v reqs' else times_of v reqs'
  end.

Fixpoint answers_of (v : string) (reqs : list (string * Time)) (oks : list bool) : list bool :=
  match reqs, oks with
  | (v', _) :: reqs', ok :: oks' =>
      if bool_decide (v' = v) then ok :: answers_of v reqs' oks' else answers_of v reqs' oks'
  | _, _ => []
  end.

Definition bucket_of (l : Limiter) (v : string) : L :=
  default (NewLimiter (rps l) (burst l)) (limiters l !! v).

Lemma allow_bucket l v t v' :
  let '(l', ok) := allow l v t in
  rps l' = rps l /\ burst l' = burst l
  /\ ok = (Allow (bucket_of l v) t).2
  /\ bucket_of l' v' = if bool_decide (v = v') then (Allow (bucket_of l v) t).1 else bucket_of l v'.
Proof.
  unfold allow. change (match limiters l !! v with Some lim => lim | None => _ end) with (bucket_of l v).
  destruct (Allow (bucket_of l v) t) as [b ok]. unfold bucket_of. cbn.
  repeat split. case_bool; zbool; [subst; by rewrite lookup_insert_eq|by rewrite lookup_insert_ne].
Qed.

Lemma rl_run_isolated l reqs v :
  answers_of v reqs (rl_run l reqs).2 = bucket_run (bucket_of l v) (times_of v reqs).
Proof.
  revert l. induction reqs as [|[v' t] reqs IH]; intros l; [done|]. cbn [rl_run times_of].
  pose proof (allow_bucket l v' t v) as H. destruct (allow l v' t) as [l1 ok].
  destruct H as (_ & _ & Hok & Hb). specialize (IH l1). rewrite Hb in IH.
  destruct (rl_run l1 reqs) as [l2 oks]. cbn [snd answers_of] in *.
  destruct (decide (v' = v)) as [->|Hne].
  - rewrite !bool_decide_eq_true_2 in * by done. cbn [bucket_run].
    destruct (Allow (bucket_of l v) t) as [b ok']. cbn in *. subst. by rewrite IH.
  - rewrite !bool_decide_eq_false_2 in * by done. exact IH.
Qed.

(** Validators do not share a budget: whatever the interleaving of requests, the answers
    one validator gets are those of a bucket of its own with the configured rate and
    burst, fed with its own requests only. *)
Theorem rl_isolated r b reqs v :
  answers_of v reqs (rl_run (rl_New r b) reqs).2 = bucket_run (NewLimiter r b) (times_of v reqs).
Proof. apply rl_run_isolated. Qed.
End RateLimit.

Arguments Limiter L : clear implicits.
