(* ===== verification/Handlers.v ===== *)
(** * internal/watchtower/handlers

    One request through the whole chain: the outer routes, authentication, the rate limit,
    the inner routes, and the handler. What the forwarder does with a payload is the class
    [PayloadForwarder]; the theorems hold for every forwarder. A step also returns what it
    did besides answering, in order. *)

From Stdlib Require Import Ascii.
From S2P Require Import Prelude GoStrings GoTime GoFloat GoJson GoHttp WtConfig Auth WtStats WtMetrics RateLimit.

Local Open Scope Z_scope.

(** [50 << 20]. *)
Definition maxBodyBytes : Z := 52428800.

(** What the server needs from the forwarder: one method per payload type, each of which
    acts on a world [W], may count in the metrics, and may fail with an [E]. *)
Class PayloadForwarder (W E : Type) := {
  fwd_RPC : W -> string -> bytes -> W * list metric_op * result unit E;
  fwd_Metrics : W -> string -> bytes -> W * list metric_op * result unit E;
  fwd_Logs : W -> string -> bytes -> string -> W * list metric_op * result unit E;
  fwd_OTLP : W -> string -> bytes -> W * list metric_op * result unit E
}.

Inductive endpoint := EpRPC | EpMetrics | EpLogs | EpOTLP.

Definition ep_perm (e : endpoint) : string :=
  match e with EpRPC => "rpc" | EpMetrics => "metrics" | EpLogs => "logs" | EpOTLP => "otlp" end.

Inductive inner_handler := HPayload (e : endpoint) | HAuthCheck.
Inductive outer_handler := HHealth | HMetricsPage | HInner.

(** The patterns of [Handler]. *)
Definition inner_mux : list (mux_pattern * inner_handler) :=
  [(mkPattern (Some "POST") (MuxExact "/rpc"), HPayload EpRPC);
   (mkPattern (Some "POST") (MuxExact "/metrics"), HPayload EpMetrics);
   (mkPattern (Some "POST") (MuxExact "/logs"), HPayload EpLogs);
   (mkPattern (Some "POST") (MuxExact "/otlp"), HPayload EpOTLP);
   (mkPattern (Some "GET") (MuxExact "/auth/check"), HAuthCheck)].

Definition outer_mux : list (mux_pattern * outer_handler) :=
  [(mkPattern (Some "GET") (MuxExact "/health"), HHealth);
   (mkPattern (Some "GET") (MuxExact "/metrics"), HMetricsPage);
   (mkPattern None MuxAny, HInner)].

(** The Allow header of a 405: a GET pattern also allows HEAD. *)
Definition allow_header (path : string) : string :=
  if bool_decide (path = "/auth/check") then "GET, HEAD" else "POST".

(** [json.NewEncoder(w).Encode(AuthCheckResponse{...})]. *)
Definition auth_check_body (validator : string) (v : ValidatorConfig) : bytes :=
  encode_object
    [("validator", encode_string validator);
     ("permissions", match Permissions v with
                     | Some ps => encode_array (map encode_string ps)
                     | None => bytes_of_string "null"
                     end);
     ("logs_min_level", encode_string (LogsMinLevel v))] ++ ["010"%char].

Inductive srv_effect :=
| SLog (e : auth_effect)
| SMetric (o : metric_op)
| SForward (e : endpoint) (validator : string) (body : bytes).

(** The sinks installed at start-up: the metrics for the authenticator's counts, the log
    for its records. *)
Definition auth_srv_effect (e : auth_effect) : list srv_effect :=
  match e with
  | RecordAuthFailure reason => map SMetric (m_RecordAuthFailure reason)
  | LogRejected _ _ _ _ _ => [SLog e]
  end.

Section Handlers.
Context {W E L : Type} `{PayloadForwarder W E}.
Context (NewLimiter : float64 -> Z -> L).
Context (Allow : L -> Time -> L * bool).
(** The Prometheus exposition page. *)
Context (metrics_page : W -> string).

Record Server := mkServer {
  srv_auth : Authenticator;
  srv_rl : Limiter L;
  srv_stats : WtStats;
  srv_world : W
}.

Definition set_auth (s : Server) (a : Authenticator) : Server :=
  mkServer a (srv_rl s) (srv_stats s) (srv_world s).
Definition set_rl (s : Server) (l : Limiter L) : Server :=
  mkServer (srv_auth s) l (srv_stats s) (srv_world s).
Definition set_stats (s : Server) (st : WtStats) : Server :=
  mkServer (srv_auth s) (srv_rl s) st (srv_world s).
Definition set_world (s : Server) (w : W) : Server :=
  mkServer (srv_auth s) (srv_rl s) (srv_stats s) w.

(** [io.ReadAll] of the body behind [http.MaxBytesReader]. *)
Definition read_body (r : Request) : option bytes :=
  match ReqBody r with
  | Ok b => if maxBodyBytes <? Z.of_nat (length b) then None else Some b
  | Err _ => None
  end.

(** The closures of [handleRPC], [handleMetrics], [handleLogs] and [handleOTLP]. *)
Definition forward (e : endpoint) (w : W) (validator : string) (v : ValidatorConfig) (body : bytes)
    : W * list metric_op * result unit E :=
  match e with
  | EpRPC => fwd_RPC w validator body
  | EpMetrics => fwd_Metrics w validator body
  | EpLogs => fwd_Logs w validator body (LogsMinLevel v)
  | EpOTLP => fwd_OTLP w validator body
  end.

Definition handlePayload (s : Server) (r : Request) (validator : string) (v : ValidatorConfig)
    (e : endpoint) : Server * list srv_effect * Response :=
  let perm := ep_perm e in
  if negb (bool_decide (perm ∈ perms v)) then
    (s, map SMetric (m_RecordPermissionDenied validator perm), http_Error ∅ "forbidden" StatusForbidden)
  else
    match read_body r with
    | None => (s, [], http_Error ∅ "read body" StatusBadRequest)
    | Some body =>
        match forward e (srv_world s) validator v body with
        | (w', ops, Err _) =>
            (set_world s w', SForward e validator body :: map SMetric ops,
             http_Error ∅ "forward failed" StatusBadGateway)
        | (w', ops, Ok _) =>
            let n := Z.of_nat (length body) in
            (set_stats (set_world s w') (ws_Record (srv_stats s) validator perm n),
             SForward e validator body :: map SMetric (ops ++ m_RecordReceived validator perm n),
             mkResponse StatusOK ∅ EmptyString)
        end
    end.

Definition handleAuthCheck (validator : string) (v : ValidatorConfig) : Response :=
  mkResponse StatusOK (Header_Set ∅ "Content-Type" "application/json")
    (string_of_bytes (auth_check_body validator v)).

(** The inner mux, for an authenticated request that the rate limit lets pass. *)
Definition serve_inner (s : Server) (r : Request) (validator : string) (v : ValidatorConfig)
    : Server * list srv_effect * Response :=
  match mux_lookup inner_mux (Method r) (URL_Path r) with
  | MuxHandler (HPayload e) => handlePayload s r validator v e
  | MuxHandler HAuthCheck => (s, [], handleAuthCheck validator v)
  | MuxNotFound => (s, [], http_Error ∅ "404 page not found" StatusNotFound)
  | MuxMethodNotAllowed =>
      (s, [], http_Error (Header_Set ∅ "Allow" (allow_header (URL_Path r)))
                "Method Not Allowed" StatusMethodNotAllowed)
  end.

(** The handler [Handler] returns. [ck] are the authenticator's clock readings, [now] the
    limiter's. A request whose path is not in canonical form is redirected by net/http
    before it gets here. *)
Definition serve (s : Server) (r : Request) (ck : auth_clock) (now : Time)
    : Server * list srv_effect * Response :=
  match mux_lookup outer_mux (Method r) (URL_Path r) with
  | MuxHandler HHealth => (s, [], mkResponse StatusOK ∅ EmptyString)
  | MuxHandler HMetricsPage => (s, [], mkResponse StatusOK ∅ (metrics_page (srv_world s)))
  | _ =>
      let '(a', effs, out) := auth_Middleware (srv_auth s) r ck in
      let s := set_auth s a' in
      let effs := concat (map auth_srv_effect effs) in
      match out with
      | Rejected resp => (s, effs, resp)
      | Authenticated name v =>
          let '(l', rl) := rl_Middleware NewLimiter Allow (srv_rl s) (Some (name, v)) now in
          let s := set_rl s l' in
          match rl with
          | RlReject who resp =>
              (s, effs ++ match who with Some n => map SMetric (m_RecordRateLimited n) | None => [] end, resp)
          | RlPass =>
              let '(s', effs', resp) := serve_inner s r name v in
              (s', effs ++ effs', resp)
          end
      end
  end.

(** ** Facts about one request *)

Definition forwards (effs : list srv_effect) : list (endpoint * string * bytes) :=
  omap (fun e => match e with SForward ep v b => Some (ep, v, b) | _ => None end) effs.

Lemma forwards_app a b : forwards (a ++ b) = forwards a ++ forwards b.
Proof. apply omap_app. Qed.

Lemma forwards_metric ops : forwards (map SMetric ops) = [].
Proof. by induction ops. Qed.

Lemma forwards_one e v b ops : forwards (SForward e v b :: map SMetric ops) = [(e, v, b)].
Proof. change (forwards (SForward e v b :: map SMetric ops)) with ((e, v, b) :: forwards (map SMetric ops)). by rewrite forwards_metric. Qed.

Lemma forwards_auth effs : forwards (concat (map auth_srv_effect effs)) = [].
Proof. induction effs as [|[]]; cbn; done. Qed.

Lemma inner_lookup_payload m p e :
  mux_lookup inner_mux m p = MuxHandler (HPayload e) -> m = "POST" /\ p = "/" +:+ ep_perm e.
Proof.
  intros (pat & Hin & Hp & Hm)%mux_lookup_handler.
  repeat destruct Hin as [Hin|Hin]; try done; injection Hin as <- <-; cbn in Hp, Hm;
    apply bool_decide_eq_true_1 in Hp as <-; (split; [|reflexivity]);
    (apply orb_true_iff in Hm as [Hm|Hm];
     [by apply bool_decide_eq_true_1 in Hm|by apply andb_true_iff in Hm as [Hm%bool_decide_eq_true_1 _]]).
Qed.

Definition addressed_to (r : Request) (e : endpoint) : Prop :=
  Method r = "POST" /\ URL_Path r = "/" +:+ ep_perm e.

(** What makes a payload acceptable to [handlePayload]. *)
Definition acceptable (r : Request) (v : ValidatorConfig) (e : endpoint) (body : bytes) : Prop :=
  addressed_to r e /\ ep_perm e ∈ perms v
  /\ ReqBody r = Ok body /\ Z.of_nat (length body) <= maxBodyBytes.

(** The inner handlers forward at most once, and only an acceptable payload, to the
    validator they run for. *)
Lemma serve_inner_forwards s r name v s' effs resp e who body :
  serve_inner s r name v = (s', effs, resp) -> (e, who, body) ∈ forwards effs ->
  who = name /\ acceptable r v e body /\ forwards effs = [(e, who, body)].
Proof.
  unfold serve_inner. destruct (mux_lookup inner_mux _ _) as [[ep|]| |] eqn:Hmux;
    [|by intros [= <- <- <-] ?%not_elem_of_nil..].
  apply inner_lookup_payload in Hmux as Haddr. unfold handlePayload.
  destruct (bool_decide _) eqn:Hperm; cbn [negb].
  2: { intros [= <- <- <-]. by intros ?%not_elem_of_nil. }
  apply bool_decide_eq_true_1 in Hperm. unfold read_body.
  destruct (ReqBody r) as [b|] eqn:Hbody; [|by intros [= <- <- <-] ?%not_elem_of_nil].
  destruct (Z.ltb_spec maxBodyBytes (Z.of_nat (length b))) as [|Hlen];
    [by intros [= <- <- <-] ?%not_elem_of_nil|].
  assert (Hacc : acceptable r v ep b) by done.
  destruct (forward ep (srv_world s) name v b) as [[w' ops] [[]|err]]; intros [= <- <- <-];
    rewrite forwards_one;
    intros [= -> -> ->]%list_elem_of_singleton; done.
Qed.

Lemma serve_authorised s r ck now s' effs resp e who body :
  serve s r ck now = (s', effs, resp) -> (e, who, body) ∈ forwards effs ->
  exists v, (auth_Middleware (srv_auth s) r ck).2 = Authenticated who v
    /\ (allow NewLimiter Allow (srv_rl s) who now).2 = true
    /\ acceptable r v e body
    /\ forwards effs = [(e, who, body)].
Proof.
  unfold serve. destruct (mux_lookup outer_mux _ _) as [[| |]| |];
    try (by intros [= <- <- <-] ?%not_elem_of_nil);
    destruct (auth_Middleware (srv_auth s) r ck) as [[a' aeffs] [rj|name v]]; cbn [snd];
    try (intros [= <- <- <-]; rewrite forwards_auth; by intros ?%not_elem_of_nil);
    unfold rl_Middleware; destruct (allow NewLimiter Allow _ name now) as [l' [|]] eqn:Hal;
    try (intros [= <- <- <-]; rewrite forwards_app, forwards_auth; by intros ?%not_elem_of_nil);
    destruct (serve_inner _ r name v) as [[s1 effs1] resp1] eqn:Hin; intros [= <- <- <-];
    rewrite forwards_app, forwards_auth; cbn [app]; intros Hf;
    destruct (serve_inner_forwards _ _ _ _ _ _ _ _ _ _ Hin Hf) as (-> & Hacc & Hone);
    exists v; unfold set_auth in Hal; cbn in Hal; by rewrite Hal.
Qed.

(** A payload reaches a backend only if the request is a POST to that payload's own
    path, comes with a validator's token from an address that is not banned, is within
    the validator's rate, asks for a permission the validator has, and was read
    completely and within the size limit; it is then forwarded once, under that
    validator's name. *)
Theorem serve_forwards_authorised s r ck now s' effs resp e who body :
  serve s r ck now = (s', effs, resp) -> (e, who, body) ∈ forwards effs ->
  exists v, (auth_Middleware (srv_auth s) r ck).2 = Authenticated who v
    /\ (allow NewLimiter Allow (srv_rl s) who now).2 = true
    /\ acceptable r v e body
    /\ forwards effs = [(e, who, body)].
Proof. apply serve_authorised. Qed.

(** *** What a request leaves alone *)

(** The routes in front of the authentication. *)
Definition public (r : Request) : bool :=
  match mux_lookup outer_mux (Method r) (URL_Path r) with
  | MuxHandler HHealth | MuxHandler HMetricsPage => true
  | _ => false
  end.

Lemma handlePayload_keeps s r name v e :
  let s' := (handlePayload s r name v e).1.1 in srv_auth s' = srv_auth s /\ srv_rl s' = srv_rl s.
Proof.
  unfold handlePayload. destruct (negb _); [done|]. destruct (read_body r); [|done].
  by destruct (forward _ _ _ _ _) as [[w ops] [[]|]].
Qed.

Lemma serve_inner_keeps s r name v :
  let s' := (serve_inner s r name v).1.1 in srv_auth s' = srv_auth s /\ srv_rl s' = srv_rl s.
Proof. unfold serve_inner. destruct (mux_lookup inner_mux _ _) as [[ep|]| |]; [apply handlePayload_keeps|done..]. Qed.

Lemma serve_keeps s r ck now :
  let s' := (serve s r ck now).1.1 in
  srv_auth s' = (if public r then srv_auth s else (auth_Middleware (srv_auth s) r ck).1.1)
  /\ rps (srv_rl s') = rps (srv_rl s) /\ burst (srv_rl s') = burst (srv_rl s).
Proof.
  unfold serve, public.
  destruct (mux_lookup outer_mux _ _) as [[| |]| |]; try done;
    destruct (auth_Middleware (srv_auth s) r ck) as [[a' aeffs] [rj|name v]]; try done;
    unfold rl_Middleware; pose proof (allow_bucket NewLimiter Allow (srv_rl s) name now name) as Hb;
    cbn [srv_rl set_auth]; destruct (allow NewLimiter Allow _ name now) as [l' [|]]; destruct Hb as (H1 & H2 & _);
    try done;
    pose proof (serve_inner_keeps (set_rl (set_auth s a') l') r name v) as [K1 K2];
    destruct (serve_inner _ r name v) as [[s1 effs1] resp1]; cbn in K1, K2 |- *; by rewrite K1, K2.
Qed.

(** Whoever the authentication turns away gets its answer. *)
Lemma serve_rejected s r ck now resp0 :
  public r = false -> (auth_Middleware (srv_auth s) r ck).2 = Rejected resp0 ->
  (serve s r ck now).2 = resp0 /\ forwards (serve s r ck now).1.2 = [].
Proof.
  unfold serve, public. destruct (mux_lookup outer_mux _ _) as [[| |]| |]; try done;
    destruct (auth_Middleware (srv_auth s) r ck) as [[a' aeffs] out]; cbn [snd]; intros _ ->;
    cbn [fst snd]; by rewrite forwards_auth.
Qed.

(** *** Accounting *)

Lemma serve_inner_accounting s r name v s' effs resp :
  serve_inner s r name v = (s', effs, resp) ->
  match forwards effs with
  | [] => srv_stats s' = srv_stats s /\ srv_world s' = srv_world s
  | (e, who, body) :: _ =>
      let n := Z.of_nat (length body) in
      exists w' ops out, forward e (srv_world s) who v body = (w', ops, out) /\ srv_world s' = w'
      /\ match out with
         | Ok _ => StatusCode resp = StatusOK /\ srv_stats s' = ws_Record (srv_stats s) who (ep_perm e) n
                   /\ effs = SForward e who body :: map SMetric (ops ++ m_RecordReceived who (ep_perm e) n)
         | Err _ => StatusCode resp = StatusBadGateway /\ srv_stats s' = srv_stats s
                    /\ effs = SForward e who body :: map SMetric ops
         end
  end.
Proof.
  unfold serve_inner. destruct (mux_lookup inner_mux _ _) as [[ep|]| |]; try by intros [= <- <- <-].
  unfold handlePayload. destruct (negb _); [by intros [= <- <- <-]|].
  destruct (read_body r) as [b|]; [|by intros [= <- <- <-]].
  destruct (forward ep (srv_world s) name v b) as [[w' ops] [[]|err]] eqn:Hf; intros [= <- <- <-];
    rewrite forwards_one; exists w', ops; eexists; by rewrite Hf.
Qed.

Lemma serve_accounted s r ck now s' effs resp :
  serve s r ck now = (s', effs, resp) ->
  match forwards effs with
  | [] => srv_stats s' = srv_stats s /\ srv_world s' = srv_world s
  | (e, who, body) :: _ =>
      let n := Z.of_nat (length body) in
      exists v w' ops out, forward e (srv_world s) who v body = (w', ops, out) /\ srv_world s' = w'
      /\ match out with
         | Ok _ => StatusCode resp = StatusOK /\ srv_stats s' = ws_Record (srv_stats s) who (ep_perm e) n
                   /\ exists pre, effs = pre ++ SForward e who body
                                        :: map SMetric (ops ++ m_RecordReceived who (ep_perm e) n)
         | Err _ => StatusCode resp = StatusBadGateway /\ srv_stats s' = srv_stats s
                    /\ exists pre, effs = pre ++ SForward e who body :: map SMetric ops
         end
  end.
Proof.
  unfold serve. destruct (mux_lookup outer_mux _ _) as [[| |]| |]; try (by intros [= <- <- <-]);
    destruct (auth_Middleware (srv_auth s) r ck) as [[a' aeffs] [rj|name v]];
    try (intros [= <- <- <-]; by rewrite forwards_auth);
    unfold rl_Middleware; destruct (allow NewLimiter Allow _ name now) as [l' [|]];
    try (intros [= <- <- <-]; by rewrite forwards_app, forwards_auth);
    destruct (serve_inner _ r name v) as [[s1 effs1] resp1] eqn:Hin; intros [= <- <- <-];
    rewrite forwards_app, forwards_auth; cbn [app];
    apply serve_inner_accounting in Hin;
    destruct (forwards effs1) as [|[[e who] body] rest]; try exact Hin;
    destruct Hin as (w' & ops & out & Hf & Hw & Hout); exists v, w', ops, out;
    (split; [exact Hf|]); (split; [exact Hw|]);
    destruct out; destruct Hout as (? & ? & ->); (split; [done|]); (split; [done|]); eauto.
Qed.

(** The byte accounting is exact: the statistics and the received-payload counters
    change only for a payload the backend accepted, by its exact length, under the
    validator that sent it; the answer is then 200, and 502 when the backend refused.
    Every other request, whatever its outcome, leaves statistics and backends alone. *)
Theorem serve_accounting s r ck now s' effs resp :
  serve s r ck now = (s', effs, resp) ->
  match forwards effs with
  | [] => srv_stats s' = srv_stats s /\ srv_world s' = srv_world s
  | (e, who, body) :: _ =>
      let n := Z.of_nat (length body) in
      exists v w' ops out, forward e (srv_world s) who v body = (w', ops, out) /\ srv_world s' = w'
      /\ match out with
         | Ok _ => StatusCode resp = StatusOK /\ srv_stats s' = ws_Record (srv_stats s) who (ep_perm e) n
                   /\ exists pre, effs = pre ++ SForward e who body
                                        :: map SMetric (ops ++ m_RecordReceived who (ep_perm e) n)
         | Err _ => StatusCode resp = StatusBadGateway /\ srv_stats s' = srv_stats s
                    /\ exists pre, effs = pre ++ SForward e who body :: map SMetric ops
         end
  end.
Proof. apply serve_accounted. Qed.
End Handlers.

(** ** A concrete server *)

#[export] Instance null_forwarder : PayloadForwarder (list bytes) unit := {
  fwd_RPC := fun w _ b => (w ++ [b], [], Ok tt);
  fwd_Metrics := fun w _ b => (w ++ [b], [], Ok tt);
  fwd_Logs := fun w _ b _ => (w ++ [b], [], Ok tt);
  fwd_OTLP := fun w _ b => (w, [], Err tt)
}.

Definition count_new (_ : float64) (b : Z) : Z := b.
Definition count_allow (b : Z) (_ : Time) : Z * bool := if 0 <? b then (b - 1, true) else (b, false).

Definition sample_server : Server (W := list bytes) (L := Z) :=
  mkServer (auth_New [("alice", mkValidatorConfig "ta" (Some ["rpc"; "otlp"]) "info")] 3 (15 * Minute))
    (rl_New (f64_of_Z 1) 2) (ws_New 0) [].

Definition sample_request (path : string) : Request :=
  mkRequest "POST" path path {["Authorization" := ["Bearer ta"]]} "10.0.0.7:51234" (Ok (bytes_of_string "{}")).

Definition sample_clock : auth_clock := mkAuthClock Minute Minute Minute Minute.

Definition sample_serve (path : string) :=
  serve count_new count_allow (fun _ => EmptyString) sample_server (sample_request path) sample_clock Minute.

Lemma serve_forwards_authorised_witness :
  forwards (sample_serve "/rpc").1.2 = [(EpRPC, "alice", bytes_of_string "{}")]
  /\ exists v, acceptable (sample_request "/rpc") v EpRPC (bytes_of_string "{}").
Proof.
  split; [vm_compute; reflexivity|].
  destruct (sample_serve "/rpc") as [[s' effs] resp] eqn:E.
  destruct (serve_forwards_authorised (E := unit) count_new count_allow (fun _ => EmptyString)
    sample_server (sample_request "/rpc") sample_clock Minute s' effs resp
    EpRPC "alice" (bytes_of_string "{}") E) as (v & _ & _ & Hacc & _).
  - vm_compute in E. injection E as _ <- _. left.
  - exists v. exact Hacc.
Defined.

Lemma serve_accounting_witness :
  let '(s', effs, resp) := sample_serve "/rpc" in
  StatusCode resp = StatusOK /\ ws_get (srv_stats s') "alice" "rpc" = mkWsEntry 2 2.
Proof.
  destruct (sample_serve "/rpc") as [[s' effs] resp] eqn:E.
  pose proof (serve_accounting (E := unit) count_new count_allow (fun _ => EmptyString)
    sample_server (sample_request "/rpc") sample_clock Minute s' effs resp E) as H.
  assert (Hf : forwards effs = [(EpRPC, "alice", bytes_of_string "{}")]).
  { vm_compute in E. injection E as _ <- _. reflexivity. }
  rewrite Hf in H. destruct H as (v & w' & ops & out & Hfw & _ & Hout).
  cbn in Hfw. injection Hfw as <- <- <-. destruct Hout as (H1 & H2 & _).
  split; [exact H1|]. rewrite H2. vm_compute. reflexivity.
Defined.
