(* ===== verification/Ledger.v ===== *)
(** * The ledgers of received payloads

    What one request does to the statistics and to the counters, read off its effects and
    its answer; shared by the runs of the process (WtAccounting) and the interleavings of
    its goroutines (Goroutines). *)

From Stdlib Require Import Ascii.
From S2P Require Import Prelude GoStrings GoTime GoFloat GoHttp WtConfig Auth WtStats WtMetrics RateLimit Handlers.

Local Open Scope Z_scope.

(** ** Reading the outputs *)

(** A payload that was taken: handed to the forwarder, and answered 200. *)
Definition taken (effs : list srv_effect) (resp : Response) : list (string * string * Z) :=
  match forwards effs with
  | (e, who, body) :: _ =>
      if bool_decide (StatusCode resp = StatusOK) then [(who, ep_perm e, Z.of_nat (length body))] else []
  | [] => []
  end.

(** The lengths among them of one validator and type. *)
Definition lengths_of (v t : string) (l : list (string * string * Z)) : list Z :=
  map snd (List.filter (fun x => bool_decide (x.1 = (v, t))) l).

Definition sumZ (l : list Z) : Z := foldr Z.add 0 l.

(** The updates of the two vectors of received payloads. *)
Definition is_received (o : metric_op) : bool :=
  match o with
  | MAdd v _ _ | MInc v _ | MSet v _ _ => match v with ReceivedBytes | ReceivedPayloads => true | _ => false end
  | MLogWarn _ => false
  end.

Definition ops_of (effs : list srv_effect) : list metric_op :=
  omap (fun e => match e with SMetric o => Some o | _ => None end) effs.

Definition received (effs : list srv_effect) : list metric_op := List.filter is_received (ops_of effs).

(** The values under one key, in a map's order of iteration. *)
Definition picks {V} (f : V -> Z) (k : string) (l : list (string * V)) : Z :=
  sumZ (map (fun x => if bool_decide (x.1 = k) then f x.2 else 0) l).

(** ** Lists *)

Lemma sumZ_app a b : sumZ (a ++ b) = sumZ a + sumZ b.
Proof. induction a as [|x a IH]; cbn; [done|]. unfold sumZ in *. cbn. lia. Qed.

Lemma ops_of_app a b : ops_of (a ++ b) = ops_of a ++ ops_of b.
Proof. apply omap_app. Qed.

Lemma ops_of_metric ops : ops_of (map SMetric ops) = ops.
Proof. induction ops as [|o ops IH]; [done|]. cbn. by f_equal. Qed.

Lemma received_app a b : received (a ++ b) = received a ++ received b.
Proof. unfold received. by rewrite ops_of_app, List.filter_app. Qed.

Lemma received_metric ops : received (map SMetric ops) = List.filter is_received ops.
Proof. unfold received. by rewrite ops_of_metric. Qed.

Lemma received_auth effs : received (concat (map auth_srv_effect effs)) = [].
Proof. induction effs as [|[] effs IH]; done. Qed.

Lemma lengths_of_app v t a b : lengths_of v t (a ++ b) = lengths_of v t a ++ lengths_of v t b.
Proof. unfold lengths_of. by rewrite List.filter_app, map_app. Qed.

(** In the order of a map's iteration each key comes once. *)
Lemma picks_range {V} (f : V -> Z) k (m : gmap string V) l : map_range m l -> picks f k l = default 0 (f <$> m !! k).
Proof.
  intros Hm. assert (forall x, (k, x) ∈ l <-> m !! k = Some x) as Hin by (intros; by apply map_range_elem).
  apply map_range_nodup in Hm. revert Hin. generalize (m !! k). clear m. unfold picks.
  induction l as [|[k' x] l IH]; intros o Hin.
  - destruct o as [x|]; [|done]. by destruct (not_elem_of_nil (k, x) (proj2 (Hin x) eq_refl)).
  - cbn in Hm. apply list.NoDup_cons in Hm as [Hk Hm]. cbn [map sumZ foldr fst snd]. fold (sumZ (map (fun x => if bool_decide (x.1 = k) then f x.2 else 0) l)).
    case_bool_decide as Heq.
    + subst k'. assert (o = Some x) as -> by (apply Hin; left).
      rewrite (IH Hm None); [cbn; lia|]. intros y. split; [|done]. intros Hy. destruct Hk. by apply (list_elem_of_fmap_2 fst) in Hy.
    + rewrite (IH Hm o); [lia|]. intros y. rewrite <- Hin, elem_of_cons. naive_solver.
Qed.

(** ** One request *)

Section Request.
Context {W E L : Type} `{PayloadForwarder W E}.
Context (NewLimiter : float64 -> Z -> L).
Context (Allow : L -> Time -> L * bool).
Context (metrics_page : W -> string).

(** The forwarder does not touch the vectors of received payloads. *)
Hypothesis forward_free : forall e w who v body, List.filter is_received (forward e w who v body).1.2 = [].

Definition record (st : WtStats) (x : string * string * Z) : WtStats := ws_Record st x.1.1 x.1.2 x.2.

Lemma handlePayload_recorded (s : Server (W := W) (L := L)) r name v e :
  let '(s', effs, resp) := handlePayload (E := E) s r name v e in
  srv_stats s' = fold_left record (taken effs resp) (srv_stats s)
  /\ received effs = flat_map (fun x => m_RecordReceived x.1.1 x.1.2 x.2) (taken effs resp).
Proof.
  unfold handlePayload. destruct (negb _); [done|]. destruct (read_body r) as [body|]; [|done].
  pose proof (forward_free e (srv_world s) name v body) as Hf.
  destruct (forward e (srv_world s) name v body) as [[w' ops] [[]|err]]; cbn [fst snd] in Hf;
    unfold taken; rewrite forwards_one; cbn [received ops_of omap list_omap].
  - split; [done|]. unfold received. cbn [ops_of omap list_omap]. fold (ops_of (map SMetric (ops ++ m_RecordReceived name (ep_perm e) (Z.of_nat (length body))))).
    by rewrite ops_of_metric, List.filter_app, Hf.
  - split; [done|]. unfold received. cbn [ops_of omap list_omap]. fold (ops_of (map SMetric ops)).
    by rewrite ops_of_metric, Hf.
Qed.

Lemma taken_nothing pre effs resp : forwards pre = [] -> taken (pre ++ effs) resp = taken effs resp.
Proof. intros Hp. unfold taken. by rewrite forwards_app, Hp. Qed.

Lemma serve_recorded (s : Server (W := W) (L := L)) r ck now :
  let '(s', effs, resp) := serve (E := E) NewLimiter Allow metrics_page s r ck now in
  srv_stats s' = fold_left record (taken effs resp) (srv_stats s)
  /\ received effs = flat_map (fun x => m_RecordReceived x.1.1 x.1.2 x.2) (taken effs resp).
Proof.
  unfold serve. destruct (mux_lookup outer_mux _ _) as [[| |]| |]; try done;
    destruct (auth_Middleware (srv_auth s) r ck) as [[a' aeffs] [rj|name v]];
    try (unfold taken; by rewrite received_auth, forwards_auth);
    unfold rl_Middleware; destruct (allow NewLimiter Allow _ name now) as [l' [|]];
    try (unfold taken; by rewrite received_app, received_auth, forwards_app, forwards_auth);
    unfold serve_inner; destruct (mux_lookup inner_mux _ _) as [[ep|]| |];
    try (unfold taken; by rewrite received_app, received_auth, forwards_app, forwards_auth);
    pose proof (handlePayload_recorded (set_rl (set_auth s a') l') r name v ep) as Hh;
    destruct (handlePayload _ r name v ep) as [[s1 effs1] resp1];
    by rewrite received_app, received_auth, taken_nothing by apply forwards_auth.
Qed.
End Request.

(** ** The statistics *)

Lemma record_fold l st v t :
  let st' := fold_left record l st in
  let n := sumZ (lengths_of v t l) in
  wrap64 (total (ws_get st' v t)) = wrap64 (total (ws_get st v t) + n)
  /\ wrap64 (lastHour (ws_get st' v t)) = wrap64 (lastHour (ws_get st v t) + n).
Proof.
  revert st. induction l as [|[[v' t'] n] l IH]; intros st; [cbn; by rewrite !Z.add_0_r|].
  cbn [fold_left]. specialize (IH (record st (v', t', n))). unfold lengths_of in *. cbn [List.filter fst].
  cbv zeta in IH. change (record st (v', t', n)) with (ws_Record st v' t' n) in *. rewrite !ws_get_Record in IH.
  destruct (decide (v' = v /\ t' = t)) as [[-> ->]|Hne].
  - rewrite !bool_decide_eq_true_2 in IH by done. rewrite bool_decide_eq_true_2 by done.
    cbn [map snd sumZ foldr total lastHour] in *. rewrite !wrap64_add_l, <- !Z.add_assoc in IH. exact IH.
  - rewrite !bool_decide_eq_false_2 in IH by done. rewrite bool_decide_eq_false_2 by naive_solver. exact IH.
Qed.

(** The counters are machine integers. *)
Definition totals_fit (st : WtStats) : Prop := forall v t, wrap64 (total (ws_get st v t)) = total (ws_get st v t).

Lemma record_fit st x : totals_fit st -> totals_fit (record st x).
Proof. intros H v t. unfold record. rewrite ws_get_Record. case_bool_decide; [apply wrap64_idem|apply H]. Qed.

Lemma record_fold_fit l st : totals_fit st -> totals_fit (fold_left record l st).
Proof. revert st. induction l as [|x l IH]; intros st H; [done|]. by apply IH, record_fit. Qed.

(** ** The counters *)

Definition on_labels (v t : string) (o : metric_op) : bool :=
  match o with
  | MAdd _ ls _ | MInc _ ls | MSet _ ls _ => bool_decide (ls = [v; t])
  | MLogWarn _ => false
  end.

Lemma on_labels_received v t l :
  List.filter (on_labels v t) (flat_map (fun x : string * string * Z => m_RecordReceived x.1.1 x.1.2 x.2) l)
  = flat_map (m_RecordReceived v t) (lengths_of v t l).
Proof.
  induction l as [|[[v' t'] n] l IH]; [done|]. cbn [flat_map]. rewrite List.filter_app, IH.
  unfold lengths_of. cbn [List.filter fst snd m_RecordReceived on_labels].
  destruct (decide ((v', t') = (v, t))) as [[= -> ->]|Hne].
  - by rewrite !bool_decide_eq_true_2.
  - rewrite !bool_decide_eq_false_2 by (intros [= -> ->]; done). done.
Qed.
