(* ===== verification/Goroutines.v ===== *)
(** * The watchtower's goroutines

    net/http runs each request in a goroutine of its own. What they share is guarded by
    mutexes: the failure records, the token index, the buckets, the statistics. Here a
    request is a goroutine that goes from one critical section to the next, one step each
    (Locks shows that the mutexes make them so); between its steps anything may happen that
    other requests, a reload of the validators or the hourly report do. [Handlers.serve] is
    what a goroutine does when nothing happens in between ([goroutine_alone]); the other
    theorems hold for all interleavings. *)

From Stdlib Require Import Ascii.
From S2P Require Import Prelude GoStrings GoTime GoFloat GoHttp WtConfig Auth WtStats WtMetrics RateLimit Handlers Ledger.

Local Open Scope Z_scope.

(** ** One goroutine *)

(** What a goroutine does next. *)
Inductive phase :=
| PhRoute                                           (* the outer mux *)
| PhCheck                                           (* isBanned *)
| PhLookup                                          (* the token, under tokensMu *)
| PhFailure                                         (* recordFailure *)
| PhSuccess (who : string) (v : ValidatorConfig)    (* recordSuccess *)
| PhLimiter (who : string) (v : ValidatorConfig)    (* the bucket, under the limiter's mutex *)
| PhAllow (who : string) (v : ValidatorConfig)      (* Allow of the bucket *)
| PhHandle (who : string) (v : ValidatorConfig)     (* the inner mux, up to the forwarding *)
| PhForward (who : string) (v : ValidatorConfig) (e : endpoint) (body : bytes)
| PhRecord (who : string) (e : endpoint) (n : Z)    (* Record of the statistics *)
| PhCount (who : string) (e : endpoint) (n : Z)     (* RecordReceived of the metrics *)
| PhDone (resp : Response).

(** [go_effects]: what it has counted, logged and forwarded so far. *)
Record goroutine := mkGo { go_req : Request; go_phase : phase; go_effects : list srv_effect }.

Definition go_new (r : Request) : goroutine := mkGo r PhRoute [].

Definition goto (g : goroutine) (ph : phase) (effs : list srv_effect) : goroutine :=
  mkGo (go_req g) ph (go_effects g ++ effs).

(** The bodies of the steps, for the proofs that go through all of them. *)
Create HintDb steps.

Section Goroutines.
Context {W E L : Type} `{PayloadForwarder W E}.
Context (NewLimiter : float64 -> Z -> L).
Context (Allow : L -> Time -> L * bool).
Context (metrics_page : W -> string).

Notation server := (Server (W := W) (L := L)).

(** The sinks of the authenticator. *)
Definition rejection (a : Authenticator) (r : Request) (level : log_level) (reason : string) : list srv_effect :=
  concat (map auth_srv_effect
    ((if metrics a then [RecordAuthFailure reason] else [])
     ++ [LogRejected level reason (remoteIP r) (URL_Path r) (tokenPrefix (bearerToken r))])).

(** *** The critical sections, in the order of the code *)

(** The outer mux. The health and the metrics page are answered at once. *)
Definition route_step (s : server) (g : goroutine) : server * goroutine :=
  let r := go_req g in
  (s, match mux_lookup outer_mux (Method r) (URL_Path r) with
      | MuxHandler HHealth => goto g (PhDone (mkResponse StatusOK ∅ EmptyString)) []
      | MuxHandler HMetricsPage => goto g (PhDone (mkResponse StatusOK ∅ (metrics_page (srv_world s)))) []
      | _ => goto g PhCheck []
      end).

(** [a.isBanned(ip)], and the answer to a banned address. *)
Definition check_step (s : server) (g : goroutine) (ck : auth_clock) : server * goroutine :=
  let r := go_req g in
  let '(a, banned) := isBanned (srv_auth s) (remoteIP r) (ck1 ck) (ck2 ck) (ck3 ck) in
  (set_auth s a,
   if banned then goto g (PhDone (http_Error ∅ "banned" StatusForbidden)) (rejection (srv_auth s) r LogWarn "banned")
   else goto g PhLookup []).

(** The read of the token index between [RLock] and [RUnlock]. *)
Definition lookup_step (s : server) (g : goroutine) : server * goroutine :=
  (s, match tokens (srv_auth s) !! bearerToken (go_req g) with
      | None => goto g PhFailure []
      | Some entry => goto g (PhSuccess (ValidatorName entry) (te_Config entry)) []
      end).

(** [a.recordFailure(ip)], and the answer. *)
Definition failure_step (s : server) (g : goroutine) (ck : auth_clock) : server * goroutine :=
  let r := go_req g in
  (set_auth s (recordFailure (srv_auth s) (remoteIP r) (ck4 ck)),
   goto g (PhDone (http_Error ∅ "unauthorized" StatusUnauthorized)) (rejection (srv_auth s) r LogInfo "invalid_token")).

(** [a.recordSuccess(ip)]. The context the request goes on with carries [who] and [v]. *)
Definition success_step (s : server) (g : goroutine) (who : string) (v : ValidatorConfig) : server * goroutine :=
  (set_auth s (recordSuccess (srv_auth s) (remoteIP (go_req g))), goto g (PhLimiter who v) []).

(** The section of [allow] under the mutex of the limiter. *)
Definition limiter_step (s : server) (g : goroutine) (who : string) (v : ValidatorConfig) : server * goroutine :=
  (set_rl s (get_limiter NewLimiter (srv_rl s) who), goto g (PhAllow who v) []).

(** [lim.Allow()], and the answer to a request over its rate. *)
Definition allow_step (s : server) (g : goroutine) (who : string) (v : ValidatorConfig) (now : Time) : server * goroutine :=
  let '(l, ok) := ask_limiter Allow (srv_rl s) who now in
  (set_rl s l,
   if (ok : bool) then goto g (PhHandle who v) []
   else goto g (PhDone (http_Error (Header_Set ∅ "Retry-After" "1") "rate limit exceeded" StatusTooManyRequests))
               (map SMetric (m_RecordRateLimited who))).

(** The inner mux, and [handlePayload] up to the call of the forwarder. *)
Definition handle_step (s : server) (g : goroutine) (who : string) (v : ValidatorConfig) : server * goroutine :=
  let r := go_req g in
  (s, match mux_lookup inner_mux (Method r) (URL_Path r) with
      | MuxHandler (HPayload e) =>
          if negb (bool_decide (ep_perm e ∈ perms v)) then
            goto g (PhDone (http_Error ∅ "forbidden" StatusForbidden)) (map SMetric (m_RecordPermissionDenied who (ep_perm e)))
          else match read_body r with
               | None => goto g (PhDone (http_Error ∅ "read body" StatusBadRequest)) []
               | Some body => goto g (PhForward who v e body) []
               end
      | MuxHandler HAuthCheck => goto g (PhDone (handleAuthCheck who v)) []
      | MuxNotFound => goto g (PhDone (http_Error ∅ "404 page not found" StatusNotFound)) []
      | MuxMethodNotAllowed =>
          goto g (PhDone (http_Error (Header_Set ∅ "Allow" (allow_header (URL_Path r)))
                            "Method Not Allowed" StatusMethodNotAllowed)) []
      end).

(** The call of the forwarder, and the answer when it fails. *)
Definition forward_step (s : server) (g : goroutine) (who : string) (v : ValidatorConfig) (e : endpoint) (body : bytes)
    : server * goroutine :=
  let '(w, ops, out) := forward e (srv_world s) who v body in
  let effs := SForward e who body :: map SMetric ops in
  (set_world s w,
   match out with
   | Err _ => goto g (PhDone (http_Error ∅ "forward failed" StatusBadGateway)) effs
   | Ok _ => goto g (PhRecord who e (Z.of_nat (length body))) effs
   end).

(** [s.stats.Record]. *)
Definition record_step (s : server) (g : goroutine) (who : string) (e : endpoint) (n : Z) : server * goroutine :=
  (set_stats s (ws_Record (srv_stats s) who (ep_perm e) n), goto g (PhCount who e n) []).

(** [s.metrics.RecordReceived], and the answer. *)
Definition count_step (s : server) (g : goroutine) (who : string) (e : endpoint) (n : Z) : server * goroutine :=
  (s, goto g (PhDone (mkResponse StatusOK ∅ EmptyString)) (map SMetric (m_RecordReceived who (ep_perm e) n))).

(** One step, with the readings of the clock it makes. *)
Definition go_step (s : server) (g : goroutine) (ck : auth_clock) (now : Time) : server * goroutine :=
  match go_phase g with
  | PhRoute => route_step s g
  | PhCheck => check_step s g ck
  | PhLookup => lookup_step s g
  | PhFailure => failure_step s g ck
  | PhSuccess who v => success_step s g who v
  | PhLimiter who v => limiter_step s g who v
  | PhAllow who v => allow_step s g who v now
  | PhHandle who v => handle_step s g who v
  | PhForward who v e body => forward_step s g who v e body
  | PhRecord who e n => record_step s g who e n
  | PhCount who e n => count_step s g who e n
  | PhDone _ => (s, g)
  end.

#[local] Hint Unfold go_step route_step check_step lookup_step failure_step success_step limiter_step allow_step handle_step forward_step record_step count_step : steps.

(** A goroutine by itself. *)
Fixpoint go_alone (n : nat) (s : server) (g : goroutine) (ck : auth_clock) (now : Time) : server * goroutine :=
  match n with
  | O => (s, g)
  | S n' => let '(s, g) := go_step s g ck now in go_alone n' s g ck now
  end.

(** ** The system *)

(** [sys_hours]: the snapshots the hourly report has logged. *)
Record system := mkSystem {
  sys_srv : server;
  sys_go : list goroutine;
  sys_hours : list (gmap string (gmap string HourSnapshot))
}.

Definition sys_start (s : server) : system := mkSystem s [] [].

Inductive sys_event :=
| SysArrive (r : Request)
| SysStep (i : nat) (ck : auth_clock) (now : Time)
| SysReload (order : list (string * ValidatorConfig))
| SysTick (now : Time).

Definition sys_step (s : system) (e : sys_event) : option system :=
  match e with
  | SysArrive r => Some (mkSystem (sys_srv s) (sys_go s ++ [go_new r]) (sys_hours s))
  | SysStep i ck now =>
      g ← sys_go s !! i;
      let '(srv, g) := go_step (sys_srv s) g ck now in
      Some (mkSystem srv (<[i := g]> (sys_go s)) (sys_hours s))
  | SysReload order => Some (mkSystem (set_auth (sys_srv s) (Reload (srv_auth (sys_srv s)) order)) (sys_go s) (sys_hours s))
  | SysTick now =>
      let '(st, (snap, _)) := ws_Snapshot (srv_stats (sys_srv s)) now in
      Some (mkSystem (set_stats (sys_srv s) st) (sys_go s) (sys_hours s ++ [snap]))
  end.

Fixpoint sys_run (s : system) (evs : list sys_event) : option system :=
  match evs with
  | [] => Some s
  | e :: evs' => s ← sys_step s e; sys_run s evs'
  end.

(** ** Alone, a goroutine is [serve] *)

Ltac advance := repeat (progress (autounfold with steps; unfold goto; cbn [go_alone go_step go_phase go_req go_effects app])).

Lemma go_alone_done n s r resp effs ck now : go_alone n s (mkGo r (PhDone resp) effs) ck now = (s, mkGo r (PhDone resp) effs).
Proof. by induction n. Qed.

Lemma go_alone_handle n s r who v effs ck now :
  let '(s', effs', resp) := serve_inner s r who v in
  go_alone (S (S (S (S n)))) s (mkGo r (PhHandle who v) effs) ck now = (s', mkGo r (PhDone resp) (effs ++ effs')).
Proof.
  unfold serve_inner, handlePayload. advance.
  destruct (mux_lookup inner_mux _ _) as [[e|]| |]; advance; try apply go_alone_done.
  destruct (negb _); advance; [apply go_alone_done|].
  destruct (read_body r) as [body|]; advance; [|apply go_alone_done].
  rewrite app_nil_r. destruct (forward e (srv_world s) who v body) as [[w ops] [[]|err]]; advance; [|apply go_alone_done].
  rewrite go_alone_done, app_nil_r, map_app. by rewrite <- app_assoc.
Qed.

Lemma go_alone_add n m s g ck now :
  go_alone (n + m) s g ck now = let '(s, g) := go_alone n s g ck now in go_alone m s g ck now.
Proof.
  revert s g. induction n as [|n IH]; intros s g; [done|]. cbn [Nat.add go_alone].
  destruct (go_step s g ck now) as [s1 g1]. apply IH.
Qed.

Lemma goroutine_alone_fuel m s r ck now :
  m = 4%nat ->
  let '(s', effs, resp) := serve NewLimiter Allow metrics_page s r ck now in
  go_alone (6 + m) s (go_new r) ck now = (s', mkGo r (PhDone resp) effs).
Proof.
  intros Hfour. rewrite go_alone_add.
  unfold serve, go_new, auth_Middleware. advance.
  destruct (mux_lookup outer_mux _ _) as [[| |]| |]; advance; try (by rewrite go_alone_done).
  all: pose proof (isBanned_params (srv_auth s) (remoteIP r) (ck1 ck) (ck2 ck) (ck3 ck)) as (_ & _ & _ & Hm).
  all: destruct (isBanned _ _ _ _ _) as [a1 [|]]; advance; cbn [fst] in Hm; [by rewrite go_alone_done|].
  all: cbn [srv_auth set_auth]; destruct (tokens a1 !! _) as [[who v]|]; advance; [|unfold rejection; cbn [srv_auth set_auth]; by rewrite Hm, go_alone_done].
  all: unfold rl_Middleware; rewrite <- allow_steps; cbn [srv_rl set_auth set_rl srv_auth].
  all: destruct (ask_limiter _ _ _ _) as [l [|]]; advance; [|by rewrite go_alone_done].
  all: subst m; cbn [concat map app ValidatorName te_Config].
  all: pose proof (go_alone_handle 0 (set_rl (set_auth s (recordSuccess a1 (remoteIP r))) l) r who v [] ck now) as Hh.
  all: destruct (serve_inner _ r who v) as [[s' effs'] resp]; exact Hh.
Qed.

(** The handler of a request is what its goroutine does when it runs by itself: [Middleware]
    and the limiter are the first six steps. *)
Theorem goroutine_alone s r ck now :
  let '(s', effs, resp) := serve NewLimiter Allow metrics_page s r ck now in
  go_alone 10 s (go_new r) ck now = (s', mkGo r (PhDone resp) effs).
Proof. exact (goroutine_alone_fuel 4 s r ck now eq_refl). Qed.

(** ** Steps and goroutines *)

Lemma go_step_req s g ck now : go_req (go_step s g ck now).2 = go_req g.
Proof. autounfold with steps. destruct (go_phase g); unfold goto; by repeat case_match. Qed.

(** An event moves at most the goroutine it is about. *)
Lemma sys_step_go s e s' i g :
  sys_step s e = Some s' -> sys_go s !! i = Some g ->
  sys_go s' !! i = Some (match e with
                         | SysStep j ck now => if decide (j = i) then (go_step (sys_srv s) g ck now).2 else g
                         | _ => g
                         end).
Proof.
  intros Hs Hi. destruct e as [r|j ck now|o|now]; cbn [sys_step] in Hs.
  - injection Hs as <-. cbn [sys_go]. by apply lookup_app_l_Some.
  - apply bind_Some in Hs as (gj & Hj & Hs). destruct (go_step (sys_srv s) gj ck now) as [srv g'] eqn:Hg.
    injection Hs as <-. cbn [sys_go]. destruct (decide (j = i)) as [->|Hne].
    + simplify_eq. rewrite Hg. apply list_lookup_insert_eq. by eapply lookup_lt_Some.
    + by rewrite list_lookup_insert_ne.
  - by injection Hs as <-.
  - destruct (ws_Snapshot _ _) as [st [snap up]]. by injection Hs as <-.
Qed.

Lemma sys_step_length s e s' :
  sys_step s e = Some s' -> length (sys_go s') = (length (sys_go s) + match e with SysArrive _ => 1 | _ => 0 end)%nat.
Proof.
  destruct e as [r|j ck now|o|now]; cbn [sys_step].
  - intros [= <-]. cbn [sys_go]. by rewrite length_app.
  - intros (gj & Hj & Hs)%bind_Some. destruct (go_step _ gj ck now). injection Hs as <-. cbn [sys_go].
    rewrite length_insert. lia.
  - intros [= <-]. cbn. lia.
  - destruct (ws_Snapshot _ _) as [st [snap up]]. intros [= <-]. cbn. lia.
Qed.

(** A goroutine was there before or has just arrived. *)
Lemma sys_step_inv s e s' i g :
  sys_step s e = Some s' -> sys_go s' !! i = Some g ->
  (exists r, e = SysArrive r /\ i = length (sys_go s) /\ g = go_new r)
  \/ exists g0, sys_go s !! i = Some g0
     /\ g = match e with
            | SysStep j ck now => if decide (j = i) then (go_step (sys_srv s) g0 ck now).2 else g0
            | _ => g0
            end.
Proof.
  intros Hs Hi. pose proof (sys_step_length _ _ _ Hs) as Hl. destruct (sys_go s !! i) as [g0|] eqn:H0.
  - right. exists g0. split; [done|]. pose proof (sys_step_go _ _ _ _ _ Hs H0). congruence.
  - left. apply lookup_ge_None in H0. pose proof (lookup_lt_Some _ _ _ Hi). destruct e as [r|j ck now|o|now]; try lia.
    exists r. assert (i = length (sys_go s)) as -> by lia. split_and!; [done..|].
    cbn [sys_step] in Hs. injection Hs as <-. cbn [sys_go] in Hi. rewrite lookup_app_r, Nat.sub_diag in Hi by lia. by injection Hi.
Qed.

(** ** What a goroutine sees

    The states in which goroutine [i] takes its steps, in order. *)
Record view := mkView { vw_srv : server; vw_ck : auth_clock; vw_now : Time }.

Fixpoint views (i : nat) (s : system) (evs : list sys_event) : list view :=
  match evs with
  | [] => []
  | e :: evs' =>
      match sys_step s e with
      | None => []
      | Some s' =>
          (match e with SysStep j ck now => if decide (j = i) then [mkView (sys_srv s) ck now] else [] | _ => [] end)
          ++ views i s' evs'
      end
  end.

(** The goroutine is a function of what it sees. *)
Definition run_views (g : goroutine) (vs : list view) : goroutine :=
  fold_left (fun g v => (go_step (vw_srv v) g (vw_ck v) (vw_now v)).2) vs g.

Lemma sys_run_views s evs s' i g :
  sys_run s evs = Some s' -> sys_go s !! i = Some g -> sys_go s' !! i = Some (run_views g (views i s evs)).
Proof.
  revert s g. induction evs as [|e evs IH]; intros s g Hr Hi; [by simplify_eq/=|].
  cbn in Hr |- *. apply bind_Some in Hr as (s1 & Hs & Hr). rewrite Hs, (IH _ _ Hr (sys_step_go _ _ _ _ _ Hs Hi)).
  unfold run_views. rewrite fold_left_app. destruct e as [r|j ck now|o|now]; try done. by destruct (decide (j = i)).
Qed.

(** Also when it arrives during the run. *)
Lemma sys_run_arrived s evs s' i g :
  sys_run s evs = Some s' -> (length (sys_go s) <= i)%nat -> sys_go s' !! i = Some g ->
  exists r, SysArrive r ∈ evs /\ g = run_views (go_new r) (views i s evs).
Proof.
  revert s. induction evs as [|e evs IH]; intros s Hr Hl Hg.
  { simplify_eq/=. apply lookup_lt_Some in Hg. lia. }
  cbn in Hr |- *. apply bind_Some in Hr as (s1 & Hs & Hr). rewrite Hs.
  pose proof (sys_step_length _ _ _ Hs) as Hl1. destruct (decide (length (sys_go s1) <= i)%nat) as [Hle|Hlt].
  - destruct (IH _ Hr Hle Hg) as (r & Hin & ->). exists r. split; [by right|].
    destruct e as [r'|j ck now|o|now]; try done. rewrite decide_False; [done|]. intros ->.
    cbn [sys_step] in Hs. apply bind_Some in Hs as (gj & Hj & _). apply lookup_lt_Some in Hj. lia.
  - destruct (lookup_lt_is_Some_2 (sys_go s1) i) as [g1 Hi]; [lia|].
    destruct (sys_step_inv _ _ _ _ _ Hs Hi) as [(r & -> & _ & ->)|(g0 & H0 & _)]; [|apply lookup_lt_Some in H0; lia].
    rewrite (sys_run_views _ _ _ _ _ Hr Hi) in Hg. simplify_eq. exists r. split; [by left|]. done.
Qed.

Lemma sys_run_app s a b : sys_run s (a ++ b) = s' ← sys_run s a; sys_run s' b.
Proof. revert s. induction a as [|e a IH]; intros s; [done|]. cbn. destruct (sys_step s e) as [s1|]; [apply IH|done]. Qed.
End Goroutines.

#[export] Hint Unfold go_step route_step check_step lookup_step failure_step success_step limiter_step allow_step handle_step forward_step record_step count_step : steps.

(** ** A run

    Two requests of the same validator at the same time; the steps alternate. *)

Definition sample_steps (n : nat) : list sys_event :=
  concat (repeat [SysStep 0 sample_clock Minute; SysStep 1 sample_clock Minute] n).

Definition sample_run (evs : list sys_event) : option (system (W := list bytes) (L := Z)) :=
  sys_run (E := unit) count_new count_allow (fun _ => EmptyString) (sys_start sample_server) evs.

Definition sample_arrivals : list sys_event := [SysArrive (sample_request "/rpc"); SysArrive (sample_request "/otlp")].

Example sample_run_answers :
  (fun s => (map go_phase (sys_go s), srv_world (sys_srv s), ws_get (srv_stats (sys_srv s)) "alice" "rpc"))
    <$> sample_run (sample_arrivals ++ sample_steps 10)
  = Some ([PhDone (mkResponse StatusOK ∅ EmptyString); PhDone (http_Error ∅ "forward failed" StatusBadGateway)],
          [bytes_of_string "{}"], mkWsEntry 2 2).
Proof. vm_compute. reflexivity. Qed.
