(* ===== verification/Locks.v ===== *)
(** * The watchtower's mutexes

    In Goroutines each critical section is one step. Here a section takes two: the goroutine
    gets the lock, or waits for it, and reads what the lock guards; some time later it writes
    back what it has made of that and gives the lock back. In between the others run. That
    [Lock] excludes is all that keeps their updates from being lost.

    The locks are [mu] and [tokensMu] of the authenticator, [mu] of the limiter and [mu] of
    the statistics ([needs] says who takes which). A bucket and the counters of Prometheus
    have locks of their own inside their libraries; a step on them stays one step. The
    goroutine of SIGHUP and that of the hourly report take part, and a scrape counts the bans
    under [mu]. An [RWMutex] admits no new reader once a writer waits for it. *)

From Stdlib Require Import Ascii.
From S2P Require Import Prelude GoStrings GoTime GoFloat GoHttp WtConfig Auth WtStats WtMetrics RateLimit Handlers Ledger Goroutines.

Local Open Scope Z_scope.

(** ** Locks and who takes them *)

Inductive lock := LAuth | LTokens | LLimiter | LStats.
Inductive mode := Shared | Exclusive.

#[export] Instance lock_eq_dec : EqDecision lock.
Proof. solve_decision. Defined.
#[export] Instance mode_eq_dec : EqDecision mode.
Proof. solve_decision. Defined.

(** The goroutine of a request, that of SIGHUP, that of the hourly report. *)
Inductive tid := TidGo (i : nat) | TidReload | TidHourly.

#[export] Instance tid_eq_dec : EqDecision tid.
Proof. solve_decision. Defined.
#[export] Instance tid_countable : Countable tid.
Proof.
  apply (inj_countable' (fun t => match t with TidGo i => inl i | TidReload => inr true | TidHourly => inr false end)
    (fun x => match x with inl i => TidGo i | inr true => TidReload | inr false => TidHourly end)).
  by intros [].
Defined.

(** The lock around the next step of a request: [isBanned], [recordFailure] and
    [recordSuccess] run under [mu], and so does [BannedCount] for a scrape; the token index
    is read under [RLock]. *)
Definition needs (g : goroutine) : option (lock * mode) :=
  match go_phase g with
  | PhRoute =>
      match mux_lookup outer_mux (Method (go_req g)) (URL_Path (go_req g)) with
      | MuxHandler HMetricsPage => Some (LAuth, Exclusive)
      | _ => None
      end
  | PhCheck | PhFailure | PhSuccess _ _ => Some (LAuth, Exclusive)
  | PhLookup => Some (LTokens, Shared)
  | PhLimiter _ _ => Some (LLimiter, Exclusive)
  | PhRecord _ _ _ => Some (LStats, Exclusive)
  | PhAllow _ _ | PhHandle _ _ | PhForward _ _ _ _ | PhCount _ _ _ | PhDone _ => None
  end.

Definition is_done (ph : phase) : bool := match ph with PhDone _ => true | _ => false end.

Section Locks.
Context {W E L : Type} `{PayloadForwarder W E}.
Context (NewLimiter : float64 -> Z -> L).
Context (Allow : L -> Time -> L * bool).
Context (metrics_page : W -> string).

Notation server := (Server (W := W) (L := L)).
Notation system := (system (W := W) (L := L)).
Notation go_step := (go_step (E := E) NewLimiter Allow metrics_page).
Notation sys_step := (sys_step (E := E) NewLimiter Allow metrics_page).
Notation sys_run := (sys_run (E := E) NewLimiter Allow metrics_page).

(** ** What a lock guards *)

(** The current state, but for what [l] guards, which is as it was read. The map of the
    limiter holds pointers: a bucket that has been read is seen as it is now. *)
Definition as_read (l : lock) (read cur : server) : server :=
  match l with
  | LAuth => set_auth cur (set_cleanup (set_ips (srv_auth cur) (ips (srv_auth read))) (lastCleanup (srv_auth read)))
  | LTokens => set_auth cur (set_tokens (srv_auth cur) (tokens (srv_auth read)))
  | LLimiter =>
      set_rl cur (mkLimiter (rps (srv_rl cur)) (burst (srv_rl cur))
        (filter (fun p : string * L => is_Some (limiters (srv_rl read) !! p.1)) (limiters (srv_rl cur))))
  | LStats => set_stats cur (mkWtStats (ws_data (srv_stats read)) (startAt (srv_stats cur)))
  end.

(** ** The machine *)

(** A goroutine in a critical section, with the state it read at its beginning. *)
Record holding := mkHolding { h_lock : lock; h_mode : mode; h_read : server }.

(** [lk_pending]: the goroutine of SIGHUP waits for the token index. *)
Record locked := mkLocked { lk_sys : system; lk_held : gmap tid holding; lk_pending : bool }.

Definition lk_start (s : server) : locked := mkLocked (sys_start s) ∅ false.

(** The lock a goroutine asks for next. *)
Definition wants (s : system) (t : tid) : option (lock * mode) :=
  match t with
  | TidGo i => g ← sys_go s !! i; needs g
  | TidReload => Some (LTokens, Exclusive)
  | TidHourly => Some (LStats, Exclusive)
  end.

(** Whether a lock can be had: nobody has it, or readers have it and one more comes while no
    writer waits. *)
Definition compatible (l : lock) (m : mode) (h : holding) : Prop :=
  h_lock h <> l \/ (m = Shared /\ h_mode h = Shared).

#[local] Instance compatible_dec l m h : Decision (compatible l m h).
Proof. unfold compatible. apply _. Defined.

Definition available (k : locked) (l : lock) (m : mode) : bool :=
  bool_decide (map_Forall (fun _ h => compatible l m h) (lk_held k))
  && negb (bool_decide (m = Shared) && lk_pending k).

Inductive lk_event :=
| LkArrive (r : Request)
| LkFree (i : nat) (ck : auth_clock) (now : Time)     (* a step under no lock *)
| LkPend                                              (* the reload calls Lock *)
| LkEnter (t : tid)                                   (* [t] gets its lock *)
| LkLeave (i : nat) (ck : auth_clock) (now : Time)    (* a request ends its section *)
| LkReloaded (order : list (string * ValidatorConfig))
| LkReported (now : Time).

(** What a section leaves behind: a reader nothing. *)
Definition written_back (m : mode) (cur s1 : server) : server :=
  match m with Shared => cur | Exclusive => s1 end.

Definition lk_step (k : locked) (e : lk_event) : option locked :=
  let s := lk_sys k in
  match e with
  | LkArrive r => Some (mkLocked (mkSystem (sys_srv s) (sys_go s ++ [go_new r]) (sys_hours s)) (lk_held k) (lk_pending k))
  | LkFree i ck now =>
      g ← sys_go s !! i;
      match needs g with
      | Some _ => None
      | None =>
          if is_done (go_phase g) then None
          else let '(srv, g') := go_step (sys_srv s) g ck now in
               Some (mkLocked (mkSystem srv (<[i := g']> (sys_go s)) (sys_hours s)) (lk_held k) (lk_pending k))
      end
  | LkPend =>
      match lk_held k !! TidReload with
      | Some _ => None
      | None => if lk_pending k then None else Some (mkLocked s (lk_held k) true)
      end
  | LkEnter t =>
      '(l, m) ← wants s t;
      match lk_held k !! t with
      | Some _ => None
      | None =>
          if available k l m && (negb (bool_decide (t = TidReload)) || lk_pending k) then
            Some (mkLocked s (<[t := mkHolding l m (sys_srv s)]> (lk_held k)) (if bool_decide (t = TidReload) then false else lk_pending k))
          else None
      end
  | LkLeave i ck now =>
      h ← lk_held k !! TidGo i;
      g ← sys_go s !! i;
      let '(s1, g') := go_step (as_read (h_lock h) (h_read h) (sys_srv s)) g ck now in
      Some (mkLocked (mkSystem (written_back (h_mode h) (sys_srv s) s1) (<[i := g']> (sys_go s)) (sys_hours s))
              (delete (TidGo i) (lk_held k)) (lk_pending k))
  | LkReloaded order =>
      h ← lk_held k !! TidReload;
      let s1 := as_read (h_lock h) (h_read h) (sys_srv s) in
      Some (mkLocked (mkSystem (set_auth s1 (Reload (srv_auth s1) order)) (sys_go s) (sys_hours s))
              (delete TidReload (lk_held k)) (lk_pending k))
  | LkReported now =>
      h ← lk_held k !! TidHourly;
      let s1 := as_read (h_lock h) (h_read h) (sys_srv s) in
      let '(st, (snap, _)) := ws_Snapshot (srv_stats s1) now in
      Some (mkLocked (mkSystem (set_stats s1 st) (sys_go s) (sys_hours s ++ [snap]))
              (delete TidHourly (lk_held k)) (lk_pending k))
  end.

Fixpoint lk_run (k : locked) (evs : list lk_event) : option locked :=
  match evs with
  | [] => Some k
  | e :: evs' => k ← lk_step k e; lk_run k evs'
  end.

(** ** A section is one step

    The same contents under a lock; of the limiter, the same buckets. *)
Definition same_under (l : lock) (a b : server) : Prop :=
  match l with
  | LAuth => ips (srv_auth a) = ips (srv_auth b) /\ lastCleanup (srv_auth a) = lastCleanup (srv_auth b)
  | LTokens => tokens (srv_auth a) = tokens (srv_auth b)
  | LLimiter => forall v, is_Some (limiters (srv_rl a) !! v) <-> is_Some (limiters (srv_rl b) !! v)
  | LStats => ws_data (srv_stats a) = ws_data (srv_stats b)
  end.

Lemma same_under_refl l a : same_under l a a.
Proof. by destruct l. Qed.

Lemma same_under_trans l a b c : same_under l a b -> same_under l b c -> same_under l a c.
Proof. destruct l; cbn; [intros [] []; split| | |]; try congruence. intros H1 H2 v. by rewrite H1. Qed.

Lemma as_read_same l read cur : same_under l read cur -> as_read l read cur = cur.
Proof.
  destruct cur as [[tk th du ip cl mt] [rp bu lm] [wd st] w]. destruct l; cbn.
  - by intros [-> ->].
  - by intros ->.
  - intros Hv. unfold set_rl. cbn. do 2 f_equal. apply map_filter_id. intros v x Hx. apply Hv. by eexists.
  - by intros ->.
Qed.

(** Asking a bucket keeps the buckets there are. *)
Lemma ask_limiter_buckets l who now l' ok v :
  ask_limiter Allow l who now = (l', ok) -> is_Some (limiters l !! v) <-> is_Some (limiters l' !! v).
Proof.
  unfold ask_limiter. destruct (limiters l !! who) as [x|] eqn:Hx; [|by intros [= <- _]].
  destruct (Allow x now). intros [= <- _]. cbn. destruct (decide (v = who)) as [->|]; [|by rewrite lookup_insert_ne].
  rewrite lookup_insert_eq, Hx. split; by eexists.
Qed.

(** A step of a request changes only what its lock guards, a reader's nothing. *)
Lemma go_step_under s g ck now l :
  (forall m, needs g = Some (l, m) -> m = Shared) -> same_under l s (go_step s g ck now).1.
Proof.
  intros Hn. unfold needs in Hn. autounfold with steps.
  destruct (isBanned_params (srv_auth s) (remoteIP (go_req g)) (ck1 ck) (ck2 ck) (ck3 ck)) as (Ht & _).
  destruct (go_phase g) eqn:Hp; destruct l; try (by specialize (Hn _ eq_refl)); cbn [same_under].
  all: repeat case_match; simplify_eq/=; try (by repeat split).
  all: match goal with Ha : ask_limiter _ _ _ _ = (?l, _) |- _ => intros v0; by eapply ask_limiter_buckets end.
Qed.

Lemma lookup_step_keeps s g ck now : needs g = Some (LTokens, Shared) -> (go_step s g ck now).1 = s.
Proof.
  unfold needs. autounfold with steps. by destruct (go_phase g); repeat case_match.
Qed.

(** What always holds: who is in a section wants its lock, no two are in sections of the same
    lock but as readers, and what a section has read is still there. *)
Record lk_inv (k : locked) : Prop := mkLkInv {
  inv_wants : forall t h, lk_held k !! t = Some h -> wants (lk_sys k) t = Some (h_lock h, h_mode h);
  inv_excl : forall t t' h h', t <> t' -> lk_held k !! t = Some h -> lk_held k !! t' = Some h' ->
    h_lock h = h_lock h' -> h_mode h = Shared /\ h_mode h' = Shared;
  inv_read : forall t h, lk_held k !! t = Some h -> same_under (h_lock h) (h_read h) (sys_srv (lk_sys k))
}.

(** The event of the machine of Goroutines that a step of this one is. *)
Definition emitted (e : lk_event) : list sys_event :=
  match e with
  | LkArrive r => [SysArrive r]
  | LkFree i ck now | LkLeave i ck now => [SysStep i ck now]
  | LkPend | LkEnter _ => []
  | LkReloaded order => [SysReload order]
  | LkReported now => [SysTick now]
  end.

(** The shared state goes from [s] to [s'], by a step under the lock [o], if any. *)
Definition step_under (o : option (lock * mode)) (s s' : server) : Prop :=
  forall l, (forall m, o = Some (l, m) -> m = Shared) -> same_under l s s'.

(** A thread's part of the system. *)
Definition stands (s s' : system) (t : tid) : Prop :=
  match t with TidGo i => forall g, sys_go s !! i = Some g -> sys_go s' !! i = Some g | _ => True end.

Lemma stands_wants s s' t x : stands s s' t -> wants s t = Some x -> wants s' t = Some x.
Proof.
  destruct t as [i| |]; [|done..]. cbn. intros Hs (g & Hg & Hn)%bind_Some. rewrite (Hs g Hg). exact Hn.
Qed.

Lemma wants_go s i g : sys_go s !! i = Some g -> wants s (TidGo i) = needs g.
Proof. intros Hg. cbn. by rewrite Hg. Qed.

(** The invariant after a step of [t] (of nobody in particular, if [None]), which leaves its
    section if it was in one. *)
Lemma lk_inv_step k t o sys' held' pending' :
  lk_inv k -> step_under o (sys_srv (lk_sys k)) (sys_srv sys') ->
  (forall l m, o = Some (l, m) -> forall t' h', held' !! t' = Some h' -> h_lock h' = l -> m = Shared) ->
  (forall t' h', held' !! t' = Some h' -> lk_held k !! t' = Some h' /\ t' <> t) ->
  (forall t', t' <> t -> stands (lk_sys k) sys' t') ->
  lk_inv (mkLocked sys' held' pending').
Proof.
  intros [Iw Ie Ir] Hu Ho Hh Hs. constructor; cbn [lk_held lk_sys].
  - intros t' h' Ht. destruct (Hh _ _ Ht) as [H1 H2]. eapply stands_wants; [by apply Hs|by apply Iw].
  - intros t1 t2 h1 h2 Hne H1 H2. destruct (Hh _ _ H1), (Hh _ _ H2). by apply (Ie t1 t2).
  - intros t' h' Ht. destruct (Hh _ _ Ht) as [H1 H2]. eapply same_under_trans; [by eapply Ir|]. apply Hu.
    intros m ->. by eapply Ho.
Qed.

Lemma stands_same s s' t : sys_go s' = sys_go s -> stands s s' t.
Proof. intros Hs. destruct t; [|done..]. intros g. by rewrite Hs. Qed.

Lemma stands_other s srv hours i g t :
  t <> TidGo i -> stands s (mkSystem srv (<[i := g]> (sys_go s)) hours) t.
Proof. destruct t as [j| |]; [|done..]. intros Hne g' Hg. cbn. rewrite list_lookup_insert_ne; [done|]. by intros ->. Qed.

Lemma held_other k t t' h : delete t (lk_held k) !! t' = Some h -> lk_held k !! t' = Some h /\ t' <> t.
Proof. intros [Hne Hh]%lookup_delete_Some. by split. Qed.

(** Whoever else is in a section of the same lock is a reader beside a reader. *)
Lemma alone_or_reading k t l m h :
  lk_inv k -> lk_held k !! t = Some h -> wants (lk_sys k) t = Some (l, m) ->
  forall t' h', delete t (lk_held k) !! t' = Some h' -> h_lock h' = l -> m = Shared.
Proof.
  intros Hi Ht Hw t' h' [Ht' Hne]%held_other Hl. rewrite (inv_wants _ Hi _ _ Ht) in Hw. injection Hw as <- <-.
  by apply (inv_excl _ Hi t t' h h').
Qed.

Lemma step_enter k t l m :
  lk_inv k -> wants (lk_sys k) t = Some (l, m) -> available k l m = true ->
  forall b, lk_inv (mkLocked (lk_sys k) (<[t := mkHolding l m (sys_srv (lk_sys k))]> (lk_held k)) b).
Proof.
  intros [Iw Ie Ir] Hw Ha b. unfold available in Ha. rewrite andb_true_iff, bool_decide_eq_true in Ha. destruct Ha as [Hc _].
  constructor; cbn [lk_held lk_sys].
  - intros t' h' [[<- <-]|[_ Ht]]%lookup_insert_Some; [done|by apply Iw].
  - intros t1 t2 h1 h2 Hne [[<- <-]|[N1 H1]]%lookup_insert_Some [[<- <-]|[N2 H2]]%lookup_insert_Some Hl; cbn in *; [done|..].
    + by destruct (Hc _ _ H2) as [Hn|[]].
    + destruct (Hc _ _ H1) as [Hn|[]]; [by rewrite Hl in Hn|done].
    + by apply (Ie t1 t2).
  - intros t' h' [[<- <-]|[_ Ht]]%lookup_insert_Some; [apply same_under_refl|by eapply Ir].
Qed.

(** Only the token index is read under a shared lock. *)
Lemma needs_shared g l : needs g = Some (l, Shared) -> l = LTokens.
Proof. unfold needs. destruct (go_phase g); repeat case_match; by intros [= ->] || done. Qed.

Lemma step_leave k i h g ck now :
  lk_inv k -> lk_held k !! TidGo i = Some h -> sys_go (lk_sys k) !! i = Some g ->
  let cur := sys_srv (lk_sys k) in
  let '(s1, g1) := go_step (as_read (h_lock h) (h_read h) cur) g ck now in
  (written_back (h_mode h) cur s1, g1) = go_step cur g ck now.
Proof.
  intros Hi Hh Hg cur. subst cur. rewrite (as_read_same _ _ _ (inv_read _ Hi _ _ Hh)). set (cur := sys_srv (lk_sys k)).
  pose proof (inv_wants _ Hi _ _ Hh) as Hw. rewrite (wants_go _ _ _ Hg) in Hw.
  pose proof (lookup_step_keeps cur g ck now) as Hk. destruct (go_step cur g ck now) as [s1 g1]. cbn [fst] in Hk.
  destruct (h_mode h) eqn:Hm; [|done]. cbn. rewrite Hk; [done|]. rewrite Hw. by rewrite (needs_shared _ _ Hw).
Qed.

(** A step of this machine is the step, or no step, of that of Goroutines. *)
Lemma lk_step_emits k e k' :
  lk_inv k -> lk_step k e = Some k' -> sys_run (lk_sys k) (emitted e) = Some (lk_sys k').
Proof.
  intros Hi Hs. destruct e as [r|i ck now| |t|i ck now|order|now]; cbn [emitted Goroutines.sys_run Goroutines.sys_step]; cbn [lk_step] in Hs.
  - by injection Hs as <-.
  - apply bind_Some in Hs as (g & Hg & Hs). rewrite Hg. cbn. destruct (needs g); [done|]. destruct (is_done _); [done|].
    destruct (go_step (sys_srv (lk_sys k)) g ck now) as [srv g']. by injection Hs as <-.
  - repeat case_match; by simplify_eq/=.
  - apply bind_Some in Hs as ([l m] & Hw & Hs). repeat case_match; by simplify_eq/=.
  - apply bind_Some in Hs as (h & Hh & Hs). apply bind_Some in Hs as (g & Hg & Hs). rewrite Hg. cbn.
    pose proof (step_leave k i h g ck now Hi Hh Hg) as Hl. cbv zeta in Hl.
    destruct (go_step (as_read _ _ _) g ck now) as [s1 g1]. rewrite <- Hl. by injection Hs as <-.
  - apply bind_Some in Hs as (h & Hh & Hs). rewrite (as_read_same _ _ _ (inv_read _ Hi _ _ Hh)) in Hs. by injection Hs as <-.
  - apply bind_Some in Hs as (h & Hh & Hs). rewrite (as_read_same _ _ _ (inv_read _ Hi _ _ Hh)) in Hs.
    destruct (ws_Snapshot _ now) as [st [snap up]]. by injection Hs as <-.
Qed.

Lemma lk_step_inv k e k' : lk_inv k -> lk_step k e = Some k' -> lk_inv k'.
Proof.
  intros Hi Hs. destruct e as [r|i ck now| |t|i ck now|order|now]; cbn [lk_step] in Hs.
  - injection Hs as <-. destruct Hi as [Iw Ie Ir]. constructor; cbn; [|done..]. intros t h Ht. eapply stands_wants; [|by apply Iw].
    destruct t as [j| |]; [|done..]. intros g Hg. by apply lookup_app_l_Some.
  - apply bind_Some in Hs as (g & Hg & Hs). destruct (needs g) eqn:Hn; [done|]. destruct (is_done _); [done|].
    pose proof (fun l => go_step_under (sys_srv (lk_sys k)) g ck now l) as Hu. rewrite Hn in Hu.
    destruct (go_step (sys_srv (lk_sys k)) g ck now) as [srv g']. injection Hs as <-.
    apply (lk_inv_step k (TidGo i) None); [done|exact Hu|done| |intros t' Ht; by apply stands_other].
    intros t' h' Ht. split; [done|]. intros ->. apply (inv_wants _ Hi) in Ht. by rewrite (wants_go _ _ _ Hg), Hn in Ht.
  - destruct (lk_held k !! TidReload), (lk_pending k); try done. injection Hs as <-. by destruct Hi.
  - apply bind_Some in Hs as ([l m] & Hw & Hs). destruct (lk_held k !! t); [done|].
    destruct (available k l m) eqn:Ha; [|done]. cbn [andb] in Hs. destruct (_ || _); [|done]. injection Hs as <-. by apply step_enter.
  - apply bind_Some in Hs as (h & Hh & Hs). apply bind_Some in Hs as (g & Hg & Hs).
    pose proof (step_leave k i h g ck now Hi Hh Hg) as Hl. cbv zeta in Hl.
    destruct (go_step (as_read _ _ _) g ck now) as [s1 g1]. injection Hs as <-.
    pose proof (fun l => go_step_under (sys_srv (lk_sys k)) g ck now l) as Hu. rewrite <- Hl in Hu.
    apply (lk_inv_step k (TidGo i) (needs g)); [done|exact Hu| | |intros t' Ht; by apply stands_other].
    + intros l m Hn t' h'. eapply alone_or_reading; [done..|]. by rewrite (wants_go _ _ _ Hg).
    + intros t' h'. apply held_other.
  - apply bind_Some in Hs as (h & Hh & Hs). rewrite (as_read_same _ _ _ (inv_read _ Hi _ _ Hh)) in Hs. injection Hs as <-.
    apply (lk_inv_step k TidReload (Some (LTokens, Exclusive))); [done| | |intros t' h'; apply held_other|intros t' _; by apply stands_same].
    + intros l Hl. destruct l; try (by specialize (Hl _ eq_refl)); by repeat split.
    + intros l m [= <- <-] t' h'. by eapply alone_or_reading.
  - apply bind_Some in Hs as (h & Hh & Hs). rewrite (as_read_same _ _ _ (inv_read _ Hi _ _ Hh)) in Hs.
    destruct (ws_Snapshot _ now) as [st [snap up]]. injection Hs as <-.
    apply (lk_inv_step k TidHourly (Some (LStats, Exclusive))); [done| | |intros t' h'; apply held_other|intros t' _; by apply stands_same].
    + intros l Hl. destruct l; try (by specialize (Hl _ eq_refl)); by repeat split.
    + intros l m [= <- <-] t' h'. by eapply alone_or_reading.
Qed.

Lemma lk_start_inv s : lk_inv (lk_start s).
Proof. by constructor. Qed.

Lemma lk_run_emits k evs k' :
  lk_inv k -> lk_run k evs = Some k' -> lk_inv k' /\ sys_run (lk_sys k) (concat (map emitted evs)) = Some (lk_sys k').
Proof.
  revert k. induction evs as [|e evs IH]; intros k Hi Hr; [by simplify_eq/=|].
  cbn [lk_run] in Hr. apply bind_Some in Hr as (k1 & Hs & Hr). destruct (IH _ (lk_step_inv _ _ _ Hi Hs) Hr) as [Hi' Hr'].
  split; [done|]. cbn [map concat]. rewrite sys_run_app, (lk_step_emits _ _ _ Hi Hs). exact Hr'.
Qed.

(** The mutexes make the sections atomic: a run with locks is a run of the machine in which
    each section is one step, that at which it ends. What Interleavings and the files after
    it prove of all runs there holds here. *)
Theorem sections_atomic s evs k :
  lk_run (lk_start s) evs = Some k -> sys_run (sys_start s) (concat (map emitted evs)) = Some (lk_sys k).
Proof. intros Hr. by apply (lk_run_emits _ _ _ (lk_start_inv s)). Qed.

(** ** Nobody waits for ever

    The moves that are left to a request at most, those under a lock twice. *)
Definition weight (ph : phase) : nat :=
  match ph with
  | PhRoute => 15 | PhCheck => 14 | PhLookup => 12 | PhSuccess _ _ => 10 | PhLimiter _ _ => 8 | PhAllow _ _ => 6
  | PhHandle _ _ => 5 | PhForward _ _ _ _ => 4 | PhRecord _ _ _ => 3 | PhFailure => 2 | PhCount _ _ _ => 1 | PhDone _ => 0
  end.

Definition toll (g : goroutine) : nat := match needs g with Some _ => 2 | None => 1 end.

Lemma go_step_weight s g ck now :
  is_done (go_phase g) = false -> (weight (go_phase (go_step s g ck now).2) + toll g <= weight (go_phase g))%nat.
Proof.
  unfold toll, needs. autounfold with steps. destruct (go_phase g) eqn:Hp; try done; intros _; unfold goto;
    repeat case_match; simplify_eq/=; lia.
Qed.

(** Whose move an event is. *)
Definition mover (e : lk_event) : option tid :=
  match e with
  | LkFree i _ _ | LkLeave i _ _ => Some (TidGo i)
  | LkEnter t => Some t
  | LkReloaded _ => Some TidReload
  | LkReported _ => Some TidHourly
  | LkArrive _ | LkPend => None
  end.

Definition moves_of (i : nat) (evs : list lk_event) : nat :=
  length (List.filter (fun e => bool_decide (mover e = Some (TidGo i))) evs).

(** What is left to request [i], arrived or not. *)
Definition left_of (k : locked) (i : nat) : nat :=
  match sys_go (lk_sys k) !! i with
  | None => 15
  | Some g => weight (go_phase g) - match lk_held k !! TidGo i with Some _ => 1 | None => 0 end
  end.

Lemma needs_weight g l m : needs g = Some (l, m) -> (2 <= weight (go_phase g))%nat.
Proof. unfold needs. destruct (go_phase g); try done; cbn; lia. Qed.

(** A step that moves another thread, and leaves the request in or out of its section. *)
Lemma left_of_other k sys' held' pending' i :
  stands (lk_sys k) sys' (TidGo i) -> (sys_go (lk_sys k) !! i = None -> sys_go sys' !! i = None) ->
  held' !! TidGo i = lk_held k !! TidGo i ->
  left_of (mkLocked sys' held' pending') i = left_of k i.
Proof.
  intros Hs Hn Hh. unfold left_of. cbn [lk_sys lk_held]. rewrite Hh. destruct (sys_go (lk_sys k) !! i) as [g|] eqn:Hg; [by rewrite (Hs g Hg)|].
  by rewrite Hn.
Qed.

Definition moved (e : lk_event) (i : nat) : nat := if bool_decide (mover e = Some (TidGo i)) then 1 else 0.

Lemma moved_other e i t : mover e = Some t -> t <> TidGo i -> moved e i = 0%nat.
Proof. intros Hm Hne. unfold moved. rewrite Hm, bool_decide_eq_false_2; [done|]. by intros [= ->]. Qed.

Lemma moved_self e i : mover e = Some (TidGo i) -> moved e i = 1%nat.
Proof. intros Hm. unfold moved. by rewrite Hm, bool_decide_eq_true_2. Qed.

Lemma insert_other_go (gs : list goroutine) i j g : i <> j -> <[j := g]> gs !! i = gs !! i.
Proof. intros Hne. by apply list_lookup_insert_ne. Qed.

(** A move under no lock, and the end of a section. *)
Lemma left_of_free k i g ck now srv g' hours b :
  lk_inv k -> sys_go (lk_sys k) !! i = Some g -> needs g = None -> is_done (go_phase g) = false ->
  go_step (sys_srv (lk_sys k)) g ck now = (srv, g') ->
  (left_of (mkLocked (mkSystem srv (<[i := g']> (sys_go (lk_sys k))) hours) (lk_held k) b) i + 1 <= left_of k i)%nat.
Proof.
  intros Hi Hg Hn Hd Hstep. unfold left_of. cbn [lk_sys lk_held sys_go]. rewrite list_lookup_insert_eq by (by eapply lookup_lt_Some).
  rewrite Hg. destruct (lk_held k !! TidGo i) as [h|] eqn:Hh.
  { apply (inv_wants _ Hi) in Hh. by rewrite (wants_go _ _ _ Hg), Hn in Hh. }
  pose proof (go_step_weight (sys_srv (lk_sys k)) g ck now Hd) as Hw. rewrite Hstep in Hw. unfold toll in Hw. rewrite Hn in Hw. cbn [snd] in Hw. lia.
Qed.

Lemma left_of_leave k i h g ck now srv s1 g' hours b :
  lk_inv k -> lk_held k !! TidGo i = Some h -> sys_go (lk_sys k) !! i = Some g ->
  go_step srv g ck now = (s1, g') ->
  forall srv', (left_of (mkLocked (mkSystem srv' (<[i := g']> (sys_go (lk_sys k))) hours) (delete (TidGo i) (lk_held k)) b) i + 1 <= left_of k i)%nat.
Proof.
  intros Hi Hh Hg Hstep srv'. unfold left_of. cbn [lk_sys lk_held sys_go]. rewrite list_lookup_insert_eq by (by eapply lookup_lt_Some).
  rewrite Hg, Hh, lookup_delete_eq. pose proof (inv_wants _ Hi _ _ Hh) as Hw. rewrite (wants_go _ _ _ Hg) in Hw.
  pose proof (needs_weight _ _ _ Hw) as H2. assert (is_done (go_phase g) = false) as Hd by (destruct (go_phase g); first [done|cbn in H2; lia]).
  pose proof (go_step_weight srv g ck now Hd) as Hs. rewrite Hstep in Hs. unfold toll in Hs. rewrite Hw in Hs. cbn [snd] in Hs. lia.
Qed.

Lemma lk_step_left k e k' i : lk_inv k -> lk_step k e = Some k' -> (left_of k' i + moved e i <= left_of k i)%nat.
Proof.
  intros Hi Hs. destruct e as [r|j ck now| |t|j ck now|order|now]; cbn [lk_step] in Hs.
  - injection Hs as <-. unfold left_of, moved. cbn [lk_sys lk_held sys_go mover]. rewrite bool_decide_eq_false_2 by done.
    destruct (sys_go (lk_sys k) !! i) as [g|] eqn:Hg; [rewrite (lookup_app_l_Some _ _ _ _ Hg); lia|].
    destruct ((sys_go (lk_sys k) ++ [go_new r]) !! i) as [g|] eqn:Hg'; [|lia].
    apply lookup_app_Some in Hg' as [Hg'|[_ Hg']]; [congruence|].
    apply list_elem_of_lookup_2 in Hg'. apply list_elem_of_singleton in Hg' as ->. cbn. lia.
  - apply bind_Some in Hs as (g & Hg & Hs). destruct (needs g) eqn:Hn; [done|]. destruct (is_done _) eqn:Hd; [done|].
    destruct (go_step (sys_srv (lk_sys k)) g ck now) as [srv g'] eqn:Hstep. injection Hs as <-. destruct (decide (j = i)) as [->|Hne].
    + rewrite moved_self by done. by eapply left_of_free.
    + rewrite (moved_other _ i (TidGo j)) by (done || congruence). rewrite (left_of_other k); [lia| | |done]; cbn; by rewrite insert_other_go by congruence.
  - destruct (lk_held k !! TidReload), (lk_pending k); try done. injection Hs as <-. unfold moved. rewrite bool_decide_eq_false_2 by done.
    rewrite (left_of_other k); [lia|by apply stands_same|done|done].
  - apply bind_Some in Hs as ([l m] & Hw & Hs). destruct (lk_held k !! t) eqn:Ht; [done|]. destruct (_ && _); [|done]. injection Hs as <-.
    destruct (decide (t = TidGo i)) as [->|Hne].
    + rewrite moved_self by done. unfold left_of. cbn [lk_sys lk_held]. rewrite Ht, lookup_insert_eq.
      apply bind_Some in Hw as (g & Hg & Hn). rewrite Hg. apply needs_weight in Hn. lia.
    + rewrite (moved_other _ i t) by done. rewrite (left_of_other k); [lia|by apply stands_same|done|by rewrite lookup_insert_ne].
  - apply bind_Some in Hs as (h & Hh & Hs). apply bind_Some in Hs as (g & Hg & Hs).
    destruct (go_step _ g ck now) as [s1 g1] eqn:Hstep. injection Hs as <-. destruct (decide (j = i)) as [->|Hne].
    + rewrite moved_self by done. by eapply left_of_leave.
    + rewrite (moved_other _ i (TidGo j)) by (done || congruence).
      rewrite (left_of_other k); [lia|..]; cbn; [by rewrite insert_other_go by congruence..|]. rewrite lookup_delete_ne by congruence. done.
  - apply bind_Some in Hs as (h & Hh & Hs). injection Hs as <-. rewrite (moved_other _ i TidReload) by done.
    rewrite (left_of_other k); [lia|by apply stands_same|done|by rewrite lookup_delete_ne].
  - apply bind_Some in Hs as (h & Hh & Hs). destruct (ws_Snapshot _ now) as [st [snap up]]. injection Hs as <-.
    rewrite (moved_other _ i TidHourly) by done.
    rewrite (left_of_other k); [lia|by apply stands_same|done|by rewrite lookup_delete_ne].
Qed.

(** A move of a request, or of a reload or report that is under way. *)
Definition under_way (e : lk_event) : bool :=
  match e with LkArrive _ | LkPend | LkEnter TidHourly => false | _ => true end.

(** Whoever is in a section can leave it. *)
Lemma holder_leaves k t h : lk_inv k -> lk_held k !! t = Some h -> exists e, under_way e = true /\ is_Some (lk_step k e).
Proof.
  intros Hi Hh. destruct t as [i| |].
  - exists (LkLeave i (mkAuthClock 0 0 0 0) 0). split; [done|]. cbn [lk_step]. rewrite Hh. cbn [mbind option_bind].
    pose proof (inv_wants _ Hi _ _ Hh) as Hw. apply bind_Some in Hw as (g & -> & _). cbn [mbind option_bind].
    destruct (go_step _ g _ _). by eexists.
  - exists (LkReloaded []). split; [done|]. cbn [lk_step]. rewrite Hh. by eexists.
  - exists (LkReported 0). split; [done|]. cbn [lk_step]. rewrite Hh. cbn [mbind option_bind].
    destruct (ws_Snapshot _ _) as [st [snap up]]. by eexists.
Qed.

(** Where nobody under way can move, nobody is. *)
Lemma stuck_is_done k :
  lk_inv k -> (forall e, under_way e = true -> lk_step k e = None) ->
  lk_held k = ∅ /\ lk_pending k = false /\ forall g, g ∈ sys_go (lk_sys k) -> is_done (go_phase g) = true.
Proof.
  intros Hi Hstuck. assert (lk_held k = ∅) as Hh.
  { apply map_empty. intros t. destruct (lk_held k !! t) as [h|] eqn:Ht; [|done].
    destruct (holder_leaves k t h Hi Ht) as (e & He & [k' Hk]). by rewrite (Hstuck e He) in Hk. }
  assert (forall l m, m = Exclusive \/ lk_pending k = false -> available k l m = true) as Hav.
  { intros l m Hm. unfold available. rewrite Hh, bool_decide_eq_true_2 by apply map_Forall_empty. by destruct Hm as [->| ->]; rewrite ?andb_false_r. }
  assert (lk_pending k = false) as Hp.
  { destruct (lk_pending k) eqn:Hp; [|done]. exfalso. pose proof (Hstuck (LkEnter TidReload) eq_refl) as Hs. cbn in Hs.
    rewrite Hh, lookup_empty, (Hav LTokens Exclusive), Hp in Hs by auto. done. }
  split; [done|]. split; [done|]. intros g [i Hg]%list_elem_of_lookup_1. destruct (is_done (go_phase g)) eqn:Hd; [done|]. exfalso.
  destruct (needs g) as [[l m]|] eqn:Hn.
  - pose proof (Hstuck (LkEnter (TidGo i)) eq_refl) as Hs. cbn [lk_step] in Hs. rewrite (wants_go _ _ _ Hg), Hn in Hs.
    cbn [mbind option_bind] in Hs. rewrite Hh, lookup_empty, (Hav l m) in Hs by auto.
    by rewrite bool_decide_eq_false_2 in Hs.
  - pose proof (Hstuck (LkFree i (mkAuthClock 0 0 0 0) 0) eq_refl) as Hs. cbn [lk_step] in Hs. rewrite Hg in Hs.
    cbn [mbind option_bind] in Hs. rewrite Hn, Hd in Hs. by destruct (go_step _ _ _ _).
Qed.

Lemma moves_bounded k evs k' i : lk_inv k -> lk_run k evs = Some k' -> (left_of k' i + moves_of i evs <= left_of k i)%nat.
Proof.
  revert k. induction evs as [|e evs IH]; intros k Hi Hr; [simplify_eq/=; unfold moves_of; cbn; lia|].
  cbn [lk_run] in Hr. apply bind_Some in Hr as (k1 & Hs & Hr). pose proof (IH _ (lk_step_inv _ _ _ Hi Hs) Hr) as H1.
  pose proof (lk_step_left _ _ _ i Hi Hs) as H2. unfold moves_of, moved in *. cbn [List.filter].
  destruct (bool_decide _); cbn [length]; lia.
Qed.

(** C33: the watchtower's mutexes neither lose an update nor hold anybody up for ever. Every
    goroutine asks for a lock, waits until it is free, reads what the lock guards, and later
    writes back what it has made of that and gives the lock back, with anything in between
    that the others can do. (1) Whatever the schedule, the result is that of the run in which
    every critical section is one step, so what holds of all those runs holds here. (2) No
    request makes more than fifteen moves, whatever the others do. (3) As long as a request
    has not been answered, a lock is held or a reload waits for one, some request, or a
    reload or report that is under way, can move: there is no deadlock. So every schedule
    that does not stop while somebody can move answers every request. *)
Theorem mutexes_sound s evs k :
  lk_run (lk_start s) evs = Some k ->
  sys_run (sys_start s) (concat (map emitted evs)) = Some (lk_sys k)
  /\ (forall i, (moves_of i evs <= 15)%nat)
  /\ ((forall e, under_way e = true -> lk_step k e = None) ->
      lk_held k = ∅ /\ lk_pending k = false /\ forall g, g ∈ sys_go (lk_sys k) -> exists resp, go_phase g = PhDone resp).
Proof.
  intros Hr. destruct (lk_run_emits _ _ _ (lk_start_inv s) Hr) as [Hi He]. split; [exact He|]. split.
  - intros i. pose proof (moves_bounded _ _ _ i (lk_start_inv s) Hr) as Hm. change (left_of (lk_start s) i) with 15%nat in Hm. lia.
  - intros Hstuck. destruct (stuck_is_done k Hi Hstuck) as (Hh & Hp & Hd). split; [done|]. split; [done|].
    intros g Hg. specialize (Hd g Hg). destruct (go_phase g); try done. by eexists.
Qed.
End Locks.

(** ** A run with locks

    Two requests, a reload that waits for a reader, and the readers that wait for it. *)

Definition lk_sample (evs : list lk_event) : option (locked (W := list bytes) (L := Z)) :=
  lk_run (E := unit) count_new count_allow (fun _ => EmptyString) (lk_start sample_server) evs.

Definition both_moves (i : nat) : list lk_event := [LkEnter (TidGo i); LkLeave i sample_clock Minute].
Definition free_move (i : nat) : list lk_event := [LkFree i sample_clock Minute].

(** Up to the token index, where the first request reads; then the reload announces itself. *)
Definition to_the_index : list lk_event :=
  [LkArrive (sample_request "/rpc"); LkArrive (sample_request "/rpc")] ++ free_move 0 ++ free_move 1
  ++ both_moves 0 ++ both_moves 1 ++ [LkEnter (TidGo 0); LkPend].

Definition to_the_end (i : nat) : list lk_event :=
  both_moves i ++ both_moves i ++ free_move i ++ free_move i ++ free_move i ++ both_moves i ++ free_move i.

Definition whole_run : list lk_event :=
  to_the_index ++ [LkLeave 0 sample_clock Minute; LkEnter TidReload; LkReloaded [("alice", mkValidatorConfig "ta" (Some ["rpc"]) "info")]]
  ++ both_moves 1 ++ to_the_end 0 ++ to_the_end 1.

Example waiting :
  map (fun e => bool_decide (is_Some (lk_sample (to_the_index ++ e)))) [[LkEnter (TidGo 1)]; [LkEnter TidReload]; [LkLeave 0 sample_clock Minute]]
  = [false; false; true].
Proof. vm_compute. reflexivity. Qed.

Lemma mutexes_sound_witness :
  match lk_sample whole_run with
  | Some k =>
      sys_run (E := unit) count_new count_allow (fun _ => EmptyString) (sys_start sample_server) (concat (map emitted whole_run)) = Some (lk_sys k)
      /\ moves_of 0 whole_run = 15%nat /\ map go_phase (sys_go (lk_sys k)) = repeat (PhDone (mkResponse StatusOK ∅ EmptyString)) 2
  | None => False
  end.
Proof.
  assert ((fun k => map go_phase (sys_go (lk_sys k))) <$> lk_sample whole_run = Some (repeat (PhDone (mkResponse StatusOK ∅ EmptyString)) 2)) as Hd
    by (vm_compute; reflexivity).
  destruct (lk_sample whole_run) as [k|] eqn:E; [|discriminate Hd]. unfold lk_sample in E.
  destruct (mutexes_sound (E := unit) count_new count_allow (fun _ => EmptyString) sample_server whole_run k E) as (H1 & _ & _).
  split; [exact H1|]. split; [vm_compute; reflexivity|]. injection Hd as Hd. exact Hd.
Defined.
