(* ===== verification/Interleavings.v ===== *)
(** * What holds for all interleavings of the watchtower's goroutines

    Properties of the runs of Goroutines: what has happened to a request before anything is
    forwarded for it, what the authenticator's state is, and what a ban and a reload of the
    validators mean while other requests are on their way. *)

From Stdlib Require Import Ascii.
From S2P Require Import Prelude GoStrings GoTime GoFloat GoHttp WtConfig Auth WtStats WtMetrics RateLimit Handlers Ledger Goroutines.

Local Open Scope Z_scope.

Section Interleavings.
Context {W E L : Type} `{PayloadForwarder W E}.
Context (NewLimiter : float64 -> Z -> L).
Context (Allow : L -> Time -> L * bool).
Context (metrics_page : W -> string).

Notation server := (Server (W := W) (L := L)).
Notation system := (system (W := W) (L := L)).
Notation view := (view (W := W) (L := L)).
Notation go_step := (go_step (E := E) NewLimiter Allow metrics_page).
Notation run_views := (run_views (E := E) NewLimiter Allow metrics_page).
Notation views := (views (E := E) NewLimiter Allow metrics_page).
Notation sys_step := (sys_step (E := E) NewLimiter Allow metrics_page).
Notation sys_run := (sys_run (E := E) NewLimiter Allow metrics_page).

(** ** What comes before a payload is forwarded *)

(** The address was not banned when it was checked. *)
Definition unbanned (r : Request) (vw : view) : Prop :=
  (isBanned (srv_auth (vw_srv vw)) (remoteIP r) (ck1 (vw_ck vw)) (ck2 (vw_ck vw)) (ck3 (vw_ck vw))).2 = false.

(** The token was a validator's when it was looked up. *)
Definition known (r : Request) (who : string) (v : ValidatorConfig) (vw : view) : Prop :=
  tokens (srv_auth (vw_srv vw)) !! bearerToken r = Some (mkTokenEntry who v).

(** The validator's bucket had a token when it was asked. *)
Definition granted (who : string) (vw : view) : Prop :=
  (ask_limiter Allow (srv_rl (vw_srv vw)) who (vw_now vw)).2 = true.

(** The first six steps of a request that reaches its handler. *)
Definition admitted (r : Request) (who : string) (v : ValidatorConfig) (vs : list view) : Prop :=
  exists v0 vc vl vf vm va, vs = [v0; vc; vl; vf; vm; va] /\ unbanned r vc /\ known r who v vl /\ granted who va.

(** What a goroutine has done when it reaches a phase. *)
Definition earned (g : goroutine) (vs : list view) : Prop :=
  let r := go_req g in
  match go_phase g with
  | PhRoute => vs = []
  | PhCheck => exists v0, vs = [v0]
  | PhLookup => exists v0 vc, vs = [v0; vc] /\ unbanned r vc
  | PhSuccess who v => exists v0 vc vl, vs = [v0; vc; vl] /\ unbanned r vc /\ known r who v vl
  | PhLimiter who v => exists v0 vc vl vf, vs = [v0; vc; vl; vf] /\ unbanned r vc /\ known r who v vl
  | PhAllow who v => exists v0 vc vl vf vm, vs = [v0; vc; vl; vf; vm] /\ unbanned r vc /\ known r who v vl
  | PhHandle who v => admitted r who v vs
  | PhForward who v e body => (exists vs' vh, vs = vs' ++ [vh] /\ admitted r who v vs') /\ acceptable r v e body
  | PhRecord who e n | PhCount who e n => exists body, forwards (go_effects g) = [(e, who, body)] /\ n = Z.of_nat (length body)
  | PhFailure | PhDone _ => True
  end.

(** Before the forwarding there is nothing to justify. *)
Definition quiet (ph : phase) : bool :=
  match ph with PhRecord _ _ _ | PhCount _ _ _ | PhDone _ => false | _ => true end.

(** What was forwarded is one payload, the acceptable one of a request that was let in. *)
Definition warranted (g : goroutine) (vs : list view) : Prop :=
  (quiet (go_phase g) = true -> forwards (go_effects g) = [])
  /\ forall e who body, (e, who, body) ∈ forwards (go_effects g) ->
     forwards (go_effects g) = [(e, who, body)]
     /\ exists v vs' rest, vs = vs' ++ rest /\ admitted (go_req g) who v vs' /\ acceptable (go_req g) v e body.

(** The branches of a step. *)
Ltac branches := repeat first [progress cbn [snd] | case_match].

Lemma forwards_rejection a r lv reason : forwards (rejection a r lv reason) = [].
Proof. apply forwards_auth. Qed.

(** The steps that forward nothing. *)
Lemma warranted_goto g vs vw ph effs :
  warranted g vs -> forwards effs = [] -> (quiet ph = true -> quiet (go_phase g) = true) ->
  warranted (goto g ph effs) (vs ++ [vw]).
Proof.
  intros [Hq Hj] He Hph. unfold warranted, goto. cbn [go_phase go_req go_effects]. rewrite forwards_app, He, app_nil_r.
  split; [auto|]. intros e who body Hin. destruct (Hj e who body Hin) as (Hone & v & vs' & rest & -> & Ha).
  split; [done|]. exists v, vs', (rest ++ [vw]). by rewrite app_assoc.
Qed.

Lemma go_step_warranted s g ck now vs :
  earned g vs -> warranted g vs -> warranted (go_step s g ck now).2 (vs ++ [mkView s ck now]).
Proof.
  intros He Hj. assert (Hk : warranted g (vs ++ [mkView s ck now])).
  { pose proof (warranted_goto g vs (mkView s ck now) (go_phase g) [] Hj eq_refl id) as H0.
    unfold goto in H0. rewrite app_nil_r in H0. by destruct g. }
  autounfold with steps. unfold earned in He. destruct (go_phase g) eqn:Hp.
  all: try (branches; apply warranted_goto; try done; try apply forwards_rejection; try apply forwards_metric; rewrite ?Hp; done).
  - destruct (forward e (srv_world s) who v body) as [[w ops] out].
    destruct He as ((vs' & vh & -> & Ha) & Hacc).
    assert (forall ph, quiet ph = false ->
      warranted (goto g ph (SForward e who body :: map SMetric ops)) ((vs' ++ [vh]) ++ [mkView s ck now])) as Hf.
    { intros ph Hph. unfold warranted, goto. cbn [go_phase go_req go_effects].
      destruct Hj as [Hq _]. rewrite Hp in Hq. rewrite forwards_app, (Hq eq_refl), forwards_one, Hph. split; [done|].
      intros e' who' body' [= -> -> ->]%list_elem_of_singleton. split; [done|].
      exists v, vs', ([vh] ++ [mkView s ck now]). by rewrite app_assoc. }
    by destruct out; apply Hf.
  - exact Hk.
Qed.

(** What a step forwards, and what it does to the world. *)
Lemma go_step_forwards s g ck now :
  let g' := (go_step s g ck now).2 in
  forwards (go_effects g')
    = forwards (go_effects g) ++ match go_phase g with PhForward who v e body => [(e, who, body)] | _ => [] end
  /\ srv_world (go_step s g ck now).1
    = match go_phase g with PhForward who v e body => (forward e (srv_world s) who v body).1.1 | _ => srv_world s end.
Proof.
  cbv zeta. autounfold with steps. unfold goto. destruct (go_phase g) eqn:Hp.
  all: repeat first [progress cbn [fst snd go_effects] | case_match];
    rewrite ?forwards_app, ?forwards_rejection, ?forwards_metric, ?forwards_one, ?app_nil_r; done.
Qed.

Lemma handle_acceptable r v e body :
  mux_lookup inner_mux (Method r) (URL_Path r) = MuxHandler (HPayload e) ->
  negb (bool_decide (ep_perm e ∈ perms v)) = false -> read_body r = Some body -> acceptable r v e body.
Proof.
  intros Haddr%inner_lookup_payload Hp%negb_false_iff%bool_decide_eq_true_1 Hb. unfold read_body in Hb.
  destruct (ReqBody r) as [b|] eqn:Hr; [|done]. destruct (Z.ltb_spec maxBodyBytes (Z.of_nat (length b))); by simplify_eq.
Qed.

Lemma go_step_earned s g ck now vs :
  earned g vs -> warranted g vs -> earned (go_step s g ck now).2 (vs ++ [mkView s ck now]).
Proof.
  intros He Hj. autounfold with steps. unfold earned in He.
  destruct (go_phase g) eqn:Hp.
  all: repeat match goal with H : _ /\ _ |- _ => destruct H | H : exists _, _ |- _ => destruct H end; subst.
  - branches; try done; by exists (mkView s ck now).
  - branches; [done|]. eexists _, _. split; [done|]. unfold unbanned. cbn [vw_srv vw_ck go_req goto].
    by match goal with H : isBanned _ _ _ _ _ = _ |- _ => rewrite H end.
  - branches; [|done]. eexists _, _, _. split_and!; [done..|]. unfold known. cbn [vw_srv goto go_req].
    match goal with H : _ !! _ = Some ?t |- _ => by destruct t end.
  - done.
  - branches. by eexists _, _, _, _.
  - branches. by eexists _, _, _, _, _.
  - branches; [|done]. eexists _, _, _, _, _, _. split_and!; [done..|]. unfold granted. cbn [vw_srv vw_now].
    by match goal with H : ask_limiter _ _ _ _ = _ |- _ => rewrite H end.
  - branches; try done. cbn [earned goto go_phase go_req]. split; [by eexists _, _|]. by apply handle_acceptable.
  - destruct (forward e (srv_world s) who v body) as [[w ops] [[]|err]]; [|done]. exists body.
    unfold goto. cbn [snd go_effects]. destruct Hj as [Hq _]. rewrite Hp in Hq. by rewrite forwards_app, (Hq eq_refl), forwards_one.
  - branches. unfold goto. cbn [earned go_phase go_effects]. eexists. by rewrite app_nil_r.
  - done.
  - unfold earned. cbn [snd]. by rewrite Hp.
Qed.

(** What holds of a goroutine and what it has seen. *)
Lemma run_views_warranted r vs :
  let g := run_views (go_new r) vs in earned g vs /\ warranted g vs /\ go_req g = r.
Proof.
  induction vs as [|[s ck now] vs IH] using rev_ind; cbv zeta in *.
  { split_and!; [done| |done]. split; [done|]. intros e who body Hin. by apply not_elem_of_nil in Hin. }
  unfold Goroutines.run_views in *. rewrite fold_left_app. cbn [fold_left vw_srv vw_ck vw_now].
  destruct IH as (He & Hj & Hr). split_and!.
  - by apply go_step_earned.
  - by apply go_step_warranted.
  - by rewrite go_step_req.
Qed.

(** Every goroutine of a run. *)
Lemma sys_run_warranted s evs s' i g :
  sys_run (sys_start s) evs = Some s' -> sys_go s' !! i = Some g ->
  SysArrive (go_req g) ∈ evs /\ warranted g (views i (sys_start s) evs).
Proof.
  intros Hr Hg. destruct (sys_run_arrived _ _ _ _ _ _ _ _ Hr (Nat.le_0_l i) Hg) as (r & Hevs & ->).
  destruct (run_views_warranted r (views i (sys_start s) evs)) as (_ & Hj & Hreq). by rewrite Hreq.
Qed.

(** However the requests interleave with each other, with reloads and with the hourly
    report: what a goroutine has handed to the forwarder is the one payload of its own
    request, under the validator's name, after the goroutine itself has found the address
    not banned, the token to be that validator's and a token in that validator's bucket, in
    this order, each in the state of its own critical section. *)
Theorem forwarded_only_if_admitted s evs s' i g e who body :
  sys_run (sys_start s) evs = Some s' -> sys_go s' !! i = Some g -> (e, who, body) ∈ forwards (go_effects g) ->
  SysArrive (go_req g) ∈ evs /\ forwards (go_effects g) = [(e, who, body)]
  /\ exists v vs rest, views i (sys_start s) evs = vs ++ rest
     /\ admitted (go_req g) who v vs /\ acceptable (go_req g) v e body.
Proof.
  intros Hr Hg Hin. destruct (sys_run_warranted _ _ _ _ _ Hr Hg) as [Hevs [_ Hj]]. split; [done|]. by apply Hj.
Qed.

(** ** The token index *)

(** A view is the state its step was taken in. *)
Lemma views_state i s evs vw :
  vw ∈ views i s evs -> exists pre post s1, evs = pre ++ post /\ sys_run s pre = Some s1 /\ vw_srv vw = sys_srv s1.
Proof.
  revert s. induction evs as [|e evs IH]; intros s; cbn; [by intros ?%not_elem_of_nil|].
  destruct (sys_step s e) as [s1|] eqn:Hs; [|by intros ?%not_elem_of_nil].
  intros [Hin|Hin]%elem_of_app.
  - exists [], (e :: evs), s. split_and!; [done..|]. destruct e as [|j ck now| |]; try by apply not_elem_of_nil in Hin.
    case_match; [|by apply not_elem_of_nil in Hin]. by apply list_elem_of_singleton in Hin as ->.
  - destruct (IH _ Hin) as (pre & post & s2 & -> & Hr & Hv). exists (e :: pre), post, s2. split_and!; [done| |done].
    cbn. by rewrite Hs.
Qed.

(** The operations on the failure records and the token index. *)
Definition go_op (g : goroutine) (ck : auth_clock) : list auth_op :=
  let ip := remoteIP (go_req g) in
  match go_phase g with
  | PhCheck => [OpIsBanned ip (ck1 ck) (ck2 ck) (ck3 ck)]
  | PhFailure => [OpFailure ip (ck4 ck)]
  | PhSuccess _ _ => [OpSuccess ip]
  | _ => []
  end.

Definition sys_op (s : system) (e : sys_event) : list auth_op :=
  match e with
  | SysStep i ck _ => match sys_go s !! i with Some g => go_op g ck | None => [] end
  | SysReload order => [OpReload order]
  | _ => []
  end.

Fixpoint sys_ops (s : system) (evs : list sys_event) : list auth_op :=
  match evs with
  | [] => []
  | e :: evs' => sys_op s e ++ match sys_step s e with Some s' => sys_ops s' evs' | None => [] end
  end.

Lemma go_step_auth s g ck now : srv_auth (go_step s g ck now).1 = auth_run (srv_auth s) (go_op g ck).
Proof.
  autounfold with steps. unfold go_op, auth_run. destruct (go_phase g); cbn [fold_left auth_step]; try done.
  - by destruct (isBanned _ _ _ _ _).
  - by destruct (ask_limiter _ _ _ _).
  - by destruct (forward e (srv_world s) who v body) as [[w ops] out].
Qed.

Lemma sys_step_auth s e s' : sys_step s e = Some s' -> srv_auth (sys_srv s') = auth_run (srv_auth (sys_srv s)) (sys_op s e).
Proof.
  destruct e as [r|i ck now|order|now]; cbn [Goroutines.sys_step sys_op].
  - by intros [= <-].
  - destruct (sys_go s !! i) as [g|]; [|done]. cbn. pose proof (go_step_auth (sys_srv s) g ck now) as Ha.
    destruct (go_step (sys_srv s) g ck now) as [srv g']. by intros [= <-].
  - by intros [= <-].
  - destruct (ws_Snapshot _ _) as [st [snap up]]. by intros [= <-].
Qed.

(** The authenticator of a run is the one of Auth's executions, so what is proved of those
    (failures are counted, a ban needs as many of them as configured) holds here. *)
Theorem sys_run_auth s evs s' :
  sys_run s evs = Some s' -> srv_auth (sys_srv s') = auth_run (srv_auth (sys_srv s)) (sys_ops s evs).
Proof.
  revert s. induction evs as [|e evs IH]; intros s; cbn; [by intros [= <-]|].
  intros (s1 & Hs & Hr)%bind_Some. unfold auth_run. rewrite Hs, (IH _ Hr), fold_left_app. fold (auth_run (srv_auth (sys_srv s)) (sys_op s e)).
  by rewrite (sys_step_auth _ _ _ Hs).
Qed.

(** The validator whose token it is, also when tokens are shared. *)
Lemma token_index_in l t e : token_index l !! t = Some e -> (ValidatorName e, te_Config e) ∈ l /\ Token (te_Config e) = t.
Proof.
  induction l as [|[n v] l IH] using rev_ind; [cbn; by rewrite lookup_empty|].
  rewrite token_index_snoc, lookup_insert_Some, elem_of_app, list_elem_of_singleton.
  intros [[<- <-]|[_ He]]; [by split; [right|]|]. destruct (IH He). by split; [left|].
Qed.

Definition is_reload (e : sys_event) : bool := match e with SysReload _ => true | _ => false end.

Lemma auth_run_tokens ops a : Forall (fun o => match o with OpReload _ => False | _ => True end) ops -> tokens (auth_run a ops) = tokens a.
Proof.
  revert a. induction ops as [|o ops IH]; intros a Ho; [done|]. apply Forall_cons_iff in Ho as [Ho Hos].
  change (tokens (auth_run (auth_step a o) ops) = tokens a). rewrite (IH _ Hos).
  destruct o as [ip t1 t2 t3|ip t|ip|l]; try done. exact (proj1 (isBanned_params a ip t1 t2 t3)).
Qed.

Lemma sys_run_tokens s evs s' :
  sys_run s evs = Some s' -> Forall (fun e => is_reload e = false) evs -> tokens (srv_auth (sys_srv s')) = tokens (srv_auth (sys_srv s)).
Proof.
  intros Hr Hf. rewrite (sys_run_auth _ _ _ Hr). apply auth_run_tokens. clear Hr. revert s.
  induction evs as [|e evs IH]; intros s; cbn; [constructor|]. apply Forall_cons_iff in Hf as [He Hf].
  apply Forall_app. split; [|by destruct (sys_step s e); [apply IH|constructor]].
  destruct e as [|i ck now| |]; try done; cbn [sys_op].
  destruct (sys_go s !! i) as [g|]; [|constructor]. unfold go_op. destruct (go_phase g); repeat constructor.
Qed.

(** C10: a reload takes effect at once for whoever arrives after it: until the next one, nothing
    is forwarded for such a request unless its token is that of a validator of the new
    configuration, and then under that validator's name and with its permissions, whatever
    older requests are still on their way. A token that was taken out is refused. *)
Theorem reload_governs_arrivals s evs1 order evs2 s1 s' i g e who body :
  sys_run s evs1 = Some s1 -> sys_run s (evs1 ++ SysReload order :: evs2) = Some s' ->
  Forall (fun e => is_reload e = false) evs2 -> (length (sys_go s1) <= i)%nat ->
  sys_go s' !! i = Some g -> (e, who, body) ∈ forwards (go_effects g) ->
  exists v, (who, v) ∈ order /\ Token v = bearerToken (go_req g) /\ ep_perm e ∈ perms v.
Proof.
  intros H1 Hr Hf Hi Hg Hin. rewrite sys_run_app, H1 in Hr. cbn in Hr.
  set (s2 := mkSystem _ (sys_go s1) (sys_hours s1)) in Hr.
  destruct (sys_run_arrived _ _ _ s2 _ _ _ _ Hr Hi Hg) as (r & _ & ->).
  destruct (run_views_warranted r (views i s2 evs2)) as (_ & [_ Hj] & Hreq). rewrite Hreq in *.
  destruct (Hj _ _ _ Hin) as (_ & v & vs & rest & Hvs & (v0 & vc & vl & vf & vm & va & -> & _ & Hk & _) & Hacc).
  assert (vl ∈ views i s2 evs2) as Hvl by (rewrite Hvs; right; right; left).
  destruct (views_state _ _ _ _ Hvl) as (pre & post & s3 & -> & Hpre & Hsrv). apply Forall_app in Hf as [Hf _].
  unfold known in Hk. rewrite Hsrv, (sys_run_tokens _ _ _ Hpre Hf) in Hk. cbn in Hk.
  apply token_index_in in Hk as [Hin' Ht]. exists v. split_and!; [done..|]. by destruct Hacc as (_ & Hp & _).
Qed.

(** ** A ban holds for everybody who comes after it *)

(** The readings of the clock lie in [[lo, hi]]. *)
Definition ev_within (lo hi : Time) (e : sys_event) : Prop :=
  match e with
  | SysStep _ ck _ => lo <= ck1 ck <= hi /\ lo <= ck2 ck <= hi /\ lo <= ck3 ck <= hi /\ lo <= ck4 ck <= hi
  | _ => True
  end.

(** Past the check, and about to clear the record of its address if the token is good. *)
Definition on_its_way (ip : string) (g : goroutine) : Prop :=
  remoteIP (go_req g) = ip /\ match go_phase g with PhLookup | PhSuccess _ _ => True | _ => False end.

(** What a request from a banned address gets. *)
Definition banned_answer : Response := http_Error ∅ "banned" StatusForbidden.

Definition shut_out (g : goroutine) : Prop :=
  forwards (go_effects g) = []
  /\ match go_phase g with PhRoute | PhCheck => True | PhDone resp => resp = banned_answer | _ => False end.

(** The address [ip] is banned until [e]; nobody of it is on his way, and those from number
    [n] on are shut out. *)
Definition banned_sys (ip : string) (e : Time) (n : nat) (s : system) : Prop :=
  banned_until e (srv_auth (sys_srv s)) ip
  /\ forall i g, sys_go s !! i = Some g ->
     ~ on_its_way ip g
     /\ ((n <= i)%nat -> remoteIP (go_req g) = ip -> public (go_req g) = false -> shut_out g).

Lemma go_op_within lo hi g i ck now : ev_within lo hi (SysStep i ck now) -> Forall (op_within lo hi) (go_op g ck).
Proof.
  intros (H1 & H2 & H3 & H4). unfold go_op. destruct (go_phase g); repeat constructor; lia.
Qed.

Lemma go_op_success ip g ck : ~ on_its_way ip g -> Forall (fun o => is_success ip o = false) (go_op g ck).
Proof.
  intros Hn. unfold go_op. unfold on_its_way in Hn. destruct (go_phase g); repeat constructor.
  cbn. apply bool_decide_eq_false_2. intros <-. by apply Hn.
Qed.

(** A step of a goroutine while its address is banned. *)
Lemma go_step_shut_out s g i ck now ip e lo :
  banned_until e (srv_auth s) ip -> ev_within lo e (SysStep i ck now) -> ~ on_its_way ip g ->
  let g' := (go_step s g ck now).2 in
  ~ on_its_way ip g' /\ (remoteIP (go_req g) = ip -> public (go_req g) = false -> shut_out g -> shut_out g').
Proof.
  intros Hb (H1 & H2 & H3 & H4) Hn. cbv zeta. unfold on_its_way. rewrite go_step_req.
  destruct (decide (remoteIP (go_req g) = ip)) as [Hip|Hip]; [|by split; [intros [? _]|]].
  assert (Hc : (isBanned (srv_auth s) (remoteIP (go_req g)) (ck1 ck) (ck2 ck) (ck3 ck)).2 = true).
  { rewrite Hip. apply (banned_until_isBanned _ _ e); [done|lia..]. }
  unfold on_its_way in Hn. autounfold with steps. unfold public, shut_out, goto.
  destruct (go_phase g) eqn:Hp; cbn [snd go_phase go_effects]; try tauto.
  all: try (split; [branches; by intros [_ ?]|by intros _ _ [_ ?]]).
  - split; [branches; by intros [_ ?]|]. intros _ Hpub [Hf _]. rewrite <- Hf.
    branches; try done; cbn [go_effects go_phase]; by rewrite app_nil_r.
  - destruct (isBanned _ _ _ _ _) as [a' b]. cbn [snd] in Hc |- *. subst b. cbn [go_phase go_effects].
    split; [by intros [_ ?]|]. intros _ _ [Hf _]. by rewrite forwards_app, Hf, forwards_rejection.
  - rewrite Hp. tauto.
Qed.

Lemma sys_step_banned ip lo e n s ev s' :
  0 <= lo -> 0 < banDuration (srv_auth (sys_srv s)) -> e = lo + banDuration (srv_auth (sys_srv s)) ->
  banned_sys ip e n s -> ev_within lo e ev -> (n <= length (sys_go s))%nat -> sys_step s ev = Some s' ->
  banned_sys ip e n s' /\ banDuration (srv_auth (sys_srv s')) = banDuration (srv_auth (sys_srv s))
  /\ (length (sys_go s) <= length (sys_go s'))%nat.
Proof.
  intros Hlo Hd -> [Hb Hg] Hev Hn Hs. pose proof (sys_step_auth _ _ _ Hs) as Ha.
  pose proof (sys_step_length _ _ _ _ _ _ Hs) as Hl.
  split_and!; [split| |lia].
  - rewrite Ha. apply banned_until_run; [done..| |].
    all: destruct ev as [r|i ck now|order|now]; try (by repeat constructor); cbn [sys_op];
      destruct (sys_go s !! i) as [g|] eqn:Hi; [|constructor].
    + by eapply go_op_within.
    + apply go_op_success. by apply (Hg i).
  - intros i g Hi. destruct (sys_step_inv _ _ _ _ _ _ _ _ Hs Hi) as [(r & -> & _ & ->)|(g0 & H0 & ->)].
    + split; [by intros [_ ?]|]. by intros.
    + destruct (Hg _ _ H0) as [Hw Hso]. destruct ev as [r|j ck now|order|now]; try done.
      destruct (decide (j = i)); [|done].
      destruct (go_step_shut_out (sys_srv s) g0 j ck now ip _ lo Hb Hev Hw) as [H1 H2]. split; [done|].
      rewrite go_step_req. auto.
  - rewrite Ha. by destruct (auth_run_params (srv_auth (sys_srv s)) (sys_op s ev)).
Qed.

Lemma sys_run_banned ip lo e n evs s s' :
  0 <= lo -> 0 < banDuration (srv_auth (sys_srv s)) -> e = lo + banDuration (srv_auth (sys_srv s)) ->
  banned_sys ip e n s -> Forall (ev_within lo e) evs -> (n <= length (sys_go s))%nat -> sys_run s evs = Some s' ->
  banned_sys ip e n s'.
Proof.
  intros Hlo. revert s. induction evs as [|ev evs IH]; intros s Hd He Hb Hw Hn Hr; [by injection Hr as <-|].
  apply Forall_cons_iff in Hw as [Hw Hws]. cbn in Hr. apply bind_Some in Hr as (s1 & Hs & Hr).
  destruct (sys_step_banned _ _ _ _ _ _ _ Hlo Hd He Hb Hw Hn Hs) as (Hb1 & Hd1 & Hl1).
  apply (IH s1); try done; rewrite ?Hd1; [done..|lia].
Qed.

Lemma run_views_req g vs : go_req (run_views g vs) = go_req g.
Proof.
  revert g. induction vs as [|vw vs IH]; intros g; [done|].
  exact (eq_trans (IH _) (go_step_req NewLimiter Allow metrics_page (vw_srv vw) g (vw_ck vw) (vw_now vw))).
Qed.

(** A request for the health or the metrics page is answered in the first step. *)
Lemma public_answered r vs :
  public r = true ->
  let g := run_views (go_new r) vs in
  forwards (go_effects g) = [] /\ forall resp, go_phase g = PhDone resp -> StatusCode resp = StatusOK.
Proof.
  intros Hp. destruct vs as [|vw vs]; [done|]. unfold Goroutines.run_views. cbn [fold_left].
  assert (exists resp, (go_step (vw_srv vw) (go_new r) (vw_ck vw) (vw_now vw)).2 = mkGo r (PhDone resp) [] /\ StatusCode resp = StatusOK)
    as (resp & -> & Hs).
  { unfold public in Hp. autounfold with steps. unfold goto. cbn [go_new go_phase go_req go_effects app].
    destruct (mux_lookup outer_mux _ _) as [[| |]| |]; try done; by eexists. }
  assert (fold_left (fun g vw => (go_step (vw_srv vw) g (vw_ck vw) (vw_now vw)).2) vs (mkGo r (PhDone resp) []) = mkGo r (PhDone resp) []) as ->.
  { induction vs as [|vw' vs IH]; [done|]. exact IH. }
  split; [done|]. by intros ? [= <-].
Qed.

(** C11: an address that is banned at [tf] for one ban duration stays banned for that long, and
    every request that arrives from it in that time is answered 403, or not at all yet,
    and has nothing forwarded. The exception are the health and the metrics page, which a
    banned address gets like any other: 200, and nothing forwarded for it. This
    holds with any other requests and reloads going on, provided no request of that address
    was between its own check and its success when the ban began. *)
Theorem ban_holds_for_arrivals ip tf s evs s' :
  0 <= tf -> 0 < banDuration (srv_auth (sys_srv s)) ->
  banned_until (tf + banDuration (srv_auth (sys_srv s))) (srv_auth (sys_srv s)) ip ->
  (forall g, g ∈ sys_go s -> ~ on_its_way ip g) ->
  Forall (ev_within tf (tf + banDuration (srv_auth (sys_srv s)))) evs -> sys_run s evs = Some s' ->
  banned_until (tf + banDuration (srv_auth (sys_srv s))) (srv_auth (sys_srv s')) ip
  /\ forall i g resp, (length (sys_go s) <= i)%nat -> sys_go s' !! i = Some g ->
     remoteIP (go_req g) = ip ->
     forwards (go_effects g) = []
     /\ (go_phase g = PhDone resp ->
         if public (go_req g) then StatusCode resp = StatusOK else resp = http_Error ∅ "banned" StatusForbidden).
Proof.
  intros Htf Hd Hb Hw Hev Hr.
  assert (banned_sys ip (tf + banDuration (srv_auth (sys_srv s))) (length (sys_go s)) s) as H0.
  { split; [done|]. intros i g Hi. split; [by eapply Hw, list_elem_of_lookup_2|]. apply lookup_lt_Some in Hi. lia. }
  destruct (sys_run_banned ip tf _ _ evs s s' Htf Hd eq_refl H0 Hev (Nat.le_refl _) Hr) as [H1 H2]. split; [done|].
  intros i g resp Hi Hg Hip. destruct (public (go_req g)) eqn:Hpub.
  { destruct (sys_run_arrived _ _ _ _ _ _ _ _ Hr Hi Hg) as (r & _ & ->).
    rewrite run_views_req in Hpub. destruct (public_answered r (views i s evs) Hpub) as [Hf Ho]. split; [done|]. apply Ho. }
  destruct (H2 _ _ Hg) as [_ Hs]. destruct (Hs Hi Hip Hpub) as [Hf Hph].
  split; [done|]. intros Hp. by rewrite Hp in Hph.
Qed.
End Interleavings.

(** ** Runs *)

Definition bad_request : Request :=
  mkRequest "POST" "/rpc" "/rpc" {["Authorization" := ["Bearer guess"]]} "10.0.0.7:51234" (Ok (bytes_of_string "{}")).

(** Goroutine [i] takes [n] steps. *)
Definition alone (i n : nat) : list sys_event := repeat (SysStep i sample_clock Minute) n.

(** Three guesses from one address: it is banned for a quarter of an hour. *)
Definition guesses (i : nat) : list sys_event :=
  SysArrive bad_request :: alone i 4 ++ SysArrive bad_request :: alone (S i) 4 ++ SysArrive bad_request :: alone (S (S i)) 4.

Definition run_from (s : system (W := list bytes) (L := Z)) (evs : list sys_event) : option (system (W := list bytes) (L := Z)) :=
  sys_run (E := unit) count_new count_allow (fun _ => EmptyString) s evs.

Definition checked_at (now : Time) (s : system (W := list bytes) (L := Z)) : bool :=
  (isBanned (srv_auth (sys_srv s)) "10.0.0.7" now now now).2.

(** The proviso of [ban_holds_for_arrivals] is needed: a request of the same address that was
    past its check when the third guess failed still runs [recordSuccess], which deletes the
    record with the ban in it; the next guess is answered 401. *)
Theorem late_success_lifts_ban :
  let slow := SysArrive (sample_request "/rpc") :: alone 0 3 in
  (checked_at Minute <$> sample_run (slow ++ guesses 1)) = Some true
  /\ (checked_at Minute <$> sample_run (slow ++ guesses 1 ++ alone 0 1)) = Some false
  /\ ((fun s => go_phase <$> sys_go s !! 4%nat) <$> sample_run (slow ++ guesses 1 ++ alone 0 1 ++ SysArrive bad_request :: alone 4 4))
     = Some (Some (PhDone (http_Error ∅ "unauthorized" StatusUnauthorized))).
Proof. split_and!; vm_compute; reflexivity. Qed.

(** That a run is possible and what its state holds, by evaluation. *)
Lemma sample_run_possible evs : (if sample_run evs then true else false) = true -> exists s, sample_run evs = Some s.
Proof. destruct (sample_run evs) as [s|]; [by exists s|done]. Qed.

Lemma sample_run_reads {A} (f : system (W := list bytes) (L := Z) -> A) evs s x :
  sample_run evs = Some s -> f <$> sample_run evs = Some x -> f s = x.
Proof. intros ->. by intros [= ->]. Qed.

Lemma forwarded_only_if_admitted_witness :
  exists s g v, sample_run (sample_arrivals ++ sample_steps 10) = Some s /\ sys_go s !! 0%nat = Some g
    /\ acceptable (go_req g) v EpRPC (bytes_of_string "{}").
Proof.
  destruct (sample_run_possible (sample_arrivals ++ sample_steps 10)) as [s Es]; [vm_compute; reflexivity|].
  assert (Hg : (fun g => forwards (go_effects g)) <$> sys_go s !! 0%nat = Some [(EpRPC, "alice", bytes_of_string "{}")]).
  { apply (sample_run_reads (fun s => (fun g => forwards (go_effects g)) <$> sys_go s !! 0%nat) _ _ _ Es). vm_compute. reflexivity. }
  destruct (sys_go s !! 0%nat) as [g|] eqn:Eg; [|discriminate Hg]. injection Hg as Hg. unfold sample_run in Es |- *.
  destruct (forwarded_only_if_admitted (E := unit) count_new count_allow (fun _ => EmptyString) sample_server
              (sample_arrivals ++ sample_steps 10) s 0 g EpRPC "alice" (bytes_of_string "{}") Es Eg)
    as (_ & _ & v & vs & rest & _ & _ & Hacc); [rewrite Hg; left|].
  exists s, g, v. split; [exact Es|]. split; [exact Eg|exact Hacc].
Defined.

(** After a reload that changes Alice's permissions. *)
Definition new_permissions : list (string * ValidatorConfig) := [("alice", mkValidatorConfig "ta" (Some ["rpc"]) "warn")].

Lemma reload_governs_arrivals_witness :
  exists v, ("alice", v) ∈ new_permissions /\ Token v = "ta" /\ ep_perm EpRPC ∈ perms v.
Proof.
  destruct (sample_run_possible ([] ++ SysReload new_permissions :: SysArrive (sample_request "/rpc") :: alone 0 10)) as [s Es];
    [vm_compute; reflexivity|].
  assert (Hg : (fun g => (forwards (go_effects g), bearerToken (go_req g))) <$> sys_go s !! 0%nat
               = Some ([(EpRPC, "alice", bytes_of_string "{}")], "ta")).
  { apply (sample_run_reads (fun s => (fun g => (forwards (go_effects g), bearerToken (go_req g))) <$> sys_go s !! 0%nat) _ _ _ Es).
    vm_compute. reflexivity. }
  destruct (sys_go s !! 0%nat) as [g|] eqn:Eg; [|discriminate Hg]. injection Hg as Hg Ht. rewrite <- Ht. unfold sample_run in Es.
  refine (reload_governs_arrivals (E := unit) count_new count_allow (fun _ => EmptyString) (sys_start sample_server) [] new_permissions
            (SysArrive (sample_request "/rpc") :: alone 0 10) _ s 0 g EpRPC "alice" (bytes_of_string "{}") eq_refl Es _ _ Eg _).
  - repeat constructor.
  - cbn. lia.
  - rewrite Hg. left.
Defined.

Lemma ban_holds_for_arrivals_witness :
  exists s s', sample_run (guesses 0) = Some s
    /\ run_from s (SysArrive (sample_request "/rpc") :: alone 3 10) = Some s'
    /\ banned_until (Minute + 15 * Minute) (srv_auth (sys_srv s')) "10.0.0.7".
Proof.
  destruct (sample_run_possible (guesses 0)) as [s Es]; [vm_compute; reflexivity|].
  assert (Hs : (fun a => (ips a !! "10.0.0.7", banDuration a)) (srv_auth (sys_srv s))
               = (Some (mkIpRecord 3 (16 * Minute) Minute), 15 * Minute)).
  { apply (sample_run_reads (fun s => (fun a => (ips a !! "10.0.0.7", banDuration a)) (srv_auth (sys_srv s))) _ _ _ Es). vm_compute. reflexivity. }
  assert (Hd : map go_phase (sys_go s) = repeat (PhDone (http_Error ∅ "unauthorized" StatusUnauthorized)) 3).
  { apply (sample_run_reads (fun s => map go_phase (sys_go s)) _ _ _ Es). vm_compute. reflexivity. }
  destruct (sample_run_possible (guesses 0 ++ SysArrive (sample_request "/rpc") :: alone 3 10)) as [s' Hr]; [vm_compute; reflexivity|].
  injection Hs as Hrec Hdur. unfold sample_run in Hr, Es. rewrite sys_run_app, Es in Hr. cbn [mbind option_bind] in Hr.
  exists s, s'. split; [exact Es|]. split; [exact Hr|]. rewrite <- Hdur.
  assert (H0 : 0 <= Minute) by (vm_compute; discriminate).
  assert (H1 : 0 < banDuration (srv_auth (sys_srv s))) by (rewrite Hdur; reflexivity).
  assert (H2 : banned_until (Minute + banDuration (srv_auth (sys_srv s))) (srv_auth (sys_srv s)) "10.0.0.7").
  { rewrite Hdur. eexists. split; [exact Hrec|]. split; vm_compute; [reflexivity|discriminate]. }
  assert (H3 : forall g, g ∈ sys_go s -> ~ on_its_way "10.0.0.7" g).
  { intros g Hg [_ Hw]. apply (list_elem_of_fmap_2 go_phase) in Hg. change (go_phase <$> sys_go s) with (map go_phase (sys_go s)) in Hg.
    rewrite Hd in Hg. apply list_elem_of_In, repeat_spec in Hg. by rewrite Hg in Hw. }
  assert (H4 : Forall (ev_within Minute (Minute + banDuration (srv_auth (sys_srv s)))) (SysArrive (sample_request "/rpc") :: alone 3 10)).
  { rewrite Hdur. repeat constructor; vm_compute; discriminate. }
  exact (proj1 (ban_holds_for_arrivals (E := unit) count_new count_allow (fun _ => EmptyString) "10.0.0.7" Minute s
           (SysArrive (sample_request "/rpc") :: alone 3 10) s' H0 H1 H2 H3 H4 Hr)).
Defined.
