(* ===== verification/SharedLedger.v ===== *)
(** * The ledgers when requests interleave

    The statistics and the counters of received payloads after any run of Goroutines: what
    Ledger says of one request at a time holds for requests that interleave, with the hourly
    report among them. *)

From Stdlib Require Import Ascii.
From S2P Require Import Prelude GoStrings GoTime GoFloat GoHttp WtConfig Auth WtStats WtMetrics RateLimit Handlers Ledger Goroutines.

Local Open Scope Z_scope.

(** What a goroutine has entered in the statistics. *)
Definition booked (g : goroutine) : list (string * string * Z) :=
  match go_phase g with
  | PhCount who e n => [(who, ep_perm e, n)]
  | PhDone resp => taken (go_effects g) resp
  | _ => []
  end.

Definition all_booked (gs : list goroutine) : list (string * string * Z) := concat (map booked gs).

(** The updates of the counters that go with them. *)
Definition counts (l : list (string * string * Z)) : list metric_op :=
  flat_map (fun x => m_RecordReceived x.1.1 x.1.2 x.2) l.

(** The effects of a goroutine in each phase. *)
Definition in_order (g : goroutine) : Prop :=
  match go_phase g with
  | PhRecord who e n | PhCount who e n =>
      received (go_effects g) = [] /\ exists body, forwards (go_effects g) = [(e, who, body)] /\ n = Z.of_nat (length body)
  | PhDone resp => received (go_effects g) = counts (taken (go_effects g) resp)
  | _ => received (go_effects g) = [] /\ forwards (go_effects g) = []
  end.

(** ** Sums *)

(** An entry more in one goroutine's list. *)
Lemma all_booked_insert v t gs i g g' new :
  gs !! i = Some g -> booked g' = booked g ++ new ->
  sumZ (lengths_of v t (all_booked (<[i := g']> gs))) = sumZ (lengths_of v t (all_booked gs)) + sumZ (lengths_of v t new).
Proof.
  intros Hi Hb. unfold all_booked. rewrite <- (take_drop_middle gs i g Hi) at 2.
  rewrite insert_take_drop by (by eapply lookup_lt_Some).
  rewrite !map_app, !concat_app. cbn [map concat]. rewrite !lengths_of_app, !sumZ_app, Hb, lengths_of_app, sumZ_app. lia.
Qed.

Lemma ws_reported_snoc v t hs h : ws_reported v t (hs ++ [h]) = ws_reported v t hs + ws_hour h v t.
Proof. induction hs as [|h' hs IH]; cbn in *; [unfold ws_reported; cbn; lia|]. unfold ws_reported in *. cbn. lia. Qed.

Section SharedLedger.
Context {W E L : Type} `{PayloadForwarder W E}.
Context (NewLimiter : float64 -> Z -> L).
Context (Allow : L -> Time -> L * bool).
Context (metrics_page : W -> string).

Notation server := (Server (W := W) (L := L)).
Notation system := (system (W := W) (L := L)).
Notation go_step := (go_step (E := E) NewLimiter Allow metrics_page).
Notation sys_step := (sys_step (E := E) NewLimiter Allow metrics_page).
Notation sys_run := (sys_run (E := E) NewLimiter Allow metrics_page).

(** The forwarder does not touch the vectors of received payloads. *)
Hypothesis forward_free : forall e w who v body, List.filter is_received (forward (E := E) e w who v body).1.2 = [].

(** ** One step *)

(** A step that neither forwards nor counts a payload. *)
Lemma in_order_goto g ph effs :
  received (go_effects g) = [] /\ forwards (go_effects g) = [] -> received effs = [] -> forwards effs = [] ->
  match ph with PhRecord _ _ _ | PhCount _ _ _ => False | _ => True end ->
  in_order (goto g ph effs) /\ booked (goto g ph effs) = [].
Proof.
  intros [Hr Hf] He Hfe Hph. unfold in_order, booked, goto. cbn [go_phase go_effects].
  rewrite received_app, forwards_app, Hr, Hf, He, Hfe. destruct ph; try done.
  unfold taken. by rewrite forwards_app, Hf, Hfe.
Qed.

Lemma received_rejection a r lv reason : received (rejection a r lv reason) = [].
Proof. apply received_auth. Qed.

Lemma forwards_none a r lv reason : forwards (rejection a r lv reason) = [].
Proof. apply forwards_auth. Qed.

Lemma taken_one pre e who body ops resp :
  forwards pre = [] ->
  taken (pre ++ SForward e who body :: map SMetric ops) resp
  = if bool_decide (StatusCode resp = StatusOK) then [(who, ep_perm e, Z.of_nat (length body))] else [].
Proof. intros Hp. rewrite taken_nothing by done. unfold taken. by rewrite forwards_one. Qed.

Lemma received_forward e w who v body :
  received (SForward e who body :: map SMetric (forward (E := E) e w who v body).1.2) = [].
Proof. change (received (map SMetric (forward (E := E) e w who v body).1.2) = []). by rewrite received_metric. Qed.

Ltac quiet_step :=
  match goal with
  | Ho : _ /\ _ |- in_order (goto ?g ?ph ?effs) /\ _ =>
      destruct (in_order_goto g ph effs Ho) as [Hquiet Hbooked];
      [try reflexivity; apply received_rejection|try reflexivity; apply forwards_none|exact I|
       split; [exact Hquiet|exists []; by rewrite Hbooked]]
  end.

Lemma go_step_ledger (s : server) g ck now :
  in_order g ->
  let '(s', g') := go_step s g ck now in
  in_order g' /\ exists new, booked g' = booked g ++ new /\ srv_stats s' = fold_left record new (srv_stats s).
Proof.
  intros Ho. autounfold with steps. unfold in_order in Ho. unfold booked at 2. destruct (go_phase g) eqn:Hp.
  all: try (repeat case_match; simplify_eq; quiet_step).
  - pose proof (received_forward e (srv_world s) who v body) as Hrf. destruct Ho as [Hr Hf].
    destruct (forward e (srv_world s) who v body) as [[w ops] out]. cbn [fst snd] in Hrf.
    assert (Hr' : received (go_effects g ++ SForward e who body :: map SMetric ops) = []) by by rewrite received_app, Hr, Hrf.
    destruct out as [[]|err]; (split; [|exists []; split; [|done]]); unfold in_order, booked, goto; cbn [go_phase go_effects].
    + split; [done|]. exists body. by rewrite forwards_app, Hf, forwards_one.
    + done.
    + by rewrite taken_one.
    + by rewrite taken_one.
  - destruct Ho as [Hr (body & Hf & ->)]. split.
    + unfold in_order, goto. cbn [go_phase go_effects]. rewrite app_nil_r. eauto.
    + by exists [(who, ep_perm e, Z.of_nat (length body))].
  - destruct Ho as [Hr (body & Hf & ->)].
    assert (Ht : taken (go_effects g ++ map SMetric (m_RecordReceived who (ep_perm e) (Z.of_nat (length body)))) (mkResponse StatusOK ∅ EmptyString)
                 = [(who, ep_perm e, Z.of_nat (length body))]) by (unfold taken; by rewrite forwards_app, Hf).
    split; [|exists []; split; [|done]]; unfold in_order, booked, goto; cbn [go_phase go_effects]; rewrite Ht; [|done].
    by rewrite received_app, Hr, received_metric.
  - unfold in_order, booked. rewrite Hp. split; [done|]. exists []. by rewrite app_nil_r.
Qed.

(** ** A run *)

Definition books_balance (s : system) : Prop := forall v t,
  let n := sumZ (lengths_of v t (all_booked (sys_go s))) in
  wrap64 (total (ws_get (srv_stats (sys_srv s)) v t)) = wrap64 n
  /\ wrap64 (ws_reported v t (sys_hours s) + lastHour (ws_get (srv_stats (sys_srv s)) v t)) = wrap64 n.

Lemma sys_step_ledger s e s' :
  sys_step s e = Some s' -> Forall in_order (sys_go s) -> books_balance s -> totals_fit (srv_stats (sys_srv s)) ->
  Forall in_order (sys_go s') /\ books_balance s' /\ totals_fit (srv_stats (sys_srv s')).
Proof.
  intros Hs Ho Hb Hfit. destruct e as [r|i ck now|order|now]; cbn [Goroutines.sys_step] in Hs.
  - injection Hs as <-. split_and!; [|intros v t; cbn [sys_go]|done].
    + apply Forall_app. split; [done|]. by repeat constructor.
    + unfold all_booked. rewrite map_app, concat_app, lengths_of_app, sumZ_app. cbn. rewrite Z.add_0_r. apply Hb.
  - apply bind_Some in Hs as (g & Hi & Hs). pose proof (go_step_ledger (sys_srv s) g ck now) as Hg.
    destruct (go_step (sys_srv s) g ck now) as [srv g']. injection Hs as <-.
    destruct Hg as (Hg & new & Hn & Hst); [by eapply Forall_lookup_1|]. cbn [sys_srv sys_go sys_hours].
    split_and!; [by apply Forall_insert| |rewrite Hst; by apply record_fold_fit].
    intros v t. cbn [sys_srv sys_go sys_hours]. rewrite (all_booked_insert v t _ _ _ _ _ Hi Hn), Hst.
    destruct (Hb v t) as [H1 H2]. destruct (record_fold new (srv_stats (sys_srv s)) v t) as [-> H4]. split.
    + by rewrite <- wrap64_add_l, H1, wrap64_add_l.
    + by rewrite <- wrap64_add_r, H4, wrap64_add_r, Z.add_assoc, <- wrap64_add_l, H2, wrap64_add_l.
  - by injection Hs as <-.
  - pose proof (fun v t => ws_get_Snapshot (srv_stats (sys_srv s)) now v t) as Hget.
    pose proof (fun v t => ws_hour_Snapshot (srv_stats (sys_srv s)) now v t) as Hh.
    destruct (ws_Snapshot (srv_stats (sys_srv s)) now) as [st [snap up]]. cbn [fst snd] in *. injection Hs as <-.
    split_and!; [done| |intros v t; cbn; rewrite Hget; apply Hfit].
    intros v t. cbn [sys_srv sys_go sys_hours set_stats srv_stats]. rewrite ws_reported_snoc, Hh, Hget. cbn [lastHour total].
    rewrite Z.add_0_r. apply Hb.
Qed.

Lemma sys_run_ledger evs s s' :
  sys_run s evs = Some s' -> Forall in_order (sys_go s) -> books_balance s -> totals_fit (srv_stats (sys_srv s)) ->
  Forall in_order (sys_go s') /\ books_balance s' /\ totals_fit (srv_stats (sys_srv s')).
Proof.
  revert s. induction evs as [|e evs IH]; intros s Hr Ho Hb Hf; [by simplify_eq/=|].
  cbn in Hr. apply bind_Some in Hr as (s1 & Hs & Hr). destruct (sys_step_ledger _ _ _ Hs Ho Hb Hf) as (? & ? & ?). by apply (IH s1).
Qed.

(** The books balance under every interleaving. The total of a validator and type is the
    sum of the lengths of the payloads entered for them, and the hourly reports with the
    current hour add up to it: no entry of one request is lost to another's or to a
    snapshot between. An answered request was entered exactly if it was forwarded and
    answered 200, by the length of its body, and then its counters were updated by the same
    amount, once; a request that is still on its way has not touched them. *)
Theorem shared_books_balance s now evs s' :
  srv_stats s = ws_New now -> sys_run (sys_start s) evs = Some s' ->
  (forall v t, let n := sumZ (lengths_of v t (all_booked (sys_go s'))) in
     total (ws_get (srv_stats (sys_srv s')) v t) = wrap64 n
     /\ wrap64 (ws_reported v t (sys_hours s') + lastHour (ws_get (srv_stats (sys_srv s')) v t)) = wrap64 n)
  /\ forall g, g ∈ sys_go s' ->
     match go_phase g with
     | PhDone resp => booked g = taken (go_effects g) resp /\ received (go_effects g) = counts (booked g)
     | _ => received (go_effects g) = []
     end.
Proof.
  intros Hs Hr. assert (H0 : forall v t, ws_get (srv_stats s) v t = mkWsEntry 0 0).
  { intros v t. rewrite Hs. unfold ws_get. cbn. by rewrite lookup_empty. }
  destruct (sys_run_ledger evs _ s' Hr) as (Ho & Hb & Hf).
  - constructor.
  - intros v t. cbn [sys_start sys_srv sys_go sys_hours]. by rewrite H0.
  - intros v t. cbn [sys_start sys_srv]. by rewrite H0.
  - split; [intros v t; rewrite <- (Hf v t); apply Hb|]. intros g Hg. apply list_elem_of_lookup_1 in Hg as [i Hg].
    apply (Forall_lookup_1 _ _ _ _ Ho) in Hg as Hg'. unfold in_order, booked in *. destruct (go_phase g); try done; by destruct Hg'.
Qed.
End SharedLedger.

(** Requests of Alice, the report between them; the third is over her rate. *)
Definition hourly_run : list sys_event :=
  sample_arrivals ++ sample_steps 9 ++ [SysTick Hour] ++ sample_steps 1 ++ SysArrive (sample_request "/rpc") :: repeat (SysStep 2 sample_clock Hour) 10.

Lemma shared_books_balance_witness :
  exists s', sample_run hourly_run = Some s'
    /\ total (ws_get (srv_stats (sys_srv s')) "alice" "rpc") = wrap64 2
    /\ map (fun h => ws_hour h "alice" "rpc") (sys_hours s') = [2].
Proof.
  assert (Hp : (if sample_run hourly_run then true else false) = true) by (vm_compute; reflexivity).
  destruct (sample_run hourly_run) as [s'|] eqn:Er; [|discriminate Hp]. exists s'. split; [reflexivity|].
  assert (Hv : (fun s => (map (fun h => ws_hour h "alice" "rpc") (sys_hours s), sumZ (lengths_of "alice" "rpc" (all_booked (sys_go s)))))
                 <$> sample_run hourly_run = Some ([2], 2)) by (vm_compute; reflexivity).
  rewrite Er in Hv. injection Hv as Hh Hn. split; [|exact Hh]. rewrite <- Hn. unfold sample_run in Er.
  refine (proj1 (proj1 (shared_books_balance (E := unit) count_new count_allow (fun _ => EmptyString) _ sample_server 0 hourly_run s' eq_refl Er) "alice" "rpc")).
  intros [| | |] w who v body; reflexivity.
Defined.
