(* ===== verification/SentinelConfig.v ===== *)
(** * internal/sentinel/config

    Byte sizes, the configuration record, its validation, the Noise configuration derived
    from it, and the generation of an annotated configuration (config.go, generate.go,
    detect.go). The probes of detect.go only read the environment: their result is the
    argument [Environment]. The TOML decoder and encoder are library functions. *)

From Stdlib Require Import Ascii.
From S2P Require Import Prelude GoStrings GoTime NoiseConfig.

Local Open Scope Z_scope.

(** ** Byte sizes *)

Definition kb : Z := 1024.
Definition mb : Z := 1024 * kb.
Definition gb : Z := 1024 * mb.

(** One entry of the suffix table: [None] when the suffix is not there, else the parsed
    and multiplied number, if it parses. The product wraps. *)
Definition parse_suffix (s suffix : string) (mult : Z) : option (option Z) :=
  if HasSuffix s suffix then
    Some (match ParseInt (TrimSuffix s suffix) with Some n => Some (wrap64 (n * mult)) | None => None end)
  else None.

Definition ByteSize_UnmarshalText (text : string) : option Z :=
  let s := ToUpper (TrimSpace text) in
  match parse_suffix s "GB" gb with
  | Some r => r
  | None =>
      match parse_suffix s "MB" mb with
      | Some r => r
      | None =>
          match parse_suffix s "KB" kb with
          | Some r => r
          | None => ParseInt s
          end
      end
  end.

Definition ByteSize_MarshalText (v : Z) : string :=
  if (0 <? v) && (v mod gb =? 0) then Itoa (v / gb) +:+ "GB"
  else if (0 <? v) && (v mod mb =? 0) then Itoa (v / mb) +:+ "MB"
  else if (0 <? v) && (v mod kb =? 0) then Itoa (v / kb) +:+ "KB"
  else Itoa v.

(** ** The configuration *)

Record ServerConfig := mkServerConfig { sv_URL : string; sv_Token : string }.
Record BeaconConfig := mkBeaconConfig { KeysDir : string; PublicKey : string }.
Record RPCConfig := mkRPCConfig {
  rpc_Enabled : bool; rpc_PollInterval : Duration; RPCURL : string;
  DumpConsensusStateInterval : Duration; GenesisRefreshInterval : Duration;
  ValidatorsRefreshInterval : Duration }.
Record LogsConfig := mkLogsConfig {
  logs_Enabled : bool; logs_Source : string; logs_ContainerName : string; JournaldUnit : string;
  BatchSize : Z; BatchTimeout : Duration; MinLevel : string; ResumeLookback : Duration }.
Record OTLPConfig := mkOTLPConfig { otlp_Enabled : bool; otlp_ListenAddr : string }.
Record ResourcesConfig := mkResourcesConfig {
  res_Enabled : bool; res_PollInterval : Duration; res_Source : string; res_ContainerName : string }.
Record MetadataConfig := mkMetadataConfig {
  md_Enabled : bool; CheckInterval : Duration; ForceInterval : Duration;
  ConfigPath : string; ConfigGetCmd : string }.
Record SelfConfig := mkSelfConfig { self_Enabled : bool; ReportInterval : Duration }.
Record HealthConfig := mkHealthConfig { health_Enabled : bool; health_ListenAddr : string }.

Record SnConfig := mkSnConfig {
  c_Server : ServerConfig; c_Beacon : BeaconConfig; c_RPC : RPCConfig; c_Logs : LogsConfig;
  c_OTLP : OTLPConfig; c_Resources : ResourcesConfig; c_Metadata : MetadataConfig;
  c_Self : SelfConfig; c_Health : HealthConfig }.

Definition placeholderServerURL : string := "<watchtower-server-url>".
Definition placeholderServerToken : string := "<watchtower-auth-token>".
Definition placeholderContainerName : string := "<gnoland-container-name>".
Definition placeholderConfigPath : string := "<path-to-gnoland-config>".
Definition placeholderJournaldUnit : string := "<gnoland-systemd-unit>".

Definition IsPlaceholder (s : string) : bool :=
  let b := bytes_of_string s in
  Nat.ltb 2 (length b)
  && match b with a :: _ => Ascii.eqb a "<" | [] => false end
  && match rev b with a :: _ => Ascii.eqb a ">" | [] => false end.

Definition LogSourceDocker : string := "docker".
Definition LogSourceJournald : string := "journald".
Definition ResSourceHost : string := "host".
Definition ResSourceDocker : string := "docker".
Definition ResSourceBoth : string := "both".
Definition validLogLevels : list string := ["debug"; "info"; "warn"; "error"].

Definition sn_DefaultConfig : SnConfig :=
  mkSnConfig
    (mkServerConfig placeholderServerURL placeholderServerToken)
    (mkBeaconConfig EmptyString EmptyString)
    (mkRPCConfig true (3 * Second) "http://localhost:26657" (30 * Second) (12 * Hour) (12 * Hour))
    (mkLogsConfig true LogSourceDocker placeholderContainerName EmptyString mb (5 * Second) "info" (60 * Second))
    (mkOTLPConfig true "localhost:4318")
    (mkResourcesConfig true (10 * Second) ResSourceHost placeholderContainerName)
    (mkMetadataConfig true (10 * Minute) (12 * Hour) placeholderConfigPath EmptyString)
    (mkSelfConfig true (30 * Second))
    (mkHealthConfig true "127.0.0.1:8081").

Definition anyCollectorEnabled (c : SnConfig) : bool :=
  rpc_Enabled (c_RPC c) || logs_Enabled (c_Logs c) || otlp_Enabled (c_OTLP c)
  || res_Enabled (c_Resources c) || md_Enabled (c_Metadata c) || self_Enabled (c_Self c).

Definition isNoiseScheme (c : SnConfig) : bool := HasPrefix (sv_URL (c_Server c)) "noise://".

Inductive sn_config_error :=
| ErrServerURL | ErrServerToken
| ErrKeysDirRequired | ErrKeysDirUnused | ErrPublicKeyUnused
| ErrHealthListenAddr | ErrMetadataBoth
| ErrLogsSource (s : string) | ErrLogsMinLevel (s : string) | ErrResourcesSource (s : string).

Definition is_empty (s : string) : bool := bool_decide (s = EmptyString).
Definition str_in (s : string) (l : list string) : bool := bool_decide (s ∈ l).

Open Scope go_scope.

Definition validateBeacon (c : SnConfig) : result unit sn_config_error :=
  let noise := isNoiseScheme c in
  guard? noise && is_empty (KeysDir (c_Beacon c)) then ErrKeysDirRequired else
  guard? negb noise && negb (is_empty (KeysDir (c_Beacon c))) then ErrKeysDirUnused else
  guard? negb noise && negb (is_empty (PublicKey (c_Beacon c))) then ErrPublicKeyUnused else
  Ok tt.

Definition sn_validate (c : SnConfig) : result unit sn_config_error :=
  guard? anyCollectorEnabled c && is_empty (sv_URL (c_Server c)) then ErrServerURL else
  guard? anyCollectorEnabled c && is_empty (sv_Token (c_Server c)) then ErrServerToken else
  let? _ := validateBeacon c in
  guard? health_Enabled (c_Health c) && is_empty (health_ListenAddr (c_Health c)) then ErrHealthListenAddr else
  guard? md_Enabled (c_Metadata c) && negb (is_empty (ConfigPath (c_Metadata c)))
         && negb (is_empty (ConfigGetCmd (c_Metadata c))) then ErrMetadataBoth else
  guard? logs_Enabled (c_Logs c) && negb (str_in (logs_Source (c_Logs c)) [LogSourceDocker; LogSourceJournald])
    then ErrLogsSource (logs_Source (c_Logs c)) else
  guard? logs_Enabled (c_Logs c) && negb (str_in (MinLevel (c_Logs c)) validLogLevels)
    then ErrLogsMinLevel (MinLevel (c_Logs c)) else
  guard? res_Enabled (c_Resources c)
         && negb (str_in (res_Source (c_Resources c)) [ResSourceHost; ResSourceDocker; ResSourceBoth])
    then ErrResourcesSource (res_Source (c_Resources c)) else
  Ok tt.

Inductive sn_load_error (E : Type) := ErrSnRead | ErrSnDecode (e : E) | ErrSnInvalid (e : sn_config_error).
Arguments ErrSnRead {E}.
Arguments ErrSnDecode {E} e.
Arguments ErrSnInvalid {E} e.

Definition sn_Load {E} (Unmarshal : bytes -> result SnConfig E) (data : option bytes)
    : result SnConfig (sn_load_error E) :=
  match data with
  | None => Err ErrSnRead
  | Some b =>
      let? cfg := map_err ErrSnDecode (Unmarshal b) in
      let? _ := map_err ErrSnInvalid (sn_validate cfg) in
      Ok cfg
  end.

(** [NoiseConfig]: nil unless the URL is a noise URL. *)
Inductive noise_config_error := ErrBeaconKeypair (e : key_error) | ErrBeaconPublicKey (e : key_error).

Definition NoiseConfig (f : fs) (c : SnConfig) : result (option Config) noise_config_error :=
  if negb (isNoiseScheme c) then Ok None
  else
    let? kp := map_err ErrBeaconKeypair (LoadKeypair f (KeysDir (c_Beacon c))) in
    if is_empty (PublicKey (c_Beacon c)) then Ok (Some (mkConfig kp None))
    else
      let? pub := map_err ErrBeaconPublicKey (DecodePublicKey (PublicKey (c_Beacon c))) in
      Ok (Some (mkConfig kp (Some [pub]))).

(** ** Detection *)

Record DockerResult := mkDockerResult { dk_ContainerName : string; RPCPort : Z }.
Record JournaldResult := mkJournaldResult { UnitName : string }.
Record BinaryResult := mkBinaryResult { bin_Path : string; bin_ConfigPath : string }.
Record Environment := mkEnvironment {
  Docker : option DockerResult; Journald : option JournaldResult; Binary : option BinaryResult }.

Definition gnolandRPCPort : Z := 26657.

(** A running container as docker lists it: its names and its (private, public) ports. *)
Record docker_container := mkContainer { ct_Names : list string; ct_Ports : list (Z * Z) }.

(** The loops of [probeDocker] over the listed containers and their names. *)
Definition container_port (c : docker_container) : Z :=
  match List.find (fun p => (p.1 =? gnolandRPCPort) && negb (p.2 =? 0)) (ct_Ports c) with
  | Some p => p.2
  | None => 0
  end.

Definition container_match (c : docker_container) : option DockerResult :=
  match List.find (fun n => Contains (TrimPrefix n "/") "gnoland") (ct_Names c) with
  | Some n => Some (mkDockerResult (TrimPrefix n "/") (container_port c))
  | None => None
  end.

(** [containers] is [None] when docker cannot be asked. *)
Fixpoint first_match (cs : list docker_container) : option DockerResult :=
  match cs with
  | [] => None
  | c :: cs' => match container_match c with Some r => Some r | None => first_match cs' end
  end.

Definition probeDocker (containers : option (list docker_container)) : option DockerResult :=
  match containers with Some cs => first_match cs | None => None end.

Definition set_logs (c : SnConfig) (src container unit : string) : SnConfig :=
  let l := c_Logs c in
  mkSnConfig (c_Server c) (c_Beacon c) (c_RPC c)
    (mkLogsConfig (logs_Enabled l) src container unit (BatchSize l) (BatchTimeout l) (MinLevel l) (ResumeLookback l))
    (c_OTLP c) (c_Resources c) (c_Metadata c) (c_Self c) (c_Health c).

Definition set_resources (c : SnConfig) (src container : string) : SnConfig :=
  let r := c_Resources c in
  mkSnConfig (c_Server c) (c_Beacon c) (c_RPC c) (c_Logs c) (c_OTLP c)
    (mkResourcesConfig (res_Enabled r) (res_PollInterval r) src container)
    (c_Metadata c) (c_Self c) (c_Health c).

Definition set_rpc_url (c : SnConfig) (url : string) : SnConfig :=
  let r := c_RPC c in
  mkSnConfig (c_Server c) (c_Beacon c)
    (mkRPCConfig (rpc_Enabled r) (rpc_PollInterval r) url (DumpConsensusStateInterval r)
       (GenesisRefreshInterval r) (ValidatorsRefreshInterval r))
    (c_Logs c) (c_OTLP c) (c_Resources c) (c_Metadata c) (c_Self c) (c_Health c).

Definition set_config_path (c : SnConfig) (path : string) : SnConfig :=
  let m := c_Metadata c in
  mkSnConfig (c_Server c) (c_Beacon c) (c_RPC c) (c_Logs c) (c_OTLP c) (c_Resources c)
    (mkMetadataConfig (md_Enabled m) (CheckInterval m) (ForceInterval m) path (ConfigGetCmd m))
    (c_Self c) (c_Health c).

Definition applyDetection (cfg : SnConfig) (env : Environment) : SnConfig :=
  let cfg :=
    match Docker env, Journald env with
    | Some d, _ =>
        let cfg := set_logs cfg LogSourceDocker (dk_ContainerName d) (JournaldUnit (c_Logs cfg)) in
        let cfg := set_resources cfg ResSourceBoth (dk_ContainerName d) in
        if RPCPort d =? 0 then cfg
        else set_rpc_url cfg ("http://localhost:" +:+ Itoa (RPCPort d))
    | None, Some j =>
        let cfg := set_logs cfg LogSourceJournald EmptyString (UnitName j) in
        set_resources cfg ResSourceHost EmptyString
    | None, None => cfg
    end in
  match Binary env, Docker env with
  | Some b, None => if is_empty (bin_ConfigPath b) then cfg else set_config_path cfg (bin_ConfigPath b)
  | _, _ => cfg
  end.

(** ** Commented-out alternatives *)

Record alternative := mkAlternative {
  alt_section : string; alt_afterKey : string; alt_comment : string; alt_key : string; alt_value : string }.

Definition docker_get_cmd (container : string) : string :=
  "docker exec " +:+ container +:+ " gnoland config get %s --raw".

(** The source writes a dash beyond ASCII in the comment. *)
Definition em_dash : string := string_of_bytes (map byte_of [226; 128; 148]).

Definition buildAlternatives (cfg : SnConfig) (env : Environment) : list alternative :=
  (if bool_decide (logs_Source (c_Logs cfg) = LogSourceDocker) then
     [mkAlternative "logs" "container_name" "Alternative: use journald as log source" "journald_unit"
        placeholderJournaldUnit]
   else if bool_decide (logs_Source (c_Logs cfg) = LogSourceJournald) then
     [mkAlternative "logs" "journald_unit" "Alternative: use docker as log source" "container_name"
        placeholderContainerName]
   else [])
  ++ [mkAlternative EmptyString "config_path"
        ("Alternative: run a shell command (requires the command to be reachable from the sentinel process "
         +:+ em_dash +:+ " not the case for containerised sentinels without a bundled CLI)")
        "config_get_cmd"
        (match Docker env with
         | Some d => docker_get_cmd (dk_ContainerName d)
         | None => docker_get_cmd "<container>"
         end)].

Definition alt_applies (section trimmed : string) (a : alternative) : bool :=
  (is_empty (alt_section a) || bool_decide (alt_section a = section))
  && (HasPrefix trimmed (alt_afterKey a +:+ " =") || HasPrefix trimmed (alt_afterKey a +:+ "=")).

Definition alt_lines (a : alternative) : list string :=
  ["# " +:+ alt_comment a; "# " +:+ alt_key a +:+ " = '" +:+ alt_value a +:+ "'"].

Definition next_section (section trimmed : string) : string :=
  if HasPrefix trimmed "[" && negb (HasPrefix trimmed "[[") then Trim trimmed "[] " else section.

Fixpoint inject_lines (lines : list string) (section : string) (alts : list alternative) : list string :=
  match lines with
  | [] => []
  | line :: lines' =>
      let trimmed := TrimSpace line in
      let section := next_section section trimmed in
      line :: concat (map (fun a => if alt_applies section trimmed a then alt_lines a else []) alts)
        ++ inject_lines lines' section alts
  end.

Definition lf : ascii := "010".

Definition injectAlternatives (tomlStr : string) (alts : list alternative) : string :=
  Join (inject_lines (Split tomlStr lf) EmptyString alts) (String lf EmptyString).

(** [Generate] without the two writers: [env] is what [Detect] found, [Marshal] the TOML
    encoder. *)
Definition sn_Generate {E} (Marshal : SnConfig -> result string E) (env : Environment) : result string E :=
  let cfg := applyDetection sn_DefaultConfig env in
  match Marshal cfg with
  | Err e => Err e
  | Ok data => Ok (injectAlternatives data (buildAlternatives cfg env))
  end.

Example injectAlternatives_example :
  injectAlternatives ("[logs]" +:+ String lf "container_name = 'a'" +:+ String lf "[resources]"
                      +:+ String lf "container_name = 'a'")
    (buildAlternatives sn_DefaultConfig (mkEnvironment None None None))
  = "[logs]" +:+ String lf "container_name = 'a'" +:+ String lf "# Alternative: use journald as log source"
    +:+ String lf "# journald_unit = '<gnoland-systemd-unit>'" +:+ String lf "[resources]"
    +:+ String lf "container_name = 'a'".
Proof. vm_compute. reflexivity. Qed.

(** * Properties *)

(** ** Byte sizes *)

(** Digits with a sign, and the suffix letters, survive trimming and upper-casing. *)
Definition size_byte (a : ascii) : Prop := plain_byte a /\ upper_byte a = a.

Lemma digit_size_byte a : is_Some (digit_val a) -> size_byte a.
Proof.
  intros H. split; [by apply digit_plain|]. destruct H as [d Hd]. unfold digit_val in Hd.
  destruct (_ && _) eqn:E; [|done]. zbool. unfold upper_byte.
  destruct (Z.leb_spec 97 (byte_val a)); [lia|done].
Qed.

Lemma Itoa_size_bytes n : Forall size_byte (bytes_of_string (Itoa n)).
Proof.
  unfold Itoa. destruct (Z.ltb_spec n 0).
  - change (bytes_of_string (String "-" (utoa (- n)))) with ("-"%char :: bytes_of_string (utoa (- n))).
    constructor; [split; [split; [done|]|]; vm_compute; done|].
    eapply list.Forall_impl; [apply utoa_digits; lia|]. apply digit_size_byte.
  - eapply list.Forall_impl; [apply utoa_digits; lia|]. apply digit_size_byte.
Qed.

Lemma normalized_size s :
  Forall size_byte (bytes_of_string s) -> ToUpper (TrimSpace s) = s.
Proof.
  intros H. rewrite TrimSpace_plain by (eapply list.Forall_impl; [exact H|]; by intros ? [? _]).
  unfold ToUpper. rewrite <- (string_of_bytes_of_string s) at 2. f_equal.
  induction H as [|a l [_ Ha] _ IH]; [done|]. cbn. by rewrite Ha, IH.
Qed.

(** A number ends in a digit, hence in no suffix. *)
Lemma Itoa_last n : exists pre a, bytes_of_string (Itoa n) = pre ++ [a] /\ is_Some (digit_val a).
Proof.
  assert (Hu : forall m, 0 <= m -> exists pre a, bytes_of_string (utoa m) = pre ++ [a] /\ is_Some (digit_val a)).
  { intros m Hm. pose proof (utoa_digits m Hm) as Hd.
    destruct (bytes_of_string (utoa m)) as [|x l _] eqn:E using rev_ind.
    - exfalso. apply (utoa_not_nil m). by apply bytes_of_string_inj.
    - exists l, x. split; [done|]. apply Forall_app in Hd as [_ Hd]. by inversion Hd. }
  unfold Itoa. destruct (Z.ltb_spec n 0); [|by apply Hu].
  destruct (Hu (- n) ltac:(lia)) as (pre & a & E & Ha). exists ("-"%char :: pre), a. cbn. by rewrite <- E.
Qed.

Lemma Itoa_no_suffix n p c :
  digit_val c = None -> HasSuffix (Itoa n) (p +:+ String c EmptyString) = false.
Proof.
  intros Hc. destruct (HasSuffix _ _) eqn:E; [|done]. exfalso.
  apply HasSuffix_spec in E as [r Hr]. destruct (Itoa_last n) as (pre & a & Hl & [d Ha]).
  rewrite Hr, !bytes_of_string_app, app_assoc in Hl. change (bytes_of_string (String c EmptyString)) with [c] in Hl.
  apply app_inj_tail in Hl as [_ ->]. congruence.
Qed.

Lemma parse_suffix_hit n p mult : is_int64 n -> parse_suffix (Itoa n +:+ p) p mult = Some (Some (wrap64 (n * mult))).
Proof. intros. unfold parse_suffix. by rewrite HasSuffix_app, TrimSuffix_app, ParseInt_Itoa. Qed.

Lemma parse_suffix_miss s p mult : HasSuffix s p = false -> parse_suffix s p mult = None.
Proof. intros H. unfold parse_suffix. by rewrite H. Qed.

Lemma quotient_int64 v m : 0 < v -> 0 < m -> is_int64 v -> is_int64 (v / m).
Proof.
  intros Hv Hm [_ H]. pose proof (Z.div_pos v m ltac:(lia) Hm). pose proof (Z.div_le_upper_bound v m v Hm ltac:(nia)).
  unfold is_int64, min_int64, max_int64 in *. lia.
Qed.

Lemma suffixed_size n p :
  Forall size_byte (bytes_of_string p) -> Forall size_byte (bytes_of_string (Itoa n +:+ p)).
Proof. intros. rewrite bytes_of_string_app. apply Forall_app. split; [apply Itoa_size_bytes|done]. Qed.

Ltac size_suffix := repeat constructor; vm_compute; done.

(** A byte size written to a configuration is read back as the same number: for every
    [int64], [UnmarshalText] inverts [MarshalText]. *)
Theorem ByteSize_roundtrip v : is_int64 v -> ByteSize_UnmarshalText (ByteSize_MarshalText v) = Some v.
Proof.
  intros Hv. unfold ByteSize_MarshalText, ByteSize_UnmarshalText.
  assert (Hgo : forall m, 0 < m -> 0 < v -> v mod m = 0 -> wrap64 (v / m * m) = v).
  { intros m Hm Hpos Hmod. rewrite <- (Z.div_exact v m) in Hmod by lia.
    rewrite Z.mul_comm, <- Hmod. by apply wrap64_id. }
  destruct ((0 <? v) && (v mod gb =? 0)) eqn:E1; [|destruct ((0 <? v) && (v mod mb =? 0)) eqn:E2;
    [|destruct ((0 <? v) && (v mod kb =? 0)) eqn:E3]]; zbool.
  - rewrite normalized_size by (apply suffixed_size; size_suffix).
    rewrite parse_suffix_hit by (by apply quotient_int64). by rewrite Hgo.
  - rewrite normalized_size by (apply suffixed_size; size_suffix).
    rewrite (parse_suffix_miss _ "GB") by (by apply HasSuffix_app_ne).
    rewrite parse_suffix_hit by (by apply quotient_int64). by rewrite Hgo.
  - rewrite normalized_size by (apply suffixed_size; size_suffix).
    rewrite (parse_suffix_miss _ "GB"), (parse_suffix_miss _ "MB") by (by apply HasSuffix_app_ne).
    rewrite parse_suffix_hit by (by apply quotient_int64). by rewrite Hgo.
  - rewrite normalized_size by apply Itoa_size_bytes.
    rewrite (parse_suffix_miss _ "GB") by exact (Itoa_no_suffix v "G" "B" eq_refl).
    rewrite (parse_suffix_miss _ "MB") by exact (Itoa_no_suffix v "M" "B" eq_refl).
    rewrite (parse_suffix_miss _ "KB") by exact (Itoa_no_suffix v "K" "B" eq_refl).
    by apply ParseInt_Itoa.
Qed.

Lemma ByteSize_roundtrip_witness :
  map (fun v => ByteSize_UnmarshalText (ByteSize_MarshalText v)) [1048576; 1536; -7]
  = [Some 1048576; Some 1536; Some (-7)].
Proof.
  cbn [map]. rewrite !ByteSize_roundtrip; [reflexivity|..]; split; vm_compute; discriminate.
Defined.

(** A size too large for an [int64] is not refused: the product wraps, here to zero, and
    here to a negative number. *)
Theorem ByteSize_overflow :
  ByteSize_UnmarshalText "17179869184GB" = Some 0
  /\ ByteSize_UnmarshalText "8589934592GB" = Some min_int64.
Proof. vm_compute. split; reflexivity. Qed.

(** ** Validation *)

Record sn_valid (c : SnConfig) : Prop := mkSnValid {
  sv_server : anyCollectorEnabled c = true -> sv_URL (c_Server c) <> EmptyString /\ sv_Token (c_Server c) <> EmptyString;
  sv_noise : isNoiseScheme c = true -> KeysDir (c_Beacon c) <> EmptyString;
  sv_plain : isNoiseScheme c = false -> c_Beacon c = mkBeaconConfig EmptyString EmptyString;
  sv_health : health_Enabled (c_Health c) = true -> health_ListenAddr (c_Health c) <> EmptyString;
  sv_metadata : md_Enabled (c_Metadata c) = true ->
    ConfigPath (c_Metadata c) = EmptyString \/ ConfigGetCmd (c_Metadata c) = EmptyString;
  sv_logs : logs_Enabled (c_Logs c) = true ->
    logs_Source (c_Logs c) ∈ [LogSourceDocker; LogSourceJournald] /\ MinLevel (c_Logs c) ∈ validLogLevels;
  sv_resources : res_Enabled (c_Resources c) = true ->
    res_Source (c_Resources c) ∈ [ResSourceHost; ResSourceDocker; ResSourceBoth] }.

Lemma guard_ok (b : bool) {E} (e : E) (k : result unit E) :
  (if b then Err e else k) = Ok tt <-> b = false /\ k = Ok tt.
Proof. destruct b; naive_solver. Qed.

Lemma is_empty_spec s : is_empty s = true <-> s = EmptyString.
Proof. apply bool_decide_eq_true. Qed.

Lemma is_empty_false s : is_empty s = false <-> s <> EmptyString.
Proof. apply bool_decide_eq_false. Qed.

Lemma str_in_spec s l : str_in s l = true <-> s ∈ l.
Proof. apply bool_decide_eq_true. Qed.

Lemma validateBeacon_ok c :
  validateBeacon c = Ok tt <->
  (isNoiseScheme c = true -> KeysDir (c_Beacon c) <> EmptyString)
  /\ (isNoiseScheme c = false -> c_Beacon c = mkBeaconConfig EmptyString EmptyString).
Proof.
  unfold validateBeacon. rewrite !guard_ok.
  destruct (c_Beacon c) as [kd pk]. cbn [KeysDir PublicKey].
  destruct (isNoiseScheme c); cbn [negb andb]; rewrite ?is_empty_false, ?negb_false_iff, ?is_empty_spec.
  - naive_solver.
  - split; [intros (_ & -> & -> & _); split; [done|by intros]|].
    intros [_ H]. by injection (H eq_refl) as -> ->.
Qed.

(** Validation accepts exactly the configurations that satisfy the documented rules; in
    particular the beacon section is filled in exactly when the server URL is a noise URL,
    so that traffic meant for a beacon cannot silently go out in another way. *)
Theorem sn_validate_spec c : sn_validate c = Ok tt <-> sn_valid c.
Proof.
  unfold sn_validate. rewrite !guard_ok, result_bind_ok.
  split.
  - intros (H1 & H2 & [[] [H3 H4]]). rewrite !guard_ok in H4. destruct H4 as (H4 & H5 & H6 & H7 & H8 & _).
    apply validateBeacon_ok in H3 as [H3a H3b].
    constructor; try done; intros Hen; rewrite Hen in *; cbn [andb] in *.
    + by rewrite is_empty_false in H1, H2.
    + by rewrite is_empty_false in H4.
    + apply andb_false_iff in H5 as [H5|H5]; apply negb_false_iff, is_empty_spec in H5; auto.
    + by rewrite negb_false_iff, str_in_spec in H6, H7.
    + by rewrite negb_false_iff, str_in_spec in H8.
  - intros []. split; [|split].
    + destruct (anyCollectorEnabled c); [|done]. apply is_empty_false. by apply sv_server0.
    + destruct (anyCollectorEnabled c); [|done]. apply is_empty_false. by apply sv_server0.
    + exists tt. split; [by apply validateBeacon_ok|]. rewrite !guard_ok. repeat split.
      * destruct (health_Enabled _); [|done]. apply is_empty_false. by apply sv_health0.
      * destruct (md_Enabled _); [|done]. cbn [andb].
        destruct (sv_metadata0 eq_refl) as [->| ->]; cbn; [done|]. apply andb_false_r.
      * destruct (logs_Enabled _); [|done]. apply negb_false_iff, str_in_spec. by apply sv_logs0.
      * destruct (logs_Enabled _); [|done]. apply negb_false_iff, str_in_spec. by apply sv_logs0.
      * destruct (res_Enabled _); [|done]. apply negb_false_iff, str_in_spec. by apply sv_resources0.
Qed.

(** Whatever is detected, the generated configuration is valid, with the placeholders the
    operator has to replace. *)
Lemma applyDetection_valid env : sn_validate (applyDetection sn_DefaultConfig env) = Ok tt.
Proof.
  destruct env as [[[cn port]|] [[u]|] [[bp [|a cp]]|]]; unfold applyDetection; cbn [Docker Journald Binary RPCPort];
    try (destruct (port =? 0)); reflexivity.
Qed.

(** ** The Noise configuration *)

(** For a valid configuration the Noise configuration exists exactly when the URL is a
    noise URL; it carries the key pair of the configured directory, and with a pinned
    public key it authorises that key and no other. *)
Theorem NoiseConfig_spec f c :
  sn_valid c ->
  match NoiseConfig f c with
  | Ok None => isNoiseScheme c = false
  | Ok (Some n) =>
      isNoiseScheme c = true
      /\ LoadKeypair f (KeysDir (c_Beacon c)) = Ok (Static n)
      /\ (PublicKey (c_Beacon c) = EmptyString -> authorized n = [])
      /\ (PublicKey (c_Beacon c) <> EmptyString ->
            exists k, DecodePublicKey (PublicKey (c_Beacon c)) = Ok k
            /\ forall peer, authorizePeer n peer = Ok tt <-> peer = k)
  | Err _ => isNoiseScheme c = true
  end.
Proof.
  intros Hv. unfold NoiseConfig. destruct (isNoiseScheme c); cbn [negb]; [|done].
  destruct (LoadKeypair f _) as [kp|]; cbn [map_err result_bind]; [|done].
  destruct (is_empty (PublicKey (c_Beacon c))) eqn:Hp.
  - apply is_empty_spec in Hp. by rewrite Hp.
  - apply is_empty_false in Hp. destruct (DecodePublicKey _) as [k|]; cbn [map_err result_bind]; [|done].
    split; [done|]. split; [done|]. split; [done|]. intros _. exists k. split; [done|].
    intros peer. rewrite authorizePeer_ok. cbn. rewrite list_elem_of_singleton. naive_solver.
Qed.

Definition noise_sample : SnConfig :=
  let c := sn_DefaultConfig in
  mkSnConfig (mkServerConfig "noise://sentry:9000" "tok")
    (mkBeaconConfig "keys" (hex_encode (repeat "k"%char 32)))
    (c_RPC c) (c_Logs c) (c_OTLP c) (c_Resources c) (c_Metadata c) (c_Self c) (c_Health c).

Definition noise_files : fs :=
  mkFs {["keys"]}
    {[ "keys/privkey" := mkFile 384 (bytes_of_string (hex_encode (repeat "a"%char 32)));
       "keys/pubkey" := mkFile 420 (bytes_of_string (hex_encode (repeat "b"%char 32))) ]}.

Lemma NoiseConfig_spec_witness :
  exists n, NoiseConfig noise_files noise_sample = Ok (Some n)
  /\ authorizePeer n (repeat "k"%char 32) = Ok tt.
Proof.
  assert (Hv : sn_valid noise_sample).
  { constructor; try done; intros _; try (split; [discriminate|discriminate]); try discriminate;
      try (by right); try (apply (bool_decide_eq_true_1 _); reflexivity). }
  pose proof (NoiseConfig_spec noise_files noise_sample Hv) as H.
  destruct (NoiseConfig noise_files noise_sample) as [[n|]|e] eqn:E.
  - exists n. split; [reflexivity|]. destruct H as (_ & _ & _ & H).
    destruct (H ltac:(discriminate)) as (k & Hk & Hall).
    apply Hall. vm_compute in Hk. vm_compute. by injection Hk.
  - discriminate H.
  - vm_compute in E. discriminate E.
Defined.

(** ** Generated text *)

Definition is_comment (l : string) : bool := HasPrefix l "# ".

Lemma alt_lines_comment a : Forall (fun l => is_comment l = true) (alt_lines a).
Proof. repeat constructor; apply HasPrefix_app. Qed.

Lemma comments_filtered ls :
  Forall (fun l => is_comment l = true) ls -> List.filter (fun l => negb (is_comment l)) ls = [].
Proof. induction 1 as [|l ls Hl _ IH]; [done|]. cbn [List.filter]. by rewrite Hl. Qed.

Lemma inject_lines_comments lines section alts :
  List.filter (fun l => negb (is_comment l)) (inject_lines lines section alts)
  = List.filter (fun l => negb (is_comment l)) lines.
Proof.
  revert section. induction lines as [|line lines IH]; intros section; [done|].
  cbn [inject_lines List.filter].
  assert (Hc : forall sec t, List.filter (fun l => negb (is_comment l))
    (concat (map (fun a => if alt_applies sec t a then alt_lines a else []) alts)) = []).
  { clear IH. intros sec t. induction alts as [|a alts IHa]; [done|]. cbn [map concat]. rewrite List.filter_app, IHa, app_nil_r.
    destruct (alt_applies sec t a); [|done]. apply comments_filtered, alt_lines_comment. }
  rewrite List.filter_app, Hc, IH. done.
Qed.

(** The texts of an alternative contain no line feed. *)
Definition one_line (a : alternative) : Prop :=
  (lf ∉ bytes_of_string (alt_comment a)) /\ (lf ∉ bytes_of_string (alt_key a))
  /\ (lf ∉ bytes_of_string (alt_value a)).

Lemma inject_lines_nolf lines section alts :
  Forall one_line alts ->
  Forall (fun w => lf ∉ bytes_of_string w) lines ->
  Forall (fun w => lf ∉ bytes_of_string w) (inject_lines lines section alts).
Proof.
  intros Ha. revert section. induction lines as [|line lines IH]; intros section Hl; [done|].
  apply Forall_cons_iff in Hl as [Hl1 Hl]. cbn [inject_lines]. constructor; [done|].
  apply Forall_app. split; [|by apply IH]. apply Forall_concat.
  apply list.Forall_forall. intros ls (a & -> & Hin)%list_elem_of_fmap.
  rewrite list.Forall_forall in Ha. specialize (Ha a Hin) as (H1 & H2 & H3).
  destruct (alt_applies _ _ a); [|constructor]. unfold alt_lines.
  repeat constructor; rewrite !bytes_of_string_app, !not_elem_of_app; repeat split; try done;
    apply (bool_decide_eq_true_1 _); reflexivity.
Qed.

(** The injected alternatives are comments only: dropping the lines that start with a
    hash from the generated text and from the encoder's output gives the same lines, so
    the configuration means the same to a TOML reader. *)
Theorem injectAlternatives_comments tomlStr alts :
  Forall one_line alts ->
  List.filter (fun l => negb (is_comment l)) (Split (injectAlternatives tomlStr alts) lf)
  = List.filter (fun l => negb (is_comment l)) (Split tomlStr lf).
Proof.
  intros Ha. unfold injectAlternatives. rewrite Split_Join.
  - apply inject_lines_comments.
  - pose proof (Split_not_nil tomlStr lf). by destruct (Split tomlStr lf).
  - apply inject_lines_nolf; [done|]. apply Split_no_sep.
Qed.

Lemma injectAlternatives_comments_witness :
  let doc := "[logs]" +:+ String lf "container_name = 'a'" in
  List.filter (fun l => negb (is_comment l))
    (Split (injectAlternatives doc (buildAlternatives sn_DefaultConfig (mkEnvironment None None None))) lf)
  = ["[logs]"; "container_name = 'a'"].
Proof.
  intros doc. rewrite injectAlternatives_comments.
  - vm_compute. reflexivity.
  - repeat constructor; cbn; apply (bool_decide_eq_true_1 _); vm_compute; reflexivity.
Defined.
