(* ===== verification/Detect.v ===== *)
(** * internal/sentinel/config: what generate-config finds out (detect.go, generate.go)

    The three probes with what they print, [Detect], and [Generate] with its two writers.
    The answers of docker, systemctl and the file system are the fields of [probes]. *)

From Stdlib Require Import Ascii.
From S2P Require Import Prelude GoStrings GoPath GoTime Console NoiseConfig SentinelConfig.

Local Open Scope Z_scope.

(** [strings.Fields]: the parts between runs of white space, of which none is empty. [cur]
    is the part being read, backwards. *)
Definition flush_field (cur : bytes) : list string := match cur with [] => [] | _ => [string_of_bytes (rev cur)] end.

Fixpoint fields_fuel (fuel : nat) (s cur : bytes) : list string :=
  match fuel with
  | O => flush_field cur
  | S fuel' =>
      match s with
      | [] => flush_field cur
      | a :: s' =>
          match space_head s with
          | Some rest => flush_field cur ++ fields_fuel fuel' rest []
          | None => fields_fuel fuel' s' (a :: cur)
          end
      end
  end.

Definition Fields (s : string) : list string := fields_fuel (S (String.length s)) (bytes_of_string s) [].

Example Fields_example :
  map Fields [" a  bc "; ""; "gnoland.service loaded active"; "x" +:+ String "009" "y"]
  = [["a"; "bc"]; []; ["gnoland.service"; "loaded"; "active"]; ["x"; "y"]].
Proof. vm_compute. reflexivity. Qed.

(** ** The probes *)

(** [pr_containers]: what docker lists, if it can be asked; [pr_systemctl]: the output of
    systemctl, if it runs; [pr_lookpath]: where gnoland is on the PATH; [pr_symlinks]:
    [filepath.EvalSymlinks]; [pr_stat]: whether [os.Stat] succeeds. *)
Record probes := mkProbes {
  pr_containers : option (list docker_container);
  pr_systemctl : option string;
  pr_lookpath : option string;
  pr_symlinks : string -> option string;
  pr_stat : string -> bool
}.

Section Detect.
(** Whether colours are on. *)
Context (on : bool).

(** A probe prints lines and finds something or nothing. *)
Definition docker_probe (containers : option (list docker_container)) : list string * option DockerResult :=
  match containers with
  | None => ([ts_Fail on "Docker container" "not available"], None)
  | Some cs =>
      match first_match cs with
      | Some r => ([ts_OK on "Docker container" (dk_ContainerName r)], Some r)
      | None => ([ts_Fail on "Docker container" "not found"], None)
      end
  end.

(** The loop over the lines of systemctl. *)
Fixpoint journald_unit (lines : list string) : option string :=
  match lines with
  | [] => None
  | line :: lines' =>
      match Fields line with
      | f :: _ => if Contains f "gnoland" then Some f else journald_unit lines'
      | [] => journald_unit lines'
      end
  end.

Definition probeJournald (out : option string) : list string * option JournaldResult :=
  match out with
  | None => ([ts_Fail on "Journald service" "not available"], None)
  | Some out =>
      match journald_unit (Split out lf) with
      | Some u => ([ts_OK on "Journald service" u], Some (mkJournaldResult u))
      | None => ([ts_Fail on "Journald service" "not found"], None)
      end
  end.

Definition probeBinary (lookpath : option string) (symlinks : string -> option string) (stat : string -> bool)
    : list string * option BinaryResult :=
  match lookpath with
  | None => ([ts_Fail on "Gnoland binary" "not found"], None)
  | Some binPath =>
      let resolved := default binPath (symlinks binPath) in
      let ok := ts_OK on "Gnoland binary" resolved in
      let dir := path_Dir resolved in
      let configPath := path_Join [dir; "gnoland-data"; "config"; "config.toml"] in
      if stat configPath then ([ok; ts_SubOK on "config.toml" configPath], Some (mkBinaryResult resolved configPath))
      else ([ok; ts_SubFail on "config.toml" "not found"], Some (mkBinaryResult resolved EmptyString))
  end.

Definition Detect (p : probes) : list string * Environment :=
  let '(l1, d) := docker_probe (pr_containers p) in
  let '(l2, j) := probeJournald (pr_systemctl p) in
  let '(l3, b) := probeBinary (pr_lookpath p) (pr_symlinks p) (pr_stat p) in
  ("Detecting environment..." :: l1 ++ l2 ++ l3, mkEnvironment d j b).

(** [Generate]: what is printed on the way, and the text for the output or the error of the
    TOML encoder. *)
Definition Generate {E} (Marshal : SnConfig -> result string E) (p : probes) : string * result string E :=
  let '(lines, env) := Detect p in
  (String.concat EmptyString (map println lines) +:+ println EmptyString, sn_Generate Marshal env).

(** ** Facts *)

Lemma docker_probe_finds containers : (docker_probe containers).2 = probeDocker containers.
Proof. unfold docker_probe, probeDocker. destruct containers as [cs|]; [|done]. by destruct (first_match cs). Qed.

Lemma journald_unit_spec lines u :
  journald_unit lines = Some u ->
  exists line rest, line ∈ lines /\ Fields line = u :: rest /\ Contains u "gnoland" = true.
Proof.
  induction lines as [|l lines IH]; [done|]. cbn [journald_unit].
  assert ((exists line rest, line ∈ lines /\ Fields line = u :: rest /\ Contains u "gnoland" = true) ->
          exists line rest, line ∈ l :: lines /\ Fields line = u :: rest /\ Contains u "gnoland" = true) as Hw.
  { intros (line & rest & H1 & H2). exists line, rest. split; [by right|done]. }
  destruct (Fields l) as [|f rest] eqn:Hf; [by intros H; apply Hw, IH|].
  destruct (Contains f "gnoland") eqn:Hc; [|by intros H; apply Hw, IH].
  intros [= <-]. exists l, rest. by split; [left|].
Qed.

(** What is found is about gnoland: a container or a unit whose name says so; and the
    configuration file that is found exists, next to the program. *)
Theorem Detect_sound p :
  let env := (Detect p).2 in
  (forall d, Docker env = Some d -> probeDocker (pr_containers p) = Some d)
  /\ (forall j, Journald env = Some j -> Contains (UnitName j) "gnoland" = true)
  /\ (forall b, Binary env = Some b -> bin_ConfigPath b <> EmptyString -> pr_stat p (bin_ConfigPath b) = true).
Proof.
  unfold Detect. destruct (docker_probe (pr_containers p)) as [l1 d] eqn:E1.
  destruct (probeJournald (pr_systemctl p)) as [l2 j] eqn:E2. destruct (probeBinary _ _ _) as [l3 b] eqn:E3. cbn. split_and!.
  - intros ? ->. pose proof (docker_probe_finds (pr_containers p)) as H. by rewrite E1 in H.
  - intros ? ->. unfold probeJournald in E2. destruct (pr_systemctl p) as [out|]; [|done].
    destruct (journald_unit (Split out lf)) as [u|] eqn:Hu; [|done]. injection E2 as _ <-.
    by apply journald_unit_spec in Hu as (? & ? & _ & _ & Hc).
  - intros b' -> Hne. unfold probeBinary in E3. destruct (pr_lookpath p) as [q|]; [|done]. cbv zeta in E3.
    destruct (pr_stat p _) eqn:Hs; injection E3 as _ <-; [exact Hs|done].
Qed.

(** Whatever is detected, what [Generate] hands to the encoder is a configuration that
    passes its own validation, and nothing but the encoder makes [Generate] fail. *)
Theorem Generate_valid {E} (Marshal : SnConfig -> result string E) p :
  let env := (Detect p).2 in
  let cfg := applyDetection sn_DefaultConfig env in
  sn_validate cfg = Ok tt
  /\ (Generate Marshal p).2 = match Marshal cfg with
                              | Ok data => Ok (injectAlternatives data (buildAlternatives cfg env))
                              | Err e => Err e
                              end.
Proof.
  cbv zeta. split; [apply applyDetection_valid|]. unfold Generate. destruct (Detect p) as [lines env]. cbn [snd].
  unfold sn_Generate. by destruct (Marshal _).
Qed.
End Detect.

Definition sample_probes : probes :=
  mkProbes (Some [mkContainer ["/db"] []; mkContainer ["/my-gnoland"] [(26656, 26656); (26657, 36657)]])
    (Some ("ssh.service loaded active" +:+ String lf " gnoland.service loaded active")) (Some "/usr/bin/gnoland")
    (fun _ => Some "/opt/gno/gnoland") (fun p => bool_decide (p = "/opt/gno/gnoland-data/config/config.toml")).

Example Detect_example :
  Detect false sample_probes
  = (["Detecting environment..."; "  ✔ Docker container     my-gnoland"; "  ✔ Journald service     gnoland.service";
      "  ✔ Gnoland binary       /opt/gno/gnoland"; "    ✔ config.toml        /opt/gno/gnoland-data/config/config.toml"],
     mkEnvironment (Some (mkDockerResult "my-gnoland" 36657)) (Some (mkJournaldResult "gnoland.service"))
       (Some (mkBinaryResult "/opt/gno/gnoland" "/opt/gno/gnoland-data/config/config.toml"))).
Proof. vm_compute. reflexivity. Qed.
