(* ===== verification/VmLines.v ===== *)
(** * internal/watchtower/forwarder: extraction of samples (rpc.go, metrics.go)

    From the JSON a sentinel sends to VictoriaMetrics import lines. Go maps are iterated in
    an unspecified order: [range] is that order, for every map. Debug logs are left out. *)

From Stdlib Require Import Ascii.
From S2P Require Import Prelude GoStrings GoTime GoFloat GoJson GoRfc3339 Protocol Gpub.

Local Open Scope Z_scope.

(** ** Lines *)

Record vmLine := mkVmLine {
  Metric : gmap string string;
  Values : list float64;
  Timestamps : list Z
}.

Definition vmSample (name : string) (labels : gmap string string) (value : float64) (ts : Z) : vmLine :=
  mkVmLine (<["__name__" := name]> labels) [value] [ts].

Definition f64_one : float64 := f64_of_Z 1.
Definition boolToFloat (b : bool) : float64 := if b then f64_one else f64_zero.

(** [intSample]: no line when the number is not an [int64]. *)
Definition intSample (name : string) (labels : gmap string string) (num : Number) (ts : Z) : list vmLine :=
  match Number_Int64 num with
  | Some n => [vmSample name labels (f64_of_Z n) ts]
  | None => []
  end.

Definition base_labels (validator : string) : gmap string string := {["validator" := validator]}.

(** [decodeResult]: nothing is emitted for a malformed payload. *)
Definition decodeResult {T} `{FromJSON T, GoZero T} (raw : RawMessage) (emit : T -> list vmLine) : list vmLine :=
  match Unmarshal (raw_text raw) with
  | Some r => emit r
  | None => []
  end.

(** ** /status *)

Record node_info := mkNodeInfo { Moniker : string; Network : string; Version : string }.
#[export] Instance zero_node_info : GoZero node_info := mkNodeInfo go_zero go_zero go_zero.
#[export] Instance from_node_info : FromJSON node_info := fun _ =>
  from_struct
    [fld "moniker" Moniker (fun r x => mkNodeInfo x (Network r) (Version r));
     fld "network" Network (fun r x => mkNodeInfo (Moniker r) x (Version r));
     fld "version" Version (fun r x => mkNodeInfo (Moniker r) (Network r) x)].

Record sync_info := mkSyncInfo { LatestBlockHeight : Number; CatchingUp : bool }.
#[export] Instance zero_sync_info : GoZero sync_info := mkSyncInfo go_zero go_zero.
#[export] Instance from_sync_info : FromJSON sync_info := fun _ =>
  from_struct
    [fld "latest_block_height" LatestBlockHeight (fun r x => mkSyncInfo x (CatchingUp r));
     fld "catching_up" CatchingUp (fun r x => mkSyncInfo (LatestBlockHeight r) x)].

Record validator_info := mkValidatorInfo { vi_Address : string; vi_VotingPower : Number }.
#[export] Instance zero_validator_info : GoZero validator_info := mkValidatorInfo go_zero go_zero.
#[export] Instance from_validator_info : FromJSON validator_info := fun _ =>
  from_struct
    [fld "address" vi_Address (fun r x => mkValidatorInfo x (vi_VotingPower r));
     fld "voting_power" vi_VotingPower (fun r x => mkValidatorInfo (vi_Address r) x)].

Record rpcStatus := mkRpcStatus {
  NodeInfo : node_info; SyncInfo : sync_info; ValidatorInfo : option validator_info }.
#[export] Instance zero_rpcStatus : GoZero rpcStatus := mkRpcStatus go_zero go_zero go_zero.
#[export] Instance from_rpcStatus : FromJSON rpcStatus := fun _ =>
  from_struct
    [fld "node_info" NodeInfo (fun r x => mkRpcStatus x (SyncInfo r) (ValidatorInfo r));
     fld "sync_info" SyncInfo (fun r x => mkRpcStatus (NodeInfo r) x (ValidatorInfo r));
     fld "validator_info" ValidatorInfo (fun r x => mkRpcStatus (NodeInfo r) (SyncInfo r) x)].

Definition with_address (validator address : string) : gmap string string :=
  <["address" := address]> (base_labels validator).

Definition status_lines (validator : string) (ts : Z) (r : rpcStatus) : list vmLine :=
  let base := base_labels validator in
  intSample "sentinel_rpc_latest_block_height" base (LatestBlockHeight (SyncInfo r)) ts
  ++ [vmSample "sentinel_rpc_catching_up" base (boolToFloat (CatchingUp (SyncInfo r))) ts]
  ++ match ValidatorInfo r with
     | None => []
     | Some v =>
         intSample "sentinel_rpc_validator_voting_power" (with_address validator (vi_Address v)) (vi_VotingPower v) ts
         ++ (if negb (bool_decide (vi_Address v = EmptyString)) && negb (CatchingUp (SyncInfo r))
             then [vmSample "sentinel_validator_online" (with_address validator (vi_Address v)) f64_one ts]
             else [])
     end
  ++ [vmSample "sentinel_node_build_info"
        (<["version" := Version (NodeInfo r)]> (<["moniker" := Moniker (NodeInfo r)]>
           (<["chain_id" := Network (NodeInfo r)]> (base_labels validator)))) f64_one ts].

Definition appendRPCStatus (validator : string) (ts : Z) (raw : RawMessage) : list vmLine :=
  decodeResult raw (status_lines validator ts).

(** ** /net_info and /num_unconfirmed_txs *)

Record rpcNetInfo := mkRpcNetInfo { NPeers : Number }.
#[export] Instance zero_rpcNetInfo : GoZero rpcNetInfo := mkRpcNetInfo go_zero.
#[export] Instance from_rpcNetInfo : FromJSON rpcNetInfo := fun _ =>
  from_struct [fld "n_peers" NPeers (fun _ x => mkRpcNetInfo x)].

Definition appendRPCNetInfo (validator : string) (ts : Z) (raw : RawMessage) : list vmLine :=
  decodeResult raw (fun r => intSample "sentinel_rpc_peers" (base_labels validator) (NPeers r) ts).

Record rpcMempool := mkRpcMempool { NTxs : Number; TotalBytes : Number }.
#[export] Instance zero_rpcMempool : GoZero rpcMempool := mkRpcMempool go_zero go_zero.
#[export] Instance from_rpcMempool : FromJSON rpcMempool := fun _ =>
  from_struct
    [fld "n_txs" NTxs (fun r x => mkRpcMempool x (TotalBytes r));
     fld "total_bytes" TotalBytes (fun r x => mkRpcMempool (NTxs r) x)].

Definition appendRPCMempool (validator : string) (ts : Z) (raw : RawMessage) : list vmLine :=
  decodeResult raw (fun r =>
    intSample "sentinel_rpc_mempool_txs" (base_labels validator) (NTxs r) ts
    ++ intSample "sentinel_rpc_mempool_bytes" (base_labels validator) (TotalBytes r) ts).

(** ** /dump_consensus_state *)

Record round_state := mkRoundState { rs_Height : Number; rs_Round : Number; rs_Step : Number }.
#[export] Instance zero_round_state : GoZero round_state := mkRoundState go_zero go_zero go_zero.
#[export] Instance from_round_state : FromJSON round_state := fun _ =>
  from_struct
    [fld "height" rs_Height (fun r x => mkRoundState x (rs_Round r) (rs_Step r));
     fld "round" rs_Round (fun r x => mkRoundState (rs_Height r) x (rs_Step r));
     fld "step" rs_Step (fun r x => mkRoundState (rs_Height r) (rs_Round r) x)].

Record rpcConsensus := mkRpcConsensus { RoundState : round_state }.
#[export] Instance zero_rpcConsensus : GoZero rpcConsensus := mkRpcConsensus go_zero.
#[export] Instance from_rpcConsensus : FromJSON rpcConsensus := fun _ =>
  from_struct [fld "round_state" RoundState (fun _ x => mkRpcConsensus x)].

Definition appendRPCConsensus (validator : string) (ts : Z) (raw : RawMessage) : list vmLine :=
  decodeResult raw (fun r =>
    let base := base_labels validator in
    intSample "sentinel_rpc_consensus_height" base (rs_Height (RoundState r)) ts
    ++ intSample "sentinel_rpc_consensus_round" base (rs_Round (RoundState r)) ts
    ++ intSample "sentinel_rpc_consensus_step" base (rs_Step (RoundState r)) ts).

(** ** /validators *)

Record pub_key := mkPubKey { pk_Type : string; pk_Value : string }.
#[export] Instance zero_pub_key : GoZero pub_key := mkPubKey go_zero go_zero.
#[export] Instance from_pub_key : FromJSON pub_key := fun _ =>
  from_struct
    [fld "@type" pk_Type (fun r x => mkPubKey x (pk_Value r));
     fld "value" pk_Value (fun r x => mkPubKey (pk_Type r) x)].

Record set_member := mkSetMember { sm_Address : string; sm_VotingPower : Number; sm_PubKey : pub_key }.
#[export] Instance zero_set_member : GoZero set_member := mkSetMember go_zero go_zero go_zero.
#[export] Instance from_set_member : FromJSON set_member := fun _ =>
  from_struct
    [fld "address" sm_Address (fun r x => mkSetMember x (sm_VotingPower r) (sm_PubKey r));
     fld "voting_power" sm_VotingPower (fun r x => mkSetMember (sm_Address r) x (sm_PubKey r));
     fld "pub_key" sm_PubKey (fun r x => mkSetMember (sm_Address r) (sm_VotingPower r) x)].

Record rpcValidators := mkRpcValidators { Validators : list set_member }.
#[export] Instance zero_rpcValidators : GoZero rpcValidators := mkRpcValidators go_zero.
#[export] Instance from_rpcValidators : FromJSON rpcValidators := fun _ =>
  from_struct [fld "validators" Validators (fun _ x => mkRpcValidators x)].

Definition pubKeyTypeEd25519 : string := "/tm.PubKeyEd25519".

Record member := mkMember { m_address : string; m_power : Z; m_pubKeyB32 : string }.

(** The canonical key, empty when there is none or it does not encode. *)
Definition member_key (k : pub_key) : string :=
  if bool_decide (pk_Type k = pubKeyTypeEd25519) && negb (bool_decide (pk_Value k = EmptyString)) then
    match EncodeEd25519FromBase64 (pk_Value k) with
    | Ok (Some b32) => b32
    | _ => EmptyString
    end
  else EmptyString.

(** The first loop: every power, or [None]. *)
Fixpoint collect_members (l : list set_member) : option (list member) :=
  match l with
  | [] => Some []
  | v :: l' =>
      match Number_Int64 (sm_VotingPower v) with
      | None => None
      | Some p =>
          match collect_members l' with
          | None => None
          | Some ms => Some (mkMember (sm_Address v) p (member_key (sm_PubKey v)) :: ms)
          end
      end
  end.

Definition total_power (ms : list member) : Z := fold_left (fun t m => wrap64 (t + m_power m)) ms 0.

Definition member_lines (validator : string) (ts : Z) (m : member) : list vmLine :=
  if bool_decide (m_address m = EmptyString) then []
  else
    let labels := with_address validator (m_address m) in
    let labels := if bool_decide (m_pubKeyB32 m = EmptyString) then labels
                  else <["pub_key_bech32" := m_pubKeyB32 m]> labels in
    [vmSample "sentinel_rpc_validator_set_power" labels (f64_of_Z (m_power m)) ts].

Definition validators_lines (validator : string) (ts : Z) (r : rpcValidators) : list vmLine :=
  match collect_members (Validators r) with
  | None => []
  | Some ms =>
      let base := base_labels validator in
      [vmSample "sentinel_rpc_validator_set_size" base (f64_of_Z (Z.of_nat (length (Validators r)))) ts;
       vmSample "sentinel_rpc_validator_set_total_power" base (f64_of_Z (total_power ms)) ts]
      ++ concat (map (member_lines validator ts) ms)
  end.

Definition appendRPCValidators (validator : string) (ts : Z) (raw : RawMessage) : list vmLine :=
  decodeResult raw (validators_lines validator ts).

(** ** /block *)

Record block_header := mkBlockHeader { NumTxs : Number }.
#[export] Instance zero_block_header : GoZero block_header := mkBlockHeader go_zero.
#[export] Instance from_block_header : FromJSON block_header := fun _ =>
  from_struct [fld "num_txs" NumTxs (fun _ x => mkBlockHeader x)].
Record block := mkBlock { blk_Header : block_header }.
#[export] Instance zero_block : GoZero block := mkBlock go_zero.
#[export] Instance from_block : FromJSON block := fun _ =>
  from_struct [fld "header" blk_Header (fun _ x => mkBlock x)].
Record rpcBlock := mkRpcBlock { Block : block }.
#[export] Instance zero_rpcBlock : GoZero rpcBlock := mkRpcBlock go_zero.
#[export] Instance from_rpcBlock : FromJSON rpcBlock := fun _ =>
  from_struct [fld "block" Block (fun _ x => mkRpcBlock x)].

Definition appendRPCBlock (validator : string) (ts : Z) (raw : RawMessage) : list vmLine :=
  decodeResult raw (fun r =>
    intSample "sentinel_rpc_block_num_txs" (base_labels validator) (NumTxs (blk_Header (Block r))) ts).

(** ** What a beacon adds *)

Definition appendRPCSentryStatus (validator : string) (ts : Z) (raw : RawMessage) : list vmLine :=
  decodeResult raw (fun r : rpcStatus =>
    [vmSample "sentinel_sentry_info"
       (<["sentry_version" := Version (NodeInfo r)]> (<["sentry_moniker" := Moniker (NodeInfo r)]>
          (<["sentry_chain" := Network (NodeInfo r)]> (base_labels validator)))) f64_one ts]).

Definition appendRPCSentryNetInfo (validator : string) (ts : Z) (raw : RawMessage) : list vmLine :=
  decodeResult raw (fun r =>
    intSample "sentinel_rpc_peers_via_sentry" (base_labels validator) (NPeers r) ts).

#[export] Instance zero_float : GoZero float64 := f64_zero.
#[export] Instance from_float : FromJSON float64 := fun _ v old =>
  match v with JNumber l => ParseFloatJSON l | JNull => Some old | _ => None end.

Definition appendRPCReachable (validator : string) (ts : Z) (raw : RawMessage) : list vmLine :=
  decodeResult raw (fun v : float64 =>
    [vmSample "sentinel_rpc_reachable" (base_labels validator) v ts]).

(** ** /genesis *)

Record block_params := mkBlockParams {
  MaxTxBytes : Number; MaxDataBytes : Number; MaxBlockBytes : Number; MaxGas : Number; TimeIotaMS : Number }.
#[export] Instance zero_block_params : GoZero block_params := mkBlockParams go_zero go_zero go_zero go_zero go_zero.
#[export] Instance from_block_params : FromJSON block_params := fun _ =>
  from_struct
    [fld "MaxTxBytes" MaxTxBytes (fun r x => mkBlockParams x (MaxDataBytes r) (MaxBlockBytes r) (MaxGas r) (TimeIotaMS r));
     fld "MaxDataBytes" MaxDataBytes (fun r x => mkBlockParams (MaxTxBytes r) x (MaxBlockBytes r) (MaxGas r) (TimeIotaMS r));
     fld "MaxBlockBytes" MaxBlockBytes (fun r x => mkBlockParams (MaxTxBytes r) (MaxDataBytes r) x (MaxGas r) (TimeIotaMS r));
     fld "MaxGas" MaxGas (fun r x => mkBlockParams (MaxTxBytes r) (MaxDataBytes r) (MaxBlockBytes r) x (TimeIotaMS r));
     fld "TimeIotaMS" TimeIotaMS (fun r x => mkBlockParams (MaxTxBytes r) (MaxDataBytes r) (MaxBlockBytes r) (MaxGas r) x)].

Record validator_params := mkValidatorParams { PubKeyTypeURLs : list string }.
#[export] Instance zero_validator_params : GoZero validator_params := mkValidatorParams go_zero.
#[export] Instance from_validator_params : FromJSON validator_params := fun _ =>
  from_struct [fld "PubKeyTypeURLs" PubKeyTypeURLs (fun _ x => mkValidatorParams x)].

Record consensus_params := mkConsensusParams { cp_Block : block_params; cp_Validator : validator_params }.
#[export] Instance zero_consensus_params : GoZero consensus_params := mkConsensusParams go_zero go_zero.
#[export] Instance from_consensus_params : FromJSON consensus_params := fun _ =>
  from_struct
    [fld "Block" cp_Block (fun r x => mkConsensusParams x (cp_Validator r));
     fld "Validator" cp_Validator (fun r x => mkConsensusParams (cp_Block r) x)].

Record key_value := mkKeyValue { kv_Value : string }.
#[export] Instance zero_key_value : GoZero key_value := mkKeyValue go_zero.
#[export] Instance from_key_value : FromJSON key_value := fun _ =>
  from_struct [fld "value" kv_Value (fun _ x => mkKeyValue x)].

Record genesis_validator := mkGenesisValidator {
  gv_Address : string; gv_PubKey : key_value; gv_Power : Number; gv_Name : string }.
#[export] Instance zero_genesis_validator : GoZero genesis_validator := mkGenesisValidator go_zero go_zero go_zero go_zero.
#[export] Instance from_genesis_validator : FromJSON genesis_validator := fun _ =>
  from_struct
    [fld "address" gv_Address (fun r x => mkGenesisValidator x (gv_PubKey r) (gv_Power r) (gv_Name r));
     fld "pub_key" gv_PubKey (fun r x => mkGenesisValidator (gv_Address r) x (gv_Power r) (gv_Name r));
     fld "power" gv_Power (fun r x => mkGenesisValidator (gv_Address r) (gv_PubKey r) x (gv_Name r));
     fld "name" gv_Name (fun r x => mkGenesisValidator (gv_Address r) (gv_PubKey r) (gv_Power r) x)].

Record genesis_doc := mkGenesisDoc {
  GenesisTime : string; ChainID : string; AppHash : RawMessage;
  ConsensusParams : consensus_params; g_Validators : list genesis_validator }.
#[export] Instance zero_genesis_doc : GoZero genesis_doc := mkGenesisDoc go_zero go_zero go_zero go_zero go_zero.
#[export] Instance from_genesis_doc : FromJSON genesis_doc := fun _ =>
  from_struct
    [fld "genesis_time" GenesisTime (fun r x => mkGenesisDoc x (ChainID r) (AppHash r) (ConsensusParams r) (g_Validators r));
     fld "chain_id" ChainID (fun r x => mkGenesisDoc (GenesisTime r) x (AppHash r) (ConsensusParams r) (g_Validators r));
     fld "app_hash" AppHash (fun r x => mkGenesisDoc (GenesisTime r) (ChainID r) x (ConsensusParams r) (g_Validators r));
     fld "consensus_params" ConsensusParams (fun r x => mkGenesisDoc (GenesisTime r) (ChainID r) (AppHash r) x (g_Validators r));
     fld "validators" g_Validators (fun r x => mkGenesisDoc (GenesisTime r) (ChainID r) (AppHash r) (ConsensusParams r) x)].

Record rpcGenesisResult := mkGenesisResult { Genesis : genesis_doc }.
#[export] Instance zero_genesis_result : GoZero rpcGenesisResult := mkGenesisResult go_zero.
#[export] Instance from_genesis_result : FromJSON rpcGenesisResult := fun _ =>
  from_struct [fld "genesis" Genesis (fun _ x => mkGenesisResult x)].

Definition normalizeAppHash (raw : RawMessage) : string :=
  match raw_text raw with
  | [] => EmptyString
  | t => match (Unmarshal t : option string) with Some s => s | None => EmptyString end
  end.

Definition genesis_params (g : genesis_doc) : list (string * string) :=
  let b := cp_Block (ConsensusParams g) in
  [("block.max_tx_bytes", number_text (MaxTxBytes b));
   ("block.max_data_bytes", number_text (MaxDataBytes b));
   ("block.max_block_bytes", number_text (MaxBlockBytes b));
   ("block.max_gas", number_text (MaxGas b));
   ("block.time_iota_ms", number_text (TimeIotaMS b));
   ("validator.pub_key_types", Join (PubKeyTypeURLs (cp_Validator (ConsensusParams g))) ",")].

Definition genesis_lines (validator : string) (ts : Z) (r : rpcGenesisResult) : list vmLine :=
  let g := Genesis r in
  [vmSample "sentinel_genesis_info"
     (<["app_hash" := normalizeAppHash (AppHash g)]> (<["genesis_time" := GenesisTime g]>
        (<["chain_id" := ChainID g]> (base_labels validator)))) f64_one ts]
  ++ concat (map (fun p : string * string =>
       if bool_decide (p.2 = EmptyString) then []
       else [vmSample "sentinel_genesis_consensus_param"
               (<["value" := p.2]> (<["param" := p.1]> (base_labels validator))) f64_one ts])
       (genesis_params g))
  ++ map (fun v =>
       vmSample "sentinel_genesis_validator"
         (<["name" := gv_Name v]> (<["power" := number_text (gv_Power v)]>
            (<["pub_key" := kv_Value (gv_PubKey v)]> (<["address" := gv_Address v]> (base_labels validator)))))
         f64_one ts)
       (g_Validators g).

Definition appendRPCGenesis (validator : string) (ts : Z) (raw : RawMessage) : list vmLine :=
  decodeResult raw (genesis_lines validator ts).

(** ** Host and container statistics *)

Definition appendHostCPU (validator : string) (ts : Z) (raw : RawMessage) : list vmLine :=
  decodeResult raw (fun percents : list float64 =>
    match percents with
    | [] => []
    | p :: _ => [mkVmLine (<["validator" := validator]> {["__name__" := "sentinel_host_cpu_percent"]}) [p] [ts]]
    end).

Record memoryStat := mkMemoryStat { mem_Total : Uint64; mem_Available : Uint64; mem_Used : Uint64; mem_Free : Uint64 }.
#[export] Instance zero_memoryStat : GoZero memoryStat := mkMemoryStat go_zero go_zero go_zero go_zero.
#[export] Instance from_memoryStat : FromJSON memoryStat := fun _ =>
  from_struct
    [fld "total" mem_Total (fun r x => mkMemoryStat x (mem_Available r) (mem_Used r) (mem_Free r));
     fld "available" mem_Available (fun r x => mkMemoryStat (mem_Total r) x (mem_Used r) (mem_Free r));
     fld "used" mem_Used (fun r x => mkMemoryStat (mem_Total r) (mem_Available r) x (mem_Free r));
     fld "free" mem_Free (fun r x => mkMemoryStat (mem_Total r) (mem_Available r) (mem_Used r) x)].

Definition u64_float (u : Uint64) : float64 := f64_of_Z (uint64_val u).

Definition appendHostMemory (validator : string) (ts : Z) (raw : RawMessage) : list vmLine :=
  decodeResult raw (fun m =>
    let base := base_labels validator in
    [vmSample "sentinel_host_memory_total_bytes" base (u64_float (mem_Total m)) ts;
     vmSample "sentinel_host_memory_available_bytes" base (u64_float (mem_Available m)) ts;
     vmSample "sentinel_host_memory_used_bytes" base (u64_float (mem_Used m)) ts;
     vmSample "sentinel_host_memory_free_bytes" base (u64_float (mem_Free m)) ts]).

Record diskStat := mkDiskStat {
  dk_Path : string; dk_Fstype : string; dk_Total : Uint64; dk_Free : Uint64; dk_Used : Uint64 }.
#[export] Instance zero_diskStat : GoZero diskStat := mkDiskStat go_zero go_zero go_zero go_zero go_zero.
#[export] Instance from_diskStat : FromJSON diskStat := fun _ =>
  from_struct
    [fld "path" dk_Path (fun r x => mkDiskStat x (dk_Fstype r) (dk_Total r) (dk_Free r) (dk_Used r));
     fld "fstype" dk_Fstype (fun r x => mkDiskStat (dk_Path r) x (dk_Total r) (dk_Free r) (dk_Used r));
     fld "total" dk_Total (fun r x => mkDiskStat (dk_Path r) (dk_Fstype r) x (dk_Free r) (dk_Used r));
     fld "free" dk_Free (fun r x => mkDiskStat (dk_Path r) (dk_Fstype r) (dk_Total r) x (dk_Used r));
     fld "used" dk_Used (fun r x => mkDiskStat (dk_Path r) (dk_Fstype r) (dk_Total r) (dk_Free r) x)].

Definition appendHostDisk (validator : string) (ts : Z) (raw : RawMessage) : list vmLine :=
  decodeResult raw (fun d =>
    let labels := <["fstype" := dk_Fstype d]> (<["path" := dk_Path d]> (base_labels validator)) in
    [vmSample "sentinel_host_disk_total_bytes" labels (u64_float (dk_Total d)) ts;
     vmSample "sentinel_host_disk_free_bytes" labels (u64_float (dk_Free d)) ts;
     vmSample "sentinel_host_disk_used_bytes" labels (u64_float (dk_Used d)) ts]).

Record netStat := mkNetStat { nic_Name : string; BytesSent : Uint64; BytesRecv : Uint64 }.
#[export] Instance zero_netStat : GoZero netStat := mkNetStat go_zero go_zero go_zero.
#[export] Instance from_netStat : FromJSON netStat := fun _ =>
  from_struct
    [fld "name" nic_Name (fun r x => mkNetStat x (BytesSent r) (BytesRecv r));
     fld "bytesSent" BytesSent (fun r x => mkNetStat (nic_Name r) x (BytesRecv r));
     fld "bytesRecv" BytesRecv (fun r x => mkNetStat (nic_Name r) (BytesSent r) x)].

Definition nic_lines (validator : string) (ts : Z) (n : netStat) : list vmLine :=
  let labels := <["interface" := nic_Name n]> (base_labels validator) in
  [vmSample "sentinel_host_network_receive_bytes_total" labels (u64_float (BytesRecv n)) ts;
   vmSample "sentinel_host_network_transmit_bytes_total" labels (u64_float (BytesSent n)) ts].

Definition appendHostNetwork (validator : string) (ts : Z) (raw : RawMessage) : list vmLine :=
  decodeResult raw (fun nics : list netStat => concat (map (nic_lines validator ts) nics)).

Record cpu_usage := mkCpuUsage { TotalUsage : Uint64 }.
#[export] Instance zero_cpu_usage : GoZero cpu_usage := mkCpuUsage go_zero.
#[export] Instance from_cpu_usage : FromJSON cpu_usage := fun _ =>
  from_struct [fld "total_usage" TotalUsage (fun _ x => mkCpuUsage x)].
Record cpu_stats := mkCpuStats { CPUUsage : cpu_usage }.
#[export] Instance zero_cpu_stats : GoZero cpu_stats := mkCpuStats go_zero.
#[export] Instance from_cpu_stats : FromJSON cpu_stats := fun _ =>
  from_struct [fld "cpu_usage" CPUUsage (fun _ x => mkCpuStats x)].

Record memory_stats := mkMemoryStats { ms_Usage : Uint64; ms_Limit : Uint64; ms_Stats : gmap string Uint64 }.
#[export] Instance zero_memory_stats : GoZero memory_stats := mkMemoryStats go_zero go_zero go_zero.
#[export] Instance from_memory_stats : FromJSON memory_stats := fun _ =>
  from_struct
    [fld "usage" ms_Usage (fun r x => mkMemoryStats x (ms_Limit r) (ms_Stats r));
     fld "limit" ms_Limit (fun r x => mkMemoryStats (ms_Usage r) x (ms_Stats r));
     fld "stats" ms_Stats (fun r x => mkMemoryStats (ms_Usage r) (ms_Limit r) x)].

Record net_counters := mkNetCounters { RxBytes : Uint64; TxBytes : Uint64 }.
#[export] Instance zero_net_counters : GoZero net_counters := mkNetCounters go_zero go_zero.
#[export] Instance from_net_counters : FromJSON net_counters := fun _ =>
  from_struct
    [fld "rx_bytes" RxBytes (fun r x => mkNetCounters x (TxBytes r));
     fld "tx_bytes" TxBytes (fun r x => mkNetCounters (RxBytes r) x)].

Record containerStats := mkContainerStats {
  ct_Name : string; CPUStats : cpu_stats; MemoryStats : memory_stats; Networks : gmap string net_counters }.
#[export] Instance zero_containerStats : GoZero containerStats := mkContainerStats go_zero go_zero go_zero go_zero.
#[export] Instance from_containerStats : FromJSON containerStats := fun _ =>
  from_struct
    [fld "name" ct_Name (fun r x => mkContainerStats x (CPUStats r) (MemoryStats r) (Networks r));
     fld "cpu_stats" CPUStats (fun r x => mkContainerStats (ct_Name r) x (MemoryStats r) (Networks r));
     fld "memory_stats" MemoryStats (fun r x => mkContainerStats (ct_Name r) (CPUStats r) x (Networks r));
     fld "networks" Networks (fun r x => mkContainerStats (ct_Name r) (CPUStats r) (MemoryStats r) x)].

Definition working_set (m : memory_stats) : Z :=
  match ms_Stats m !! "inactive_file" with
  | Some inactive =>
      if uint64_val inactive <=? uint64_val (ms_Usage m)
      then uint64_val (ms_Usage m) - uint64_val inactive else uint64_val (ms_Usage m)
  | None => uint64_val (ms_Usage m)
  end.

Record selfTypeStats := mkSelfTypeStats {
  UncompressedBytes : Int64; WireBytes : Int64; Drops : gmap string Int64 }.
#[export] Instance zero_selfTypeStats : GoZero selfTypeStats := mkSelfTypeStats go_zero go_zero go_zero.
#[export] Instance from_selfTypeStats : FromJSON selfTypeStats := fun _ =>
  from_struct
    [fld "uncompressed_bytes" UncompressedBytes (fun r x => mkSelfTypeStats x (WireBytes r) (Drops r));
     fld "wire_bytes" WireBytes (fun r x => mkSelfTypeStats (UncompressedBytes r) x (Drops r));
     fld "drops" Drops (fun r x => mkSelfTypeStats (UncompressedBytes r) (WireBytes r) x)].

Section Ranges.
Context (range : forall V, gmap string V -> list (string * V)).

Definition config_line (name validator : string) (ts : Z) (p : string * string) : vmLine :=
  vmSample name (<["value" := p.2]> (<["key" := p.1]> (base_labels validator))) f64_one ts.

Definition appendRPCSentryConfig (validator : string) (ts : Z) (raw : RawMessage) : list vmLine :=
  decodeResult raw (fun values : gmap string string =>
    map (config_line "sentinel_sentry_config" validator ts) (range string values)).

Definition appendNodeConfig (validator : string) (ts : Z) (raw : RawMessage) : list vmLine :=
  decodeResult raw (fun values : gmap string string =>
    map (config_line "sentinel_node_config" validator ts) (range string values)).

(** The sums over the networks are unsigned and wrap. *)
Definition sum_u64 (f : net_counters -> Uint64) (l : list (string * net_counters)) : Z :=
  fold_left (fun t p => uwrap64 (t + uint64_val (f p.2))) l 0.

Definition container_lines (validator : string) (ts : Z) (c : containerStats) : list vmLine :=
  let trimmed := TrimPrefix (ct_Name c) "/" in
  let name := if bool_decide (trimmed = EmptyString) then validator else trimmed in
  let labels := <["container" := name]> (base_labels validator) in
  let nets := range net_counters (Networks c) in
  [vmSample "sentinel_container_cpu_usage_seconds_total" labels
     (f64_div (u64_float (TotalUsage (CPUUsage (CPUStats c)))) (f64_of_Z 1000000000)) ts;
   vmSample "sentinel_container_memory_usage_bytes" labels (u64_float (ms_Usage (MemoryStats c))) ts;
   vmSample "sentinel_container_memory_limit_bytes" labels (u64_float (ms_Limit (MemoryStats c))) ts;
   vmSample "sentinel_container_memory_working_set_bytes" labels (f64_of_Z (working_set (MemoryStats c))) ts;
   vmSample "sentinel_container_network_receive_bytes_total" labels (f64_of_Z (sum_u64 RxBytes nets)) ts;
   vmSample "sentinel_container_network_transmit_bytes_total" labels (f64_of_Z (sum_u64 TxBytes nets)) ts].

Definition appendContainer (validator : string) (ts : Z) (raw : RawMessage) : list vmLine :=
  decodeResult raw (container_lines validator ts).

Definition self_lines (validator : string) (ts : Z) (p : string * selfTypeStats) : list vmLine :=
  let typed := <["type" := p.1]> (base_labels validator) in
  [vmSample "sentinel_self_bytes_sent_total" (<["encoding" := "uncompressed"]> typed)
     (f64_of_Z (int64_val (UncompressedBytes p.2))) ts;
   vmSample "sentinel_self_bytes_sent_total" (<["encoding" := "wire"]> typed)
     (f64_of_Z (int64_val (WireBytes p.2))) ts]
  ++ map (fun q : string * Int64 =>
       vmSample "sentinel_self_drops_total" (<["reason" := q.1]> typed) (f64_of_Z (int64_val q.2)) ts)
       (range Int64 (Drops p.2)).

Definition appendSelfStats (validator : string) (ts : Z) (raw : RawMessage) : list vmLine :=
  decodeResult raw (fun byType : gmap string selfTypeStats =>
    concat (map (self_lines validator ts) (range selfTypeStats byType))).

(** ** The two payloads *)

Definition rpc_key (validator : string) (ts : Z) (p : string * RawMessage) : list vmLine :=
  let '(key, raw) := p in
  if bool_decide (key = "status") then appendRPCStatus validator ts raw
  else if bool_decide (key = "net_info") then appendRPCNetInfo validator ts raw
  else if bool_decide (key = "num_unconfirmed_txs") then appendRPCMempool validator ts raw
  else if bool_decide (key = "dump_consensus_state") then appendRPCConsensus validator ts raw
  else if bool_decide (key = "validators") then appendRPCValidators validator ts raw
  else if bool_decide (key = "block") then appendRPCBlock validator ts raw
  else if bool_decide (key = "genesis") then appendRPCGenesis validator ts raw
  else if bool_decide (key = "sentry_status") then appendRPCSentryStatus validator ts raw
  else if bool_decide (key = "sentry_net_info") then appendRPCSentryNetInfo validator ts raw
  else if bool_decide (key = "sentry_config") then appendRPCSentryConfig validator ts raw
  else if bool_decide (key = "rpc_reachable") then appendRPCReachable validator ts raw
  else [].

Definition extractRPC (validator : string) (p : payload) : list vmLine :=
  let ts := UnixMilli (json_time (CollectedAt p)) in
  concat (map (rpc_key validator ts) (range RawMessage (Data p))).

Definition metrics_key (validator : string) (ts : Z) (p : string * RawMessage) : list vmLine :=
  let '(key, raw) := p in
  if bool_decide (key = "cpu") then appendHostCPU validator ts raw
  else if bool_decide (key = "memory") then appendHostMemory validator ts raw
  else if bool_decide (key = "disk") then appendHostDisk validator ts raw
  else if bool_decide (key = "network") then appendHostNetwork validator ts raw
  else if bool_decide (key = "container") then appendContainer validator ts raw
  else if bool_decide (key = "config") then appendNodeConfig validator ts raw
  else if bool_decide (key = "self_stats") then appendSelfStats validator ts raw
  else [].

Definition extractMetrics (validator : string) (p : payload) : list vmLine :=
  let ts := UnixMilli (json_time (CollectedAt p)) in
  concat (map (metrics_key validator ts) (range RawMessage (Data p))).
End Ranges.

(** ** The samples of a payload

    What every line satisfies: the series name is one of a fixed catalogue, the validator
    label is that of the authenticated sender, and the single value is stamped with the
    collection time. *)
Definition line_ok (names : list string) (validator : string) (ts : Z) (l : vmLine) : Prop :=
  (exists n, Metric l !! "__name__" = Some n /\ n ∈ names)
  /\ Metric l !! "validator" = Some validator
  /\ length (Values l) = 1%nat /\ Timestamps l = [ts].

Definition rpc_names : list string :=
  ["sentinel_rpc_latest_block_height"; "sentinel_rpc_catching_up"; "sentinel_rpc_validator_voting_power";
   "sentinel_validator_online"; "sentinel_node_build_info"; "sentinel_rpc_peers"; "sentinel_rpc_mempool_txs";
   "sentinel_rpc_mempool_bytes"; "sentinel_rpc_consensus_height"; "sentinel_rpc_consensus_round";
   "sentinel_rpc_consensus_step"; "sentinel_rpc_validator_set_size"; "sentinel_rpc_validator_set_total_power";
   "sentinel_rpc_validator_set_power"; "sentinel_rpc_block_num_txs"; "sentinel_genesis_info";
   "sentinel_genesis_consensus_param"; "sentinel_genesis_validator"; "sentinel_sentry_info";
   "sentinel_rpc_peers_via_sentry"; "sentinel_sentry_config"; "sentinel_rpc_reachable"].

Definition metrics_names : list string :=
  ["sentinel_host_cpu_percent"; "sentinel_host_memory_total_bytes"; "sentinel_host_memory_available_bytes";
   "sentinel_host_memory_used_bytes"; "sentinel_host_memory_free_bytes"; "sentinel_host_disk_total_bytes";
   "sentinel_host_disk_free_bytes"; "sentinel_host_disk_used_bytes"; "sentinel_host_network_receive_bytes_total";
   "sentinel_host_network_transmit_bytes_total"; "sentinel_container_cpu_usage_seconds_total";
   "sentinel_container_memory_usage_bytes"; "sentinel_container_memory_limit_bytes";
   "sentinel_container_memory_working_set_bytes"; "sentinel_container_network_receive_bytes_total";
   "sentinel_container_network_transmit_bytes_total"; "sentinel_node_config"; "sentinel_self_bytes_sent_total";
   "sentinel_self_drops_total"].

Lemma line_ok_vmSample names validator ts name labels value :
  name ∈ names -> labels !! "validator" = Some validator ->
  line_ok names validator ts (vmSample name labels value ts).
Proof.
  intros Hn Hv. split_and!; cbn; [|by rewrite lookup_insert_ne|done|done].
  exists name. by rewrite lookup_insert_eq.
Qed.

Lemma line_ok_intSample names validator ts name labels num :
  name ∈ names -> labels !! "validator" = Some validator ->
  Forall (line_ok names validator ts) (intSample name labels num ts).
Proof. intros ??. unfold intSample. case_match; auto using line_ok_vmSample. Qed.

Lemma base_labels_validator v : base_labels v !! "validator" = Some v.
Proof. apply lookup_insert_eq. Qed.

Lemma Forall_decodeResult {T} `{FromJSON T, GoZero T} P raw (emit : T -> list vmLine) :
  (forall r, Forall P (emit r)) -> Forall P (decodeResult raw emit).
Proof. intros Hp. unfold decodeResult. case_match; auto. Qed.

Lemma Forall_concat_map {A B} (P : B -> Prop) (f : A -> list B) l :
  (forall x, Forall P (f x)) -> Forall P (concat (map f l)).
Proof. intros Hp. apply Forall_concat, List.Forall_map, List.Forall_forall. auto. Qed.

Lemma Forall_map_all {A B} (P : B -> Prop) (f : A -> B) l :
  (forall x, P (f x)) -> Forall P (map f l).
Proof. intros Hp. apply List.Forall_map, List.Forall_forall. auto. Qed.

(** Proves [line_ok] of the lines of one key. *)
Ltac labels_ok :=
  unfold with_address;
  repeat first [apply base_labels_validator | rewrite lookup_insert_ne by discriminate];
  done.

Ltac names_ok := vm_compute; repeat first [apply list_elem_of_here | apply list_elem_of_further].

Ltac lines_ok :=
  repeat first
    [ apply List.Forall_nil
    | apply Forall_app_2
    | apply List.Forall_cons
    | apply line_ok_intSample; [names_ok | labels_ok]
    | apply line_ok_vmSample; [names_ok | labels_ok]
    | apply Forall_decodeResult; intros ?
    | apply Forall_concat_map; intros ?
    | apply Forall_map_all; intros ?
    | case_match ].

Lemma rpc_key_ok range validator ts p : Forall (line_ok rpc_names validator ts) (rpc_key range validator ts p).
Proof.
  destruct p as [key raw]. unfold rpc_key.
  unfold appendRPCStatus, appendRPCNetInfo, appendRPCMempool, appendRPCConsensus, appendRPCValidators,
    appendRPCBlock, appendRPCGenesis, appendRPCSentryStatus, appendRPCSentryNetInfo, appendRPCSentryConfig,
    appendRPCReachable, status_lines, validators_lines, member_lines, genesis_lines, config_line.
  lines_ok.
Qed.

Lemma line_ok_cpu validator ts x :
  line_ok metrics_names validator ts
    (mkVmLine (<["validator" := validator]> {["__name__" := "sentinel_host_cpu_percent"]}) [x] [ts]).
Proof.
  split_and!; cbn; [|by rewrite lookup_insert_eq|done|done].
  exists "sentinel_host_cpu_percent". rewrite lookup_insert_ne, lookup_singleton_eq by done. split; [done|names_ok].
Qed.

Lemma metrics_key_ok range validator ts p :
  Forall (line_ok metrics_names validator ts) (metrics_key range validator ts p).
Proof.
  destruct p as [key raw]. unfold metrics_key.
  unfold appendHostCPU, appendHostMemory, appendHostDisk, appendHostNetwork, appendContainer, appendNodeConfig,
    appendSelfStats, nic_lines, container_lines, self_lines, config_line.
  lines_ok. apply line_ok_cpu.
Qed.

Lemma extractRPC_ok range validator p :
  Forall (line_ok rpc_names validator (UnixMilli (json_time (CollectedAt p)))) (extractRPC range validator p).
Proof. apply Forall_concat_map. intros q. apply rpc_key_ok. Qed.

Lemma extractMetrics_ok range validator p :
  Forall (line_ok metrics_names validator (UnixMilli (json_time (CollectedAt p)))) (extractMetrics range validator p).
Proof. apply Forall_concat_map. intros q. apply metrics_key_ok. Qed.

(** C30: Whatever JSON a sentinel sends to the two metric endpoints, and whatever order Go
    ranges over its maps in, every line that goes to VictoriaMetrics is a series of the
    endpoint's catalogue with the label of the authenticated validator (which no key of the
    payload can override) and exactly one value, stamped with the collection time. *)
Theorem extract_lines_ok range validator p :
  Forall (line_ok rpc_names validator (UnixMilli (json_time (CollectedAt p)))) (extractRPC range validator p)
  /\ Forall (line_ok metrics_names validator (UnixMilli (json_time (CollectedAt p)))) (extractMetrics range validator p).
Proof. split; [apply extractRPC_ok|apply extractMetrics_ok]. Qed.

(** ** The order of iteration does not matter *)

Lemma sum_u64_fold f l t :
  0 <= t < two64 ->
  fold_left (fun t p => uwrap64 (t + uint64_val (f p.2))) l t
  = uwrap64 (t + foldr (fun (p : string * net_counters) s => uint64_val (f p.2) + s) 0 l).
Proof.
  revert t. induction l as [|p l IH]; intros t Ht; cbn.
  - unfold uwrap64. rewrite Z.add_0_r, Z.mod_small; lia.
  - rewrite IH by (apply Z.mod_pos_bound; reflexivity).
    unfold uwrap64. rewrite Zplus_mod_idemp_l. f_equal. lia.
Qed.

Lemma sum_u64_perm f l1 l2 : l1 ≡ₚ l2 -> sum_u64 f l1 = sum_u64 f l2.
Proof.
  intros Hp. unfold sum_u64. rewrite !sum_u64_fold by (unfold two64; lia). do 2 f_equal.
  induction Hp; cbn; lia.
Qed.

Lemma decodeResult_perm {T} `{FromJSON T, GoZero T} raw (e1 e2 : T -> list vmLine) :
  (forall r, e1 r ≡ₚ e2 r) -> decodeResult raw e1 ≡ₚ decodeResult raw e2.
Proof. intros He. unfold decodeResult. case_match; auto. Qed.

Lemma concat_perm {A} (l1 l2 : list (list A)) : l1 ≡ₚ l2 -> concat l1 ≡ₚ concat l2.
Proof.
  induction 1; cbn; [done|by f_equiv| |by etrans].
  rewrite !(assoc_L (++)). f_equiv. apply Permutation_app_comm.
Qed.

Lemma concat_map_perm {A B} (f g : A -> list B) l1 l2 :
  (forall x, f x ≡ₚ g x) -> l1 ≡ₚ l2 -> concat (map f l1) ≡ₚ concat (map g l2).
Proof.
  intros Hfg Hl. transitivity (concat (map f l2)).
  - by apply concat_perm, Permutation_map.
  - clear Hl. induction l2 as [|x l2 IH]; cbn; [done|]. by rewrite Hfg, IH.
Qed.

Section Orders.
Context (range1 range2 : forall V, gmap string V -> list (string * V)).
Context (range1_ok : forall V (m : gmap string V), map_range m (range1 V m)).
Context (range2_ok : forall V (m : gmap string V), map_range m (range2 V m)).

Lemma ranges_perm V (m : gmap string V) : range1 V m ≡ₚ range2 V m.
Proof. by eapply map_range_perm. Qed.

Lemma rpc_key_perm validator ts p : rpc_key range1 validator ts p ≡ₚ rpc_key range2 validator ts p.
Proof.
  destruct p as [key raw]. unfold rpc_key, appendRPCSentryConfig.
  repeat (case_match; [done|]). case_match; [|done].
  apply decodeResult_perm. intros r. apply Permutation_map, ranges_perm.
Qed.

Lemma metrics_key_perm validator ts p : metrics_key range1 validator ts p ≡ₚ metrics_key range2 validator ts p.
Proof.
  destruct p as [key raw]. unfold metrics_key, appendContainer, appendNodeConfig, appendSelfStats.
  do 4 (case_match; [done|]).
  case_match; [|case_match; [|case_match; [|done]]]; apply decodeResult_perm; intros r.
  - unfold container_lines. rewrite !(sum_u64_perm _ _ _ (ranges_perm _ (Networks r))). done.
  - apply Permutation_map, ranges_perm.
  - apply concat_map_perm; [|apply ranges_perm]. intros q. unfold self_lines.
    apply Permutation_app_head, Permutation_map, ranges_perm.
Qed.
End Orders.

(** The order in which Go ranges over the payload, over a configuration map, over the
    networks of a container or over the drop reasons changes nothing but the order of the
    lines: the wrapping sums and the set of samples are the same. *)
Theorem extract_order_independent range1 range2 validator p :
  (forall V (m : gmap string V), map_range m (range1 V m)) ->
  (forall V (m : gmap string V), map_range m (range2 V m)) ->
  extractRPC range1 validator p ≡ₚ extractRPC range2 validator p
  /\ extractMetrics range1 validator p ≡ₚ extractMetrics range2 validator p.
Proof.
  intros H1 H2. split; apply concat_map_perm; try (by eapply map_range_perm); intros q.
  - by apply rpc_key_perm.
  - by apply metrics_key_perm.
Qed.

(** ** The validator set and the own validator *)

Definition powers (l : list set_member) : option (list Z) := mapM (fun v => Number_Int64 (sm_VotingPower v)) l.

Lemma collect_members_spec l :
  collect_members l
  = ps ← powers l; Some (zip_with (fun v p => mkMember (sm_Address v) p (member_key (sm_PubKey v))) l ps).
Proof.
  unfold powers. induction l as [|v l IH]; [done|]. cbn. destruct (Number_Int64 _) as [p|]; [|done]. cbn.
  rewrite IH. unfold powers. by destruct (mapM _ l).
Qed.

Lemma total_power_sum ms t :
  fold_left (fun t m => wrap64 (t + m_power m)) ms (wrap64 t)
  = wrap64 (t + foldr (fun m s => m_power m + s) 0 ms).
Proof.
  revert t. induction ms as [|m ms IH]; intros t; cbn; [f_equal; lia|].
  rewrite wrap64_add_l, IH. f_equal. lia.
Qed.

Lemma total_power_spec ms : total_power ms = wrap64 (foldr (fun m s => m_power m + s) 0 ms).
Proof. unfold total_power. exact (total_power_sum ms 0). Qed.

Lemma zip_members_sum l ps :
  length l = length ps ->
  foldr (fun m s => m_power m + s) 0
    (zip_with (fun v p => mkMember (sm_Address v) p (member_key (sm_PubKey v))) l ps) = foldr Z.add 0 ps.
Proof.
  revert ps. induction l as [|v l IH]; intros [|p ps] Hl; try done. cbn in *. injection Hl as Hl. by rewrite IH.
Qed.

Definition address_and_value (l : vmLine) : option string * list float64 := (Metric l !! "address", Values l).

Lemma member_line_labels validator ts v p key :
  map address_and_value (member_lines validator ts (mkMember (sm_Address v) p key))
  = if bool_decide (sm_Address v = EmptyString) then [] else [(Some (sm_Address v), [f64_of_Z p])].
Proof.
  unfold member_lines. cbn [m_address m_power m_pubKeyB32]. case_match; [done|]. unfold address_and_value, with_address. cbn.
  do 3 f_equal. rewrite lookup_insert_ne by done.
  case_match; [|rewrite lookup_insert_ne by done]; apply lookup_insert_eq.
Qed.

Lemma member_lines_labels validator ts l ps :
  length l = length ps ->
  map address_and_value (concat (map (member_lines validator ts)
    (zip_with (fun v p => mkMember (sm_Address v) p (member_key (sm_PubKey v))) l ps)))
  = omap (fun vp => if bool_decide (sm_Address vp.1 = EmptyString) then None
                    else Some (Some (sm_Address vp.1), [f64_of_Z vp.2])) (zip l ps).
Proof.
  revert ps. induction l as [|v l IH]; intros [|p ps] Hl; try done. cbn [zip_with map concat].
  rewrite map_app, member_line_labels, IH by (by injection Hl). cbn. by case_match.
Qed.

(** The aggregate of the validator set is all or nothing. If the power of one member
    does not parse, no line of the set is emitted. Otherwise the size and the total power
    (the sum of every power, as an int64) come first, in lockstep with one line per member
    that has an address, carrying that address and that member's power, in the order of the
    set. *)
Theorem validators_all_or_nothing validator ts r :
  match powers (Validators r) with
  | None => validators_lines validator ts r = []
  | Some ps =>
      exists members,
        validators_lines validator ts r
        = vmSample "sentinel_rpc_validator_set_size" (base_labels validator)
            (f64_of_Z (Z.of_nat (length ps))) ts
          :: vmSample "sentinel_rpc_validator_set_total_power" (base_labels validator)
               (f64_of_Z (wrap64 (foldr Z.add 0 ps))) ts
          :: members
        /\ map address_and_value members
           = omap (fun vp => if bool_decide (sm_Address vp.1 = EmptyString) then None
                             else Some (Some (sm_Address vp.1), [f64_of_Z vp.2])) (zip (Validators r) ps)
  end.
Proof.
  unfold validators_lines. rewrite collect_members_spec.
  destruct (powers (Validators r)) as [ps|] eqn:Hp; [|done].
  assert (length (Validators r) = length ps) as Hl by (by eapply length_mapM).
  cbn [mbind option_bind]. eexists. split; [|by apply member_lines_labels].
  by rewrite total_power_spec, zip_members_sum, Hl.
Qed.

(** The presence series of a validator is emitted exactly when the node reports an
    address of its own and has caught up: a node that is behind, or that is not a validator,
    emits nothing, so that its series goes stale. *)
Theorem online_iff_caught_up validator ts r :
  (exists l, In l (status_lines validator ts r) /\ Metric l !! "__name__" = Some "sentinel_validator_online")
  <-> exists v, ValidatorInfo r = Some v /\ vi_Address v <> EmptyString /\ CatchingUp (SyncInfo r) = false.
Proof.
  assert (forall n ls x l, In l [vmSample n ls x ts] -> Metric l !! "__name__" = Some n) as Hone.
  { intros n ls x l [<-|[]]. apply lookup_insert_eq. }
  assert (forall n ls x l, In l (intSample n ls x ts) -> Metric l !! "__name__" = Some n) as Hint.
  { intros n ls x l. unfold intSample. case_match; [apply Hone|done]. }
  unfold status_lines. split.
  - intros (l & Hin & Hn).
    apply in_app_iff in Hin as [Hin|Hin]; [apply Hint in Hin; congruence|].
    apply in_app_iff in Hin as [Hin|Hin]; [apply Hone in Hin; congruence|].
    apply in_app_iff in Hin as [Hin|Hin]; [|apply Hone in Hin; congruence].
    destruct (ValidatorInfo r) as [v|]; [|done].
    apply in_app_iff in Hin as [Hin|Hin]; [apply Hint in Hin; congruence|].
    exists v. destruct (negb _ && negb _) eqn:Hb; [|done]. zbool. done.
  - intros (v & -> & Ha & Hc).
    exists (vmSample "sentinel_validator_online" (with_address validator (vi_Address v)) f64_one ts).
    split; [|apply lookup_insert_eq].
    rewrite bool_decide_eq_false_2, Hc by done. cbn [negb andb]. rewrite !in_app_iff. cbn [In]. tauto.
Qed.

(** ** Evaluations *)

Definition sample_payload : payload :=
  mkPayload (mkJSONTime 0) {["rpc_reachable" := mkRaw (js "1"); "status" := mkRaw (js "{}")]}.

Lemma extract_order_independent_witness :
  extractRPC (fun V m => map_to_list m) "val1" sample_payload
  ≡ₚ extractRPC (fun V m => rev (map_to_list m)) "val1" sample_payload
  /\ extractMetrics (fun V m => map_to_list m) "val1" sample_payload
  ≡ₚ extractMetrics (fun V m => rev (map_to_list m)) "val1" sample_payload.
Proof.
  refine (extract_order_independent (fun V m => map_to_list m) (fun V m => rev (map_to_list m)) "val1" sample_payload _ _);
    intros V m.
  - apply map_range_map_to_list.
  - unfold map_range. symmetry. apply Permutation_rev.
Defined.

Example rpc_status_lines :
  map (fun l => (Metric l !! "__name__", map f64_json (Values l), Timestamps l))
    (extractRPC (fun V m => map_to_list m) "val1"
      (mkPayload (mkJSONTime 1735689600123456789)
        {["status" := mkRaw (jq "{'sync_info':{'latest_block_height':'42','catching_up':false},'validator_info':{'address':'g1abc','voting_power':'10'}}")]}))
  = [(Some "sentinel_rpc_latest_block_height", [Some "42"], [1735689600123]);
     (Some "sentinel_rpc_catching_up", [Some "0"], [1735689600123]);
     (Some "sentinel_rpc_validator_voting_power", [Some "10"], [1735689600123]);
     (Some "sentinel_validator_online", [Some "1"], [1735689600123]);
     (Some "sentinel_node_build_info", [Some "1"], [1735689600123])].
Proof. vm_compute. reflexivity. Qed.

Example rpc_validators_partial :
  extractRPC (fun V m => map_to_list m) "val1"
    (mkPayload (mkJSONTime 0)
      {["validators" := mkRaw (jq "{'validators':[{'address':'a','voting_power':'1'},{'address':'b','voting_power':'1.5'}]}")]})
  = [].
Proof. vm_compute. reflexivity. Qed.
