(* ===== verification/Compacted.v ===== *)
(** * Samples do not depend on the layout of the JSON

    On its way from the sentinel to the watchtower every raw message is compacted
    ([raw_sent]): white space goes and three ASCII characters and two separators are
    escaped. The class [CompactStable] says of a type that decoding into it is blind to
    this; every type the watchtower decodes a raw message into is an instance, so that the
    samples of a payload are those the sentinel's own values stand for. *)

From Stdlib Require Import Ascii.
From S2P Require Import Prelude GoStrings GoFloat GoJson GoRfc3339 GoJsonText GoJsonEncode Gpub Protocol VmLines.

Local Open Scope Z_scope.

(** [R] relates what the original text decodes to and what the compacted one does. *)
Definition stable {A} (R : A -> A -> Prop) (dec : bytes -> jvalue -> A -> option A) : Prop :=
  forall n t v old old', JText n t v -> (n <= max_nat)%nat -> R old old' ->
  option_Forall2 R (dec t v old) (dec (compact t) (jcompact v) old').

Class CompactStable (A : Type) `{FromJSON A} := compact_stable : stable (A := A) eq from_json.

Lemma stable_eq {A} (dec : bytes -> jvalue -> A -> option A) :
  (forall n t v old, JText n t v -> (n <= max_nat)%nat -> dec t v old = dec (compact t) (jcompact v) old) -> stable eq dec.
Proof. intros H n t v old old' HJ Hn <-. rewrite (H n t v old HJ Hn). reflexivity. Qed.

Lemma stable_use {A} `{CompactStable A} n t v old :
  JText n t v -> (n <= max_nat)%nat -> from_json t v old = from_json (compact t) (jcompact v) old.
Proof. intros HJ Hn. apply option_eq_Forall2, (compact_stable n); [done|done|reflexivity]. Qed.

(** ** Structs *)

Lemma find_field_In {A} (fs : list (field A)) name f : find_field fs name = Some f -> In f fs.
Proof.
  unfold find_field. destruct (List.find (fun f => bool_decide (f_name f = name)) fs) as [g|] eqn:E.
  - intros [= <-]. by apply find_some in E as [? _].
  - intros H. by apply find_some in H as [? _].
Qed.

Lemma members_stable {A} (R : A -> A -> Prop) (step : A -> string -> bytes -> jvalue -> option A) n l :
  (forall k, stable R (fun t v a => step a k t v)) -> Forall (member_fits n) l -> (n <= max_nat)%nat ->
  forall acc acc', option_Forall2 R acc acc' ->
  option_Forall2 R
    (fold_left (fun acc (p : string * (bytes * jvalue)) => match acc with None => None | Some a => step a p.1 p.2.1 p.2.2 end) l acc)
    (fold_left (fun acc (p : string * (bytes * jvalue)) => match acc with None => None | Some a => step a p.1 p.2.1 p.2.2 end)
       (map (fun p => (p.1, (compact p.2.1, jcompact p.2.2))) l) acc').
Proof.
  intros Hs Hl Hn. induction Hl as [|[k [t v]] l [_ HJ] _ IH]; intros acc acc' Ha; [done|].
  cbn [map fold_left fst snd] in *. apply IH. destruct Ha as [a a' Ha|]; [|constructor]. by apply (Hs k n).
Qed.

Lemma from_struct_stable {A} (R : A -> A -> Prop) (fs : list (field A)) :
  Forall (fun f => stable R (f_set f)) fs -> stable R (fun _ => from_struct fs).
Proof.
  intros Hfs n t v old old' HJ Hn Ho. destruct v as [| | | | |l]; cbn [jcompact from_struct]; try (by constructor).
  destruct (JObject_members _ _ _ HJ) as (m & -> & Hl).
  apply (members_stable R (fun a k t v => match find_field fs k with Some f => f_set f t v a | None => Some a end) m);
    [|done|lia|by constructor].
  intros k n' t' v' a a' HJ' Hn' Ha. destruct (find_field fs k) as [f|] eqn:E; [|by constructor].
  rewrite List.Forall_forall in Hfs. by apply (Hfs f (find_field_In _ _ _ E) n').
Qed.

Lemma fld_stable {A B} `{CompactStable B} name (get : A -> B) set : stable eq (f_set (fld name get set)).
Proof.
  intros n t v old old' HJ Hn <-. cbn [fld f_set]. rewrite <- (stable_use n t v (get old)) by done. reflexivity.
Qed.

(** ** The types of the standard library *)

#[export] Instance string_stable : CompactStable string.
Proof. apply stable_eq. by intros n t [] old _ _. Qed.
#[export] Instance bool_stable : CompactStable bool.
Proof. apply stable_eq. by intros n t [] old _ _. Qed.
#[export] Instance number_stable : CompactStable Number.
Proof. apply stable_eq. by intros n t [] old _ _. Qed.
#[export] Instance int64_stable : CompactStable Int64.
Proof. apply stable_eq. by intros n t [] old _ _. Qed.
#[export] Instance uint64_stable : CompactStable Uint64.
Proof. apply stable_eq. by intros n t [] old _ _. Qed.
#[export] Instance float_stable : CompactStable float64.
Proof. apply stable_eq. by intros n t [] old _ _. Qed.

#[export] Instance option_stable {A} `{CompactStable A, GoZero A} : CompactStable (option A).
Proof.
  apply stable_eq. intros n t v old HJ Hn. unfold from_json, from_option.
  rewrite <- (stable_use n t v (default go_zero old)) by done. by destruct v.
Qed.

Lemma JElements_fit n s l : JElements n s l -> Forall (fun p => JText n p.1 p.2) l.
Proof. induction 1; by repeat constructor. Qed.

Lemma JArray_elements n t l : JText n t (JArray l) -> exists m, n = S m /\ Forall (fun p => JText m p.1 p.2) l.
Proof. intros H. inversion H; subst; eexists; (split; [reflexivity|]); [constructor|by eapply JElements_fit]. Qed.

#[export] Instance list_stable {A} `{CompactStable A, GoZero A} : CompactStable (list A).
Proof.
  apply stable_eq. intros n t v old HJ Hn. destruct v as [| | | |l|]; cbn [jcompact]; try reflexivity.
  destruct (JArray_elements _ _ _ HJ) as (m & -> & Hl). unfold from_json at 1 2, from_list.
  clear HJ. revert old. induction Hl as [|[t' v'] l HJ' _ IH]; intros old; [reflexivity|]. cbn [map from_elements fst snd] in *.
  rewrite IH, (stable_use m t' v') by (done || lia). reflexivity.
Qed.

#[export] Instance map_stable {A} `{CompactStable A, GoZero A} : CompactStable (gmap string A).
Proof.
  apply stable_eq. intros n t v old HJ Hn. destruct v as [| | | | |l]; cbn [jcompact]; try reflexivity.
  destruct (JObject_members _ _ _ HJ) as (m & -> & Hl). unfold from_json at 1 2, from_map. revert old HJ.
  assert (forall acc : option (gmap string A),
    fold_left (fun acc p => match acc, from_json p.2.1 p.2.2 go_zero with Some m, Some a => Some (<[p.1:=a]> m) | _, _ => None end) l acc
    = fold_left (fun acc p => match acc, from_json p.2.1 p.2.2 go_zero with Some m, Some a => Some (<[p.1:=a]> m) | _, _ => None end)
        (map (fun p => (p.1, (compact p.2.1, jcompact p.2.2))) l) acc) as Hacc; [|intros; apply Hacc].
  induction Hl as [|[k [t' v']] l [_ HJ'] _ IH]; intros acc; [reflexivity|]. cbn [map fold_left fst snd] in *.
  rewrite (stable_use m t' v') by (done || lia). apply IH.
Qed.

(** ** The types of the payloads *)

Ltac struct_stable :=
  unfold CompactStable; apply from_struct_stable; repeat (constructor; [apply fld_stable|]); constructor.

#[export] Instance node_info_stable : CompactStable node_info. Proof. struct_stable. Qed.
#[export] Instance sync_info_stable : CompactStable sync_info. Proof. struct_stable. Qed.
#[export] Instance validator_info_stable : CompactStable validator_info. Proof. struct_stable. Qed.
#[export] Instance rpcStatus_stable : CompactStable rpcStatus. Proof. struct_stable. Qed.
#[export] Instance rpcNetInfo_stable : CompactStable rpcNetInfo. Proof. struct_stable. Qed.
#[export] Instance rpcMempool_stable : CompactStable rpcMempool. Proof. struct_stable. Qed.
#[export] Instance round_state_stable : CompactStable round_state. Proof. struct_stable. Qed.
#[export] Instance rpcConsensus_stable : CompactStable rpcConsensus. Proof. struct_stable. Qed.
#[export] Instance pub_key_stable : CompactStable pub_key. Proof. struct_stable. Qed.
#[export] Instance set_member_stable : CompactStable set_member. Proof. struct_stable. Qed.
#[export] Instance rpcValidators_stable : CompactStable rpcValidators. Proof. struct_stable. Qed.
#[export] Instance block_header_stable : CompactStable block_header. Proof. struct_stable. Qed.
#[export] Instance block_stable : CompactStable block. Proof. struct_stable. Qed.
#[export] Instance rpcBlock_stable : CompactStable rpcBlock. Proof. struct_stable. Qed.
#[export] Instance block_params_stable : CompactStable block_params. Proof. struct_stable. Qed.
#[export] Instance validator_params_stable : CompactStable validator_params. Proof. struct_stable. Qed.
#[export] Instance consensus_params_stable : CompactStable consensus_params. Proof. struct_stable. Qed.
#[export] Instance key_value_stable : CompactStable key_value. Proof. struct_stable. Qed.
#[export] Instance genesis_validator_stable : CompactStable genesis_validator. Proof. struct_stable. Qed.
#[export] Instance memoryStat_stable : CompactStable memoryStat. Proof. struct_stable. Qed.
#[export] Instance diskStat_stable : CompactStable diskStat. Proof. struct_stable. Qed.
#[export] Instance netStat_stable : CompactStable netStat. Proof. struct_stable. Qed.
#[export] Instance cpu_usage_stable : CompactStable cpu_usage. Proof. struct_stable. Qed.
#[export] Instance cpu_stats_stable : CompactStable cpu_stats. Proof. struct_stable. Qed.
#[export] Instance memory_stats_stable : CompactStable memory_stats. Proof. struct_stable. Qed.
#[export] Instance net_counters_stable : CompactStable net_counters. Proof. struct_stable. Qed.
#[export] Instance containerStats_stable : CompactStable containerStats. Proof. struct_stable. Qed.
#[export] Instance selfTypeStats_stable : CompactStable selfTypeStats. Proof. struct_stable. Qed.

(** ** The genesis document

    Its application hash is kept as raw text until it is printed. *)

Definition same_doc (d d' : genesis_doc) : Prop :=
  GenesisTime d = GenesisTime d' /\ ChainID d = ChainID d' /\ ConsensusParams d = ConsensusParams d'
  /\ g_Validators d = g_Validators d' /\ normalizeAppHash (AppHash d) = normalizeAppHash (AppHash d').

Lemma fld_stable_rel {A B} `{CompactStable B} (R : A -> A -> Prop) name (get : A -> B) set :
  (forall a a', R a a' -> get a = get a') -> (forall a a' x, R a a' -> R (set a x) (set a' x)) -> stable R (f_set (fld name get set)).
Proof.
  intros Hg Hs n t v old old' HJ Hn Ho. cbn [fld f_set]. rewrite <- (Hg _ _ Ho), <- (stable_use n t v (get old)) by done.
  destruct (from_json t v (get old)); constructor. by apply Hs.
Qed.

Lemma Unmarshal_compact {A} `{CompactStable A, GoZero A} n t v :
  JText n t v -> (n <= max_nat)%nat -> (Unmarshal (compact t) : option A) = Unmarshal t.
Proof.
  intros HJ Hn. destruct (proj1 grammar_compacts _ _ _ HJ) as [_ HJ'].
  rewrite (Unmarshal_text (A := A) _ _ _ HJ Hn), (Unmarshal_text (A := A) _ _ _ HJ' Hn). symmetry. by eapply stable_use.
Qed.

Lemma normalizeAppHash_compact n t v : JText n t v -> (n <= max_nat)%nat ->
  normalizeAppHash (mkRaw t) = normalizeAppHash (mkRaw (compact t)).
Proof.
  intros HJ Hn. destruct (proj1 grammar_compacts _ _ _ HJ) as [_ HJ']. unfold normalizeAppHash. cbn [raw_text].
  pose proof (Unmarshal_compact (A := string) n t v HJ Hn) as E.
  destruct (JText_head _ _ _ HJ') as (b & r' & Ec & _). destruct (JText_head _ _ _ HJ) as (a & r & Et & _).
  rewrite Ec in E |- *. rewrite Et in E |- *. by rewrite E.
Qed.

Lemma genesis_doc_stable : stable (A := genesis_doc) same_doc from_json.
Proof.
  apply from_struct_stable. unfold same_doc.
  do 2 (constructor; [apply fld_stable_rel; [naive_solver|intros a a' x; cbn; naive_solver]|]). constructor.
  { intros n t v old old' HJ Hn Ho. constructor. cbn. split_and!; try naive_solver. by eapply normalizeAppHash_compact. }
  do 2 (constructor; [apply fld_stable_rel; [naive_solver|intros a a' x; cbn; naive_solver]|]). constructor.
Qed.

Definition same_genesis (r r' : rpcGenesisResult) : Prop := same_doc (Genesis r) (Genesis r').

Lemma genesis_result_stable : stable (A := rpcGenesisResult) same_genesis from_json.
Proof.
  apply from_struct_stable. constructor; [|constructor]. intros n t v old old' HJ Hn Ho. cbn [fld f_set].
  destruct (genesis_doc_stable n t v (Genesis old) (Genesis old') HJ Hn Ho); by constructor.
Qed.

Lemma genesis_lines_same validator ts r r' : same_genesis r r' -> genesis_lines validator ts r = genesis_lines validator ts r'.
Proof.
  intros (H1 & H2 & H3 & H4 & H5). unfold genesis_lines, genesis_params. by rewrite H1, H2, H3, H4, H5.
Qed.

(** ** Samples *)

(** A raw message the sentinel can send that is not nil. *)
Definition raw_valid (r : RawMessage) : Prop := raw_text r <> [] /\ is_Some (json_parse (raw_text r)).

#[export] Instance raw_valid_dec r : Decision (raw_valid r).
Proof. unfold raw_valid. apply _. Defined.

Lemma raw_valid_text r : raw_valid r ->
  exists t v, raw_text (raw_sent r) = compact t /\ JText max_nat t v /\ json_parse (raw_text r) = Some (t, v).
Proof.
  intros [Hne [[t v] Hp]]. exists t, v. destruct (json_parse_compact _ _ _ Hp) as [_ Hc].
  pose proof (json_parse_sound _ _ _ Hp) as (_ & _ & _ & _ & _ & HJ). unfold raw_sent.
  by destruct (raw_text r) as [|a b].
Qed.

(** The value of the message is the value of its text. *)
Lemma Unmarshal_raw {A} `{FromJSON A, GoZero A} r t v :
  json_parse (raw_text r) = Some (t, v) -> JText max_nat t v -> (Unmarshal (raw_text r) : option A) = Unmarshal t.
Proof. intros Hp HJ. rewrite (Unmarshal_text (A := A) _ _ _ HJ (le_n _)). unfold Unmarshal. by rewrite Hp. Qed.

Lemma decodeResult_sent {T} `{CompactStable T, GoZero T} r (emit : T -> list vmLine) :
  raw_valid r -> decodeResult (raw_sent r) emit = decodeResult r emit.
Proof.
  intros (t & v & E & HJ & Hp)%raw_valid_text. unfold decodeResult.
  rewrite E, (Unmarshal_raw r t v Hp HJ), (Unmarshal_compact max_nat t v HJ (le_n _)). done.
Qed.

Lemma appendRPCGenesis_sent validator ts r : raw_valid r -> appendRPCGenesis validator ts (raw_sent r) = appendRPCGenesis validator ts r.
Proof.
  intros (t & v & E & HJ & Hp)%raw_valid_text. unfold appendRPCGenesis, decodeResult.
  rewrite E, (Unmarshal_raw r t v Hp HJ). destruct (proj1 grammar_compacts _ _ _ HJ) as [_ HJ'].
  rewrite (Unmarshal_text (A := rpcGenesisResult) _ _ _ HJ (le_n _)), (Unmarshal_text (A := rpcGenesisResult) _ _ _ HJ' (le_n _)).
  destruct (genesis_result_stable max_nat t v go_zero go_zero HJ (le_n _)) as [g g' Hg|]; [done| |done].
  symmetry. by apply genesis_lines_same.
Qed.

Section Samples.
Context (range : forall V, gmap string V -> list (string * V)).
Context (range_ok : forall V (m : gmap string V), map_range m (range V m)).

Lemma rpc_key_sent validator ts key r :
  raw_valid r -> rpc_key range validator ts (key, raw_sent r) = rpc_key range validator ts (key, r).
Proof.
  intros Hr. unfold rpc_key, appendRPCStatus, appendRPCNetInfo, appendRPCMempool, appendRPCConsensus, appendRPCValidators,
    appendRPCBlock, appendRPCSentryStatus, appendRPCSentryNetInfo, appendRPCSentryConfig, appendRPCReachable.
  rewrite (appendRPCGenesis_sent validator ts r Hr). repeat (case_match; [by rewrite ?decodeResult_sent|]). done.
Qed.

Lemma metrics_key_sent validator ts key r :
  raw_valid r -> metrics_key range validator ts (key, raw_sent r) = metrics_key range validator ts (key, r).
Proof.
  intros Hr. unfold metrics_key, appendHostCPU, appendHostMemory, appendHostDisk, appendHostNetwork, appendContainer, appendNodeConfig, appendSelfStats.
  repeat (case_match; [by rewrite ?decodeResult_sent|]). done.
Qed.

Lemma keys_sent (line : string * RawMessage -> list vmLine) (m : gmap string RawMessage) :
  (forall k r, raw_valid r -> line (k, raw_sent r) = line (k, r)) -> map_Forall (fun _ r => raw_valid r) m ->
  concat (map line (range RawMessage (raw_sent <$> m))) ≡ₚ concat (map line (range RawMessage m)).
Proof.
  intros Hline Hm. pose proof (range_ok _ (raw_sent <$> m)) as H1. pose proof (range_ok _ m) as H2. unfold map_range in *.
  assert (range RawMessage (raw_sent <$> m) ≡ₚ map (prod_map id raw_sent) (range RawMessage m)) as Hp.
  { rewrite H1, map_to_list_fmap. by apply Permutation_map. }
  rewrite (concat_map_perm line line _ _ (fun _ => reflexivity _) Hp), map_map.
  assert (Forall (fun p : string * RawMessage => raw_valid p.2) (range RawMessage m)) as Hv.
  { rewrite List.Forall_forall. intros [k r] Hin. apply list_elem_of_In in Hin. rewrite H2 in Hin.
    apply elem_of_map_to_list in Hin. by apply (Hm k). }
  clear - Hline Hv. induction Hv as [|[k r] l Hr _ IH]; [done|]. cbn [map concat]. unfold prod_map at 1, id at 1. cbn [fst snd] in *.
  by rewrite Hline, IH.
Qed.
End Samples.

Lemma payload_samples_sent range validator p :
  (forall V (m : gmap string V), map_range m (range V m)) -> map_Forall (fun _ r => raw_valid r) (Data p) ->
  extractRPC range validator (payload_sent p) ≡ₚ extractRPC range validator p
  /\ extractMetrics range validator (payload_sent p) ≡ₚ extractMetrics range validator p.
Proof.
  intros Hr Hm. unfold extractRPC, extractMetrics, payload_sent. cbn [CollectedAt Data].
  split; apply keys_sent; try done; intros k r; [apply rpc_key_sent|apply metrics_key_sent].
Qed.

(** C16: What the watchtower exports is what the sentinel observed: for a payload of valid
    JSON messages, the samples the watchtower makes of the payload it receives are, up to
    their order, those of the payload the sentinel sent, whichever way the JSON was laid
    out, for every series of the two metric endpoints. *)
Theorem samples_sent range validator p :
  (forall V (m : gmap string V), map_range m (range V m)) -> map_Forall (fun _ r => raw_valid r) (Data p) ->
  extractRPC range validator (payload_sent p) ≡ₚ extractRPC range validator p
  /\ extractMetrics range validator (payload_sent p) ≡ₚ extractMetrics range validator p.
Proof. apply payload_samples_sent. Qed.

Lemma samples_sent_witness :
  let p := mkPayload (mkJSONTime 0) {["rpc_reachable" := mkRaw (js " 1 "); "block" := mkRaw (jq "{ 'block' : {'header':{'num_txs': '7'}} }")]} in
  let range := fun V (m : gmap string V) => map_to_list m in
  extractRPC range "val1" (payload_sent p) ≡ₚ extractRPC range "val1" p /\ length (extractRPC range "val1" p) = 2%nat.
Proof.
  set (p := mkPayload _ _). cbv zeta. split; [|vm_compute; reflexivity].
  assert (map_Forall (fun _ r => raw_valid r) (Data p)) as Hv by (apply (bool_decide_unpack _); vm_compute; exact I).
  exact (proj1 (samples_sent (fun V m => map_to_list m) "val1" p (fun V m => map_range_map_to_list m) Hv)).
Defined.
