(* ===== verification/Forwarder.v ===== *)
(** * internal/watchtower/forwarder (forwarder.go)

    From an accepted payload to the backends. The network acts on a world [W]; the zstd and
    protobuf libraries, the decompressor behind gzip.NewReader, the order of map iteration
    and the sort are arguments. [slices.SortFunc] promises a sorted permutation and no more
    (it is not stable): the theorems hold for every function with that contract. *)

From Stdlib Require Import Ascii Sorted.
From S2P Require Import Prelude GoStrings GoTime GoFloat GoJson GoJsonText GoJsonEncode GoRfc3339 Protocol GoHttp Logger WtMetrics WtConfig Auth WtStats RateLimit Handlers VmLines.

Local Open Scope Z_scope.

(** ** Requests to the backends *)

Record fwd_request := mkFwdRequest { fr_url : string; fr_contentType : string; fr_body : bytes }.

(** What the client makes of a request. *)
Inductive fwd_outcome :=
| BuildFailed
| NoResponse
| Answered (status : Z) (body : bytes).

Inductive fwd_error :=
| ErrBuildRequest
| ErrPost (url : string)
| ErrStatus (url : string) (status : Z) (excerpt : option bytes)
| ErrEncodeLine
| ErrUnmarshalPayload
| ErrZstd
| ErrZstdRead
| ErrZstdTooLarge
| ErrMarshalPush
| ErrGzipReader
| ErrGzipRead
| ErrUnmarshalOTLP
| ErrMarshalOTLP.

(** The decision of [post]: success is a 2xx answer; the error quotes the first 256 bytes
    of the answer, without surrounding space, if anything is left of them. *)
Definition post_outcome (url : string) (o : fwd_outcome) : result unit fwd_error :=
  match o with
  | BuildFailed => Err ErrBuildRequest
  | NoResponse => Err (ErrPost url)
  | Answered status body =>
      if (status <? 200) || (300 <=? status) then
        let excerpt := take 256 body in
        match TrimSpaceBytes excerpt with
        | [] => Err (ErrStatus url status None)
        | t => Err (ErrStatus url status (Some t))
        end
      else Ok tt
  end.

(** ** JSON of one line *)

(** [enc.Encode(l)]: one document and a newline. *)
Definition encode_vmLine (l : vmLine) : option bytes :=
  match mapM encode_float (Values l) with
  | None => None
  | Some vs =>
      Some (encode_object
              [("metric", encode_string_map (Metric l));
               ("values", encode_array vs);
               ("timestamps", encode_array (map (fun t => bytes_of_string (Itoa t)) (Timestamps l)))]
            ++ ["010"%char])
  end.

Definition encode_vmLines (lines : list vmLine) : option bytes :=
  (fun docs => concat docs) <$> mapM encode_vmLine lines.

(** ** Log payloads *)

Record log_line := mkLogLine { ll_Module : string; ll_TS : RawMessage }.
#[export] Instance zero_log_line : GoZero log_line := mkLogLine go_zero go_zero.
#[export] Instance from_log_line : FromJSON log_line := fun _ =>
  from_struct
    [fld "module" ll_Module (fun r x => mkLogLine x (ll_TS r));
     fld "ts" ll_TS (fun r x => mkLogLine (ll_Module r) x)].

(** [time.Unix]: nanoseconds outside [0, 1e9) carry into the seconds, which are counted
    from year 1 in an int64. *)
Definition unixToInternal : Z := 62135596800.
Definition time_Unix (sec nsec : Z) : Time :=
  let s := wrap64 (sec + nsec / Second) in
  (wrap64 (s + unixToInternal) - unixToInternal) * Second + nsec mod Second.

(** A number of seconds, fractional or not. *)
Definition epoch_time (epoch : float64) : Time :=
  let sec := f64_trunc epoch in
  let nsec := f64_trunc (f64_mul (f64_sub epoch (f64_of_Z sec)) (f64_of_Z 1000000000)) in
  time_Unix sec nsec.

Definition line_ts (ts : bytes) (fallback : Time) : Time :=
  match ts with
  | [] => fallback
  | _ =>
      match (Unmarshal ts : option float64) with
      | Some epoch => epoch_time epoch
      | None =>
          match (Unmarshal ts : option string) with
          | Some s =>
              if bool_decide (s = EmptyString) then fallback
              else default fallback (ParseRFC3339 (bytes_of_string s))
          | None => fallback
          end
      end
  end.

Definition extractModuleAndTS (raw : RawMessage) (fallback : Time) : string * Time :=
  match (Unmarshal (raw_text raw) : option log_line) with
  | None => ("unknown", fallback)
  | Some line =>
      (if bool_decide (ll_Module line = EmptyString) then "unknown" else ll_Module line,
       line_ts (raw_text (ll_TS line)) fallback)
  end.

(** A nil map is [None]. *)
Definition stripBodyFields (raw : RawMessage) (keys : list string) : bytes :=
  match (Unmarshal (raw_text raw) : option (option (gmap string RawMessage))) with
  | Some (Some obj) =>
      default (raw_text raw) (encode_raw_map (foldl (fun m k => delete k m) obj keys))
  | _ => raw_text raw
  end.

Definition maxLogsTsFutureSkew : Duration := 10 * Minute.
Definition maxLogsTsPastSkew : Duration := 168 * Hour.

(** The clamp to the receive time. *)
Definition clamp_ts (now ts : Time) : Time :=
  if Before ts (Add now (- maxLogsTsPastSkew)) || After ts (Add now maxLogsTsFutureSkew) then now else ts.

Record loki_entry := mkEntry { nano : Z; le_raw : string; le_module : string }.

Definition loki_entry_of (now : Time) (raw : RawMessage) : loki_entry :=
  let '(m, ts) := extractModuleAndTS raw now in
  mkEntry (UnixNano (clamp_ts now ts)) (string_of_bytes (stripBodyFields raw ["ts"; "level"])) m.

Record lokiStream := mkStream { Stream : gmap string string; StreamValues : list loki_entry }.

(** A push holds no stream, or one; its values are the three-element arrays. *)
Definition encode_entry (e : loki_entry) : bytes :=
  encode_array
    [encode_string (Itoa (nano e)); encode_string (le_raw e);
     encode_string_map {["module" := le_module e]}].

Definition encode_stream (s : lokiStream) : bytes :=
  encode_object
    [("stream", encode_string_map (Stream s));
     ("values", encode_array (map encode_entry (StreamValues s)))].

Definition encode_push (streams : list lokiStream) : bytes :=
  encode_object [("streams", encode_array (map encode_stream streams))].

(** ** Decompression *)

(** [500 << 20]. *)
Definition maxLogsDecompressedBytes : Z := 524288000.

(** A decompressing reader: the bytes it yields and whether it ends without an error. *)
Record stream := mkStreamReader { st_out : bytes; st_clean : bool }.

(** [io.ReadAll(io.LimitReader(r, n))]: an error after the limit is not seen. *)
Definition read_limited (n : Z) (r : stream) : option bytes :=
  if n <=? Z.of_nat (length (st_out r)) then Some (take (Z.to_nat n) (st_out r))
  else if st_clean r then Some (st_out r) else None.

(** [io.ReadAll]. *)
Definition read_all (r : stream) : option bytes := if st_clean r then Some (st_out r) else None.

(** ** OTLP requests *)

Record otlp_resource (KV RR : Type) := mkResource { Attributes : list KV; res_rest : RR }.
Arguments mkResource {KV RR} Attributes res_rest.
Arguments Attributes {KV RR} o.
Arguments res_rest {KV RR} o.

Record resource_metrics (KV RR RM : Type) := mkRM { rm_Resource : option (otlp_resource KV RR); rm_rest : RM }.
Arguments mkRM {KV RR RM} rm_Resource rm_rest.
Arguments rm_Resource {KV RR RM} r.
Arguments rm_rest {KV RR RM} r.

Record otlp_request (KV RR RM RQ : Type) := mkOTLP {
  ResourceMetrics : list (resource_metrics KV RR RM); req_rest : RQ }.
Arguments mkOTLP {KV RR RM RQ} ResourceMetrics req_rest.
Arguments ResourceMetrics {KV RR RM RQ} o.
Arguments req_rest {KV RR RM RQ} o.

(** The two magic bytes. *)
Definition is_gzip (body : bytes) : bool :=
  match body with
  | a :: b :: _ => (byte_val a =? 31) && (byte_val b =? 139)
  | _ => false
  end.

(** ** The forwarder *)

Record Forwarder := mkForwarder {
  vmURL : string;
  lokiURL : string;
  onLogsBelowMinLevel : option (string -> list metric_op)
}.

Definition fwd_New (vm loki : string) (below : option (string -> list metric_op)) : Forwarder :=
  mkForwarder vm loki below.

Section Forwarder.
Context {W : Type}.
Context (net : W -> fwd_request -> W * fwd_outcome).
Context (clock : W -> Time).
Context (range : forall V, gmap string V -> list (string * V)).
Context (SortFunc : (loki_entry -> loki_entry -> comparison) -> list loki_entry -> list loki_entry).
Context (zstd_NewReader gzip_NewReader : bytes -> option stream).
Context {KV RR RM RQ : Type}.
Context (string_kv : string -> string -> KV).
Context (empty_rest : RR).
Context (proto_Unmarshal : bytes -> option (otlp_request KV RR RM RQ)).
Context (proto_Marshal : otlp_request KV RR RM RQ -> option bytes).
Context (f : Forwarder).

Definition fwd_post (w : W) (url : string) (body : bytes) (contentType : string)
    : W * result unit fwd_error :=
  let '(w, o) := net w (mkFwdRequest url contentType body) in (w, post_outcome url o).

Definition postVMLines (w : W) (lines : list vmLine) : W * result unit fwd_error :=
  match lines with
  | [] => (w, Ok tt)
  | _ =>
      match encode_vmLines lines with
      | None => (w, Err ErrEncodeLine)
      | Some buf => fwd_post w (vmURL f +:+ "/api/v1/import") buf "application/json"
      end
  end.

Definition ForwardRPC (w : W) (validator : string) (body : bytes) : W * result unit fwd_error :=
  match (Unmarshal body : option payload) with
  | None => (w, Err ErrUnmarshalPayload)
  | Some p => postVMLines w (extractRPC range validator p)
  end.

Definition ForwardMetrics (w : W) (validator : string) (body : bytes) : W * result unit fwd_error :=
  match (Unmarshal body : option payload) with
  | None => (w, Err ErrUnmarshalPayload)
  | Some p => postVMLines w (extractMetrics range validator p)
  end.

Definition zstdDecompress (data : bytes) : result bytes fwd_error :=
  match zstd_NewReader data with
  | None => Err ErrZstd
  | Some dec =>
      match read_limited (maxLogsDecompressedBytes + 1) dec with
      | None => Err ErrZstdRead
      | Some out =>
          if maxLogsDecompressedBytes <? Z.of_nat (length out) then Err ErrZstdTooLarge else Ok out
      end
  end.

Definition toLokiPush (now : Time) (validator : string) (p : LogPayload) : list lokiStream :=
  let entries := map (loki_entry_of now) (lp_Lines p) in
  let entries := SortFunc (fun a b => Z.compare (nano a) (nano b)) entries in
  match entries with
  | [] => []
  | _ => [mkStream (<["level" := lp_Level p]> (base_labels validator)) entries]
  end.

Definition ForwardLogs (w : W) (validator : string) (body : bytes) (minLevel : string)
    : W * list metric_op * result unit fwd_error :=
  match zstdDecompress body with
  | Err e => (w, [], Err e)
  | Ok decompressed =>
      match (Unmarshal decompressed : option LogPayload) with
      | None => (w, [], Err ErrUnmarshalPayload)
      | Some p =>
          if negb (bool_decide (minLevel = EmptyString)) && (LevelRank (lp_Level p) <? LevelRank minLevel) then
            (w, match onLogsBelowMinLevel f with Some h => h validator | None => [] end, Ok tt)
          else
            let b := encode_push (toLokiPush (clock w) validator p) in
            let '(w, r) := fwd_post w (lokiURL f +:+ "/loki/api/v1/push") b "application/json" in
            (w, [], r)
      end
  end.

(** The loop over the resources. *)
Definition inject_validator (validator : string) (rm : resource_metrics KV RR RM) : resource_metrics KV RR RM :=
  let res := match rm_Resource rm with Some r => r | None => mkResource [] empty_rest end in
  mkRM (Some (mkResource (Attributes res ++ [string_kv "validator" validator]) (res_rest res))) (rm_rest rm).

Definition gunzip (body : bytes) : result bytes fwd_error :=
  if is_gzip body then
    match gzip_NewReader body with
    | None => Err ErrGzipReader
    | Some gr => match read_all gr with Some b => Ok b | None => Err ErrGzipRead end
    end
  else Ok body.

Definition ForwardOTLP (w : W) (validator : string) (body : bytes) : W * result unit fwd_error :=
  match gunzip body with
  | Err e => (w, Err e)
  | Ok body =>
      match proto_Unmarshal body with
      | None => (w, Err ErrUnmarshalOTLP)
      | Some req =>
          let req := mkOTLP (map (inject_validator validator) (ResourceMetrics req)) (req_rest req) in
          match proto_Marshal req with
          | None => (w, Err ErrMarshalOTLP)
          | Some out => fwd_post w (vmURL f +:+ "/opentelemetry/v1/metrics") out "application/x-protobuf"
          end
      end
  end.

(** What the handlers see of it. *)
Definition fwd_payload_forwarder : PayloadForwarder W fwd_error := {|
  fwd_RPC := fun w v b => let '(w, r) := ForwardRPC w v b in (w, [], r);
  fwd_Metrics := fun w v b => let '(w, r) := ForwardMetrics w v b in (w, [], r);
  fwd_Logs := ForwardLogs;
  fwd_OTLP := fun w v b => let '(w, r) := ForwardOTLP w v b in (w, [], r)
|}.
End Forwarder.

(** ** Framing: an encoded document holds no newline *)

Definition nl : ascii := "010".
Definition no_nl (b : bytes) : Prop := nl ∉ b.

Lemma no_nl_app a b : no_nl a -> no_nl b -> no_nl (a ++ b).
Proof. unfold no_nl. rewrite elem_of_app. tauto. Qed.

Lemma no_nl_cons a b : a <> nl -> no_nl b -> no_nl (a :: b).
Proof. unfold no_nl. rewrite elem_of_cons. naive_solver. Qed.

Lemma no_nl_nil : no_nl [].
Proof. apply not_elem_of_nil. Qed.

Create HintDb nl.
#[export] Hint Resolve no_nl_app no_nl_cons no_nl_nil : nl.
#[export] Hint Extern 1 (_ <> nl) => discriminate : nl.

Lemma not_nl_val a : byte_val a <> 10 -> a <> nl.
Proof. intros H ->. by apply H. Qed.

Lemma no_nl_join l : Forall no_nl l -> no_nl (join_bytes l).
Proof.
  induction l as [|w [|w' l] IH]; intros Hl; [auto with nl|by apply Forall_cons_iff in Hl as []|].
  apply Forall_cons_iff in Hl as [Hw Hl]. change (no_nl (w ++ comma_byte :: join_bytes (w' :: l))).
  auto 6 with nl.
Qed.

Lemma no_nl_array l : Forall no_nl l -> no_nl (encode_array l).
Proof. intros H%no_nl_join. unfold encode_array. auto 6 with nl. Qed.

Lemma no_nl_hex z : 0 <= z < 16 -> hex_digit z <> nl.
Proof.
  intros Hz. apply not_nl_val. unfold hex_digit. rewrite byte_val_of.
  destruct (Z.ltb_spec z 10); rewrite Z.mod_small; lia.
Qed.

Lemma no_nl_u_escape z : no_nl (u_escape z).
Proof.
  unfold u_escape. do 2 (apply no_nl_cons; [discriminate|]).
  assert (forall i, hex_digit (Z.land (Z.shiftr z (4 * i)) 15) <> nl) as Hd.
  { intros i. apply no_nl_hex. change 15 with (Z.ones 4). rewrite Z.land_ones by done.
    by apply Z.mod_pos_bound. }
  cbn [map]. auto 8 using no_nl_cons, no_nl_nil.
Qed.

Lemma high_byte_not_nl a : 128 <= byte_val a -> a <> nl.
Proof. intros H. apply not_nl_val. lia. Qed.

(** The bytes of a sequence of several bytes are all above the ASCII range. *)
Lemma decode_rune_high s r w :
  decode_rune s = (r, w) -> match s with a :: _ => 128 <= byte_val a | [] => True end -> no_nl (take w s).
Proof.
  unfold decode_rune, cont. destruct s as [|a s]; [intros [= <- <-] _; apply no_nl_nil|].
  intros H Ha. rewrite (proj2 (Z.ltb_ge _ _) Ha) in H.
  repeat case_match; injection H as <- <-; zbool;
    cbn; repeat (apply no_nl_cons; [apply high_byte_not_nl; lia|]); apply no_nl_nil.
Qed.

Lemma no_nl_string_body n s : no_nl (encode_string_body n s).
Proof.
  revert s. induction n as [|n IH]; intros s; [apply no_nl_nil|]. cbn [encode_string_body].
  destruct s as [|a s]; [apply no_nl_nil|].
  destruct (Z.ltb_spec (byte_val a) 128) as [Ha|Ha].
  - apply no_nl_app; [|apply IH].
    repeat case_match; zbool; auto using no_nl_u_escape with nl;
      repeat (apply no_nl_cons; [first [discriminate | apply not_nl_val; lia]|]); try apply no_nl_nil.
  - destruct (decode_rune (a :: s)) as [r w] eqn:Hd. apply no_nl_app; [|apply IH].
    case_match; [apply no_nl_u_escape|]. case_match; [apply no_nl_u_escape|].
    by eapply decode_rune_high.
Qed.

Lemma no_nl_encode_string s : no_nl (encode_string s).
Proof.
  unfold encode_string. apply no_nl_cons; [discriminate|].
  apply no_nl_app; [apply no_nl_string_body|]. auto with nl.
Qed.

Lemma no_nl_object l : Forall (fun p => no_nl p.2) l -> no_nl (encode_object l).
Proof.
  intros Hl. unfold encode_object. apply no_nl_cons; [discriminate|].
  apply no_nl_app; [|auto with nl]. apply no_nl_join, List.Forall_map.
  eapply List.Forall_impl; [|exact Hl]. intros p Hp. apply no_nl_app; [apply no_nl_encode_string|].
  by apply no_nl_cons.
Qed.


Lemma no_nl_map l : Forall (fun p : string * bytes => no_nl p.2) l -> no_nl (encode_map l).
Proof. intros Hl. apply no_nl_object. by rewrite sort_keys_perm. Qed.

Lemma no_nl_string_map m : no_nl (encode_string_map m).
Proof.
  apply no_nl_map, List.Forall_map, List.Forall_forall. intros p _. apply no_nl_encode_string.
Qed.

(** Numbers *)

Lemma digit_char_not_nl d : 0 <= d < 10 -> digit_char d <> nl.
Proof. intros Hd. apply not_nl_val. unfold digit_char. rewrite byte_val_of, Z.mod_small; lia. Qed.

Lemma no_nl_utoa_fuel n z acc : no_nl (bytes_of_string acc) -> no_nl (bytes_of_string (utoa_fuel n z acc)).
Proof.
  revert z acc. induction n as [|n IH]; intros z acc Ha; [done|]. cbn [utoa_fuel].
  assert (no_nl (bytes_of_string (String (digit_char (z mod 10)) acc))) as Hc.
  { apply no_nl_cons; [|done]. apply digit_char_not_nl. by apply Z.mod_pos_bound. }
  case_match; auto.
Qed.

Lemma no_nl_utoa n : no_nl (bytes_of_string (utoa n)).
Proof. apply no_nl_utoa_fuel, no_nl_nil. Qed.

Lemma no_nl_Itoa n : no_nl (bytes_of_string (Itoa n)).
Proof. unfold Itoa. case_match; [|apply no_nl_utoa]. apply no_nl_cons; [discriminate|apply no_nl_utoa]. Qed.

Lemma no_nl_take n b : no_nl b -> no_nl (take n b).
Proof. unfold no_nl. intros H Hin. apply H. by eapply subseteq_take. Qed.

Lemma no_nl_drop n b : no_nl b -> no_nl (drop n b).
Proof. unfold no_nl. intros H Hin. apply H. by eapply subseteq_drop. Qed.

Lemma no_nl_zeros n : no_nl (bytes_of_string (zeros n)).
Proof.
  unfold zeros. rewrite bytes_of_string_of_bytes. unfold no_nl. intros Hin%list_elem_of_In%repeat_spec. discriminate Hin.
Qed.

#[export] Hint Resolve no_nl_utoa no_nl_take no_nl_drop no_nl_zeros no_nl_Itoa : nl.

Lemma no_nl_str_app a b :
  no_nl (bytes_of_string a) -> no_nl (bytes_of_string b) -> no_nl (bytes_of_string (a +:+ b)).
Proof. rewrite bytes_of_string_app. apply no_nl_app. Qed.

Lemma no_nl_of_bytes b : no_nl b -> no_nl (bytes_of_string (string_of_bytes b)).
Proof. by rewrite bytes_of_string_of_bytes. Qed.

Lemma no_nl_str_cons a s : a <> nl -> no_nl (bytes_of_string s) -> no_nl (bytes_of_string (String a s)).
Proof. apply no_nl_cons. Qed.

#[export] Hint Resolve no_nl_str_app no_nl_of_bytes no_nl_str_cons : nl.

Ltac no_nl_lit := repeat (apply no_nl_cons; [discriminate|]); apply no_nl_nil.

Lemma no_nl_plain d e : no_nl (bytes_of_string (format_plain d e)).
Proof.
  unfold format_plain. cbv zeta. case_match; [no_nl_lit|]. case_match; [auto with nl|].
  case_match; repeat apply no_nl_str_app; auto with nl; no_nl_lit.
Qed.

Lemma no_nl_exp d e : no_nl (bytes_of_string (format_exp d e)).
Proof.
  unfold format_exp. cbv zeta. apply no_nl_str_app; [apply no_nl_str_app|].
  - auto with nl.
  - case_match eqn:Hd; [apply no_nl_nil|]. rewrite <- Hd.
    apply no_nl_str_app; [no_nl_lit|auto with nl].
  - apply no_nl_str_app; [no_nl_lit|]. case_match; repeat apply no_nl_str_app; auto with nl; try no_nl_lit.
    case_match; no_nl_lit.
Qed.

Lemma no_nl_float x b : encode_float x = Some b -> no_nl b.
Proof.
  unfold encode_float, f64_json. destruct x as [s|s| |s m e]; try done.
  - intros [= <-]. destruct s; no_nl_lit.
  - destruct (shortest m e) as [d p]. intros [= <-].
    assert (no_nl (bytes_of_string
      (if (p + count_digits d <=? -6) || (21 <? p + count_digits d) then format_exp d p else format_plain d p))) as Hb.
    { case_match; [apply no_nl_exp|apply no_nl_plain]. }
    destruct s; [|exact Hb]. apply no_nl_str_app; [no_nl_lit|exact Hb].
Qed.

Lemma encode_vmLine_framed l b : encode_vmLine l = Some b -> exists doc, b = doc ++ [nl] /\ no_nl doc.
Proof.
  unfold encode_vmLine. destruct (mapM encode_float (Values l)) as [vs|] eqn:Hv; [|done].
  intros H. assert (forall d, Some (d ++ [nl]) = Some b -> no_nl d -> exists doc, b = doc ++ [nl] /\ no_nl doc) as Hex.
  { intros d Hd Hn. exists d. by injection Hd as <-. }
  apply (Hex _ H). apply no_nl_object.
  repeat apply List.Forall_cons; [apply no_nl_string_map|apply no_nl_array|apply no_nl_array|constructor].
  - apply mapM_Some in Hv. clear - Hv. induction Hv as [|x w xs ws Hx _ IH]; constructor; [|done].
    by eapply no_nl_float.
  - apply List.Forall_map, List.Forall_forall. intros z _. apply no_nl_Itoa.
Qed.

(** [n] documents, each ended by a newline and without one inside. *)
Definition framed (buf : bytes) (docs : list bytes) : Prop :=
  buf = concat (map (fun d => d ++ [nl]) docs) /\ Forall no_nl docs.

Lemma encode_vmLines_framed lines buf :
  encode_vmLines lines = Some buf ->
  exists docs, framed buf docs /\ Forall2 (fun l d => encode_vmLine l = Some (d ++ [nl])) lines docs.
Proof.
  unfold encode_vmLines. destruct (mapM encode_vmLine lines) as [bs|] eqn:Hm; [|done]. intros [= <-].
  apply mapM_Some in Hm. induction Hm as [|l b lines bs Hl Hm (docs & [Hb Hd] & Hf)].
  - exists []. by repeat split; constructor.
  - destruct (encode_vmLine_framed _ _ Hl) as (d & -> & Hn). exists (d :: docs). split.
    + split; [cbn; by rewrite Hb|by constructor].
    + by constructor.
Qed.

(** A framed buffer has one reading only. *)
Lemma framed_inj buf docs1 docs2 : framed buf docs1 -> framed buf docs2 -> docs1 = docs2.
Proof.
  unfold framed. intros [-> H1] [He H2]. revert docs2 He H2. induction H1 as [|d1 docs1 Hd1 _ IH]; intros [|d2 docs2] He H2; cbn in He.
  - done.
  - by destruct d2.
  - by destruct d1.
  - apply Forall_cons_iff in H2 as [Hd2 H2]. rewrite <- !(assoc_L (++)) in He. cbn [app] in He.
    assert (d1 = d2 /\ concat (map (fun d => d ++ [nl]) docs1) = concat (map (fun d => d ++ [nl]) docs2)) as [-> Hr].
    { clear - He Hd1 Hd2. revert d2 Hd2 He. induction d1 as [|x d1 IHd]; intros [|y d2] Hd2 He; cbn in He.
      - by injection He.
      - injection He as <- _. exfalso. apply Hd2, list_elem_of_here.
      - injection He as -> _. exfalso. apply Hd1, list_elem_of_here.
      - injection He as -> He. destruct (IHd ltac:(by intros ?; apply Hd1, list_elem_of_further) d2) as [-> ->]; [|done..].
        by intros ?; apply Hd2, list_elem_of_further. }
    f_equal. by apply IH.
Qed.

(** ** What is sent

    A network that also keeps the requests it was given, in order. *)
Definition traced {W} (net : W -> fwd_request -> W * fwd_outcome) (w : W * list fwd_request) (r : fwd_request)
    : W * list fwd_request * fwd_outcome :=
  let '(w', o) := net w.1 r in ((w', w.2 ++ [r]), o).

(** The error for an answer that is not a success quotes what is left of its first 256
    bytes without the surrounding space. *)
Definition quotes (body : bytes) (excerpt : option bytes) : Prop :=
  match excerpt with
  | None => TrimSpaceBytes (take 256 body) = []
  | Some t => t = TrimSpaceBytes (take 256 body) /\ t <> []
  end.

(** The result that the backend's answer decides: a success exactly for a 2xx status. *)
Definition reflects (url : string) (o : fwd_outcome) (r : result unit fwd_error) : Prop :=
  match o with
  | BuildFailed => r = Err ErrBuildRequest
  | NoResponse => r = Err (ErrPost url)
  | Answered status body =>
      (r = Ok tt <-> 200 <= status < 300)
      /\ (r = Ok tt \/ exists excerpt, r = Err (ErrStatus url status excerpt) /\ quotes body excerpt)
  end.

Lemma post_outcome_reflects url o : reflects url o (post_outcome url o).
Proof.
  destruct o as [| |status body]; [done..|]. unfold post_outcome, reflects.
  destruct (Z.ltb_spec status 200), (Z.leb_spec 300 status); cbn [orb]; [..|split; [done|by left]].
  all: destruct (TrimSpaceBytes (take 256 body)) as [|x t] eqn:E; (split; [split; [done|lia]|right]);
    eexists; (split; [reflexivity|]); cbn; by rewrite E.
Qed.

(** Exactly the request [req] goes to the network, which is then as its answer leaves it,
    and the result [r] is what that answer decides. *)
Definition posted {W} (net : W -> fwd_request -> W * fwd_outcome) (w : W) (req : fwd_request) (w' : W)
    (sent : list fwd_request) (r : result unit fwd_error) : Prop :=
  sent = [req] /\ w' = (net w req).1 /\ reflects (fr_url req) (net w req).2 r.

(** The documents of the lines, and the request that carries them. *)
Definition import_request (vm : string) (lines : list vmLine) (r : fwd_request) : Prop :=
  fr_url r = vm +:+ "/api/v1/import" /\ fr_contentType r = "application/json"
  /\ exists docs, framed (fr_body r) docs
     /\ Forall2 (fun l d => encode_vmLine l = Some (d ++ [nl])) lines docs.

(** The lines a body stands for, [None] when it does not decode. *)
Definition lines_of (extract : payload -> list vmLine) (body : bytes) : option (list vmLine) :=
  extract <$> (Unmarshal body : option payload).

(** One request when there are lines, none otherwise. *)
Definition import_sent {W} (net : W -> fwd_request -> W * fwd_outcome) (w : W) (vm : string) (lines : option (list vmLine))
    (w' : W) (sent : list fwd_request) (r : result unit fwd_error) : Prop :=
  match lines with
  | None => w' = w /\ sent = [] /\ r = Err ErrUnmarshalPayload
  | Some [] => w' = w /\ sent = [] /\ r = Ok tt
  | Some ls =>
      match encode_vmLines ls with
      | None => w' = w /\ sent = [] /\ r = Err ErrEncodeLine
      | Some _ => exists req, import_request vm ls req /\ posted net w req w' sent r
      end
  end.

Section Sent.
Context {W : Type}.
Context (net : W -> fwd_request -> W * fwd_outcome).

Lemma fwd_post_traced w url body ct w' sent r :
  fwd_post (traced net) (w, []) url body ct = ((w', sent), r) ->
  posted net w (mkFwdRequest url ct body) w' sent r.
Proof.
  unfold fwd_post, traced, posted. cbn [fst snd app]. destruct (net w _) as [w1 o]. intros [= <- <- <-].
  split_and!; [done..|]. apply post_outcome_reflects.
Qed.

Lemma postVMLines_sent f w lines w' sent r :
  postVMLines (traced net) f (w, []) lines = ((w', sent), r) -> import_sent net w (vmURL f) (Some lines) w' sent r.
Proof.
  unfold postVMLines, import_sent. destruct lines as [|l lines]; [by intros [= <- <- <-]|].
  destruct (encode_vmLines (l :: lines)) as [buf|] eqn:He; [|by intros [= <- <- <-]].
  intros H%fwd_post_traced. eexists. split; [|exact H].
  split; [done|]. split; [done|]. by apply encode_vmLines_framed.
Qed.

(** C28: The two metric endpoints send at most one request. A body that does not decode sends
    nothing and fails; a payload without samples (the sentinel's delta filter dropped every
    key) sends nothing and succeeds; otherwise one POST goes to the import URL of
    VictoriaMetrics with one JSON document per line, in order, each ended by the only
    newline it holds, so that no label value can split or forge a line; and the call
    succeeds exactly when the backend's answer does. *)
Theorem forward_samples_sent range f w validator body :
  (forall w' sent r, ForwardRPC (traced net) range f (w, []) validator body = ((w', sent), r) ->
     import_sent net w (vmURL f) (lines_of (extractRPC range validator) body) w' sent r)
  /\ (forall w' sent r, ForwardMetrics (traced net) range f (w, []) validator body = ((w', sent), r) ->
     import_sent net w (vmURL f) (lines_of (extractMetrics range validator) body) w' sent r).
Proof.
  unfold ForwardRPC, ForwardMetrics, lines_of.
  split; intros w' sent r; destruct (Unmarshal body) as [p|]; cbn [fmap option_fmap option_map];
    try (by intros [= <- <- <-]); apply postVMLines_sent.
Qed.
End Sent.

(** ** Decompression *)

Section Decompress.
Context (zstd_NewReader : bytes -> option stream).

(** Decompression accepts exactly the streams that end without an error and expand to at
    most 500 MiB, and returns all of their bytes: never a truncated payload, never more
    than the cap. *)
Theorem zstdDecompress_spec data out :
  zstdDecompress zstd_NewReader data = Ok out
  <-> exists dec, zstd_NewReader data = Some dec /\ st_clean dec = true /\ st_out dec = out
                  /\ Z.of_nat (length out) <= maxLogsDecompressedBytes.
Proof.
  unfold zstdDecompress, read_limited, maxLogsDecompressedBytes.
  destruct (zstd_NewReader data) as [[o c]|]; [|naive_solver]. cbn [st_out st_clean]. split.
  - destruct (Z.leb_spec (524288000 + 1) (Z.of_nat (length o))) as [Hl|Hl].
    + rewrite length_take_le by lia. rewrite Z2Nat.id by lia. done.
    + destruct c; [|done]. destruct (Z.ltb_spec 524288000 (Z.of_nat (length o))); [done|].
      intros [= <-]. exists (mkStreamReader o true). by repeat split.
  - intros (dec & [= <-] & Hc & Ho & Hb). cbn in Hc, Ho. subst c out.
    destruct (Z.leb_spec (524288000 + 1) (Z.of_nat (length o))); [lia|].
    by destruct (Z.ltb_spec 524288000 (Z.of_nat (length o))); [lia|].
Qed.
End Decompress.

(** ** Logs *)

Definition by_nano (a b : loki_entry) : comparison := Z.compare (nano a) (nano b).

(** What [slices.SortFunc] promises for this comparison. *)
Definition sort_ok (SortFunc : (loki_entry -> loki_entry -> comparison) -> list loki_entry -> list loki_entry) : Prop :=
  forall l, SortFunc by_nano l ≡ₚ l /\ Sorted (fun a b => nano a <= nano b) (SortFunc by_nano l).

(** Loki's two bounds around the receive time. *)
Definition in_window (now ts : Time) : Prop := now - 168 * Hour <= ts <= now + 10 * Minute.

Lemma clamp_ts_spec now ts :
  clamp_ts now ts = (if bool_decide (in_window now ts) then ts else now) /\ in_window now (clamp_ts now ts).
Proof.
  unfold clamp_ts, in_window, Before, After, Add, maxLogsTsPastSkew, maxLogsTsFutureSkew, Hour, Minute.
  destruct (Z.ltb_spec ts (now + - (168 * 3600000000000))); cbn [orb];
    [rewrite bool_decide_eq_false_2 by lia; lia|].
  destruct (Z.ltb_spec (now + 10 * 60000000000) ts);
    [rewrite bool_decide_eq_false_2 by lia|rewrite bool_decide_eq_true_2 by lia]; lia.
Qed.

(** Clock readings far enough from both ends of the int64 range of nanoseconds. *)
Definition log_clock_ok (now : Time) : Prop := clock_ok now /\ now + 10 * Minute <= max_int64.

Lemma entry_nano now raw :
  log_clock_ok now ->
  nano (loki_entry_of now raw) = clamp_ts now (extractModuleAndTS raw now).2.
Proof.
  intros [[Hn1 Hn2] Hn3]. unfold loki_entry_of. destruct (extractModuleAndTS raw now) as [m ts]. cbn [nano snd].
  apply wrap64_id. destruct (clamp_ts_spec now ts) as [_ [Hl Hh]].
  unfold is_int64, min_int64, max_int64, Hour, Minute in *. lia.
Qed.

(** What an entry keeps of its line. *)
Definition entry_for (now : Time) (raw : RawMessage) (e : loki_entry) : Prop :=
  let '(m, ts) := extractModuleAndTS raw now in
  le_module e = m /\ nano e = (if bool_decide (in_window now ts) then ts else now)
  /\ le_raw e = string_of_bytes (stripBodyFields raw ["ts"; "level"]).

Lemma loki_entry_of_spec now raw : log_clock_ok now -> entry_for now raw (loki_entry_of now raw).
Proof.
  intros Hn. pose proof (entry_nano now raw Hn) as He. unfold entry_for, loki_entry_of in *.
  destruct (extractModuleAndTS raw now) as [m ts]. cbn [nano le_module le_raw snd] in *.
  split; [done|]. split; [|done]. rewrite He. apply clamp_ts_spec.
Qed.

Lemma entry_in_window now raw e : log_clock_ok now -> entry_for now raw e -> in_window now (nano e).
Proof.
  intros _. unfold entry_for. destruct (extractModuleAndTS raw now) as [m ts]. intros (_ & -> & _).
  case_bool_decide; [done|]. unfold in_window, Hour, Minute. lia.
Qed.

(** The push for a payload, as Loki wants it. *)
Definition push_ok (now : Time) (validator : string) (p : LogPayload) (streams : list lokiStream) : Prop :=
  match streams with
  | [] => lp_Lines p = []
  | [s] =>
      Stream s = <["level" := lp_Level p]> {["validator" := validator]}
      /\ (exists es, StreamValues s ≡ₚ es /\ Forall2 (entry_for now) (lp_Lines p) es)
      /\ Sorted (fun a b => nano a <= nano b) (StreamValues s)
      /\ Forall (fun e => in_window now (nano e)) (StreamValues s)
  | _ => False
  end.

Lemma entries_for now lines :
  log_clock_ok now -> Forall2 (entry_for now) lines (map (loki_entry_of now) lines).
Proof. intros Hn. induction lines; constructor; auto using loki_entry_of_spec. Qed.

(** C26: The Loki push of a log payload is what Loki accepts, for any payload and any sort
    that sorts: one stream labelled with the authenticated validator and the payload's
    level (none for an empty payload), one entry per line and no other, each with the
    line's own timestamp when that lies within Loki's window around the receive time and
    the receive time otherwise, with the line's module (or "unknown") as metadata and the
    body without the promoted fields, in non-decreasing order of time. *)
Theorem toLokiPush_spec SortFunc now validator p :
  sort_ok SortFunc -> log_clock_ok now -> push_ok now validator p (toLokiPush SortFunc now validator p).
Proof.
  intros Hs Hn. unfold toLokiPush. change (fun a b => Z.compare (nano a) (nano b)) with by_nano.
  destruct (Hs (map (loki_entry_of now) (lp_Lines p))) as [Hp Hsort].
  pose proof (entries_for now (lp_Lines p) Hn) as Hf.
  destruct (SortFunc by_nano _) as [|e es] eqn:He.
  - cbn. apply Permutation_nil in Hp. by destruct (lp_Lines p).
  - cbn [push_ok]. split; [done|]. split; [by eauto|]. split; [done|]. cbn [StreamValues]. rewrite Hp.
    clear -Hf Hn. induction Hf; constructor; eauto using entry_in_window.
Qed.

(** ** The level filter *)

Definition below_min (minLevel level : string) : Prop :=
  minLevel <> EmptyString /\ LevelRank level < LevelRank minLevel.

#[export] Instance below_min_dec minLevel level : Decision (below_min minLevel level).
Proof. unfold below_min. apply _. Defined.

Definition decode_logs (zstd_NewReader : bytes -> option stream) (body : bytes) : result LogPayload fwd_error :=
  match zstdDecompress zstd_NewReader body with
  | Err e => Err e
  | Ok d => match (Unmarshal d : option LogPayload) with Some p => Ok p | None => Err ErrUnmarshalPayload end
  end.

Section Logs.
Context {W : Type}.
Context (net : W -> fwd_request -> W * fwd_outcome).
Context (clock : W -> Time).
Context (SortFunc : (loki_entry -> loki_entry -> comparison) -> list loki_entry -> list loki_entry).
Context (zstd_NewReader : bytes -> option stream).

Lemma ForwardLogs_sent f w validator body minLevel w' sent ops r :
  ForwardLogs (traced net) (fun w => clock w.1) SortFunc zstd_NewReader f (w, []) validator body minLevel
  = ((w', sent), ops, r) ->
  match decode_logs zstd_NewReader body with
  | Err e => sent = [] /\ w' = w /\ ops = [] /\ r = Err e
  | Ok p =>
      if decide (below_min minLevel (lp_Level p)) then
        sent = [] /\ w' = w /\ r = Ok tt
        /\ ops = match onLogsBelowMinLevel f with Some h => h validator | None => [] end
      else
        ops = []
        /\ posted net w (mkFwdRequest (lokiURL f +:+ "/loki/api/v1/push") "application/json"
                           (encode_push (toLokiPush SortFunc (clock w) validator p))) w' sent r
  end.
Proof.
  unfold ForwardLogs, decode_logs. destruct (zstdDecompress _ body) as [d|e]; [|by intros [= <- <- <- <-]].
  destruct (Unmarshal d) as [p|]; [|by intros [= <- <- <- <-]].
  assert (negb (bool_decide (minLevel = EmptyString)) && (LevelRank (lp_Level p) <? LevelRank minLevel)
          = bool_decide (below_min minLevel (lp_Level p))) as ->.
  { apply eq_bool_prop_intro. rewrite andb_True, negb_True, !bool_decide_spec, Is_true_true, Z.ltb_lt. done. }
  destruct (decide _) as [Hb|Hb];
    [rewrite bool_decide_eq_true_2 by done|rewrite bool_decide_eq_false_2 by done].
  - by intros [= <- <- <- <-].
  - destruct (fwd_post _ _ _ _ _) as [[w1 s1] r1] eqn:Hp. intros [= <- <- <- <-].
    split; [done|]. by apply fwd_post_traced in Hp.
Qed.

(** C27: The server-side level filter drops exactly the payloads whose level ranks below a
    configured minimum: such a payload reaches no backend, counts once under its validator
    if counting is wired, and is a success to the sender. Every other payload that decodes
    is pushed to Loki in one request, and Loki's answer to that request decides the result:
    a success exactly for a 2xx status, an error that names the URL and quotes the answer
    otherwise; one that does not decode sends nothing, counts nothing and fails. *)
Theorem ForwardLogs_filter f w validator body minLevel w' sent ops r :
  ForwardLogs (traced net) (fun w => clock w.1) SortFunc zstd_NewReader f (w, []) validator body minLevel
  = ((w', sent), ops, r) ->
  match decode_logs zstd_NewReader body with
  | Err e => sent = [] /\ w' = w /\ ops = [] /\ r = Err e
  | Ok p =>
      if decide (below_min minLevel (lp_Level p)) then
        sent = [] /\ w' = w /\ r = Ok tt
        /\ ops = match onLogsBelowMinLevel f with Some h => h validator | None => [] end
      else
        ops = []
        /\ posted net w (mkFwdRequest (lokiURL f +:+ "/loki/api/v1/push") "application/json"
                           (encode_push (toLokiPush SortFunc (clock w) validator p))) w' sent r
  end.
Proof. apply ForwardLogs_sent. Qed.
End Logs.

(** ** OTLP *)

Section OTLP.
Context {W KV RR RM RQ : Type}.
Context (net : W -> fwd_request -> W * fwd_outcome).
Context (gzip_NewReader : bytes -> option stream).
Context (string_kv : string -> string -> KV).
Context (empty_rest : RR).
Context (proto_Unmarshal : bytes -> option (otlp_request KV RR RM RQ)).
Context (proto_Marshal : otlp_request KV RR RM RQ -> option bytes).

(** The bytes of the request: the body, or what it decompresses to, completely. *)
Definition otlp_plain (body plain : bytes) : Prop :=
  if is_gzip body
  then exists gr, gzip_NewReader body = Some gr /\ st_clean gr = true /\ st_out gr = plain
  else plain = body.

(** The resource metrics with the validator added. *)
Definition labelled (validator : string) (rm rm' : resource_metrics KV RR RM) : Prop :=
  rm_rest rm' = rm_rest rm
  /\ exists res', rm_Resource rm' = Some res'
     /\ match rm_Resource rm with
        | Some res => Attributes res' = Attributes res ++ [string_kv "validator" validator] /\ res_rest res' = res_rest res
        | None => Attributes res' = [string_kv "validator" validator] /\ res_rest res' = empty_rest
        end.

Lemma gunzip_plain body plain : gunzip gzip_NewReader body = Ok plain <-> otlp_plain body plain.
Proof.
  unfold gunzip, otlp_plain, read_all. destruct (is_gzip body); [|naive_solver].
  destruct (gzip_NewReader body) as [[o []]|]; naive_solver.
Qed.

Lemma inject_labelled validator rms :
  Forall2 (labelled validator) rms (map (inject_validator string_kv empty_rest validator) rms).
Proof.
  induction rms as [|rm rms IH]; constructor; [|done]. unfold labelled, inject_validator. cbn.
  split; [done|]. eexists. split; [done|]. by destruct (rm_Resource rm).
Qed.

Lemma ForwardOTLP_sent f w validator body w' sent r :
  ForwardOTLP (traced net) gzip_NewReader string_kv empty_rest proto_Unmarshal proto_Marshal f
    (w, []) validator body = ((w', sent), r) ->
  (sent = [] /\ is_Ok r = false
   /\ forall plain req rms', otlp_plain body plain -> proto_Unmarshal plain = Some req ->
        Forall2 (labelled validator) (ResourceMetrics req) rms' -> proto_Marshal (mkOTLP rms' (req_rest req)) = None)
  \/ exists plain req rms' out,
       otlp_plain body plain /\ proto_Unmarshal plain = Some req
       /\ Forall2 (labelled validator) (ResourceMetrics req) rms'
       /\ proto_Marshal (mkOTLP rms' (req_rest req)) = Some out
       /\ posted net w (mkFwdRequest (vmURL f +:+ "/opentelemetry/v1/metrics") "application/x-protobuf" out) w' sent r.
Proof.
  unfold ForwardOTLP. destruct (gunzip _ body) as [plain|e] eqn:Hg.
  2: { intros [= _ <- <-]. left. do 2 (split; [done|]). intros plain req rms' Hp%gunzip_plain. congruence. }
  apply gunzip_plain in Hg as Hpl. destruct (proto_Unmarshal plain) as [req|] eqn:Hu.
  2: { intros [= _ <- <-]. left. do 2 (split; [done|]). intros plain' req' rms' Hp%gunzip_plain. congruence. }
  pose proof (inject_labelled validator (ResourceMetrics req)) as Hl.
  destruct (proto_Marshal _) as [out|] eqn:Hm.
  - intros H%fwd_post_traced. right. by eexists plain, req, _, out.
  - intros [= _ <- <-]. left. do 2 (split; [done|]). intros plain' req' rms' Hp%gunzip_plain Hu' Hl'.
    assert (plain' = plain) as -> by congruence. assert (req' = req) as -> by congruence.
    rewrite <- Hm. do 2 f_equal. clear -Hl Hl'. revert rms' Hl'.
    induction Hl as [|rm rm1 rms rms1 H1 _ IH]; intros [|rm2 rms2] Hl2; try by inversion Hl2.
    inversion Hl2 as [|?? ?? H2 Hl3]; subst. f_equal; [|by apply IH].
    destruct H1 as (Ha & [at1 re1] & Hb & Hc), H2 as (Ha' & [at2 re2] & Hb' & Hc'), rm1, rm2. cbn in *.
    subst. destruct (rm_Resource rm); destruct Hc, Hc'; by subst.
Qed.

(** C29: Whatever OTLP request is forwarded carries the authenticated validator on every
    resource: what is sent is the request the (decompressed) body encodes, with the
    validator attribute added as the last one of each resource, in order, a missing
    resource created for it, and nothing else changed. A gzip body is forwarded as its
    content would be; a request is sent exactly when the body decompresses, decodes and
    encodes again, and anything else fails without reaching the backend. The backend's
    answer decides the result. *)
Theorem ForwardOTLP_labels f w validator body w' sent r :
  ForwardOTLP (traced net) gzip_NewReader string_kv empty_rest proto_Unmarshal proto_Marshal f
    (w, []) validator body = ((w', sent), r) ->
  (sent = [] /\ is_Ok r = false
   /\ forall plain req rms', otlp_plain body plain -> proto_Unmarshal plain = Some req ->
        Forall2 (labelled validator) (ResourceMetrics req) rms' -> proto_Marshal (mkOTLP rms' (req_rest req)) = None)
  \/ exists plain req rms' out,
       otlp_plain body plain /\ proto_Unmarshal plain = Some req
       /\ Forall2 (labelled validator) (ResourceMetrics req) rms'
       /\ proto_Marshal (mkOTLP rms' (req_rest req)) = Some out
       /\ posted net w (mkFwdRequest (vmURL f +:+ "/opentelemetry/v1/metrics") "application/x-protobuf" out) w' sent r.
Proof. apply ForwardOTLP_sent. Qed.
End OTLP.

(** ** Evaluations *)

(** A world that answers 204 to everything, and the parameters of the examples: identity
    codecs and an insertion sort. *)
Definition ok_net (w : Time) (r : fwd_request) : Time * fwd_outcome := (w, Answered 204 []).
Definition plain_reader (b : bytes) : option stream := Some (mkStreamReader b true).
Definition ascending (V : Type) (m : gmap string V) : list (string * V) := map_to_list m.

Fixpoint insert_by (cmp : loki_entry -> loki_entry -> comparison) (e : loki_entry) (l : list loki_entry) :=
  match l with
  | [] => [e]
  | x :: l' => match cmp x e with Lt => x :: insert_by cmp e l' | _ => e :: l end
  end.

Definition insertion_sort (cmp : loki_entry -> loki_entry -> comparison) (l : list loki_entry) :=
  foldr (insert_by cmp) [] l.

Lemma insert_by_sorted e l :
  Sorted (fun a b => nano a <= nano b) l -> Sorted (fun a b => nano a <= nano b) (insert_by by_nano e l).
Proof.
  induction l as [|x l IH]; intros Hs; [by repeat constructor|]. cbn [insert_by]. unfold by_nano at 1.
  destruct (Z.compare_spec (nano x) (nano e)); inversion Hs as [|?? Hl Hh]; subst;
    try (constructor; [done|constructor; lia]).
  constructor; [by apply IH|]. destruct l as [|y l]; cbn; [constructor; lia|].
  inversion Hh; subst. case_match; constructor; lia.
Qed.

Lemma insertion_sort_ok : sort_ok insertion_sort.
Proof.
  intros l. unfold insertion_sort. induction l as [|e l [Hp Hs]]; [by split|]. cbn [foldr]. split.
  - transitivity (e :: foldr (insert_by by_nano) [] l); [|by apply perm_skip].
    generalize (foldr (insert_by by_nano) [] l) as k. clear. intros k.
    induction k as [|x k IH]; [done|]. cbn [insert_by]. case_match; try done.
    etransitivity; [apply perm_skip, IH|apply Permutation_swap].
  - by apply insert_by_sorted.
Qed.

Definition sample_now : Time := 1775001600000000000.

Definition sample_logs : LogPayload :=
  mkLogPayload "warn"
    [mkRaw (jq "{'ts':1775001500.25,'level':'warn','msg':'b'}");
     mkRaw (jq "{'ts':'2026-03-31T23:00:00Z','module':'consensus','msg':'a'}");
     mkRaw (jq "{'ts':12,'msg':'old'}")].

Lemma toLokiPush_spec_witness :
  sort_ok insertion_sort /\ log_clock_ok sample_now
  /\ push_ok sample_now "val1" sample_logs (toLokiPush insertion_sort sample_now "val1" sample_logs).
Proof.
  assert (log_clock_ok sample_now) as Hn by (split; [split|]; vm_compute; discriminate).
  split; [exact insertion_sort_ok|]. split; [exact Hn|].
  apply (toLokiPush_spec insertion_sort sample_now "val1" sample_logs insertion_sort_ok Hn).
Defined.

Example sample_push :
  encode_push (toLokiPush insertion_sort sample_now "val1" sample_logs)
  = jq "{'streams':[{'stream':{'level':'warn','validator':'val1'},'values':["
    ++ jq "['1774998000000000000','{\'module\':\'consensus\',\'msg\':\'a\'}',{'module':'consensus'}],"
    ++ jq "['1775001500250000000','{\'msg\':\'b\'}',{'module':'unknown'}],"
    ++ jq "['1775001600000000000','{\'msg\':\'old\'}',{'module':'unknown'}]]}]}".
Proof. vm_compute. reflexivity. Qed.

Definition sample_forwarder : Forwarder :=
  fwd_New "http://vm:8428" "http://loki:3100" (Some m_RecordLogsBelowMinLevel).

Definition sample_body : bytes := jq "{'collected_at':'2026-04-01T00:00:00Z','data':{'rpc_reachable':1}}".

Definition sample_lines : list vmLine :=
  [vmSample "sentinel_rpc_reachable" (base_labels "val1") (f64_of_Z 1) 1775001600000].

Lemma forward_samples_sent_witness :
  let '(w', sent, r) := ForwardRPC (traced ok_net) ascending sample_forwarder (0, []) "val1" sample_body in
  r = Ok tt /\ import_sent ok_net 0 "http://vm:8428" (Some sample_lines) w' sent r
  /\ map fr_body sent
     = [jq "{'metric':{'__name__':'sentinel_rpc_reachable','validator':'val1'},'values':[1],'timestamps':[1775001600000]}"
        ++ [nl]].
Proof.
  destruct (ForwardRPC (traced ok_net) ascending sample_forwarder (0, []) "val1" sample_body)
    as [[w' sent] r] eqn:E.
  pose proof (proj1 (forward_samples_sent ok_net ascending sample_forwarder 0 "val1" sample_body) w' sent r E) as H.
  assert (Hl : lines_of (extractRPC ascending "val1") sample_body = Some sample_lines) by (vm_compute; reflexivity).
  rewrite Hl in H. vm_compute in E. injection E as _ Hs Hr.
  split; [symmetry; exact Hr|]. split; [exact H|]. rewrite <- Hs. vm_compute. reflexivity.
Defined.

Lemma ForwardLogs_filter_witness :
  let '((w', sent), ops, r) :=
    ForwardLogs (traced ok_net) (fun w => w.1) insertion_sort plain_reader sample_forwarder (0, []) "val1"
      (jq "{'level':'debug','lines':[]}") "warn" in
  sent = [] /\ w' = 0 /\ r = Ok tt /\ ops = m_RecordLogsBelowMinLevel "val1".
Proof.
  destruct (ForwardLogs (traced ok_net) (fun w => w.1) insertion_sort plain_reader sample_forwarder (0, []) "val1"
      (jq "{'level':'debug','lines':[]}") "warn") as [[[w' sent] ops] r] eqn:E.
  pose proof (ForwardLogs_filter ok_net (fun w => w) insertion_sort plain_reader sample_forwarder 0 "val1"
      (jq "{'level':'debug','lines':[]}") "warn" w' sent ops r E) as H.
  assert (Hd : decode_logs plain_reader (jq "{'level':'debug','lines':[]}") = Ok (mkLogPayload "debug" []))
    by (vm_compute; reflexivity).
  rewrite Hd in H. destruct (decide (below_min "warn" (lp_Level (mkLogPayload "debug" [])))) as [_|Hn].
  - exact H.
  - exfalso. apply Hn. split; [discriminate|reflexivity].
Defined.

(** An OTLP codec of the examples: a request is one resource per byte, without attributes. *)
Definition toy_otlp (b : bytes) : option (otlp_request (string * string) unit ascii unit) :=
  Some (mkOTLP (map (fun a => mkRM None a) b) tt).
Definition toy_marshal (r : otlp_request (string * string) unit ascii unit) : option bytes :=
  Some (concat (map (fun rm => match rm_Resource rm with
                               | Some res => concat (map (fun kv => bytes_of_string kv.2) (Attributes res))
                               | None => []
                               end ++ [rm_rest rm]) (ResourceMetrics r))).

Lemma ForwardOTLP_labels_witness :
  let '((_, sent), r) :=
    ForwardOTLP (traced ok_net) plain_reader pair tt toy_otlp toy_marshal sample_forwarder (0, []) "val1" (js "xy") in
  r = Ok tt /\ map fr_body sent = [js "val1xval1y"]
  /\ exists rms', Forall2 (labelled pair tt "val1") [mkRM None "x"%char; mkRM None "y"%char] rms'.
Proof.
  destruct (ForwardOTLP (traced ok_net) plain_reader pair tt toy_otlp toy_marshal sample_forwarder (0, []) "val1" (js "xy"))
    as [[w' sent] r] eqn:E.
  pose proof (ForwardOTLP_labels ok_net plain_reader pair tt toy_otlp toy_marshal sample_forwarder 0 "val1" (js "xy")
    w' sent r E) as H.
  vm_compute in E. injection E as _ Hs Hr.
  destruct H as [(_ & Hr' & _)|(plain & req & rms' & out & Hp & Hu & Hl & _)].
  - rewrite <- Hr in Hr'. discriminate Hr'.
  - split; [symmetry; exact Hr|]. split; [rewrite <- Hs; vm_compute; reflexivity|].
    exists rms'. unfold otlp_plain in Hp. rewrite Hp in Hu. injection Hu as <-. exact Hl.
Defined.
