(* ===== verification/Watchtower.v ===== *)
(** * The watchtower as a whole

    The server of internal/watchtower/handlers with the forwarder of
    internal/watchtower/forwarder behind it, as cmd/watchtower puts them together: from one
    HTTP request to what the backends are sent. *)

From Stdlib Require Import Ascii.
From S2P Require Import Prelude GoStrings GoTime GoFloat GoJson GoRfc3339 GoHttp Protocol WtConfig Auth WtStats WtMetrics RateLimit Handlers VmLines Forwarder.

Local Open Scope Z_scope.

Section Watchtower.
Context {W L KV RR RM RQ : Type}.
Context (NewLimiter : float64 -> Z -> L).
Context (Allow : L -> Time -> L * bool).
Context (net : W -> fwd_request -> W * fwd_outcome).
Context (clock : W -> Time).
Context (range : forall V, gmap string V -> list (string * V)).
Context (SortFunc : (loki_entry -> loki_entry -> comparison) -> list loki_entry -> list loki_entry).
Context (zstd_NewReader gzip_NewReader : bytes -> option stream).
Context (string_kv : string -> string -> KV).
Context (empty_rest : RR).
Context (proto_Unmarshal : bytes -> option (otlp_request KV RR RM RQ)).
Context (proto_Marshal : otlp_request KV RR RM RQ -> option bytes).
Context (f : Forwarder).

(** The world of the server: the network's, and the requests sent to the backends. *)
Definition wt_world : Type := W * list fwd_request.

#[local] Instance wt_forwarder : PayloadForwarder wt_world fwd_error :=
  fwd_payload_forwarder (traced net) (fun w => clock w.1) range SortFunc zstd_NewReader gzip_NewReader
    string_kv empty_rest proto_Unmarshal proto_Marshal f.

Definition wt_serve (metrics_page : wt_world -> string) (s : Server (W := wt_world) (L := L)) (r : Request)
    (ck : auth_clock) (now : Time) : Server (W := wt_world) (L := L) * list srv_effect * Response :=
  serve (E := fwd_error) NewLimiter Allow metrics_page s r ck now.

(** What the chain of the handlers says of the whole. *)
Lemma wt_serve_keeps metrics_page s r ck now :
  let s' := (wt_serve metrics_page s r ck now).1.1 in
  srv_auth s' = (if public r then srv_auth s else (auth_Middleware (srv_auth s) r ck).1.1)
  /\ rps (srv_rl s') = rps (srv_rl s) /\ burst (srv_rl s') = burst (srv_rl s).
Proof. apply serve_keeps. Qed.

Lemma wt_serve_rejected metrics_page s r ck now resp0 w :
  public r = false -> (auth_Middleware (srv_auth s) r ck).2 = Rejected resp0 -> srv_world s = w ->
  (wt_serve metrics_page s r ck now).2 = resp0
  /\ srv_world (wt_serve metrics_page s r ck now).1.1 = w.
Proof.
  intros Hp Hr Hw. pose proof (serve_rejected (E := fwd_error) NewLimiter Allow metrics_page s r ck now resp0 Hp Hr) as [H1 H2].
  split; [exact H1|]. unfold wt_serve. destruct (serve _ _ _ _ _ _ _) as [[s' effs] resp] eqn:Hs. cbn [fst snd] in *.
  pose proof (serve_accounted _ _ _ _ _ _ _ _ _ _ Hs) as Hacc. rewrite H2 in Hacc.
  etransitivity; [apply Hacc|exact Hw].
Qed.

(** A backend request that says what [body] says, and only speaks for the validator [who]. *)
Definition attributed (who : string) (e : endpoint) (body : bytes) (req : fwd_request) : Prop :=
  match e with
  | EpRPC =>
      exists p, (Unmarshal body : option payload) = Some p
      /\ import_request (vmURL f) (extractRPC range who p) req
      /\ Forall (fun l => Metric l !! "validator" = Some who) (extractRPC range who p)
  | EpMetrics =>
      exists p, (Unmarshal body : option payload) = Some p
      /\ import_request (vmURL f) (extractMetrics range who p) req
      /\ Forall (fun l => Metric l !! "validator" = Some who) (extractMetrics range who p)
  | EpLogs =>
      exists now p, decode_logs zstd_NewReader body = Ok p
      /\ fr_url req = lokiURL f +:+ "/loki/api/v1/push"
      /\ fr_body req = encode_push (toLokiPush SortFunc now who p)
      /\ Forall (fun s => Stream s !! "validator" = Some who) (toLokiPush SortFunc now who p)
  | EpOTLP =>
      exists plain orig rms, otlp_plain gzip_NewReader body plain /\ proto_Unmarshal plain = Some orig
      /\ fr_url req = vmURL f +:+ "/opentelemetry/v1/metrics"
      /\ proto_Marshal (mkOTLP rms (req_rest orig)) = Some (fr_body req)
      /\ Forall2 (labelled string_kv empty_rest who) (ResourceMetrics orig) rms
  end.

Lemma line_ok_validator names who ts ls :
  Forall (line_ok names who ts) ls -> Forall (fun l => Metric l !! "validator" = Some who) ls.
Proof. apply List.Forall_impl. by intros l (_ & ? & _). Qed.

Lemma toLokiPush_validator now who p :
  Forall (fun s => Stream s !! "validator" = Some who) (toLokiPush SortFunc now who p).
Proof.
  unfold toLokiPush. case_match; constructor; [|constructor]. cbn [Stream].
  rewrite lookup_insert_ne by done. apply base_labels_validator.
Qed.

Lemma import_sent_attributed w lines w' sent r :
  import_sent net w (vmURL f) lines w' sent r ->
  sent = [] \/ exists ls req, lines = Some ls /\ sent = [req] /\ import_request (vmURL f) ls req.
Proof.
  unfold import_sent. destruct lines as [[|l ls]|]; [naive_solver| |naive_solver].
  destruct (encode_vmLines (l :: ls)); [|naive_solver].
  intros (req & Hi & -> & _). right. by exists (l :: ls), req.
Qed.

(** What one call of the forwarder sends. *)
Lemma forward_attributed e w who v body w' sent ops r :
  forward e (w, []) who v body = ((w', sent), ops, r) ->
  sent = [] \/ exists req, sent = [req] /\ attributed who e body req.
Proof.
  destruct e; cbn [forward fwd_RPC fwd_Metrics fwd_Logs fwd_OTLP wt_forwarder fwd_payload_forwarder].
  - unfold ForwardRPC. destruct (Unmarshal body) as [p|] eqn:Hu; [|intros [= _ <- _ _]; by left].
    destruct (postVMLines _ _ _ _) as [[w1 s1] r1] eqn:Hp. intros [= _ <- _ _].
    apply postVMLines_sent, import_sent_attributed in Hp as [->|(ls & req & [= <-] & -> & Hi)]; [by left|right].
    exists req. split; [done|]. exists p. split; [exact Hu|]. split; [done|]. eapply line_ok_validator, extractRPC_ok.
  - unfold ForwardMetrics. destruct (Unmarshal body) as [p|] eqn:Hu; [|intros [= _ <- _ _]; by left].
    destruct (postVMLines _ _ _ _) as [[w1 s1] r1] eqn:Hp. intros [= _ <- _ _].
    apply postVMLines_sent, import_sent_attributed in Hp as [->|(ls & req & [= <-] & -> & Hi)]; [by left|right].
    exists req. split; [done|]. exists p. split; [exact Hu|]. split; [done|]. eapply line_ok_validator, extractMetrics_ok.
  - intros H%ForwardLogs_sent. destruct (decode_logs _ body) as [p|] eqn:Hu; [|by destruct H as [-> _]; left].
    destruct (decide _); [by destruct H as [-> _]; left|]. destruct H as (_ & -> & _). right.
    eexists. split; [reflexivity|]. exists (clock w), p. split; [done|]. split; [done|]. split; [done|]. apply toLokiPush_validator.
  - destruct (ForwardOTLP _ _ _ _ _ _ _ _ _ _) as [[w1 s1] r1] eqn:Hp. intros [= _ <- _ _].
    apply ForwardOTLP_sent in Hp as [(-> & _)|(plain & req & rms & out & Hp & Hu & Hl & Hm & -> & _)]; [by left|right].
    eexists. split; [reflexivity|]. by exists plain, req, rms.
Qed.

Lemma wt_serve_attributed metrics_page s r ck now w s' effs resp w' sent :
  srv_world s = (w, []) ->
  wt_serve metrics_page s r ck now = (s', effs, resp) -> srv_world s' = (w', sent) ->
  sent = []
  \/ exists who v e body req,
       (auth_Middleware (srv_auth s) r ck).2 = Authenticated who v
       /\ (allow NewLimiter Allow (srv_rl s) who now).2 = true
       /\ acceptable r v e body
       /\ sent = [req] /\ attributed who e body req.
Proof.
  intros Hw Hs Hw'. pose proof (serve_accounted _ _ _ _ _ _ _ _ _ _ Hs) as Hacc.
  destruct (forwards effs) as [|[[e who] body] rest] eqn:Hf.
  - destruct Hacc as [_ Heq].
    assert ((w', sent) = (w, [])) as [= _ ->] by (etransitivity; [symmetry; exact Hw'|]; etransitivity; [exact Heq|exact Hw]).
    by left.
  - destruct Hacc as (v0 & w1 & ops & out & Hfw & Hw1 & _).
    assert (w1 = (w', sent)) as -> by (etransitivity; [symmetry; exact Hw1|exact Hw']).
    assert (forward e (w, []) who v0 body = ((w', sent), ops, out)) as Hfw'.
    { etransitivity; [|exact Hfw]. f_equal. symmetry. exact Hw. }
    apply forward_attributed in Hfw' as [->|(req & -> & Ha)]; [by left|right].
    destruct (serve_authorised _ _ _ _ _ _ _ _ _ _ e who body Hs) as (v & H1 & H2 & H3 & _).
    { rewrite Hf. apply list_elem_of_here. }
    by exists who, v, e, body, req.
Qed.

(** From an HTTP request to the backends: one request makes at most one backend request,
    and makes it only if it is authenticated as a validator from an address that is not
    banned, within that validator's rate and permissions and the size limit; and what is
    sent then is what the body of the request decodes to and, whatever that claims, speaks for that validator alone: every metric line,
    log stream and OTLP resource in it carries that validator's name. *)
Theorem watchtower_attribution metrics_page s r ck now w s' effs resp w' sent :
  srv_world s = (w, []) ->
  wt_serve metrics_page s r ck now = (s', effs, resp) -> srv_world s' = (w', sent) ->
  sent = []
  \/ exists who v e body req,
       (auth_Middleware (srv_auth s) r ck).2 = Authenticated who v
       /\ (allow NewLimiter Allow (srv_rl s) who now).2 = true
       /\ acceptable r v e body
       /\ sent = [req] /\ attributed who e body req.
Proof. apply wt_serve_attributed. Qed.
End Watchtower.

(** ** Evaluations *)

Definition sample_wt : Server (W := Time * list fwd_request) (L := Z) :=
  mkServer (auth_New [("alice", mkValidatorConfig "ta" (Some ["rpc"; "otlp"]) "info")] 3 (15 * Minute))
    (rl_New (f64_of_Z 1) 2) (ws_New 0) (0, []).

Definition sample_rpc_request : Request :=
  mkRequest "POST" "/rpc" "/rpc" {["Authorization" := ["Bearer ta"]]} "10.0.0.7:51234" (Ok sample_body).

Definition sample_wt_serve :=
  wt_serve count_new count_allow ok_net (fun w => w) ascending insertion_sort plain_reader plain_reader
    pair tt toy_otlp toy_marshal sample_forwarder (fun _ => EmptyString) sample_wt sample_rpc_request sample_clock Minute.

Lemma watchtower_attribution_witness :
  exists req, (srv_world sample_wt_serve.1.1).2 = [req] /\ StatusCode sample_wt_serve.2 = StatusOK
  /\ exists who v e body,
       (auth_Middleware (srv_auth sample_wt) sample_rpc_request sample_clock).2 = Authenticated who v
       /\ acceptable sample_rpc_request v e body
       /\ attributed ascending insertion_sort plain_reader plain_reader pair tt toy_otlp toy_marshal sample_forwarder who e body req.
Proof.
  destruct sample_wt_serve as [[s' effs] resp] eqn:E. destruct (srv_world s') as [w' sent] eqn:Ew.
  pose proof (watchtower_attribution count_new count_allow ok_net (fun w => w) ascending insertion_sort plain_reader
    plain_reader pair tt toy_otlp toy_marshal sample_forwarder (fun _ => EmptyString) sample_wt sample_rpc_request
    sample_clock Minute 0 s' effs resp w' sent eq_refl E Ew) as H.
  assert (Hs : length sent = 1%nat /\ StatusCode resp = StatusOK).
  { vm_compute in E. injection E as <- _ <-. vm_compute in Ew. injection Ew as _ <-. split; reflexivity. }
  destruct Hs as [Hl Hst].
  destruct H as [->|(who & v & e & body & req & H1 & _ & H3 & -> & H5)]; [discriminate Hl|].
  cbn [fst snd]. rewrite Ew. exists req. split; [reflexivity|]. split; [exact Hst|].
  exists who, v, e, body. split; [exact H1|]. split; [exact H3|exact H5].
Defined.
