(* ===== verification/WtProcess.v ===== *)
(** * cmd/watchtower: the running process

    [runCmd] after the configuration is loaded: the wiring of the components, the goroutine
    that reloads the validators on SIGHUP, the hourly statistics, and the requests. The
    process is a state that events change one at a time: a request is one event (what its
    steps interleave with is the subject of Auth and of [Middleware_reload_before] and
    [Middleware_reload_after] below), a signal another. *)

From Stdlib Require Import Ascii.
From S2P Require Import Prelude GoStrings GoTime GoFloat GoDuration GoJson GoRfc3339 GoHttp WtConfig Auth WtStats WtMetrics RateLimit Handlers VmLines Forwarder Watchtower.

Local Open Scope Z_scope.

Definition wt_statsInterval : Duration := Hour.

(** ** The hourly report *)

(** One record of the log: the groups are the types of payload. *)
Record hourly := mkHourly { hr_validator : string; hr_uptime : Duration; hr_groups : list (string * HourSnapshot) }.

(** ** The state *)

(** The server and the forwarder behind it. *)
Record Process (W L : Type) := mkProcess {
  pr_fwd : Forwarder;
  pr_srv : Server (W := wt_world (W := W)) (L := L)
}.
Arguments mkProcess {W L}.
Arguments pr_fwd {W L}.
Arguments pr_srv {W L}.

(** What the wiring does besides building the state, in order. *)
Inductive wiring_effect :=
| WlMetric (o : metric_op)
| WlParseFailed (variable raw : string)
| WlStarting (addr : string).

(** A signal, a tick and a request. [data] is what the configuration file holds when the
    reload reads it. *)
Inductive process_event :=
| EvRequest (r : Request) (ck : auth_clock) (now : Time)
| EvHup (data : option bytes)
| EvTick (now : Time).

(** What an event shows: the effects of a request, what the backends were sent for it and
    the answer; the outcome of a reload, with the number of validators that is logged; the
    records of the hourly report. *)
Inductive process_output (E : Type) :=
| OutAnswer (effs : list srv_effect) (sent : list fwd_request) (resp : Response)
| OutReload (r : result Z (load_error E))
| OutHourly (records : list hourly).
Arguments OutAnswer {E}.
Arguments OutReload {E}.
Arguments OutHourly {E}.

Section Process.
Context {W L KV RR RM RQ E : Type}.
Context (NewLimiter : float64 -> Z -> L).
Context (Allow : L -> Time -> L * bool).
Context (net : W -> fwd_request -> W * fwd_outcome).
Context (clock : W -> Time).
Context (range : forall V, gmap string V -> list (string * V)).
Context (SortFunc : (loki_entry -> loki_entry -> comparison) -> list loki_entry -> list loki_entry).
Context (zstd_NewReader gzip_NewReader : bytes -> option stream).
Context (string_kv : string -> string -> KV).
Context (empty_rest : RR).
Context (proto_Unmarshal : bytes -> option (otlp_request KV RR RM RQ)).
Context (proto_Marshal : otlp_request KV RR RM RQ -> option bytes).
Context (metrics_page : wt_world (W := W) -> string).
(** [toml.Unmarshal] into a [Config]. *)
Context (toml_Unmarshal : bytes -> result WtConfig E).

Definition visit (c : WtConfig) : list (string * ValidatorConfig) := range _ (WtConfig.Validators c).

(** [config.Load]. *)
Definition load (data : option bytes) : result WtConfig (load_error E) := wt_Load toml_Unmarshal data visit.

(** ** Wiring *)

Definition retention_effects (backend variable raw : string) (parsed : Duration * bool) : list wiring_effect :=
  (if parsed.2 then [WlParseFailed variable raw] else []) ++ map WlMetric (m_SetRetention backend parsed.1).

(** From the loaded configuration to the server that listens; [logs] and [metrics] are the
    two environment variables, [now] the start of the statistics, [w] the world. *)
Definition wire (cfg : WtConfig) (logs metrics : string) (now : Time) (w : W) : Process W L * list wiring_effect :=
  let sec := Security cfg in
  let a := auth_New (visit cfg) (BanThreshold sec) (BanDuration sec) in
  let effs := retention_effects BackendLoki "LOGS_RETENTION" logs (parseLokiRetention logs)
              ++ retention_effects BackendVM "METRICS_RETENTION" metrics (parseVMRetention metrics) in
  let a := SetMetrics a in
  let rl := rl_New (RateLimitRPS sec) (RateLimitBurst sec) in
  let fwd := fwd_New (VictoriaMetricsURL cfg) (LokiURL cfg) (Some m_RecordLogsBelowMinLevel) in
  let st := ws_New now in
  (mkProcess fwd (mkServer a rl st (w, [])), effs ++ [WlStarting (ListenAddr cfg)]).

(** ** Events *)

Definition set_srv (p : Process W L) (s : Server (W := wt_world) (L := L)) : Process W L := mkProcess (pr_fwd p) s.

(** One round of [RunStatsLogger]. *)
Definition stats_round (s : Server (W := wt_world (W := W)) (L := L)) (now : Time)
    : Server (W := wt_world) (L := L) * list hourly :=
  let '(st, (snap, uptime)) := ws_Snapshot (srv_stats s) now in
  (set_stats s st,
   map (fun v => mkHourly v.1 (Duration_Round uptime Second) (range _ v.2)) (range _ snap)).

(** One round of the goroutine that waits for SIGHUP. *)
Definition hup_round (a : Authenticator) (data : option bytes) : Authenticator * result Z (load_error E) :=
  match load data with
  | Err e => (a, Err e)
  | Ok newCfg => (Reload a (visit newCfg), Ok (Z.of_nat (size (WtConfig.Validators newCfg))))
  end.

(** A request leaves in the world what it sends to the backends; the trace of the earlier
    requests is put aside first. *)
Definition process_step (p : Process W L) (e : process_event) : Process W L * process_output E :=
  match e with
  | EvRequest r ck now =>
      let s := set_world (pr_srv p) ((srv_world (pr_srv p)).1, []) in
      let '(s', effs, resp) :=
        wt_serve NewLimiter Allow net clock range SortFunc zstd_NewReader gzip_NewReader string_kv empty_rest
          proto_Unmarshal proto_Marshal (pr_fwd p) metrics_page s r ck now in
      (set_srv p s', OutAnswer effs (srv_world s').2 resp)
  | EvHup data =>
      let '(a, r) := hup_round (srv_auth (pr_srv p)) data in
      (set_srv p (set_auth (pr_srv p) a), OutReload r)
  | EvTick now =>
      let '(s', records) := stats_round (pr_srv p) now in
      (set_srv p s', OutHourly records)
  end.

Definition process_run (p : Process W L) (evs : list process_event) : Process W L :=
  fold_left (fun p e => (process_step p e).1) evs p.

(** * Facts *)

(** The configuration whose validators are in force: the last one that loaded. *)
Definition loaded (c : WtConfig) (e : process_event) : WtConfig :=
  match e with
  | EvHup data => match load data with Ok c' => c' | Err _ => c end
  | _ => c
  end.

Definition in_force (c : WtConfig) (evs : list process_event) : WtConfig := fold_left loaded evs c.

(** What holds between events, when [c] is in force and the process was started with [c0]. *)
Record serves (c0 c : WtConfig) (p : Process W L) : Prop := mkServes {
  sv_valid : wt_valid c;
  sv_tokens : tokens (srv_auth (pr_srv p)) = token_index (visit c);
  sv_fwd : pr_fwd p = fwd_New (VictoriaMetricsURL c0) (LokiURL c0) (Some m_RecordLogsBelowMinLevel);
  sv_security : banThreshold (srv_auth (pr_srv p)) = BanThreshold (Security c0)
                /\ banDuration (srv_auth (pr_srv p)) = BanDuration (Security c0)
                /\ rps (srv_rl (pr_srv p)) = RateLimitRPS (Security c0)
                /\ burst (srv_rl (pr_srv p)) = RateLimitBurst (Security c0)
}.

Hypothesis range_ok : forall V (m : gmap string V), map_range m (range V m).

Lemma load_valid data c : load data = Ok c -> wt_valid c.
Proof.
  unfold load, wt_Load. destruct data as [b|]; [|done]. destruct (toml_Unmarshal b) as [cfg|]; [|done].
  destruct (wt_validate _ _) as [[]|e] eqn:Hv; [|done]. intros [= <-].
  by apply (wt_validate_iff _ (visit (default_burst cfg))); [apply range_ok|].
Qed.

Lemma wire_serves c logs metrics now w : wt_valid c -> serves c c (wire c logs metrics now w).1.
Proof. by constructor. Qed.

(** Nothing but a reload changes the index of the tokens. *)
Lemma wt_serve_settings f s r ck now :
  let s' := (wt_serve NewLimiter Allow net clock range SortFunc zstd_NewReader gzip_NewReader string_kv empty_rest
               proto_Unmarshal proto_Marshal f metrics_page s r ck now).1.1 in
  tokens (srv_auth s') = tokens (srv_auth s)
  /\ banThreshold (srv_auth s') = banThreshold (srv_auth s)
  /\ banDuration (srv_auth s') = banDuration (srv_auth s)
  /\ rps (srv_rl s') = rps (srv_rl s) /\ burst (srv_rl s') = burst (srv_rl s).
Proof.
  intros s'. destruct (wt_serve_keeps NewLimiter Allow net clock range SortFunc zstd_NewReader gzip_NewReader string_kv
    empty_rest proto_Unmarshal proto_Marshal f metrics_page s r ck now) as (Ha & Hl). fold s' in Ha, Hl. rewrite Ha.
  destruct (auth_Middleware_keeps (srv_auth s) r ck) as (H1 & H2 & H3). by destruct (public r).
Qed.

Lemma process_step_serves c0 c p e : serves c0 c p -> serves c0 (loaded c e) (process_step p e).1.
Proof.
  intros [Hv Ht Hf Hs]. destruct e as [r ck now|data|now]; cbn [process_step loaded].
  - pose proof (wt_serve_settings (pr_fwd p) (set_world (pr_srv p) ((srv_world (pr_srv p)).1, [])) r ck now) as H.
    destruct (wt_serve _ _ _ _ _ _ _ _ _ _ _ _ _ _ _ _ _ _) as [[s' effs] resp]. cbn in H |- *.
    destruct H as (H1 & H2 & H3 & H4 & H5). destruct Hs as (S1 & S2 & S3 & S4).
    constructor; cbn; [done|congruence|done|]. split_and!; congruence.
  - unfold hup_round. destruct (load data) as [c'|er] eqn:Hl; cbn; [|by constructor].
    constructor; [by eapply load_valid|done..].
  - unfold stats_round. destruct (ws_Snapshot _ _) as [st [snap up]]. by constructor.
Qed.

Lemma process_run_serves c0 evs c p : serves c0 c p -> serves c0 (in_force c evs) (process_run p evs).
Proof.
  revert c p. induction evs as [|e evs IH]; intros c p H; [done|]. cbn. by apply IH, process_step_serves.
Qed.

(** The authenticator of a process that serves lets through exactly the validators in
    force. *)
Lemma serves_authenticates c0 c p r ck name v :
  serves c0 c p ->
  ((auth_Middleware (srv_auth (pr_srv p)) r ck).2 = Authenticated name v <->
   (isBanned (srv_auth (pr_srv p)) (remoteIP r) (ck1 ck) (ck2 ck) (ck3 ck)).2 = false
   /\ WtConfig.Validators c !! name = Some v
   /\ Header_Get (ReqHeader r) "Authorization" = "Bearer " +:+ Token v).
Proof.
  intros [Hv Ht _ _]. apply (auth_Middleware_iff _ _ _ (WtConfig.Validators c) (visit c)); [apply range_ok|done|apply Hv..].
Qed.

Lemma rejected_answer p r ck now p' effs sent resp resp0 :
  public r = false -> (auth_Middleware (srv_auth (pr_srv p)) r ck).2 = Rejected resp0 ->
  process_step p (EvRequest r ck now) = (p', OutAnswer effs sent resp) -> resp = resp0 /\ sent = [].
Proof.
  intros Hpub Hout Hstep. cbn [process_step] in Hstep.
  set (s0 := set_world (pr_srv p) ((srv_world (pr_srv p)).1, [])) in Hstep.
  destruct (wt_serve_rejected NewLimiter Allow net clock range SortFunc zstd_NewReader gzip_NewReader string_kv
    empty_rest proto_Unmarshal proto_Marshal (pr_fwd p) metrics_page s0 r ck now resp0 _ Hpub Hout eq_refl) as [H1 H2].
  destruct (wt_serve _ _ _ _ _ _ _ _ _ _ _ _ _ _ s0 r ck now) as [[s' effs'] resp'].
  cbn [fst snd] in H1, H2. injection Hstep as _ _ <- <-. split; [exact H1|]. by rewrite H2.
Qed.

Lemma public_answer p r ck now p' effs sent resp :
  public r = true -> process_step p (EvRequest r ck now) = (p', OutAnswer effs sent resp) ->
  StatusCode resp = StatusOK /\ sent = [].
Proof.
  intros Hpub. cbn [process_step]. unfold wt_serve, serve. unfold public in Hpub.
  destruct (mux_lookup outer_mux _ _) as [[| |]| |]; try done; cbn; by intros [= _ _ <- <-].
Qed.

(** C1: at every moment of a run the process acts for the validators of the configuration
    that was loaded last, at the start or by the latest reload that succeeded; reloads that
    fail change nothing. A request is passed on to a backend only when that configuration
    has a validator with the request's bearer token, and then under that validator's
    name, with its permissions, from an address that is not banned, within its rate and
    the size limit; at most one backend request is made, to the URLs of the first
    configuration, holds what the body of the request decodes to, and is all labelled with
    that validator. A request for the health or the metrics page, which anybody may make, is
    answered 200 and sends nothing. Any other request that comes from a banned address, or
    whose token no validator of that configuration has, revoked ones included, is answered
    401 or 403 and sends nothing. *)
Theorem process_forwards_in_force data cfg logs metrics now0 w0 evs r ck now p' effs sent resp :
  load data = Ok cfg ->
  let p := process_run (wire cfg logs metrics now0 w0).1 evs in
  process_step p (EvRequest r ck now) = (p', OutAnswer effs sent resp) ->
  let c := in_force cfg evs in
  (sent = []
   \/ exists who v e body req,
       WtConfig.Validators c !! who = Some v
       /\ Header_Get (ReqHeader r) "Authorization" = "Bearer " +:+ Token v
       /\ (isBanned (srv_auth (pr_srv p)) (remoteIP r) (ck1 ck) (ck2 ck) (ck3 ck)).2 = false
       /\ (allow NewLimiter Allow (srv_rl (pr_srv p)) who now).2 = true
       /\ acceptable r v e body /\ sent = [req]
       /\ attributed range SortFunc zstd_NewReader gzip_NewReader string_kv empty_rest proto_Unmarshal proto_Marshal
            (fwd_New (VictoriaMetricsURL cfg) (LokiURL cfg) (Some m_RecordLogsBelowMinLevel)) who e body req)
  /\ (public r = true -> StatusCode resp = StatusOK /\ sent = [])
  /\ (public r = false ->
      (isBanned (srv_auth (pr_srv p)) (remoteIP r) (ck1 ck) (ck2 ck) (ck3 ck)).2 = true
      \/ (forall who v, WtConfig.Validators c !! who = Some v ->
            Header_Get (ReqHeader r) "Authorization" <> "Bearer " +:+ Token v) ->
      (StatusCode resp = StatusUnauthorized \/ StatusCode resp = StatusForbidden) /\ sent = []).
Proof.
  intros Hload p Hstep c.
  assert (serves cfg c p) as Hs by (apply process_run_serves, wire_serves; by eapply load_valid).
  split; [|split].
  - cbn [process_step] in Hstep. set (s0 := set_world (pr_srv p) ((srv_world (pr_srv p)).1, [])) in Hstep.
    destruct (wt_serve _ _ _ _ _ _ _ _ _ _ _ _ _ _ s0 r ck now) as [[s' effs'] resp'] eqn:Hsv.
    injection Hstep as <- <- Hsent <-.
    destruct (wt_serve_attributed _ _ _ _ _ _ _ _ _ _ _ _ _ _ s0 r ck now (srv_world (pr_srv p)).1 s' effs' resp'
      (srv_world s').1 (srv_world s').2 eq_refl Hsv) as [H|(who & v & e & body & req & H1 & H2 & H3 & H4 & H5)].
    + by destruct (srv_world s').
    + left. congruence.
    + right. apply (serves_authenticates _ _ _ _ _ _ _ Hs) in H1 as (Hb & Hv & Hh).
      exists who, v, e, body, req. rewrite <- Hsent, <- (sv_fwd _ _ _ Hs). by split_and!.
  - intros Hpub. by apply (public_answer _ _ _ _ _ _ _ _ Hpub Hstep).
  - intros Hpub Hno. destruct ((auth_Middleware (srv_auth (pr_srv p)) r ck).2) as [resp0|who v] eqn:Hout.
    + destruct (rejected_answer _ _ _ _ _ _ _ _ _ Hpub Hout Hstep) as [-> ->].
      split; [by eapply auth_Middleware_rejected|done].
    + apply (serves_authenticates _ _ _ _ _ _ _ Hs) in Hout as (Hb & Hv & Hh).
      destruct Hno as [Hno|Hno]; [by rewrite Hb in Hno|by destruct (Hno who v Hv)].
Qed.
(** ** The process and the executions of Auth

    The critical sections an event runs on the authenticator. *)
Definition event_ops (p : Process W L) (e : process_event) : list auth_op :=
  match e with
  | EvRequest r ck _ => if public r then [] else request_ops (srv_auth (pr_srv p)) r ck
  | EvHup data => match load data with Ok c => [OpReload (visit c)] | Err _ => [] end
  | EvTick _ => []
  end.

Lemma process_step_auth p e :
  srv_auth (pr_srv (process_step p e).1) = auth_run (srv_auth (pr_srv p)) (event_ops p e).
Proof.
  destruct e as [r ck now|data|now]; cbn [process_step event_ops].
  - set (s0 := set_world (pr_srv p) ((srv_world (pr_srv p)).1, [])).
    destruct (wt_serve_keeps NewLimiter Allow net clock range SortFunc zstd_NewReader gzip_NewReader string_kv
      empty_rest proto_Unmarshal proto_Marshal (pr_fwd p) metrics_page s0 r ck now) as (Ha & _).
    destruct (wt_serve _ _ _ _ _ _ _ _ _ _ _ _ _ _ s0 r ck now) as [[s' effs] resp]. cbn [fst] in Ha |- *.
    cbn [pr_srv set_srv]. rewrite Ha.
    destruct (public r); [done|]. apply auth_Middleware_run.
  - unfold hup_round. by destruct (load data).
  - unfold stats_round. by destruct (ws_Snapshot _ _) as [st [snap up]].
Qed.

Fixpoint process_ops (p : Process W L) (evs : list process_event) : list auth_op :=
  match evs with
  | [] => []
  | e :: evs' => event_ops p e ++ process_ops (process_step p e).1 evs'
  end.

(** What Auth proves of its executions holds of the process. *)
Lemma process_run_auth p evs :
  srv_auth (pr_srv (process_run p evs)) = auth_run (srv_auth (pr_srv p)) (process_ops p evs).
Proof.
  revert p. induction evs as [|e evs IH]; intros p; [done|]. cbn [process_run fold_left process_ops].
  rewrite auth_run_app, <- process_step_auth. apply IH.
Qed.

(** ** A ban holds, whatever happens to the process *)

Definition ck_within (lo hi : Time) (ck : auth_clock) : Prop :=
  lo <= ck1 ck <= hi /\ lo <= ck2 ck <= hi /\ lo <= ck3 ck <= hi /\ lo <= ck4 ck <= hi.

Definition ev_within (lo hi : Time) (e : process_event) : Prop :=
  match e with EvRequest _ ck _ => ck_within lo hi ck | _ => True end.

Ltac each_op := repeat first [apply List.Forall_nil | apply List.Forall_cons].

Lemma event_ops_banned p e ip t hi :
  banned_until hi (srv_auth (pr_srv p)) ip -> ev_within t hi e ->
  Forall (op_within t hi) (event_ops p e) /\ Forall (fun o => is_success ip o = false) (event_ops p e).
Proof.
  intros Hb Hw.
  destruct e as [r ck now|data|now]; cbn [event_ops ev_within] in *; [|destruct (load data); [by split; each_op|done]|done].
  destruct (public r); [done|]. destruct Hw as (W1 & W2 & W3 & W4). unfold request_ops.
  destruct ((isBanned _ (remoteIP r) _ _ _).2) eqn:Hr; [by split; each_op|].
  assert (remoteIP r <> ip) as Hne.
  { intros <-. rewrite (banned_until_isBanned _ _ hi) in Hr; [done|done|lia..]. }
  destruct (tokens _ !! _); split; each_op; cbn; try done. by apply bool_decide_eq_false_2.
Qed.

Lemma process_run_banned evs p ip tf :
  let D := banDuration (srv_auth (pr_srv p)) in
  0 <= tf -> 0 < D -> banned_until (tf + D) (srv_auth (pr_srv p)) ip ->
  Forall (ev_within tf (tf + D)) evs ->
  banned_until (tf + D) (srv_auth (pr_srv (process_run p evs))) ip.
Proof.
  revert p. induction evs as [|e evs IH]; intros p D Htf Hd Hb Hw; [done|].
  apply Forall_cons_iff in Hw as [Hw1 Hw]. cbn [process_run fold_left].
  destruct (event_ops_banned p e ip tf _ Hb Hw1) as [O1 O2].
  pose proof (banned_until_run _ _ ip tf Htf Hd Hb O1 O2) as Hb'.
  pose proof (auth_run_params (srv_auth (pr_srv p)) (event_ops p e)) as [_ Hd'].
  rewrite <- process_step_auth in Hb', Hd'. specialize (IH (process_step p e).1). cbv zeta in IH.
  rewrite Hd' in IH. by apply IH.
Qed.

(** Once a request with an unknown token has brought its address to the threshold, every
    request from that address within the ban duration is answered 403 and reaches no
    backend, whatever token it shows and whatever requests, reloads and reports the
    process handles in between. *)
Theorem process_ban_holds p r0 ck0 now0 evs r ck now p' effs sent resp :
  let a := srv_auth (pr_srv p) in
  let tf := ck4 ck0 in
  let p1 := (process_step p (EvRequest r0 ck0 now0)).1 in
  0 <= tf -> 0 < banDuration a ->
  public r0 = false ->
  (isBanned a (remoteIP r0) (ck1 ck0) (ck2 ck0) (ck3 ck0)).2 = false ->
  tokens a !! bearerToken r0 = None ->
  banThreshold a <= failure_count (srv_auth (pr_srv p1)) (remoteIP r0) ->
  Forall (ev_within tf (tf + banDuration a)) evs ->
  remoteIP r = remoteIP r0 -> public r = false -> ck_within tf (tf + banDuration a) ck ->
  process_step (process_run p1 evs) (EvRequest r ck now) = (p', OutAnswer effs sent resp) ->
  StatusCode resp = StatusForbidden /\ sent = [].
Proof.
  intros a tf p1 Htf Hd Hp0 Hnb Htok Hth Hevs Hip Hpub Hck Hstep.
  assert (srv_auth (pr_srv p1) = recordFailure (isBanned a (remoteIP r0) (ck1 ck0) (ck2 ck0) (ck3 ck0)).1 (remoteIP r0) tf) as Ha1.
  { unfold p1. rewrite process_step_auth. unfold event_ops, request_ops. rewrite Hp0. fold a. by rewrite Hnb, Htok. }
  destruct (isBanned_params a (remoteIP r0) (ck1 ck0) (ck2 ck0) (ck3 ck0)) as (_ & Hp1 & Hp2 & _).
  assert (banDuration (srv_auth (pr_srv p1)) = banDuration a) as Hdur by (rewrite Ha1; exact Hp2).
  assert (banned_until (tf + banDuration a) (srv_auth (pr_srv p1)) (remoteIP r0)) as Hb.
  { rewrite Ha1 in Hth |- *. unfold failure_count, recordFailure in Hth. cbn in Hth. rewrite lookup_insert_eq in Hth. cbn in Hth.
    unfold banned_until, recordFailure. cbn. rewrite lookup_insert_eq. eexists. split; [done|]. cbn.
    rewrite Hp1, Hp2, (proj2 (Z.leb_le _ _)) by done. unfold Add. split; [apply nonneg_not_zero; lia|lia]. }
  pose proof (process_run_banned evs p1 (remoteIP r0) tf) as Hrun. cbv zeta in Hrun. rewrite Hdur in Hrun.
  specialize (Hrun Htf Hd Hb Hevs). rewrite <- Hip in Hrun.
  destruct Hck as (_ & C2 & C3 & _).
  pose proof (banned_until_isBanned _ _ _ (ck1 ck) (ck2 ck) (ck3 ck) Hrun (proj2 C2) (proj2 C3)) as Hban.
  pose proof (auth_Middleware_banned _ _ _ Hban) as Hout.
  by destruct (rejected_answer _ _ _ _ _ _ _ _ _ Hpub Hout Hstep) as [-> ->].
Qed.

End Process.

(** ** Evaluations *)

Definition file_of (token : string) : WtConfig :=
  mkWtConfig "0.0.0.0:8080" (mkSecurityConfig (f64_of_Z 100) 200 2 (15 * Minute)) "http://vm" "http://loki"
    {[ "alice" := mkValidatorConfig token (Some ["rpc"]) "info" ]}.

(** A decoder for files that hold nothing but alice's token; an empty one is refused. *)
Definition toy_toml (b : bytes) : result WtConfig string :=
  match b with [] => Err "empty" | _ => Ok (file_of (string_of_bytes b)) end.

Lemma ascending_range V (m : gmap string V) : map_range m (ascending V m).
Proof. apply map_range_map_to_list. Qed.

Definition sample_process : Process Time Z :=
  (wire ascending (file_of "old") "2160h" "x" 0 0).1.

Definition sample_step (p : Process Time Z) (e : process_event) : Process Time Z * process_output string :=
  process_step count_new count_allow ok_net (fun w => w) ascending insertion_sort plain_reader plain_reader
    pair tt toy_otlp toy_marshal (fun _ => EmptyString) toy_toml p e.

Definition request_with (token : string) : Request :=
  mkRequest "POST" "/rpc" "/rpc" {["Authorization" := ["Bearer " +:+ token]]} "10.0.0.7:51234" (Ok sample_body).

Definition reloads : list process_event :=
  [EvHup (Some (bytes_of_string "new")); EvHup (Some []); EvHup None].

Definition answer_of (o : process_output string) : Z * nat :=
  match o with OutAnswer _ sent resp => (StatusCode resp, length sent) | _ => (0, 0%nat) end.

(** The first reload takes effect, the two that fail do not; the report names whoever sent
    something. *)
Example process_examples :
  let ask p token := (sample_step p (EvRequest (request_with token) sample_clock Minute)).2 in
  let p := sample_process in
  let p' := fold_left (fun p e => (sample_step p e).1) reloads p in
  map (fun t => answer_of (ask p t)) ["old"; "new"] = [(200, 1%nat); (401, 0%nat)]
  /\ map (fun t => answer_of (ask p' t)) ["old"; "new"] = [(401, 0%nat); (200, 1%nat)]
  /\ map (fun e => (sample_step p e).2) reloads = [OutReload (Ok 1); OutReload (Err (ErrLoadDecode "empty")); OutReload (Err ErrLoadRead)]
  /\ (let p1 := (sample_step p (EvRequest (request_with "old") sample_clock Minute)).1 in
      (sample_step p1 (EvTick (Hour + 1))).2
      = OutHourly [mkHourly "alice" Hour [("rpc", mkHourSnapshot (Z.of_nat (length sample_body)) (Z.of_nat (length sample_body)))]])
  /\ (wire (L := Z) ascending (file_of "old") "2160h" "x" 0 0).2
     = [WlMetric (MSet Retention ["loki"] (Seconds (2160 * Hour)));
        WlParseFailed "METRICS_RETENTION" "x"; WlMetric (MLogWarn "vm"); WlMetric (MSet Retention ["vm"] f64_zero);
        WlStarting "0.0.0.0:8080"].
Proof. vm_compute. repeat split. Qed.

Lemma process_forwards_in_force_witness :
  let p := fold_left (fun p e => (sample_step p e).1) reloads sample_process in
  (exists req, match (sample_step p (EvRequest (request_with "new") sample_clock Minute)).2 with
               | OutAnswer _ sent _ => sent = [req]
                   /\ attributed ascending insertion_sort plain_reader plain_reader pair tt toy_otlp toy_marshal
                        (fwd_New "http://vm" "http://loki" (Some m_RecordLogsBelowMinLevel)) "alice" EpRPC sample_body req
               | _ => False
               end)
  /\ (match (sample_step p (EvRequest (request_with "old") sample_clock Minute)).2 with
      | OutAnswer _ sent resp => StatusCode resp = StatusUnauthorized \/ StatusCode resp = StatusForbidden
      | _ => False
      end).
Proof.
  intros p.
  assert (load ascending toy_toml (Some (bytes_of_string "old")) = Ok (file_of "old")) as Hl by (vm_compute; reflexivity).
  assert (WtConfig.Validators (in_force ascending toy_toml (file_of "old") reloads)
          = {["alice" := mkValidatorConfig "new" (Some ["rpc"]) "info"]}) as Hv by (vm_compute; reflexivity).
  pose proof (fun token p' effs sent resp => process_forwards_in_force (E := string) count_new count_allow ok_net (fun w => w) ascending
    insertion_sort plain_reader plain_reader pair tt toy_otlp toy_marshal (fun _ => EmptyString) toy_toml
    ascending_range (Some (bytes_of_string "old")) (file_of "old") "2160h" "x" 0 0 reloads (request_with token)
    sample_clock Minute p' effs sent resp Hl) as H. cbv zeta in H. rewrite Hv in H.
  split.
  - destruct (sample_step p _) as [p' [effs sent resp|r|l]] eqn:E; [|vm_compute in E; discriminate E..].
    destruct (H "new" p' effs sent resp E) as [[->|(who & v & e & body & req & H1 & _ & _ & _ & H5 & -> & H7)] _].
    + vm_compute in E. discriminate E.
    + apply lookup_singleton_Some in H1 as [<- <-]. destruct H5 as ([_ Hp] & _ & Hbody & _).
      assert (e = EpRPC) as -> by (destruct e; [reflexivity|discriminate Hp..]).
      injection Hbody as <-.
      exists req. split; [reflexivity|exact H7].
  - destruct (sample_step p _) as [p' [effs sent resp|r|l]] eqn:E; [|vm_compute in E; discriminate E..].
    apply (H "old" p' effs sent resp E); [vm_compute; reflexivity|]. right.
    intros who v Hw. apply lookup_singleton_Some in Hw as [_ <-]. vm_compute. discriminate.
Defined.
