(* ===== verification/WtAccounting.v ===== *)
(** * The ledgers of the watchtower over a whole run

    The process accounts for the bytes it takes in three places: the totals of the
    statistics, the hourly reports in its log, and the Prometheus counters. Whatever the
    run, they agree with one another and with what clients were answered. *)

From Stdlib Require Import Ascii.
From S2P Require Import Prelude GoStrings GoTime GoFloat GoJson GoRfc3339 GoHttp WtConfig Auth WtStats WtMetrics RateLimit Handlers Ledger VmLines Forwarder Watchtower WtProcess.

Local Open Scope Z_scope.

(** The entry of one validator and type in the records of an hourly report. *)
Definition hourly_bytes (v t : string) (records : list hourly) : Z :=
  picks (picks LastHourBytes t) v (map (fun r => (hr_validator r, hr_groups r)) records).

(** ** The process *)

Section Accounting.
Context {W L KV RR RM RQ E : Type}.
Context (NewLimiter : float64 -> Z -> L).
Context (Allow : L -> Time -> L * bool).
Context (net : W -> fwd_request -> W * fwd_outcome).
Context (clock : W -> Time).
Context (range : forall V, gmap string V -> list (string * V)).
Context (SortFunc : (loki_entry -> loki_entry -> comparison) -> list loki_entry -> list loki_entry).
Context (zstd_NewReader gzip_NewReader : bytes -> option stream).
Context (string_kv : string -> string -> KV).
Context (empty_rest : RR).
Context (proto_Unmarshal : bytes -> option (otlp_request KV RR RM RQ)).
Context (proto_Marshal : otlp_request KV RR RM RQ -> option bytes).
Context (metrics_page : wt_world (W := W) -> string).
Context (toml_Unmarshal : bytes -> result WtConfig E).
Hypothesis range_ok : forall V (m : gmap string V), map_range m (range V m).

Notation step := (process_step (L := L) NewLimiter Allow net clock range SortFunc zstd_NewReader gzip_NewReader
  string_kv empty_rest proto_Unmarshal proto_Marshal metrics_page toml_Unmarshal).
Notation run := (process_run (L := L) NewLimiter Allow net clock range SortFunc zstd_NewReader gzip_NewReader
  string_kv empty_rest proto_Unmarshal proto_Marshal metrics_page toml_Unmarshal).

(** What the events of a run show, in order. *)
Fixpoint process_trace (p : Process W L) (evs : list process_event) : list (process_output E) :=
  match evs with
  | [] => []
  | e :: evs' => let '(p', o) := step p e in o :: process_trace p' evs'
  end.

Definition accepted_of (o : process_output E) : list (string * string * Z) :=
  match o with OutAnswer effs _ resp => taken effs resp | _ => [] end.
Definition received_of (o : process_output E) : list metric_op :=
  match o with OutAnswer effs _ _ => received effs | _ => [] end.
Definition hourly_of (v t : string) (o : process_output E) : Z :=
  match o with OutHourly records => hourly_bytes v t records | _ => 0 end.

Lemma stats_round_hourly s now v t :
  let '(s', records) := stats_round (W := W) (L := L) range s now in
  srv_stats s' = (ws_Snapshot (srv_stats s) now).1
  /\ hourly_bytes v t records = lastHour (ws_get (srv_stats s) v t).
Proof.
  unfold stats_round. rewrite <- (ws_hour_Snapshot (srv_stats s) now v t).
  destruct (ws_Snapshot (srv_stats s) now) as [st [snap up]]. cbn [fst snd]. split; [done|].
  unfold hourly_bytes. rewrite map_map. cbn [hr_validator hr_groups].
  trans (picks (fun types => picks LastHourBytes t (range _ types)) v (range _ snap)).
  { unfold picks at 1 3. rewrite map_map. done. }
  rewrite (picks_range _ _ snap) by apply range_ok. unfold ws_hour. destruct (snap !! v) as [types|]; [|done].
  cbn. by rewrite (picks_range _ _ types) by apply range_ok.
Qed.

(** The forwarder of the process leaves the vectors of received payloads alone. *)
Definition hook_free (f : Forwarder) : Prop :=
  forall v, List.filter is_received (match onLogsBelowMinLevel f with Some h => h v | None => [] end) = [].

Lemma ForwardLogs_free f (w : wt_world (W := W)) who body minLevel :
  hook_free f ->
  List.filter is_received
    (ForwardLogs (traced net) (fun w => clock w.1) SortFunc zstd_NewReader f w who body minLevel).1.2 = [].
Proof.
  intros Hf. unfold ForwardLogs. destruct (zstdDecompress _ body) as [d|e]; [|done].
  destruct (Unmarshal d) as [p|]; [|done]. case_match; [apply Hf|]. by destruct (fwd_post _ _ _ _ _) as [w1 r1].
Qed.

Lemma wt_forward_free f e (w : wt_world (W := W)) who v body :
  hook_free f ->
  List.filter is_received
    (forward (H := wt_forwarder net clock range SortFunc zstd_NewReader gzip_NewReader string_kv empty_rest
                     proto_Unmarshal proto_Marshal f) e w who v body).1.2 = [].
Proof.
  intros Hf. destruct e; cbn [forward fwd_RPC fwd_Metrics fwd_Logs fwd_OTLP wt_forwarder fwd_payload_forwarder].
  - by destruct (ForwardRPC _ _ _ _ _ _).
  - by destruct (ForwardMetrics _ _ _ _ _ _).
  - by apply ForwardLogs_free.
  - by destruct (ForwardOTLP _ _ _ _ _ _ _ _ _ _).
Qed.

(** What one event does to the ledgers. *)
Record step_ledger (v t : string) (st st' : WtStats) (o : process_output E) : Prop := mkStepLedger {
  sl_fit : totals_fit st -> totals_fit st';
  sl_total : wrap64 (total (ws_get st' v t)) = wrap64 (total (ws_get st v t) + sumZ (lengths_of v t (accepted_of o)));
  sl_hourly : wrap64 (hourly_of v t o + lastHour (ws_get st' v t))
              = wrap64 (lastHour (ws_get st v t) + sumZ (lengths_of v t (accepted_of o)));
  sl_received : received_of o = flat_map (fun x => m_RecordReceived x.1.1 x.1.2 x.2) (accepted_of o)
}.

Lemma process_step_ledger p e v t :
  hook_free (pr_fwd p) ->
  let '(p', o) := step p e in
  step_ledger v t (srv_stats (pr_srv p)) (srv_stats (pr_srv p')) o /\ pr_fwd p' = pr_fwd p.
Proof.
  intros Hf. destruct e as [r ck now|data|now]; cbn [process_step].
  - unfold wt_serve.
    match goal with |- context [@serve _ _ _ ?i ?a ?b ?c ?s r ck now] =>
      pose proof (fun H => serve_recorded (H := i) a b c H s r ck now) as Hs end.
    destruct (serve _ _ _ _ r ck now) as [[s' effs] resp]. cbn [pr_fwd pr_srv set_srv]. split; [|done].
    destruct Hs as [Hst Hrec].
    { intros. by apply wt_forward_free. }
    cbn [srv_stats set_world] in Hst. destruct (record_fold (taken effs resp) (srv_stats (pr_srv p)) v t) as [H1 H2].
    rewrite <- Hst in H1, H2. constructor; [|done..]. rewrite Hst. apply record_fold_fit.
  - destruct (hup_round _ _ _ _) as [a res]. cbn. split; [|done]. constructor; [done|..|done]; cbn; f_equal; lia.
  - pose proof (stats_round_hourly (pr_srv p) now v t) as Hh. destruct (stats_round _ _ _) as [s' records].
    destruct Hh as [Hst Hh]. cbn [pr_fwd pr_srv set_srv]. split; [|done]. rewrite Hst. constructor.
    + intros Hfit v' t'. rewrite ws_get_Snapshot. apply Hfit.
    + rewrite ws_get_Snapshot. cbn. by rewrite Z.add_0_r.
    + rewrite ws_get_Snapshot. cbn. by rewrite Hh.
    + done.
Qed.

Lemma process_run_ledger p evs v t :
  hook_free (pr_fwd p) -> totals_fit (srv_stats (pr_srv p)) ->
  let st := srv_stats (pr_srv p) in
  let st' := srv_stats (pr_srv (run p evs)) in
  let outs := process_trace p evs in
  let n := sumZ (lengths_of v t (concat (map accepted_of outs))) in
  total (ws_get st' v t) = wrap64 (total (ws_get st v t) + n)
  /\ wrap64 (sumZ (map (hourly_of v t) outs) + lastHour (ws_get st' v t)) = wrap64 (lastHour (ws_get st v t) + n)
  /\ concat (map received_of outs)
     = flat_map (fun x => m_RecordReceived x.1.1 x.1.2 x.2) (concat (map accepted_of outs)).
Proof.
  revert p. induction evs as [|e evs IH]; intros p Hf Hfit; cbn [process_trace process_run fold_left].
  - cbn. split_and!; [|f_equal; lia|done]. by rewrite Z.add_0_r.
  - pose proof (process_step_ledger p e v t Hf) as Hs. unfold process_run. cbn [fold_left].
    destruct (step p e) as [p' o]. destruct Hs as [[H1 H2 H3 H4] Hfwd]. cbn [fst].
    specialize (IH p'). rewrite Hfwd in IH. specialize (IH Hf (H1 Hfit)). cbv zeta in IH. unfold process_run in IH.
    destruct IH as (I1 & I2 & I3). cbn [map concat].
    rewrite lengths_of_app, sumZ_app. cbv zeta. split_and!.
    + rewrite I1, <- wrap64_add_l, H2, wrap64_add_l. f_equal. lia.
    + change (sumZ (hourly_of v t o :: ?l)) with (hourly_of v t o + sumZ l).
      rewrite <- Z.add_assoc, <- wrap64_add_r, I2, wrap64_add_r, Z.add_assoc, <- wrap64_add_l, H3, wrap64_add_l. f_equal. lia.
    + by rewrite I3, H4, flat_map_app.
Qed.

(** The three ledgers of the watchtower agree over every run, reloads, ticks and
    requests in any order. For each validator and type: the total of the statistics is the
    sum of the lengths of exactly the payloads that were handed to the forwarder and
    answered 200 (as an [int64]); the hourly reports in the log and the hour that runs add
    up to the same; and the Prometheus counters of that validator and type got, in the
    order of the requests, one update of each vector for each of them and no other. *)
Theorem process_accounting cfg logs metrics now0 w0 evs v t :
  let p := (wire range cfg logs metrics now0 w0).1 in
  let st := srv_stats (pr_srv (run p evs)) in
  let outs := process_trace p evs in
  let lengths := lengths_of v t (concat (map accepted_of outs)) in
  total (ws_get st v t) = wrap64 (sumZ lengths)
  /\ wrap64 (sumZ (map (hourly_of v t) outs) + lastHour (ws_get st v t)) = wrap64 (sumZ lengths)
  /\ List.filter (on_labels v t) (concat (map received_of outs)) = flat_map (m_RecordReceived v t) lengths.
Proof.
  intros p st outs lengths. destruct (process_run_ledger p evs v t) as (H1 & H2 & H3); [done..|].
  split; [exact H1|]. split; [exact H2|]. etransitivity; [by apply f_equal, H3|]. apply on_labels_received.
Qed.
End Accounting.

(** ** Evaluations *)

(** Two payloads of alice around a tick, a token nobody has, and a tick at the end. *)
Definition busy_hour : list process_event :=
  [EvRequest (request_with "old") sample_clock Minute; EvTick Hour; EvRequest (request_with "who") sample_clock (2 * Minute);
   EvHup None; EvRequest (request_with "old") sample_clock (3 * Minute); EvTick (2 * Hour)].

Definition busy_outputs : list (process_output string) :=
  process_trace count_new count_allow ok_net (fun w => w) ascending insertion_sort plain_reader plain_reader
    pair tt toy_otlp toy_marshal (fun _ => EmptyString) toy_toml sample_process busy_hour.

Example busy_hour_example :
  let n := Z.of_nat (length sample_body) in
  lengths_of "alice" "rpc" (concat (map accepted_of busy_outputs)) = [n; n]
  /\ map (hourly_of "alice" "rpc") busy_outputs = [0; n; 0; 0; 0; n]
  /\ lengths_of "alice" "logs" (concat (map accepted_of busy_outputs)) = [].
Proof. vm_compute. done. Qed.

Lemma process_accounting_witness :
  let st := srv_stats (pr_srv (process_run count_new count_allow ok_net (fun w => w) ascending insertion_sort
              plain_reader plain_reader pair tt toy_otlp toy_marshal (fun _ => EmptyString) toy_toml
              sample_process busy_hour)) in
  total (ws_get st "alice" "rpc") = 2 * Z.of_nat (length sample_body).
Proof.
  pose proof (process_accounting (E := string) count_new count_allow ok_net (fun w => w) ascending insertion_sort
    plain_reader plain_reader pair tt toy_otlp toy_marshal (fun _ => EmptyString) toy_toml ascending_range
    (file_of "old") "2160h" "x" 0 0 busy_hour "alice" "rpc") as (H & _).
  intros st. etransitivity; [exact H|]. vm_compute. reflexivity.
Defined.
