(* ===== verification/WtScrape.v ===== *)
(** * What the watchtower's metrics page shows

    The run of WtProcess with the Prometheus registry behind its counters: at any moment the
    page shows, for each validator and type, what the statistics hold. *)

From Stdlib Require Import Ascii.
From S2P Require Import Prelude GoStrings GoTime GoFloat GoFloatExact GoDuration GoJson GoRfc3339 GoHttp WtConfig Auth WtStats WtMetrics RateLimit Handlers Ledger VmLines Forwarder Watchtower WtProcess WtAccounting.

Local Open Scope Z_scope.

(** ** The order of start-up *)

(** The updates among the effects of the wiring. *)
Definition wiring_ops (effs : list wiring_effect) : list metric_op :=
  omap (fun e => match e with WlMetric o => Some o | _ => None end) effs.

(** The registry of the process that [wire] builds: [New], the two retention gauges, the source
    of the banned addresses. *)
Definition wire_registry `{Prometheus Reg} (effs : list wiring_effect) : option Reg :=
  r ← m_New;
  SetBannedCountSource (updates r (wiring_ops effs)).

(** [m.SetBannedCountSource(a.BannedCount)]: what a scrape at [now] reads there, and the page
    it gets. *)
Definition banned_source {W L} (range : forall V, gmap string V -> list (string * V)) (p : Process W L) (now : Time) : Z :=
  BannedCount now (range _ (ips (srv_auth (pr_srv p)))).

Definition scrape `{Prometheus Reg} {W L} (range : forall V, gmap string V -> list (string * V)) (r : Reg) (p : Process W L)
    (now : Time) : string -> list string -> option float64 :=
  m_Handler r (banned_source range p now).

(** The updates an event of a run makes. *)
Definition event_ops {E} (o : process_output E) : list metric_op :=
  match o with OutAnswer effs _ _ => ops_of effs | _ => [] end.

(** ** Series of the received payloads *)

Lemma filter_received_series v t l :
  List.filter (on_series ReceivedBytes [v; t]) l = List.filter (on_series ReceivedBytes [v; t]) (List.filter (on_labels v t) (List.filter is_received l))
  /\ List.filter (on_series ReceivedPayloads [v; t]) l = List.filter (on_series ReceivedPayloads [v; t]) (List.filter (on_labels v t) (List.filter is_received l)).
Proof.
  induction l as [|o l [IH1 IH2]]; [done|]. cbn [List.filter].
  assert (forall vec, vec = ReceivedBytes \/ vec = ReceivedPayloads -> on_series vec [v; t] o = true ->
    is_received o = true /\ on_labels v t o = true) as Hon.
  { intros vec Hv Ho%bool_decide_eq_true_1. destruct o as [w ls x|w ls|w ls x|b]; try done; injection Ho as Hn ->;
      cbn [on_labels]; rewrite bool_decide_eq_true_2 by done; by destruct w; destruct Hv as [->| ->]. }
  destruct (is_received o) eqn:Hr; [|].
  - cbn [List.filter]. destruct (on_labels v t o) eqn:Hl; cbn [List.filter]; [by rewrite IH1, IH2|].
    destruct (on_series ReceivedBytes [v; t] o) eqn:H1; [by destruct (Hon ReceivedBytes (or_introl eq_refl) H1)|].
    by destruct (on_series ReceivedPayloads [v; t] o) eqn:H2; [destruct (Hon ReceivedPayloads (or_intror eq_refl) H2)|].
  - destruct (on_series ReceivedBytes [v; t] o) eqn:H1; [by destruct (Hon ReceivedBytes (or_introl eq_refl) H1)|].
    by destruct (on_series ReceivedPayloads [v; t] o) eqn:H2; [destruct (Hon ReceivedPayloads (or_intror eq_refl) H2)|].
Qed.

Lemma recorded_series v t lengths :
  List.filter (on_series ReceivedBytes [v; t]) (flat_map (m_RecordReceived v t) lengths) = map (fun n => MAdd ReceivedBytes [v; t] (f64_of_Z n)) lengths
  /\ List.filter (on_series ReceivedPayloads [v; t]) (flat_map (m_RecordReceived v t) lengths) = map (fun _ => MInc ReceivedPayloads [v; t]) lengths.
Proof.
  induction lengths as [|n l [IH1 IH2]]; [done|]. cbn [flat_map map]. rewrite !List.filter_app, IH1, IH2.
  unfold m_RecordReceived. cbn [List.filter]. unfold on_series. cbn [op_series vector_name].
  split; repeat (case_bool_decide; try done).
Qed.

Lemma sumZ_nonneg l : Forall (fun n => 0 <= n) l -> 0 <= sumZ l.
Proof. unfold sumZ. induction 1; cbn; lia. Qed.

Lemma sum_ones (l : list Z) : foldr Z.add 0 (map (fun _ => 1) l) = Z.of_nat (length l).
Proof. induction l as [|n l IH]; cbn [map foldr length]; lia. Qed.

(** ** The page and the books *)

Section Scrape.
Context {W L KV RR RM RQ E Reg : Type} `{Prometheus Reg}.
Context (NewLimiter : float64 -> Z -> L).
Context (Allow : L -> Time -> L * bool).
Context (net : W -> fwd_request -> W * fwd_outcome).
Context (clock : W -> Time).
Context (range : forall V, gmap string V -> list (string * V)).
Context (SortFunc : (loki_entry -> loki_entry -> comparison) -> list loki_entry -> list loki_entry).
Context (zstd_NewReader gzip_NewReader : bytes -> option stream).
Context (string_kv : string -> string -> KV).
Context (empty_rest : RR).
Context (proto_Unmarshal : bytes -> option (otlp_request KV RR RM RQ)).
Context (proto_Marshal : otlp_request KV RR RM RQ -> option bytes).
Context (metrics_page : wt_world (W := W) -> string).
Context (toml_Unmarshal : bytes -> result WtConfig E).
Hypothesis range_ok : forall V (m : gmap string V), map_range m (range V m).

Notation run := (process_run (L := L) NewLimiter Allow net clock range SortFunc zstd_NewReader gzip_NewReader
  string_kv empty_rest proto_Unmarshal proto_Marshal metrics_page toml_Unmarshal).
Notation process_trace := (process_trace (L := L) NewLimiter Allow net clock range SortFunc zstd_NewReader gzip_NewReader
  string_kv empty_rest proto_Unmarshal proto_Marshal metrics_page toml_Unmarshal).

Lemma received_events (outs : list (process_output E)) :
  List.filter is_received (flat_map event_ops outs) = concat (map received_of outs).
Proof. induction outs as [|[effs sent resp|r|records] outs IH]; [done|..]; cbn [flat_map event_ops map concat]; by rewrite ?List.filter_app, IH. Qed.

(** The wiring only sets the retention gauges. *)
Lemma wiring_series cfg logs metrics now w v t vec :
  vec = ReceivedBytes \/ vec = ReceivedPayloads ->
  List.filter (on_series vec [v; t]) (wiring_ops (wire (W := W) (L := L) range cfg logs metrics now w).2) = [].
Proof.
  intros Hv. unfold wire, wiring_ops, retention_effects, m_SetRetention. cbn [snd].
  destruct (parseLokiRetention logs) as [d1 [|]], (parseVMRetention metrics) as [d2 [|]]; cbn [fst snd];
    destruct (d1 <=? 0), (d2 <=? 0); cbn; unfold on_series; cbn [op_series];
    rewrite !bool_decide_eq_false_2 by (destruct Hv as [->| ->]; done); done.
Qed.

Lemma lengths_nonneg v t (outs : list (process_output E)) : Forall (fun n => 0 <= n) (lengths_of v t (concat (map accepted_of outs))).
Proof.
  induction outs as [|o outs IH]; [constructor|]. cbn [map concat]. rewrite lengths_of_app. apply Forall_app. split; [|exact IH].
  destruct o as [effs sent resp|r|records]; [|constructor..]. cbn [accepted_of]. unfold taken.
  destruct (forwards effs) as [|[[e who] body] rest]; [constructor|]. case_bool_decide; [|constructor].
  unfold lengths_of. cbn [List.filter]. case_bool_decide; [|constructor]. constructor; [cbn; lia|constructor].
Qed.

(** Start-up builds a registry whose page shows none of the received series yet, and the gauge
    of the banned addresses. *)
Lemma wire_registry_ok cfg logs metrics now w :
  exists r, wire_registry (wire (W := W) (L := L) range cfg logs metrics now w).2 = Some r
    /\ (forall vec, vector_name vec ∈ registered r)
    /\ (forall vec v t f, vec = ReceivedBytes \/ vec = ReceivedPayloads -> shown r f (vector_name vec) [v; t] = None)
    /\ forall f, shown r f banned_ips [] = Some (f banned_ips).
Proof.
  destruct m_New_registered as (r0 & Hr0 & Hn & Hs). unfold wire_registry. rewrite Hr0. cbn [mbind option_bind].
  set (ops := wiring_ops _). set (r1 := updates r0 ops).
  assert (registered r1 = own_names_order) as Hn1 by (unfold r1; by rewrite updates_registered).
  assert (forall vec, vector_name vec ∈ registered r0) as Hv0.
  { intros vec. rewrite Hn. apply elem_of_app. left. apply list_elem_of_fmap. exists vec. split; [done|].
    unfold own_vectors. destruct vec; repeat (left || right). }
  destruct (register_fresh r1 [CGaugeFunc banned_ips]) as (r & Hr & Hn'); [rewrite Hn1; apply own_order_nodup|].
  exists r. split; [exact Hr|]. split_and!.
  - intros vec. rewrite Hn', Hn1, <- Hn. apply elem_of_app. by left.
  - intros vec v t f Hv. rewrite (shown_register _ _ _ _ _ _ Hr) by apply own_not_library, vector_name_own.
    rewrite bool_decide_eq_false_2 by (by intros [_ ?]). unfold r1.
    rewrite (updates_shown vec [v; t] ops [] f r0 None); try done.
    + by destruct Hv as [->| ->].
    + unfold ops. rewrite wiring_series by done. constructor.
    + apply Hs, own_not_library, vector_name_own.
  - intros f. rewrite (shown_register _ _ _ _ _ _ Hr) by by apply own_not_library.
    by rewrite bool_decide_eq_true_2 by (split; [left|done]).
Qed.

(** C12: the metrics page tells the truth. Start-up registers every series without a clash; and
    at any moment of any run, for every validator and type, the page shows for the received
    bytes exactly the total the statistics hold, for the received payloads how many were
    answered 200, and neither series before the first of them, as long as both are below
    two to the 53rd; and it shows how many addresses have a ban at the moment of the scrape
    that has not run out. *)
Theorem page_shows_books cfg logs metrics now0 w0 evs v t now :
  let '(p, effs) := wire (W := W) (L := L) range cfg logs metrics now0 w0 in
  let p' := run p evs in
  let outs := process_trace p evs in
  let lengths := lengths_of v t (concat (map accepted_of outs)) in
  let banned := filter (fun rec : string * ipRecord => active_ban now rec.2 = true) (ips (srv_auth (pr_srv p'))) in
  sumZ lengths < float_limit -> Z.of_nat (length lengths) < float_limit ->
  exists r, wire_registry effs = Some r
  /\ let page := scrape range (updates r (flat_map event_ops outs)) p' now in
     page "watchtower_received_bytes_total" [v; t]
       = (if bool_decide (lengths = []) then None else Some (f64_of_Z (total (ws_get (srv_stats (pr_srv p')) v t))))
     /\ page "watchtower_received_payloads_total" [v; t]
       = (if bool_decide (lengths = []) then None else Some (f64_of_Z (Z.of_nat (length lengths))))
     /\ page banned_ips [] = Some (f64_of_Z (Z.of_nat (size banned))).
Proof.
  destruct (wire_registry_ok cfg logs metrics now0 w0) as (r & Hr & Hv & Hnone & Hb).
  pose proof (process_run_ledger (E := E) NewLimiter Allow net clock range SortFunc zstd_NewReader gzip_NewReader
    string_kv empty_rest proto_Unmarshal proto_Marshal metrics_page toml_Unmarshal range_ok
    (wire (W := W) (L := L) range cfg logs metrics now0 w0).1 evs v t) as Hl.
  destruct (wire _ cfg logs metrics now0 w0) as [p effs] eqn:Ew. cbn [fst snd] in *. intros Hsum Hlen.
  assert (pr_fwd p = fwd_New (VictoriaMetricsURL cfg) (LokiURL cfg) (Some m_RecordLogsBelowMinLevel) /\ srv_stats (pr_srv p) = ws_New now0) as [Hf Hst]
    by (unfold wire in Ew; injection Ew as <- _; done).
  destruct Hl as (Htot & _ & Hrec); [by rewrite Hf|by rewrite Hst|]. rewrite Hst in Htot.
  pose proof (lengths_nonneg v t (process_trace p evs)) as Hpos.
  assert (Hfilter : List.filter (on_labels v t) (List.filter is_received (flat_map event_ops (process_trace p evs)))
    = flat_map (m_RecordReceived v t) (lengths_of v t (concat (map accepted_of (process_trace p evs))))).
  { rewrite received_events, Hrec. apply on_labels_received. }
  set (ls := lengths_of v t (concat (map accepted_of (process_trace p evs)))) in *.
  assert (total (ws_get (ws_New now0) v t) = 0) as H0 by (unfold ws_get; cbn; by rewrite lookup_empty).
  pose proof (sumZ_nonneg ls Hpos) as Hge.
  rewrite Htot, H0, Z.add_0_l, wrap64_id by (revert Hsum; unfold is_int64, min_int64, max_int64, float_limit; lia).
  exists r. split; [exact Hr|]. unfold scrape, m_Handler. split_and!.
  - rewrite (updates_shown ReceivedBytes [v; t] _ ls _ r None); try done; [..|by rewrite Hnone; [|left]].
    rewrite (proj1 (filter_received_series v t _)), Hfilter, (proj1 (recorded_series v t ls)).
    apply Forall2_fmap_l, Forall_Forall2_diag, Forall_true. by left.
  - rewrite (updates_shown ReceivedPayloads [v; t] _ (map (fun _ => 1) ls) _ r None); try done.
    + rewrite sum_ones. by destruct ls.
    + rewrite (proj2 (filter_received_series v t _)), Hfilter, (proj2 (recorded_series v t ls)).
      apply Forall2_fmap, Forall_Forall2_diag, Forall_true. by right.
    + apply Forall_fmap, Forall_true. done.
    + by rewrite Hnone; [|right].
    + by rewrite sum_ones.
  - rewrite updates_banned, Hb. unfold banned_source. by erewrite BannedCount_size by apply range_ok.
Qed.
End Scrape.

(** ** A registry, and a run *)

Record toy_registry := mkToyRegistry {
  toy_names : list string;
  toy_funcs : list string;
  toy_values : gmap (string * list string) float64
}.

Definition toy_own (c : collector) : list string :=
  match c with
  | CVec v => [vector_name v] | CGaugeFunc n => [n]
  | CGo => ["go_goroutines"] | CProcess => ["process_cpu_seconds_total"]
  end.

Definition toy_register (r : toy_registry) (cs : list collector) : option toy_registry :=
  let names := toy_names r ++ flat_map toy_own cs in
  if bool_decide (NoDup names) then
    Some (mkToyRegistry names (omap (fun c => match c with CGaugeFunc n => Some n | _ => None end) cs ++ toy_funcs r) (toy_values r))
  else None.

Definition toy_put (r : toy_registry) (v : vector) (ls : list string) (f : float64 -> float64) : toy_registry :=
  mkToyRegistry (toy_names r) (toy_funcs r)
    (<[(vector_name v, ls) := f (default f64_zero (toy_values r !! (vector_name v, ls)))]> (toy_values r)).

Definition toy_update (r : toy_registry) (o : metric_op) : toy_registry :=
  match o with
  | MAdd v ls x => toy_put r v ls (fun y => f64_add y x)
  | MInc v ls => toy_put r v ls (fun y => f64_add y (f64_of_Z 1))
  | MSet v ls x => toy_put r v ls (fun _ => x)
  | MLogWarn _ => r
  end.

Definition toy_shown (r : toy_registry) (f : string -> float64) (n : string) (ls : list string) : option float64 :=
  if bool_decide (n ∈ toy_funcs r /\ ls = []) then Some (f n) else toy_values r !! (n, ls).

Lemma toy_put_shown r v ls f g a :
  op_ok (MInc v ls) = true -> toy_shown r g (vector_name v) ls = f64_of_Z <$> a ->
  toy_shown (toy_put r v ls f) g (vector_name v) ls = Some (f (f64_of_Z (default 0 a))).
Proof.
  intros Hok. assert (ls <> []) as Hne by (intros ->; by destruct v). unfold toy_shown, toy_put. cbn [toy_funcs toy_values].
  rewrite !bool_decide_eq_false_2 by (by intros [_ ?]). intros ->. rewrite lookup_insert_eq. by destruct a.
Qed.

#[export] Program Instance toy_prometheus : Prometheus toy_registry := {|
  NewRegistry := mkToyRegistry [] [] ∅;
  MustRegister := toy_register;
  update := toy_update;
  shown := toy_shown;
  registered := toy_names;
  go_names := ["go_goroutines"];
  process_names := ["process_cpu_seconds_total"]
|}.
Next Obligation. split; [apply (bool_decide_unpack _); vm_compute; exact I|]. repeat constructor. Qed.
Next Obligation. done. Qed.
Next Obligation. intros f n ls. unfold toy_shown. cbn. by rewrite lookup_empty, bool_decide_eq_false_2 by (by intros [?%not_elem_of_nil _]). Qed.
Next Obligation. intros r cs Hn. unfold toy_register. eexists. rewrite bool_decide_eq_true_2; [done|]. exact Hn. Qed.
Next Obligation. intros r cs Hn. unfold toy_register. by rewrite bool_decide_eq_false_2. Qed.
Next Obligation.
  intros r cs r' f n ls Hr _. unfold toy_register in Hr. case_bool_decide; [|done]. injection Hr as <-. unfold toy_shown. cbn [toy_funcs toy_values].
  assert (n ∈ omap (fun c => match c with CGaugeFunc n => Some n | _ => None end) cs <-> CGaugeFunc n ∈ cs) as Hin.
  { rewrite list_elem_of_omap. split; [intros (c & Hc & Hs); destruct c; by simplify_eq|]. intros Hc. by exists (CGaugeFunc n). }
  repeat case_bool_decide; try done; rewrite elem_of_app, Hin in *; tauto.
Qed.
Next Obligation. intros r o. by destruct o. Qed.
Next Obligation.
  intros r o f n ls Ho. unfold toy_shown. destruct o as [v l x|v l|v l x|b]; cbn in Ho |- *; [| | |done];
    (case_bool_decide; [done|]); by rewrite lookup_insert_ne by congruence.
Qed.
Next Obligation.
  intros r v ls f a b _ Hok Hs Ha Hb Hlim. cbn [toy_update]. rewrite (toy_put_shown _ _ _ _ _ a Hok Hs). by rewrite f64_add_exact.
Qed.
Next Obligation.
  intros r v ls f a _ Hok Hs Ha Hlim. cbn [toy_update]. rewrite (toy_put_shown _ _ _ _ _ a Hok Hs). by rewrite f64_add_exact by lia.
Qed.

Definition busy_process : Process Time Z :=
  process_run count_new count_allow ok_net (fun w => w) ascending insertion_sort plain_reader plain_reader
    pair tt toy_otlp toy_marshal (fun _ => EmptyString) toy_toml sample_process busy_hour.

Lemma page_shows_books_witness :
  exists r, wire_registry (Reg := toy_registry) (wire (W := Time) (L := Z) ascending (file_of "old") "2160h" "x" 0 0).2 = Some r
    /\ let page := scrape ascending (updates r (flat_map event_ops busy_outputs)) busy_process 0 in
       page "watchtower_received_payloads_total" ["alice"; "rpc"] = Some (f64_of_Z 2)
       /\ page banned_ips [] = Some (f64_of_Z 0).
Proof.
  assert (H1 : sumZ (lengths_of "alice" "rpc" (concat (map accepted_of busy_outputs))) < float_limit) by (vm_compute; reflexivity).
  assert (H2 : Z.of_nat (length (lengths_of "alice" "rpc" (concat (map accepted_of busy_outputs)))) < float_limit) by (vm_compute; reflexivity).
  pose proof (page_shows_books (Reg := toy_registry) (E := string) count_new count_allow ok_net (fun w => w) ascending insertion_sort
    plain_reader plain_reader pair tt toy_otlp toy_marshal (fun _ => EmptyString) toy_toml ascending_range
    (file_of "old") "2160h" "x" 0 0 busy_hour "alice" "rpc" 0) as H.
  rewrite (surjective_pairing (wire ascending (file_of "old") "2160h" "x" 0 0)) in H.
  change (wire ascending (file_of "old") "2160h" "x" 0 0).1 with sample_process in H. cbv zeta in H.
  fold busy_outputs in H. destruct (H H1 H2) as (r & Hr & _ & Hp & Hb).
  exists r. split; [exact Hr|]. split; [etransitivity; [exact Hp|]|etransitivity; [exact Hb|]]; vm_compute; reflexivity.
Defined.
