(* ===== verification/WtConcurrent.v ===== *)
(** * The watchtower with its goroutines

    Goroutines with the forwarder of internal/watchtower/forwarder behind it: what the
    backends are sent, and the books, when requests interleave. A call of the forwarder is
    one step; it keeps no state, so what overlapping calls share is the network. *)

From Stdlib Require Import Ascii.
From S2P Require Import Prelude GoStrings GoTime GoFloat GoJson GoRfc3339 GoHttp WtConfig Auth WtStats WtMetrics RateLimit Handlers VmLines Forwarder Watchtower WtProcess Ledger Goroutines Interleavings SharedLedger WtAccounting.

Local Open Scope Z_scope.

Section WtConcurrent.
Context {W L KV RR RM RQ : Type}.
Context (NewLimiter : float64 -> Z -> L).
Context (Allow : L -> Time -> L * bool).
Context (net : W -> fwd_request -> W * fwd_outcome).
Context (clock : W -> Time).
Context (range : forall V, gmap string V -> list (string * V)).
Context (SortFunc : (loki_entry -> loki_entry -> comparison) -> list loki_entry -> list loki_entry).
Context (zstd_NewReader gzip_NewReader : bytes -> option stream).
Context (string_kv : string -> string -> KV).
Context (empty_rest : RR).
Context (proto_Unmarshal : bytes -> option (otlp_request KV RR RM RQ)).
Context (proto_Marshal : otlp_request KV RR RM RQ -> option bytes).
Context (f : Forwarder).
Context (metrics_page : wt_world (W := W) -> string).

Notation world := (wt_world (W := W)).
#[local] Instance the_wt_forwarder : PayloadForwarder world fwd_error :=
  wt_forwarder net clock range SortFunc zstd_NewReader gzip_NewReader string_kv empty_rest proto_Unmarshal proto_Marshal f.

Notation system := (system (W := world) (L := L)).
Notation sys_step := (sys_step (E := fwd_error) NewLimiter Allow metrics_page).
Notation sys_run := (sys_run (E := fwd_error) NewLimiter Allow metrics_page).
Notation go_step := (go_step (E := fwd_error) NewLimiter Allow metrics_page).
Notation views := (views (E := fwd_error) NewLimiter Allow metrics_page).
Notation attributed := (attributed range SortFunc zstd_NewReader gzip_NewReader string_kv empty_rest proto_Unmarshal proto_Marshal f).

(** ** The trace of the backends' requests *)

(** What was sent before does not matter, and stays. *)
Lemma fwd_post_frame w l url body ct :
  fwd_post (traced net) (w, l) url body ct
  = let '((w', sent), r) := fwd_post (traced net) (w, []) url body ct in ((w', l ++ sent), r).
Proof. unfold fwd_post, traced. cbn [fst snd app]. by destruct (net w _). Qed.

Lemma postVMLines_frame w l lines :
  postVMLines (traced net) f (w, l) lines
  = let '((w', sent), r) := postVMLines (traced net) f (w, []) lines in ((w', l ++ sent), r).
Proof.
  unfold postVMLines. destruct lines as [|x lines]; [by rewrite app_nil_r|].
  destruct (encode_vmLines _); [apply fwd_post_frame|by rewrite app_nil_r].
Qed.

Lemma forward_frame e w l who v body :
  forward e (w, l) who v body
  = let '((w', sent), ops, r) := forward e (w, []) who v body in ((w', l ++ sent), ops, r).
Proof.
  destruct e; cbn [forward fwd_RPC fwd_Metrics fwd_Logs fwd_OTLP the_wt_forwarder wt_forwarder fwd_payload_forwarder].
  - unfold ForwardRPC. destruct (Unmarshal body) as [p|]; [|by rewrite app_nil_r].
    rewrite postVMLines_frame. by destruct (postVMLines _ _ (w, []) _) as [[w1 s1] r1].
  - unfold ForwardMetrics. destruct (Unmarshal body) as [p|]; [|by rewrite app_nil_r].
    rewrite postVMLines_frame. by destruct (postVMLines _ _ (w, []) _) as [[w1 s1] r1].
  - unfold ForwardLogs. destruct (zstdDecompress _ body) as [d|err]; [|by rewrite app_nil_r].
    destruct (Unmarshal d) as [p|]; [|by rewrite app_nil_r]. destruct (_ && _); [by rewrite app_nil_r|].
    cbv zeta. cbn [fst]. rewrite fwd_post_frame. by destruct (fwd_post _ (w, []) _ _ _) as [[w1 s1] r1].
  - unfold ForwardOTLP. destruct (gunzip _ body) as [d|err]; [|by rewrite app_nil_r].
    destruct (proto_Unmarshal d) as [req|]; [|by rewrite app_nil_r]. cbv zeta.
    destruct (proto_Marshal _) as [out|]; [|by rewrite app_nil_r].
    rewrite fwd_post_frame. by destruct (fwd_post _ (w, []) _ _ _) as [[w1 s1] r1].
Qed.

(** One call adds at most one request to the trace, attributed to the caller's validator. *)
Lemma forward_sends e w who v body :
  let w' := (forward e w who v body).1.1 in
  w'.2 = w.2 \/ exists req, w'.2 = w.2 ++ [req] /\ attributed who e body req.
Proof.
  destruct w as [w l]. rewrite forward_frame. destruct (forward e (w, []) who v body) as [[[w' sent] ops] r] eqn:Hf.
  apply forward_attributed in Hf as [->|(req & -> & Ha)]; cbn [fst snd]; [left; by rewrite app_nil_r|right; by exists req].
Qed.

(** ** Who is behind each request *)

(** Goroutine [i] has forwarded a payload, and [req] is what it became. *)
Definition spoken_by (gs : list goroutine) (req : fwd_request) (i : nat) : Prop :=
  exists g e who body, gs !! i = Some g /\ forwards (go_effects g) = [(e, who, body)] /\ attributed who e body req.

Lemma spoken_by_step s e s' req j :
  (forall i g, sys_go s !! i = Some g -> quiet (go_phase g) = true -> forwards (go_effects g) = []) ->
  sys_step s e = Some s' -> spoken_by (sys_go s) req j -> spoken_by (sys_go s') req j.
Proof.
  intros Hq Hs (g & ep & who & body & Hg & Hf & Ha). pose proof (sys_step_go _ _ _ _ _ _ _ _ Hs Hg) as Hg'.
  eexists _, ep, who, body. split; [exact Hg'|]. split; [|done]. destruct e as [r|i ck now|o|now]; try done.
  destruct (decide (i = j)) as [->|]; [|done].
  rewrite (proj1 (go_step_forwards _ _ _ (sys_srv s) g ck now)), Hf. destruct (go_phase g) eqn:Hp; try done.
  by rewrite (Hq _ _ Hg) in Hf; [|rewrite Hp].
Qed.

Lemma sys_run_owners s w evs s' :
  srv_world s = (w, []) -> sys_run (sys_start s) evs = Some s' ->
  exists owners, NoDup owners /\ Forall2 (spoken_by (sys_go s')) (srv_world (sys_srv s')).2 owners.
Proof.
  intros Hw. revert s'. induction evs as [|e evs IH] using rev_ind; intros s' Hr.
  { injection Hr as <-. exists []. split; [constructor|].
    destruct s. cbn in *. subst. constructor. }
  rewrite sys_run_app in Hr. apply bind_Some in Hr as (s1 & H1 & Hr). cbn in Hr. apply bind_Some in Hr as (s2 & Hs & [= <-]).
  destruct (IH s1 H1) as (owners & Hnd & Hall).
  pose proof (fun i g (Hg : sys_go s1 !! i = Some g) => proj1 (proj2 (sys_run_warranted _ _ _ _ _ _ _ _ H1 Hg))) as Hq.
  assert (Hold : Forall2 (spoken_by (sys_go s2)) (srv_world (sys_srv s1)).2 owners).
  { eapply Forall2_impl; [|exact Hall]. intros req i. by apply (spoken_by_step s1 e). }
  assert (Hsame : (srv_world (sys_srv s2)).2 = (srv_world (sys_srv s1)).2 ->
    exists owners, NoDup owners /\ Forall2 (spoken_by (sys_go s2)) (srv_world (sys_srv s2)).2 owners).
  { intros ->. by exists owners. }
  destruct e as [r|i ck now|o|now]; cbn [Goroutines.sys_step] in Hs.
  - injection Hs as <-. by apply Hsame.
  - pose proof Hs as Hs0. apply bind_Some in Hs as (g & Hi & Hs).
    destruct (go_step_forwards NewLimiter Allow metrics_page (sys_srv s1) g ck now) as [Hf Hwd].
    destruct (go_step (sys_srv s1) g ck now) as [srv g'] eqn:Hg. cbn [fst snd] in *. injection Hs as <-. cbn [sys_srv sys_go] in *.
    destruct (go_phase g) eqn:Hp; try (apply Hsame; by rewrite Hwd).
    destruct (forward_sends e (srv_world (sys_srv s1)) who v body) as [Hsent|(req & Hsent & Ha)];
      pose proof (eq_trans (f_equal snd Hwd) Hsent : (srv_world srv).2 = _) as Htr; [by apply Hsame|]. rewrite Htr.
    pose proof (Hq _ _ Hi) as Hqg. rewrite Hp in Hqg. specialize (Hqg eq_refl).
    exists (owners ++ [i]). split.
    + apply list.NoDup_app. split_and!; [done| |apply NoDup_singleton]. intros k Hk ->%list_elem_of_singleton.
      apply list_elem_of_lookup_1 in Hk as [m Hk]. destruct (Forall2_lookup_r _ _ _ _ _ Hall Hk) as (req' & _ & (g0 & e0 & who0 & body0 & Hi0 & Hf0 & _)).
      rewrite Hi in Hi0. injection Hi0 as <-. by rewrite Hqg in Hf0.
    + apply Forall2_app; [done|]. constructor; [|constructor]. exists g', e, who, body. split_and!; [|by rewrite Hf, Hqg|done].
      apply list_lookup_insert_eq. by eapply lookup_lt_Some.
  - injection Hs as <-. by apply Hsame.
  - destruct (ws_Snapshot _ _) as [st [snap up]]. injection Hs as <-. by apply Hsame.
Qed.

(** C2: what the backends are sent, whatever interleaves: each request has a goroutine of its
    own behind it, that of a POST to one of the payload paths which the watchtower has
    received, was not banned when checked, came with a validator's token, got a token from
    that validator's bucket, and may send this type; and the request speaks for that
    validator alone, and says what its body decodes to: every line, stream and resource in it carries the validator's name. *)
Theorem concurrent_attribution s w evs s' :
  srv_world s = (w, []) -> sys_run (sys_start s) evs = Some s' ->
  exists owners, NoDup owners
  /\ Forall2 (fun req i => exists g e who v body vs rest,
       sys_go s' !! i = Some g /\ SysArrive (go_req g) ∈ evs
       /\ views i (sys_start s) evs = vs ++ rest /\ admitted Allow (go_req g) who v vs
       /\ acceptable (go_req g) v e body /\ attributed who e body req)
     (srv_world (sys_srv s')).2 owners.
Proof.
  intros Hw Hr. destruct (sys_run_owners _ _ _ _ Hw Hr) as (owners & Hnd & Hall). exists owners. split; [done|].
  eapply Forall2_impl; [|exact Hall]. intros req i (g & e & who & body & Hg & Hf & Ha).
  destruct (sys_run_warranted _ _ _ _ _ _ _ _ Hr Hg) as [Hin [_ Hj]].
  destruct (Hj e who body) as (_ & v & vs & rest & Hv & Had & Hacc); [rewrite Hf; left|].
  by exists g, e, who, v, body, vs, rest.
Qed.

(** C9: the books balance when requests interleave. The total of a validator and type is the
    sum of the lengths of the payloads entered for them, and the hourly reports with the
    current hour add up to it: no entry is lost to another request's or to a snapshot
    between. An answered request was entered exactly if it was forwarded and answered 200,
    by the length of its body, and then its counters were updated by the same amount, once;
    a request that is still on its way has not touched them. *)
Theorem concurrent_accounting s now evs s' :
  hook_free f -> srv_stats s = ws_New now -> sys_run (sys_start s) evs = Some s' ->
  (forall v t, let n := sumZ (lengths_of v t (all_booked (sys_go s'))) in
     total (ws_get (srv_stats (sys_srv s')) v t) = wrap64 n
     /\ wrap64 (ws_reported v t (sys_hours s') + lastHour (ws_get (srv_stats (sys_srv s')) v t)) = wrap64 n)
  /\ forall g, g ∈ sys_go s' ->
     match go_phase g with
     | PhDone resp => booked g = taken (go_effects g) resp /\ received (go_effects g) = counts (booked g)
     | _ => received (go_effects g) = []
     end.
Proof.
  intros Hf. apply shared_books_balance. intros. by apply wt_forward_free.
Qed.
End WtConcurrent.

(** ** A run with the backends behind it *)

Definition sample_wt_run (evs : list sys_event) : option (system (W := wt_world (W := Time)) (L := Z)) :=
  sys_run (H := wt_forwarder ok_net (fun w => w) ascending insertion_sort plain_reader plain_reader pair tt toy_otlp toy_marshal sample_forwarder)
    count_new count_allow (fun _ => EmptyString) (sys_start sample_wt) evs.

Definition two_requests : list sys_event :=
  SysArrive sample_rpc_request :: SysArrive sample_rpc_request :: sample_steps 10.

Example two_requests_sent :
  (fun s => length (srv_world (sys_srv s)).2) <$> sample_wt_run two_requests = Some 2%nat.
Proof. vm_compute. reflexivity. Qed.

Lemma concurrent_attribution_witness :
  exists s', sample_wt_run two_requests = Some s' /\ exists req i g who e body,
    req ∈ (srv_world (sys_srv s')).2 /\ sys_go s' !! i = Some g
    /\ attributed ascending insertion_sort plain_reader plain_reader pair tt toy_otlp toy_marshal sample_forwarder who e body req.
Proof.
  assert (Hv : (fun s => length (srv_world (sys_srv s)).2) <$> sample_wt_run two_requests = Some 2%nat) by (vm_compute; reflexivity).
  destruct (sample_wt_run two_requests) as [s'|] eqn:Er; [|discriminate Hv]. injection Hv as Hl.
  exists s'. split; [reflexivity|]. unfold sample_wt_run in Er.
  destruct (concurrent_attribution count_new count_allow ok_net (fun w => w) ascending insertion_sort plain_reader plain_reader
              pair tt toy_otlp toy_marshal sample_forwarder (fun _ => EmptyString) sample_wt 0 two_requests s' eq_refl Er)
    as (owners & _ & Hall).
  pose proof (eq_trans (eq_sym (Forall2_length Hall)) Hl) as Hlen. destruct owners as [|i owners]; [discriminate Hlen|].
  destruct (Forall2_lookup_r _ _ _ 0%nat i Hall eq_refl) as (req & Hreq & (g & e & who & v & body & vs & rest & Hg & _ & _ & _ & _ & Ha)).
  exists req, i, g, who, e, body. split; [exact (list_elem_of_lookup_2 _ _ _ Hreq)|]. split; [exact Hg|exact Ha].
Defined.

Lemma concurrent_accounting_witness :
  exists s', sample_wt_run two_requests = Some s'
    /\ total (ws_get (srv_stats (sys_srv s')) "alice" "rpc") = wrap64 (2 * Z.of_nat (length sample_body)).
Proof.
  assert (Hv : (fun s => sumZ (lengths_of "alice" "rpc" (all_booked (sys_go s)))) <$> sample_wt_run two_requests
               = Some (2 * Z.of_nat (length sample_body))) by (vm_compute; reflexivity).
  destruct (sample_wt_run two_requests) as [s'|] eqn:Er; [|discriminate Hv]. injection Hv as Hn.
  exists s'. split; [reflexivity|]. unfold sample_wt_run in Er.
  etransitivity; [|exact (f_equal wrap64 Hn)].
  refine (proj1 (proj1 (concurrent_accounting count_new count_allow ok_net (fun w => w) ascending insertion_sort plain_reader plain_reader
              pair tt toy_otlp toy_marshal sample_forwarder (fun _ => EmptyString) sample_wt 0 two_requests s' _ eq_refl Er) "alice" "rpc")).
  intros v. reflexivity.
Defined.
