(* ===== verification/RpcCollector.v ===== *)
(** * internal/sentinel/rpc (client.go, collector.go)

    The poll of a node's RPC endpoints. The HTTP client and the clock act on a world [W];
    the channel to the sender is the last step: what is offered to it is returned, and
    whether it was taken or the context was cancelled first does not change the state. The
    log throttle's counter is kept, the log lines are left out. *)

From Stdlib Require Import Ascii Sorting.Sorted.
From S2P Require Import Prelude GoStrings GoTime GoJson GoRfc3339 Protocol Gpub Delta VmLines.

Local Open Scope Z_scope.

(** ** The client *)

Record rpcError := mkRpcError { Code : Int64; Message : string }.
#[export] Instance zero_rpcError : GoZero rpcError := mkRpcError go_zero go_zero.
#[export] Instance from_rpcError : FromJSON rpcError := fun _ =>
  from_struct
    [fld "code" Code (fun r x => mkRpcError x (Message r));
     fld "message" Message (fun r x => mkRpcError (Code r) x)].

Record rpcEnvelope := mkRpcEnvelope { env_Result : RawMessage; env_Error : option rpcError }.
#[export] Instance zero_rpcEnvelope : GoZero rpcEnvelope := mkRpcEnvelope go_zero go_zero.
#[export] Instance from_rpcEnvelope : FromJSON rpcEnvelope := fun _ =>
  from_struct
    [fld "result" env_Result (fun r x => mkRpcEnvelope x (env_Error r));
     fld "error" env_Error (fun r x => mkRpcEnvelope (env_Result r) x)].

(** What the client makes of a GET; a body that breaks off is the part that was read. *)
Inductive get_outcome :=
| GetBuildFailed
| GetFailed
| GetAnswered (status : Z) (body : bytes).

Inductive client_error :=
| ErrBuildGet
| ErrGet
| ErrGetStatus (status : Z)
| ErrDecodeEnvelope
| ErrRPC (e : rpcError).

Definition get_result (o : get_outcome) : result RawMessage client_error :=
  match o with
  | GetBuildFailed => Err ErrBuildGet
  | GetFailed => Err ErrGet
  | GetAnswered status body =>
      if negb (status =? 200) then Err (ErrGetStatus status)
      else match (Decode body : option rpcEnvelope) with
           | None => Err ErrDecodeEnvelope
           | Some env => match env_Error env with
                         | Some e => Err (ErrRPC e)
                         | None => Ok (env_Result env)
                         end
           end
  end.

Definition status_path : string := "/status".
Definition net_info_path : string := "/net_info".
Definition num_unconfirmed_txs_path : string := "/num_unconfirmed_txs".
Definition dump_consensus_state_path : string := "/dump_consensus_state".
Definition validators_path (height : Z) : string := "/validators?height=" +:+ Itoa height.
Definition block_path (height : Z) : string := "/block?height=" +:+ Itoa height.
Definition genesis_path : string := "/genesis".

(** ** The collector *)

Record sync_height := mkSyncHeight { sh_LatestBlockHeight : Number }.
#[export] Instance zero_sync_height : GoZero sync_height := mkSyncHeight go_zero.
#[export] Instance from_sync_height : FromJSON sync_height := fun _ =>
  from_struct [fld "latest_block_height" sh_LatestBlockHeight (fun _ x => mkSyncHeight x)].

Record statusResult := mkStatusResult { sr_SyncInfo : sync_height }.
#[export] Instance zero_statusResult : GoZero statusResult := mkStatusResult go_zero.
#[export] Instance from_statusResult : FromJSON statusResult := fun _ =>
  from_struct [fld "sync_info" sr_SyncInfo (fun _ x => mkStatusResult x)].

Definition parseHeight (raw : RawMessage) : Z :=
  match (Unmarshal (raw_text raw) : option statusResult) with
  | None => 0
  | Some s => default 0 (Number_Int64 (sh_LatestBlockHeight (sr_SyncInfo s)))
  end.

Record Collector := mkCollector {
  rc_delta : Delta;
  pollInterval : Duration;
  dumpInterval : Duration;
  genesisRefreshInterval : Duration;
  validatorsRefreshInterval : Duration;
  lastHeight : Z;
  lastDump : Time;
  lastGenesisSentAt : Time;
  lastValidatorsSentAt : Time;
  genesisFailed : Z
}.

Definition defaultGenesisRefreshInterval : Duration := 12 * Hour.
Definition defaultValidatorsRefreshInterval : Duration := 12 * Hour.

Definition NewCollector (poll dump genesis validators : Duration) : Collector :=
  let gri := if genesis <=? 0 then defaultGenesisRefreshInterval else genesis in
  let vri := if validators <=? 0 then defaultValidatorsRefreshInterval else validators in
  mkCollector NewDelta poll dump gri vri 0 zeroTime zeroTime zeroTime 0.

Definition set_delta (c : Collector) (d : Delta) : Collector :=
  mkCollector d (pollInterval c) (dumpInterval c) (genesisRefreshInterval c) (validatorsRefreshInterval c)
    (lastHeight c) (lastDump c) (lastGenesisSentAt c) (lastValidatorsSentAt c) (genesisFailed c).
Definition set_height (c : Collector) (h : Z) : Collector :=
  mkCollector (rc_delta c) (pollInterval c) (dumpInterval c) (genesisRefreshInterval c) (validatorsRefreshInterval c)
    h (lastDump c) (lastGenesisSentAt c) (lastValidatorsSentAt c) (genesisFailed c).
Definition set_dump (c : Collector) (t : Time) : Collector :=
  mkCollector (rc_delta c) (pollInterval c) (dumpInterval c) (genesisRefreshInterval c) (validatorsRefreshInterval c)
    (lastHeight c) t (lastGenesisSentAt c) (lastValidatorsSentAt c) (genesisFailed c).
Definition set_validators (c : Collector) (t : Time) : Collector :=
  mkCollector (rc_delta c) (pollInterval c) (dumpInterval c) (genesisRefreshInterval c) (validatorsRefreshInterval c)
    (lastHeight c) (lastDump c) (lastGenesisSentAt c) t (genesisFailed c).
Definition set_genesis (c : Collector) (t : Time) (failed : Z) : Collector :=
  mkCollector (rc_delta c) (pollInterval c) (dumpInterval c) (genesisRefreshInterval c) (validatorsRefreshInterval c)
    (lastHeight c) (lastDump c) t (lastValidatorsSentAt c) failed.

Definition polled : list (string * string) :=
  [("status", status_path); ("net_info", net_info_path); ("num_unconfirmed_txs", num_unconfirmed_txs_path)].

Section Collect.
Context {W : Type}.
Context (net : W -> string -> W * get_outcome).
Context (time_Now : W -> W * Time).
Context (baseURL : string).

(** [c.get]: the path is appended to the base URL. *)
Definition client_get (w : W) (path : string) : W * result RawMessage client_error :=
  let '(w, o) := net w (baseURL +:+ path) in (w, get_result o).

Record poll_state := mkPoll {
  ps_world : W; ps_col : Collector; ps_data : gmap string RawMessage; ps_height : Z; ps_reachable : bool }.

(** One iteration of the loop over [polled]. *)
Definition poll_one (s : poll_state) (p : string * string) : poll_state :=
  let '(key, path) := p in
  let '(w, r) := client_get (ps_world s) path in
  match r with
  | Err _ => mkPoll w (ps_col s) (ps_data s) (ps_height s) (ps_reachable s)
  | Ok raw =>
      let height := if bool_decide (key = "status") then parseHeight raw else ps_height s in
      let '(c, keep) :=
        if bool_decide (key = "num_unconfirmed_txs") then (ps_col s, true)
        else let '(d, ch) := Changed (rc_delta (ps_col s)) key (raw_text raw) in (set_delta (ps_col s) d, ch) in
      mkPoll w c (if (keep : bool) then <[key := raw]> (ps_data s) else ps_data s) height true
  end.

(** The parts of [collect] after the loop: each maps the world, the collector and the
    data. *)
Definition part : Type := W * Collector * gmap string RawMessage.

Definition dump_part (s : part) : part :=
  let '(w, c, data) := s in
  let '(w, now) := time_Now w in
  if dumpInterval c <=? Since now (lastDump c) then
    let '(w, r) := client_get w dump_consensus_state_path in
    match r with
    | Ok raw =>
        let '(d, ch) := Changed (rc_delta c) "dump_consensus_state" (raw_text raw) in
        let '(w, now) := time_Now w in
        (w, set_dump (set_delta c d) now, if (ch : bool) then <["dump_consensus_state" := raw]> data else data)
    | Err _ => (w, c, data)
    end
  else (w, c, data).

Definition block_validators (height : Z) (s : part) : part :=
  let '(w, c, data) := s in
  let '(w, r) := client_get w (validators_path height) in
  match r with
  | Ok raw =>
      let '(d, ch) := Changed (rc_delta c) "validators" (raw_text raw) in
      if (ch : bool) then
        let '(w, now) := time_Now w in
        (w, set_validators (set_delta c d) now, <["validators" := raw]> data)
      else (w, set_delta c d, data)
  | Err _ => (w, c, data)
  end.

Definition block_body (height : Z) (s : part) : part :=
  let '(w, c, data) := s in
  let '(w, r) := client_get w (block_path height) in
  match r with
  | Ok raw => (w, c, <["block" := raw]> data)
  | Err _ => (w, c, data)
  end.

Definition block_part (currentHeight : Z) (s : part) : part :=
  let '(w, c, data) := s in
  if (lastHeight c <? currentHeight) && (0 <? currentHeight) then
    block_body currentHeight (block_validators currentHeight (w, set_height c currentHeight, data))
  else s.

Definition validators_part (s : part) : part :=
  let '(w, c, data) := s in
  match data !! "validators" with
  | Some _ => s
  | None =>
      if 0 <? lastHeight c then
        let '(w, now) := time_Now w in
        if validatorsRefreshInterval c <=? Since now (lastValidatorsSentAt c) then
          let '(w, r) := client_get w (validators_path (lastHeight c)) in
          match r with
          | Ok raw => let '(w, now) := time_Now w in (w, set_validators c now, <["validators" := raw]> data)
          | Err _ => (w, c, data)
          end
        else (w, c, data)
      else s
  end.

Definition genesis_due (w : W) (c : Collector) : W * bool :=
  if IsZero (lastGenesisSentAt c) then (w, true)
  else let '(w, now) := time_Now w in (w, genesisRefreshInterval c <=? Since now (lastGenesisSentAt c)).

Definition genesis_part (s : part) : part :=
  let '(w, c, data) := s in
  let '(w, due) := genesis_due w c in
  if (due : bool) then
    let '(w, r) := client_get w genesis_path in
    match r with
    | Ok raw => let '(w, now) := time_Now w in (w, set_genesis c now 0, <["genesis" := raw]> data)
    | Err _ => (w, set_genesis c (lastGenesisSentAt c) (wrap64 (genesisFailed c + 1)), data)
    end
  else (w, c, data).

(** The whole poll; the payload is what is offered to the channel. *)
Definition collect (w : W) (c : Collector) : W * Collector * payload :=
  let '(w, at_) := time_Now w in
  let s := fold_left poll_one polled (mkPoll w c ∅ 0 false) in
  let '(w, c, data) :=
    genesis_part (validators_part (block_part (ps_height s)
      (dump_part (ps_world s, ps_col s, ps_data s)))) in
  let reach := if ps_reachable s then "1" else "0" in
  (w, c, mkPayload (mkJSONTime at_) (<["rpc_reachable" := mkRaw (js reach)]> data)).

(** [Run]: the turns of its loop. A tick polls; the channel takes the payload, or the
    context ends while it waits for that. The context may also end between polls. *)
Inductive rpc_turn := RpcTick (taken : bool) | RpcDone.

(** The payloads the channel took, each with the height the collector knew after its
    poll. *)
Fixpoint rpc_Run (w : W) (c : Collector) (turns : list rpc_turn) : W * Collector * list (Z * payload) :=
  match turns with
  | [] | RpcDone :: _ => (w, c, [])
  | RpcTick taken :: turns' =>
      let '(w, c, p) := collect w c in
      let h := lastHeight c in
      let '(w, c, sent) := rpc_Run w c turns' in
      (w, c, if (taken : bool) then (h, p) :: sent else sent)
  end.
End Collect.

(** ** The parts one by one

    What a part may change: the data only under [ks], the height by [hR]. *)
Section Frame.
Context {W : Type}.
Context (net : W -> string -> W * get_outcome).
Context (time_Now : W -> W * Time).
Context (baseURL : string).

Definition touches (ks : list string) (data data' : gmap string RawMessage) : Prop :=
  forall k, k ∉ ks -> data' !! k = data !! k.

Lemma touches_refl ks data : touches ks data data.
Proof. by intros k. Qed.

Lemma touches_insert ks k raw data : k ∈ ks -> touches ks data (<[k := raw]> data).
Proof. intros Hk k' Hk'. apply lookup_insert_ne. by intros ->. Qed.

Lemma touches_trans ks1 ks2 d1 d2 d3 : touches ks1 d1 d2 -> touches ks2 d2 d3 -> touches (ks1 ++ ks2) d1 d3.
Proof. intros H1 H2 k [Hk1 Hk2]%not_elem_of_app. by rewrite H2, H1. Qed.

(** A step of a part: the world, the collector and the data before and after. *)
Definition step_ok (ks : list string) (hR : Z -> Z -> Prop) (s s' : W * Collector * gmap string RawMessage) : Prop :=
  touches ks s.2 s'.2 /\ hR (lastHeight s.1.2) (lastHeight s'.1.2).

Ltac step_tac :=
  repeat case_match; simplify_eq/=; split; cbn; auto using touches_refl, touches_insert, list_elem_of_here.

Lemma dump_part_ok s : step_ok ["dump_consensus_state"] eq s (dump_part net time_Now baseURL s).
Proof. destruct s as [[w c] data]. unfold dump_part. step_tac. Qed.

Lemma validators_part_ok s : step_ok ["validators"] eq s (validators_part net time_Now baseURL s).
Proof. destruct s as [[w c] data]. unfold validators_part. step_tac. Qed.

Lemma genesis_part_ok s : step_ok ["genesis"] eq s (genesis_part net time_Now baseURL s).
Proof. destruct s as [[w c] data]. unfold genesis_part. step_tac. Qed.

Lemma block_validators_ok h s : step_ok ["validators"] eq s (block_validators net time_Now baseURL h s).
Proof. destruct s as [[w c] data]. unfold block_validators. step_tac. Qed.

Lemma block_body_ok h s : step_ok ["block"] eq s (block_body net baseURL h s).
Proof. destruct s as [[w c] data]. unfold block_body. step_tac. Qed.

(** The block is only touched when the height grows. *)
Lemma block_part_ok h s :
  let s' := block_part net time_Now baseURL h s in
  step_ok ["validators"; "block"] Z.le s s'
  /\ (s'.2 !! "block" = s.2 !! "block" \/ lastHeight s.1.2 < lastHeight s'.1.2)
  /\ (lastHeight s.1.2 < h /\ 0 < h -> lastHeight s'.1.2 = h).
Proof.
  destruct s as [[w c] data]. unfold block_part. cbv zeta.
  destruct ((lastHeight c <? h) && (0 <? h)) eqn:Hb; zbool.
  - pose proof (block_validators_ok h (w, set_height c h, data)) as [Ht1 Hh1].
    pose proof (block_body_ok h (block_validators net time_Now baseURL h (w, set_height c h, data))) as [Ht2 Hh2].
    cbn in *. rewrite <- Hh2, <- Hh1. split; [split; [|cbn; lia]|split; [by right; lia|done]].
    apply (touches_trans ["validators"] ["block"] _ _ _ Ht1 Ht2).
  - cbn. split; [split; [apply touches_refl|cbn; lia]|]. split; [by left|].
    intros [??]. apply andb_false_iff in Hb as [Hb|Hb]; zbool; lia.
Qed.

Lemma poll_one_ok s p :
  touches [p.1] (ps_data s) (ps_data (poll_one net baseURL s p))
  /\ lastHeight (ps_col (poll_one net baseURL s p)) = lastHeight (ps_col s).
Proof.
  destruct p as [key path]. unfold poll_one.
  repeat case_match; simplify_eq/=; split; auto using touches_refl, touches_insert, list_elem_of_here.
Qed.

Lemma polls_ok l s :
  touches l.*1 (ps_data s) (ps_data (fold_left (poll_one net baseURL) l s))
  /\ lastHeight (ps_col (fold_left (poll_one net baseURL) l s)) = lastHeight (ps_col s).
Proof.
  revert s. induction l as [|p l IH]; intros s; [split; [apply touches_refl|done]|].
  cbn [fold_left fmap list_fmap]. destruct (poll_one_ok s p) as [Ht Hh].
  destruct (IH (poll_one net baseURL s p)) as [Ht' Hh']. split; [|by rewrite Hh'].
  apply (touches_trans [p.1] l.*1 _ _ _ Ht Ht').
Qed.
End Frame.

(** The keys the watchtower's extractor reads, but for what a beacon adds. *)
Definition collected_keys : list string :=
  ["status"; "net_info"; "num_unconfirmed_txs"; "dump_consensus_state"; "validators"; "block"; "genesis";
   "rpc_reachable"].

(** One poll, whatever the node answers: the payload only has keys the watchtower
    extracts samples from, always has the reachability flag (0 or 1), and the height the
    collector remembers never goes down, a block being sent only when it goes up: no block
    is sent twice, and none for a height behind one already seen. *)
Theorem collect_payload {W} (net : W -> string -> W * get_outcome) time_Now baseURL w c :
  let '(w', c', p) := collect net time_Now baseURL w c in
  (forall k, is_Some (Data p !! k) -> k ∈ collected_keys)
  /\ (Data p !! "rpc_reachable" = Some (mkRaw (js "1")) \/ Data p !! "rpc_reachable" = Some (mkRaw (js "0")))
  /\ lastHeight c <= lastHeight c'
  /\ (is_Some (Data p !! "block") -> lastHeight c < lastHeight c').
Proof.
  unfold collect. destruct (time_Now w) as [w0 at_].
  pose proof (polls_ok net baseURL polled (mkPoll w0 c ∅ 0 false)) as [Ht0 Hh0].
  set (s := fold_left (poll_one net baseURL) polled (mkPoll w0 c ∅ 0 false)) in *. clearbody s.
  pose proof (dump_part_ok net time_Now baseURL (ps_world s, ps_col s, ps_data s)) as [Ht1 Hh1].
  set (s1 := dump_part net time_Now baseURL (ps_world s, ps_col s, ps_data s)) in *. clearbody s1.
  pose proof (block_part_ok net time_Now baseURL (ps_height s) s1) as [[Ht2 Hh2] [Hblk _]].
  set (s2 := block_part net time_Now baseURL (ps_height s) s1) in *. clearbody s2.
  pose proof (validators_part_ok net time_Now baseURL s2) as [Ht3 Hh3].
  set (s3 := validators_part net time_Now baseURL s2) in *. clearbody s3.
  pose proof (genesis_part_ok net time_Now baseURL s3) as [Ht4 Hh4].
  destruct (genesis_part net time_Now baseURL s3) as [[w' c'] data].
  cbn [fst snd ps_data ps_col lastHeight Data] in *.
  assert (forall k, k ∉ collected_keys -> data !! k = None) as Hnone.
  { intros k Hn. rewrite (Ht4 k), (Ht3 k), (Ht2 k), (Ht1 k), (Ht0 k); [apply lookup_empty|..];
      intros Hin; apply Hn; clear -Hin; vm_compute in Hin |- *;
      repeat (apply elem_of_cons in Hin as [->|Hin]; [names_ok|]); by apply not_elem_of_nil in Hin. }
  split; [|split; [|split; [lia|]]].
  - intros k Hk. destruct (decide (k ∈ collected_keys)) as [|Hn]; [done|]. exfalso.
    rewrite lookup_insert_ne in Hk by (intros <-; apply Hn; names_ok).
    rewrite (Hnone k Hn) in Hk. by destruct Hk.
  - destruct (ps_reachable s); [left|right]; apply lookup_insert_eq.
  - rewrite lookup_insert_ne by done. intros Hk. destruct Hblk as [Hblk|Hlt]; [|lia].
    rewrite (Ht4 "block"), (Ht3 "block"), Hblk, (Ht1 "block"), (Ht0 "block") in Hk by (by apply (bool_decide_unpack _)).
    rewrite lookup_empty in Hk. by destruct Hk.
Qed.

(** ** A run *)

Definition carries_block (hp : Z * payload) : bool := bool_decide (is_Some (Data hp.2 !! "block")).

(** The heights of the blocks a run has sent. *)
Definition block_heights (sent : list (Z * payload)) : list Z := map fst (List.filter carries_block sent).

(** Over a whole run, whatever the node answers and whenever the channel is full, the
    heights of the blocks that are sent strictly increase from the one known at the start:
    no block is sent twice or out of order, also when the node falls back to an earlier
    height. *)
Theorem rpc_Run_blocks {W} (net : W -> string -> W * get_outcome) time_Now baseURL w c turns :
  let '(_, c', sent) := rpc_Run net time_Now baseURL w c turns in
  lastHeight c <= lastHeight c' /\ StronglySorted Z.lt (lastHeight c :: block_heights sent).
Proof.
  revert w c. induction turns as [|[taken|] turns IH]; intros w c; [repeat constructor; lia| |repeat constructor; lia].
  cbn [rpc_Run]. pose proof (collect_payload net time_Now baseURL w c) as Hc.
  destruct (collect net time_Now baseURL w c) as [[w1 c1] p]. destruct Hc as (_ & _ & Hle & Hb).
  specialize (IH w1 c1). destruct (rpc_Run net time_Now baseURL w1 c1 turns) as [[w2 c2] sent].
  destruct IH as [Hh [Hs Hall]%StronglySorted_inv]. split; [lia|].
  assert (StronglySorted Z.lt (lastHeight c :: block_heights sent)) as Hrest.
  { constructor; [done|]. eapply List.Forall_impl; [|exact Hall]. cbn. lia. }
  destruct taken; [|done]. unfold block_heights. cbn [List.filter]. unfold carries_block at 1. cbn [snd].
  case_bool_decide as Hk; [|done]. specialize (Hb Hk). cbn [map fst].
  constructor; [by constructor|]. constructor; [done|]. eapply List.Forall_impl; [|exact Hall]. cbn. lia.
Qed.

(** ** What was asked

    A client that also keeps the requests and the answers, in order. *)
Definition logged {W} (net : W -> string -> W * get_outcome) (w : W * list (string * get_outcome)) (url : string)
    : W * list (string * get_outcome) * get_outcome :=
  let '(w', o) := net w.1 url in ((w', w.2 ++ [(url, o)]), o).

(** A clock that stands still during one poll. *)
Definition still {W} (now : Time) (w : W) : W * Time := (w, now).

Definition answered (o : get_outcome) : bool := is_Ok (get_result o).

(** The height that an answer to /status tells, 0 when it tells none. *)
Definition status_height (o : get_outcome) : Z :=
  match get_result o with Ok raw => parseHeight raw | Err _ => 0 end.

Section Asked.
Context {W : Type}.
Context (net : W -> string -> W * get_outcome).
Context (now : Time).
Context (baseURL : string).

Abbreviation lnet := (logged net).
Abbreviation world := (W * list (string * get_outcome))%type.

Lemma client_get_logged (w : world) path w' r :
  client_get lnet baseURL w path = (w', r) ->
  exists o, r = get_result o /\ w'.2 = w.2 ++ [(baseURL +:+ path, o)].
Proof.
  unfold client_get, logged. destruct (net w.1 _) as [w1 o]. intros [= <- <-]. by exists o.
Qed.

(** A failed request is in the log. *)
Definition failed_in (tr : list (string * get_outcome)) (path : string) : Prop :=
  exists o, (baseURL +:+ path, o) ∈ tr /\ answered o = false.

(** [v] is what the node answered to a request in the log. *)
Definition fetched_in (tr : list (string * get_outcome)) (path : string) (v : option RawMessage) : Prop :=
  exists o raw, (baseURL +:+ path, o) ∈ tr /\ get_result o = Ok raw /\ v = Some raw.

Lemma fetched_prefix tr tr' path v : tr `prefix_of` tr' -> fetched_in tr path v -> fetched_in tr' path v.
Proof. intros [k ->] (o & raw & Hin & Ho). exists o, raw. rewrite elem_of_app. auto. Qed.

Lemma fetched_last (tr : list (string * get_outcome)) path o raw (data : gmap string RawMessage) k :
  get_result o = Ok raw -> fetched_in (tr ++ [(baseURL +:+ path, o)]) path (<[k := raw]> data !! k).
Proof.
  intros Ho. exists o, raw. rewrite lookup_insert_eq, elem_of_app. split; [right; by apply list_elem_of_singleton|done].
Qed.

(** Got, or asked for in vain. *)
Definition asked_in (tr : list (string * get_outcome)) (path : string) (v : option RawMessage) : Prop :=
  fetched_in tr path v \/ failed_in tr path.

Lemma failed_prefix tr tr' path : tr `prefix_of` tr' -> failed_in tr path -> failed_in tr' path.
Proof. intros [k ->] (o & Hin & Ho). exists o. rewrite elem_of_app. auto. Qed.

Lemma asked_prefix tr tr' path v : tr `prefix_of` tr' -> asked_in tr path v -> asked_in tr' path v.
Proof. intros H [Hf|Hf]; [left; by eapply fetched_prefix|right; by eapply failed_prefix]. Qed.

Lemma failed_last (tr : list (string * get_outcome)) path o e :
  get_result o = Err e -> failed_in (tr ++ [(baseURL +:+ path, o)]) path.
Proof.
  intros Ho. exists o. unfold answered. rewrite Ho. split; [|done].
  apply elem_of_app. right. by apply list_elem_of_singleton.
Qed.

Ltac asked :=
  repeat match goal with
  | H : client_get lnet _ _ _ = (_, _) |- _ => apply client_get_logged in H as (? & ? & ?)
  | H : still _ _ = (_, _) |- _ => injection H as ? ?
  end; simplify_eq/=.

Definition log_of (s : world * Collector * gmap string RawMessage) : list (string * get_outcome) := s.1.1.2.

Ltac prefixes :=
  unfold log_of; cbn;
  repeat match goal with H : snd ?w = _ |- context [snd ?w] => rewrite H end;
  first [done | by eexists].

Lemma dump_log s : log_of s `prefix_of` log_of (dump_part lnet (still now) baseURL s).
Proof. destruct s as [[w c] data]. unfold dump_part. repeat case_match; asked; prefixes. Qed.

Lemma block_validators_log h s : log_of s `prefix_of` log_of (block_validators lnet (still now) baseURL h s).
Proof. destruct s as [[w c] data]. unfold block_validators. repeat case_match; asked; prefixes. Qed.

Lemma block_body_spec h s :
  let s' := block_body lnet baseURL h s in
  log_of s `prefix_of` log_of s' /\ asked_in (log_of s') (block_path h) (s'.2 !! "block").
Proof.
  destruct s as [[w c] data]. unfold block_body. cbv zeta.
  destruct (client_get lnet baseURL w _) as [w1 r] eqn:Hg. apply client_get_logged in Hg as (o & -> & Hw).
  destruct (get_result o) as [raw|e] eqn:Ho; (split; [prefixes|]); unfold log_of; cbn; rewrite Hw.
  - left. by apply fetched_last.
  - right. by eapply failed_last.
Qed.

Lemma block_log h s : log_of s `prefix_of` log_of (block_part lnet (still now) baseURL h s).
Proof.
  destruct s as [[w c] data]. unfold block_part. case_match; [|done].
  etransitivity; [|apply block_body_spec]. etransitivity; [|apply block_validators_log]. done.
Qed.

(** The periodic re-emission: nothing to do with the set at hand; otherwise a fresh one, not
    yet due, or a failed request. *)
Lemma validators_part_spec s :
  let s' := validators_part lnet (still now) baseURL s in
  log_of s `prefix_of` log_of s'
  /\ match s.2 !! "validators" with
     | Some _ => s' = s
     | None => 0 < lastHeight s.1.2 ->
         Since now (lastValidatorsSentAt s.1.2) < validatorsRefreshInterval s.1.2
         \/ asked_in (log_of s') (validators_path (lastHeight s.1.2)) (s'.2 !! "validators")
     end.
Proof.
  destruct s as [[w c] data]. unfold validators_part. cbv zeta. cbn [fst snd].
  destruct (data !! "validators") as [v|] eqn:Hv; [done|].
  destruct (Z.ltb_spec 0 (lastHeight c)); [|split; [done|cbn; lia]]. unfold still.
  destruct (Z.leb_spec (validatorsRefreshInterval c) (Since now (lastValidatorsSentAt c))); [|split; [done|by left]].
  destruct (client_get lnet baseURL w _) as [w1 r] eqn:Hg. apply client_get_logged in Hg as (o & -> & Hw).
  destruct (get_result o) as [raw|e] eqn:Ho; (split; [prefixes|]); intros _; right; unfold log_of; cbn; rewrite Hw.
  - left. by apply fetched_last.
  - right. by eapply failed_last.
Qed.

Lemma genesis_part_spec s :
  let s' := genesis_part lnet (still now) baseURL s in
  log_of s `prefix_of` log_of s'
  /\ (IsZero (lastGenesisSentAt s.1.2) = false /\ Since now (lastGenesisSentAt s.1.2) < genesisRefreshInterval s.1.2
      \/ asked_in (log_of s') genesis_path (s'.2 !! "genesis")).
Proof.
  destruct s as [[w c] data]. unfold genesis_part, genesis_due, still. cbv zeta.
  destruct (IsZero (lastGenesisSentAt c)) eqn:Hz;
    [|destruct (Z.leb_spec (genesisRefreshInterval c) (Since now (lastGenesisSentAt c)))].
  1, 2: destruct (client_get lnet baseURL w _) as [w1 r] eqn:Hg; apply client_get_logged in Hg as (o & -> & Hw);
    destruct (get_result o) as [raw|e] eqn:Ho; (split; [prefixes|]); right; unfold log_of; cbn; rewrite Hw;
    [left; by apply fetched_last|right; by eapply failed_last].
  split; [done|]. left. cbn. auto.
Qed.

(** The three polled requests come first. *)
Lemma polls_logged w c data h b s :
  s = fold_left (poll_one lnet baseURL) polled (mkPoll (w, []) c data h b) ->
  exists o1 o2 o3,
    (ps_world s).2 = [(baseURL +:+ status_path, o1); (baseURL +:+ net_info_path, o2);
                      (baseURL +:+ num_unconfirmed_txs_path, o3)]
    /\ ps_reachable s = b || answered o1 || answered o2 || answered o3
    /\ ps_height s = (if answered o1 then status_height o1 else h)
    /\ lastValidatorsSentAt (ps_col s) = lastValidatorsSentAt c
    /\ lastGenesisSentAt (ps_col s) = lastGenesisSentAt c
    /\ validatorsRefreshInterval (ps_col s) = validatorsRefreshInterval c
    /\ genesisRefreshInterval (ps_col s) = genesisRefreshInterval c.
Proof.
  assert (forall s0 p, exists o,
    let s1 := poll_one lnet baseURL s0 p in
    (ps_world s1).2 = (ps_world s0).2 ++ [(baseURL +:+ p.2, o)]
    /\ ps_reachable s1 = ps_reachable s0 || answered o
    /\ ps_height s1 = (if bool_decide (p.1 = "status") && answered o then status_height o else ps_height s0)
    /\ lastValidatorsSentAt (ps_col s1) = lastValidatorsSentAt (ps_col s0)
    /\ lastGenesisSentAt (ps_col s1) = lastGenesisSentAt (ps_col s0)
    /\ validatorsRefreshInterval (ps_col s1) = validatorsRefreshInterval (ps_col s0)
    /\ genesisRefreshInterval (ps_col s1) = genesisRefreshInterval (ps_col s0)) as Hone.
  { intros s0 [key path]. unfold poll_one.
    destruct (client_get lnet baseURL _ path) as [w1 r] eqn:Hg. apply client_get_logged in Hg as (o & -> & Hw).
    exists o. cbv zeta. unfold answered, status_height. destruct (get_result o) as [raw|e]; cbn [is_Ok].
    - rewrite !andb_true_r. cbn [fst]. destruct (bool_decide (key = "status")); repeat case_match; simplify_eq/=; by rewrite ?orb_true_r.
    - rewrite !andb_false_r. cbn. by rewrite orb_false_r. }
  intros ->. unfold polled. cbn [fold_left].
  set (s0 := mkPoll (w, []) c data h b).
  destruct (Hone s0 ("status", status_path)) as (o1 & Hw1 & Hr1 & Hp1 & Hv1 & Hg1 & Hi1 & Hj1).
  set (s1 := poll_one lnet baseURL s0 ("status", status_path)) in *. clearbody s1.
  destruct (Hone s1 ("net_info", net_info_path)) as (o2 & Hw2 & Hr2 & Hp2 & Hv2 & Hg2 & Hi2 & Hj2).
  set (s2 := poll_one lnet baseURL s1 ("net_info", net_info_path)) in *. clearbody s2.
  destruct (Hone s2 ("num_unconfirmed_txs", num_unconfirmed_txs_path)) as (o3 & Hw3 & Hr3 & Hp3 & Hv3 & Hg3 & Hi3 & Hj3).
  exists o1, o2, o3. rewrite Hw3, Hw2, Hw1, Hr3, Hr2, Hr1, Hp3, Hp2, Hp1, Hv3, Hv2, Hv1, Hg3, Hg2, Hg1, Hi3, Hi2, Hi1, Hj3, Hj2, Hj1.
  by rewrite <- !(assoc_L (++)).
Qed.

(** What stays while the parts run. *)
Definition same_clocks (c c' : Collector) : Prop :=
  lastGenesisSentAt c' = lastGenesisSentAt c
  /\ validatorsRefreshInterval c' = validatorsRefreshInterval c
  /\ genesisRefreshInterval c' = genesisRefreshInterval c.

Lemma dump_clocks s :
  let s' := dump_part lnet (still now) baseURL s in
  same_clocks s.1.2 s'.1.2 /\ lastValidatorsSentAt s'.1.2 = lastValidatorsSentAt s.1.2.
Proof. destruct s as [[w c] data]. unfold dump_part, same_clocks. by repeat case_match; asked. Qed.

Lemma validators_clocks s : same_clocks s.1.2 (validators_part lnet (still now) baseURL s).1.2.
Proof. destruct s as [[w c] data]. unfold validators_part, same_clocks. by repeat case_match; asked. Qed.

Lemma block_validators_clocks h s :
  let s' := block_validators lnet (still now) baseURL h s in
  same_clocks s.1.2 s'.1.2
  /\ (lastValidatorsSentAt s'.1.2 = lastValidatorsSentAt s.1.2 /\ s'.2 !! "validators" = s.2 !! "validators"
      \/ fetched_in (log_of s') (validators_path h) (s'.2 !! "validators")).
Proof.
  destruct s as [[w c] data]. unfold block_validators, same_clocks, log_of. cbv zeta.
  destruct (client_get lnet baseURL w _) as [w1 r] eqn:Hg. apply client_get_logged in Hg as (o & -> & Hw).
  destruct (get_result o) as [raw|e] eqn:Ho; [|by split; [|left]].
  destruct (Changed _ _ _) as [d [|]]; [|by split; [|left]]. cbn. split; [done|right]. rewrite Hw. by apply fetched_last.
Qed.

(** A height is new when it is above the one known, and above 0. *)
Definition new_height (known h : Z) : Prop := known < h /\ 0 < h.

#[export] Instance new_height_dec known h : Decision (new_height known h).
Proof. unfold new_height. apply _. Defined.

Lemma block_part_spec h s :
  let s' := block_part lnet (still now) baseURL h s in
  if decide (new_height (lastHeight s.1.2) h) then
    same_clocks s.1.2 s'.1.2 /\ lastHeight s'.1.2 = h
    /\ (lastValidatorsSentAt s'.1.2 = lastValidatorsSentAt s.1.2 /\ s'.2 !! "validators" = s.2 !! "validators"
        \/ fetched_in (log_of s') (validators_path h) (s'.2 !! "validators"))
    /\ asked_in (log_of s') (block_path h) (s'.2 !! "block")
  else s' = s.
Proof.
  destruct s as [[w c] data]. unfold block_part. cbv zeta. cbn [fst snd].
  destruct (decide (new_height _ _)) as [[H1 H2]|Hn].
  2: { destruct (Z.ltb_spec (lastHeight c) h), (Z.ltb_spec 0 h); cbn [andb]; try done. by destruct Hn. }
  rewrite (proj2 (Z.ltb_lt _ _) H1), (proj2 (Z.ltb_lt _ _) H2). cbn [andb].
  set (s1 := (w, set_height c h, data)). destruct (block_validators_clocks h s1) as [Hc Hv].
  pose proof (block_validators_ok lnet (still now) baseURL h s1) as [_ Hh1].
  set (s2 := block_validators lnet (still now) baseURL h s1) in *. clearbody s2.
  pose proof (block_body_ok lnet baseURL h s2) as [Ht Hh2].
  destruct (block_body_spec h s2) as [Hl Hb].
  assert ((block_body lnet baseURL h s2).1.2 = s2.1.2) as Heq.
  { destruct s2 as [[w2 c2] d2]. unfold block_body. by repeat case_match. }
  rewrite Heq, (Ht "validators") by (by apply (bool_decide_unpack _)).
  split_and!; [exact Hc|by rewrite <- Hh1| |exact Hb].
  destruct Hv as [Hv|Hv]; [by left|right]. by eapply fetched_prefix.
Qed.
End Asked.

(** What comes after the polled requests, at a known height [l] and a told height [h]. *)
Record followed_up (baseURL : string) (now : Time) (c c' : Collector) (h : Z) (tr : list (string * get_outcome))
    (data : gmap string RawMessage) : Prop := mkFollowedUp {
  fu_height : lastHeight c' = if decide (new_height (lastHeight c) h) then h else lastHeight c;
  fu_block : if decide (new_height (lastHeight c) h) then asked_in baseURL tr (block_path h) (data !! "block")
             else data !! "block" = None;
  fu_validators : 0 < lastHeight c' ->
    asked_in baseURL tr (validators_path (lastHeight c')) (data !! "validators")
    \/ Since now (lastValidatorsSentAt c) < validatorsRefreshInterval c;
  fu_genesis :
    asked_in baseURL tr genesis_path (data !! "genesis")
    \/ IsZero (lastGenesisSentAt c) = false /\ Since now (lastGenesisSentAt c) < genesisRefreshInterval c
}.

Section Parts.
Context {W : Type}.
Context (net : W -> string -> W * get_outcome).
Context (now : Time).
Context (baseURL : string).

Abbreviation lnet := (logged net).
Abbreviation the_block := (block_part lnet (still now) baseURL).
Abbreviation the_validators := (validators_part lnet (still now) baseURL).
Abbreviation the_genesis := (genesis_part lnet (still now) baseURL).

(** The block and the two validator parts. *)
Lemma block_validators_follow h s :
  s.2 !! "block" = None -> s.2 !! "validators" = None ->
  let s' := the_validators (the_block h s) in
  log_of s `prefix_of` log_of s' /\ same_clocks s.1.2 s'.1.2
  /\ lastHeight s'.1.2 = (if decide (new_height (lastHeight s.1.2) h) then h else lastHeight s.1.2)
  /\ (if decide (new_height (lastHeight s.1.2) h) then asked_in baseURL (log_of s') (block_path h) (s'.2 !! "block")
      else s'.2 !! "block" = None)
  /\ (0 < lastHeight s'.1.2 ->
      asked_in baseURL (log_of s') (validators_path (lastHeight s'.1.2)) (s'.2 !! "validators")
      \/ Since now (lastValidatorsSentAt s.1.2) < validatorsRefreshInterval s.1.2).
Proof.
  intros Hb0 Hv0 s'. pose proof (block_log net now baseURL h s) as Hl1. pose proof (block_part_spec net now baseURL h s) as H1.
  cbv zeta in H1. unfold s'. clear s'. set (s1 := the_block h s) in *. clearbody s1.
  destruct (validators_part_spec net now baseURL s1) as [Hl2 Hv2].
  pose proof (validators_part_ok lnet (still now) baseURL s1) as [Ht2 Hh2].
  pose proof (validators_clocks net now baseURL s1) as Hc2.
  set (s2 := the_validators s1) in *. clearbody s2. rewrite (Ht2 "block") by (by apply (bool_decide_unpack _)).
  split; [by etransitivity|]. rewrite <- Hh2. destruct (decide (new_height _ _)) as [Hn|Hn].
  - destruct H1 as (Hc1 & Hh1 & Hv1 & Hb1). destruct Hc1 as (A1 & A2 & A3), Hc2 as (B1 & B2 & B3).
    split; [by split_and!; congruence|]. split; [done|]. split; [by eapply asked_prefix|]. intros Hpos.
    destruct Hv1 as [[Hs Hv1]|Hf].
    + rewrite Hv1, Hv0, Hs, A2 in Hv2. destruct (Hv2 Hpos) as [?|?]; [by right|by left].
    + pose proof Hf as (o & raw & _ & _ & Hraw). rewrite Hraw in Hv2. subst s2. left; left. by rewrite Hh1.
  - subst s1. split; [exact Hc2|]. split; [done|]. split; [done|]. intros Hpos. rewrite Hv0 in Hv2.
    destruct (Hv2 Hpos) as [?|?]; [by right|by left].
Qed.

(** All of them. *)
Lemma parts_follow h s c :
  s.2 !! "block" = None -> s.2 !! "validators" = None -> lastHeight s.1.2 = lastHeight c -> same_clocks c s.1.2 ->
  lastValidatorsSentAt s.1.2 = lastValidatorsSentAt c ->
  let s' := the_genesis (the_validators (the_block h s)) in
  log_of s `prefix_of` log_of s' /\ followed_up baseURL now c s'.1.2 h (log_of s') s'.2.
Proof.
  intros Hb Hv Hh (C1 & C2 & C3) Hs s'. destruct (block_validators_follow h s Hb Hv) as (Hl & (A1 & A2 & A3) & Hh1 & Hb1 & Hv1).
  unfold s'. clear s'. set (s1 := the_validators (the_block h s)) in *. clearbody s1.
  pose proof (genesis_part_ok lnet (still now) baseURL s1) as [Ht2 Hh2].
  destruct (genesis_part_spec net now baseURL s1) as [Hl2 Hg].
  set (s2 := the_genesis s1) in *. clearbody s2. split; [by etransitivity|]. rewrite Hh, Hs, C2 in *.
  constructor; rewrite <- ?Hh2; [done|..].
  - rewrite (Ht2 "block") by (by apply (bool_decide_unpack _)). destruct (decide _); [by eapply asked_prefix|done].
  - rewrite (Ht2 "validators") by (by apply (bool_decide_unpack _)). intros Hpos.
    destruct (Hv1 Hpos) as [Ha|Ha]; [left; by eapply asked_prefix|by right].
  - rewrite A1, A3, C1, C3 in Hg. destruct Hg as [Hg|Hg]; [by right|by left].
Qed.
End Parts.

(** C37: What a poll owes the dashboards, at a clock reading [now] and whatever the node
    answers. The three polled endpoints are asked first and the reachability flag is 1
    exactly when one of them answered. When the answer to /status tells a height above the
    one known, that is the height known from then on, and the payload has the node's answer
    to the request for the block of that height, unless this request failed; otherwise the
    height stays and there is no block. Once a height is known, the payload has the node's
    validator set of that height, unless one was sent less than the refresh interval ago or
    a request for it failed in this poll; and the same holds of the genesis document from
    the first poll on. *)
Theorem collect_fresh {W} (net : W -> string -> W * get_outcome) now baseURL w c w' tr c' p :
  collect (logged net) (still now) baseURL (w, []) c = ((w', tr), c', p) ->
  exists o1 o2 o3 rest,
    tr = [(baseURL +:+ status_path, o1); (baseURL +:+ net_info_path, o2);
          (baseURL +:+ num_unconfirmed_txs_path, o3)] ++ rest
    /\ Data p !! "rpc_reachable"
       = Some (mkRaw (js (if answered o1 || answered o2 || answered o3 then "1" else "0")))
    /\ (if decide (new_height (lastHeight c) (status_height o1)) then
          lastHeight c' = status_height o1
          /\ asked_in baseURL tr (block_path (status_height o1)) (Data p !! "block")
        else lastHeight c' = lastHeight c /\ Data p !! "block" = None)
    /\ (0 < lastHeight c' ->
        asked_in baseURL tr (validators_path (lastHeight c')) (Data p !! "validators")
        \/ Since now (lastValidatorsSentAt c) < validatorsRefreshInterval c)
    /\ (asked_in baseURL tr genesis_path (Data p !! "genesis")
        \/ IsZero (lastGenesisSentAt c) = false /\ Since now (lastGenesisSentAt c) < genesisRefreshInterval c).
Proof.
  unfold collect, still at 1.
  pose proof (polls_ok (logged net) baseURL polled (mkPoll (w, []) c ∅ 0 false)) as [Ht0 Hh0].
  destruct (polls_logged net baseURL w c ∅ 0 false _ eq_refl) as (o1 & o2 & o3 & Hw0 & Hr & Hp & Hv0 & Hg0 & Hi0 & Hj0).
  set (s := fold_left (poll_one (logged net) baseURL) polled (mkPoll (w, []) c ∅ 0 false)) in *. clearbody s.
  set (s0 := (ps_world s, ps_col s, ps_data s)) in *.
  pose proof (dump_part_ok (logged net) (still now) baseURL s0) as [Ht1 Hh1].
  pose proof (dump_log net now baseURL s0) as Hl1. destruct (dump_clocks net now baseURL s0) as [(Hg1 & Hi1 & Hj1) Hv1].
  set (s1 := dump_part (logged net) (still now) baseURL s0) in *. clearbody s1.
  destruct (parts_follow net now baseURL (ps_height s) s1 c) as [Hl Hf].
  1, 2: rewrite Ht1, Ht0 by (by apply (bool_decide_unpack _)); apply lookup_empty.
  1: by rewrite <- Hh1. 1: by split_and!; [rewrite Hg1|rewrite Hi1|rewrite Hj1]. 1: by rewrite Hv1.
  destruct (genesis_part _ _ _ _) as [[[w4 tr4] c4] data4]. intros [= <- <- <- <-].
  unfold log_of in *. subst s0. cbn [fst snd Data] in *. rewrite Hr. cbn [orb].
  assert (ps_height s = status_height o1) as Hph.
  { rewrite Hp. unfold answered, status_height. by destruct (get_result o1). }
  rewrite Hph in Hf. destruct Hf as [F1 F2 F3 F4]. destruct Hl1 as [k1 Hl1], Hl as [k2 Hl].
  exists o1, o2, o3, (k1 ++ k2). split; [by rewrite Hl, Hl1, Hw0, <- !(assoc_L (++))|].
  split; [apply lookup_insert_eq|]. rewrite !lookup_insert_ne by done.
  split; [by destruct (decide _)|]. by split.
Qed.

(** ** Evaluations *)

(** A node at height 7 that knows nothing else. *)
Definition sample_node (w : Z) (url : string) : Z * get_outcome :=
  if bool_decide (url = "http://n:26657/status") then
    (w, GetAnswered 200 (jq "{'jsonrpc':'2.0','result':{'sync_info':{'latest_block_height':'7'}}}"))
  else if bool_decide (url = "http://n:26657/block?height=7") then (w, GetAnswered 200 (jq "{'result':{}}"))
  else (w, GetAnswered 500 []).

Definition sample_collector : Collector := NewCollector Second Minute 0 0.
Definition sample_poll := collect (logged sample_node) (still Hour) "http://n:26657" (0, []) sample_collector.

Example sample_poll_payload :
  (map fst sample_poll.1.1.2, lastHeight sample_poll.1.2,
   (fun p => (p.1, string_of_bytes (raw_text p.2))) <$> map_to_list (Data sample_poll.2))
  = (["http://n:26657/status"; "http://n:26657/net_info"; "http://n:26657/num_unconfirmed_txs";
      "http://n:26657/dump_consensus_state"; "http://n:26657/validators?height=7"; "http://n:26657/block?height=7";
      "http://n:26657/validators?height=7"; "http://n:26657/genesis"], 7,
     [("status", string_of_bytes (jq "{'sync_info':{'latest_block_height':'7'}}"));
      ("rpc_reachable", "1"); ("block", "{}")]).
Proof. vm_compute. reflexivity. Qed.

Lemma collect_fresh_witness :
  Data sample_poll.2 !! "rpc_reachable" = Some (mkRaw (js "1"))
  /\ lastHeight sample_poll.1.2 = 7
  /\ asked_in "http://n:26657" sample_poll.1.1.2 (block_path 7) (Data sample_poll.2 !! "block")
  /\ (asked_in "http://n:26657" sample_poll.1.1.2 (validators_path 7) (Data sample_poll.2 !! "validators")
      \/ Since Hour zeroTime < 12 * Hour).
Proof.
  destruct sample_poll as [[[w' tr] c'] p] eqn:E.
  destruct (collect_fresh sample_node Hour "http://n:26657" 0 sample_collector w' tr c' p E)
    as (o1 & o2 & o3 & rest & Ht & Hr & Hb & Hv & _).
  assert (Hh : lastHeight c' = 7) by (vm_compute in E; injection E as _ _ <- _; reflexivity).
  assert (Hd : Data p !! "rpc_reachable" = Some (mkRaw (js "1")))
    by (vm_compute in E; injection E as _ _ _ <-; vm_compute; reflexivity).
  cbn [fst snd]. split; [exact Hd|]. split; [exact Hh|]. rewrite Hh in Hv.
  destruct (decide (new_height _ _)) as [_|_]; [|exfalso; destruct Hb as [Hb _]; rewrite Hb in Hh; discriminate Hh].
  destruct Hb as [Hb1 Hb2]. rewrite Hh in Hb1. rewrite <- Hb1 in Hb2. split; [exact Hb2|]. apply Hv. lia.
Defined.
