(* ===== verification/Metadata.v ===== *)
(** * internal/sentinel/metadata

    The configuration keys of a node, from its TOML file or from a command. The TOML
    library is an argument, with the values it decodes to as a tree; so are the file system
    and the shell, which act on a world [W], and the [%v] formatting of the kinds of value
    that are not strings, integers or booleans. *)

From Stdlib Require Import Ascii.
From S2P Require Import Prelude GoStrings GoTime GoJson GoRfc3339 Protocol Delta SentinelConfig VmLines.

Local Open Scope Z_scope.

Definition ConfigKeys : list string :=
  ["application.prune_strategy"; "consensus.peer_gossip_sleep_duration"; "consensus.timeout_commit";
   "mempool.size"; "p2p.flush_throttle_timeout"; "p2p.max_num_outbound_peers"; "p2p.pex"].

Inductive toml_value (X : Type) :=
| TString (s : string)
| TInt (z : Z)
| TBool (b : bool)
| TTable (l : list (string * toml_value X))
| TOther (x : X).
Arguments TString {X} s.
Arguments TInt {X} z.
Arguments TBool {X} b.
Arguments TTable {X} l.
Arguments TOther {X} x.

Inductive key_read_error := ErrReadFile | ErrParseFile | ErrKeyNotFound (key : string) | ErrRunCmd (cmd : string).

Section Metadata.
Context {W X : Type}.
Context (read_file : W -> string -> option bytes).
Context (toml_Unmarshal : bytes -> option (list (string * toml_value X))).
Context (show : toml_value X -> string).
(** [sh -c cmd]: the standard output, [None] when the command fails. *)
Context (shell : W -> string -> W * option bytes).

Definition Sprintf_v (v : toml_value X) : string :=
  match v with
  | TString s => s
  | TInt z => Itoa z
  | TBool b => if b then "true" else "false"
  | _ => show v
  end.

Definition table_get (k : string) (v : toml_value X) : option (toml_value X) :=
  match v with
  | TTable l => snd <$> List.find (fun p => bool_decide (p.1 = k)) l
  | _ => None
  end.

(** Down the path; the source takes the last step outside of its loop. *)
Fixpoint descend (parts : list string) (node : toml_value X) : option (toml_value X) :=
  match parts with
  | [] => Some node
  | p :: parts => match table_get p node with Some v => descend parts v | None => None end
  end.

Definition ReadConfigKey (w : W) (configPath key : string) : result string key_read_error :=
  match read_file w configPath with
  | None => Err ErrReadFile
  | Some b =>
      match toml_Unmarshal b with
      | None => Err ErrParseFile
      | Some root =>
          match descend (Split key ".") (TTable root) with
          | Some v => Ok (Sprintf_v v)
          | None => Err (ErrKeyNotFound key)
          end
      end
  end.

Definition RunCmd (w : W) (cmd : string) : W * result string key_read_error :=
  let '(w, out) := shell w cmd in
  (w, match out with Some b => Ok (TrimSpace (string_of_bytes b)) | None => Err (ErrRunCmd cmd) end).

(** One key, from the file when there is a path and from the command otherwise. *)
Definition read_key (configPath configGetCmd : string) (w : W) (key : string) : W * result string key_read_error :=
  if negb (bool_decide (configPath = EmptyString)) then (w, ReadConfigKey w configPath key)
  else RunCmd w (ReplaceAll configGetCmd "%s" key).

(** The loop over the keys: those that cannot be read are left out. *)
Definition read_keys (configPath configGetCmd : string) (w : W) (keys : list string) : W * gmap string string :=
  fold_left (fun acc key =>
    let '(w, values) := acc in
    let '(w, r) := read_key configPath configGetCmd w key in
    (w, match r with Ok val => <[key := val]> values | Err _ => values end)) keys (w, ∅).

(** ** The collector *)

Record MdCollector := mkMdCollector { md_cfg : MetadataConfig; md_delta : Delta; md_forceInterval : Duration }.

Definition defaultForceInterval : Duration := 12 * Hour.

Definition md_NewCollector (cfg : MetadataConfig) : MdCollector :=
  let fi := ForceInterval cfg in
  mkMdCollector cfg NewDelta (if fi <=? 0 then defaultForceInterval else fi).

Definition watchedPaths (c : MdCollector) : list string :=
  if negb (bool_decide (ConfigPath (md_cfg c) = EmptyString))
     && bool_decide (ConfigGetCmd (md_cfg c) = EmptyString)
  then [ConfigPath (md_cfg c)] else [].

Definition collectConfig (w : W) (c : MdCollector) (force : bool) : W * MdCollector * gmap string RawMessage :=
  let cfg := md_cfg c in
  if bool_decide (ConfigPath cfg = EmptyString) && bool_decide (ConfigGetCmd cfg = EmptyString) then (w, c, ∅)
  else
    let '(w, values) := read_keys (ConfigPath cfg) (ConfigGetCmd cfg) w ConfigKeys in
    if bool_decide (values = ∅) then (w, c, ∅)
    else
      let b := encode_string_map values in
      if force then (w, c, {["config" := mkRaw b]})
      else
        let '(d, changed) := Changed (md_delta c) "config" b in
        (w, mkMdCollector cfg d (md_forceInterval c), if (changed : bool) then {["config" := mkRaw b]} else ∅).

(** The payload offered to the channel, if any. *)
Definition collectAndSend (w : W) (c : MdCollector) (now : Time) (force : bool)
    : W * MdCollector * option payload :=
  let '(w, c, data) := collectConfig w c force in
  (w, c, if bool_decide (data = ∅) then None else Some (mkPayload (mkJSONTime now) data)).

(** What the loop of [Run] can receive. *)
Inductive md_event :=
| MdTick | MdForceTick
| MdFileEvent (write_or_create : bool)
| MdWatchError
| MdCancelled | MdWatcherClosed.

(** One turn of the loop at a clock reading; [None] when it returns. *)
Definition md_turn (w : W) (c : MdCollector) (now : Time) (e : md_event)
    : option (W * MdCollector * option payload) :=
  match e with
  | MdTick => Some (collectAndSend w c now false)
  | MdForceTick => Some (collectAndSend w c now true)
  | MdFileEvent true => Some (collectAndSend w c now false)
  | MdFileEvent false | MdWatchError => Some (w, c, None)
  | MdCancelled | MdWatcherClosed => None
  end.

(** ** Facts *)

(** The last successful reading of each key; keys of the list only. *)
Lemma read_keys_file configPath cmd w keys :
  configPath <> EmptyString ->
  (read_keys configPath cmd w keys).1 = w
  /\ forall k, (read_keys configPath cmd w keys).2 !! k
     = if bool_decide (k ∈ keys) then match ReadConfigKey w configPath k with Ok v => Some v | Err _ => None end
       else None.
Proof.
  intros Hp. unfold read_keys.
  set (step := fun (acc : W * gmap string string) key => _).
  assert (forall keys (vs : gmap string string),
    (fold_left step keys (w, vs)).1 = w
    /\ forall k, (fold_left step keys (w, vs)).2 !! k
       = if bool_decide (k ∈ keys) then match ReadConfigKey w configPath k with Ok v => Some v | Err _ => vs !! k end
         else vs !! k) as Hg.
  { clear keys. intros keys. induction keys as [|key keys IH]; intros vs.
    - split; [done|]. intros k. by rewrite bool_decide_eq_false_2 by apply not_elem_of_nil.
    - cbn [fold_left].
      assert (step (w, vs) key
        = (w, match ReadConfigKey w configPath key with Ok val => <[key := val]> vs | Err _ => vs end)) as ->.
      { unfold step, read_key. by rewrite bool_decide_eq_false_2. }
      destruct (IH (match ReadConfigKey w configPath key with Ok val => <[key := val]> vs | Err _ => vs end)) as [H1 H2].
      split; [exact H1|]. intros k. rewrite H2.
      destruct (decide (k = key)) as [->|Hne].
      + rewrite (bool_decide_eq_true_2 (key ∈ key :: keys)) by apply list_elem_of_here.
        destruct (ReadConfigKey w configPath key); case_bool_decide; rewrite ?lookup_insert_eq; done.
      + assert (bool_decide (k ∈ key :: keys) = bool_decide (k ∈ keys)) as ->.
        { apply bool_decide_ext. rewrite elem_of_cons. naive_solver. }
        assert (match ReadConfigKey w configPath key with Ok val => <[key := val]> vs | Err _ => vs end !! k = vs !! k) as ->.
        { destruct (ReadConfigKey w configPath key); [by rewrite lookup_insert_ne|done]. }
        done. }
  destruct (Hg keys ∅) as [H1 H2]. split; [exact H1|]. intros k. rewrite H2, lookup_empty. done.
Qed.

(** In file mode one collection reports exactly the listed keys that the file has, each
    with the value at its path, and nothing else; it offers a payload unless no key could be
    read or the report is the one the delta filter saw last, and a forced collection is
    never filtered. *)
Theorem collectConfig_file w c force :
  ConfigPath (md_cfg c) <> EmptyString ->
  let '(w', c', data) := collectConfig w c force in
  exists values,
    (forall k, values !! k
       = if bool_decide (k ∈ ConfigKeys)
         then match ReadConfigKey w (ConfigPath (md_cfg c)) k with Ok v => Some v | Err _ => None end
         else None)
    /\ w' = w
    /\ data = (if decide (values = ∅ \/ force = false
                         /\ (Changed (md_delta c) "config" (encode_string_map values)).2 = false)
              then ∅ else {["config" := mkRaw (encode_string_map values)]}).
Proof.
  intros Hp. unfold collectConfig. rewrite (bool_decide_eq_false_2 (ConfigPath _ = _)) by done. cbn [andb].
  pose proof (read_keys_file (ConfigPath (md_cfg c)) (ConfigGetCmd (md_cfg c)) w ConfigKeys Hp) as [Hw Hv].
  destruct (read_keys _ _ w ConfigKeys) as [w1 values]. cbn in Hw. subst w1. cbn [snd] in Hv.
  destruct (decide (values = ∅)) as [He|He];
    [rewrite bool_decide_eq_true_2 by done|rewrite bool_decide_eq_false_2 by done].
  - exists values. split; [exact Hv|]. split; [done|]. by rewrite decide_True by auto.
  - destruct force; [|destruct (Changed (md_delta c) "config" (encode_string_map values)) as [d [|]] eqn:Hc];
      exists values; (split; [exact Hv|]); (split; [done|]); rewrite ?Hc.
    + rewrite decide_False by naive_solver. done.
    + rewrite decide_False by (cbn; naive_solver). done.
    + rewrite decide_True by (right; done). done.
Qed.
End Metadata.

(** ** Evaluations *)

Definition sample_file (_ : unit) (path : string) : option bytes :=
  if bool_decide (path = "/cfg.toml") then Some (js "x") else None.
Definition sample_toml (_ : bytes) : option (list (string * toml_value unit)) :=
  Some [("p2p", TTable [("pex", TBool true); ("max_num_outbound_peers", TInt 40)]);
        ("mempool", TTable [("size", TString "5000")]); ("consensus", TInt 3)].
Definition sample_shell (w : unit) (cmd : string) : unit * option bytes := (w, None).

Definition sample_md : MdCollector :=
  md_NewCollector (mkMetadataConfig true Minute 0 "/cfg.toml" EmptyString).

Example sample_metadata :
  match collectConfig sample_file sample_toml (fun _ => "?") sample_shell tt sample_md false with
  | (_, c', data) =>
      (raw_text <$> data !! "config",
       (collectConfig sample_file sample_toml (fun _ => "?") sample_shell tt c' false).2)
      = (Some (jq "{'mempool.size':'5000','p2p.max_num_outbound_peers':'40','p2p.pex':'true'}"), ∅)
  end.
Proof. vm_compute. reflexivity. Qed.

Lemma collectConfig_file_witness :
  match collectConfig sample_file sample_toml (fun _ => "?") sample_shell tt sample_md true with
  | (_, _, data) => exists values, values !! "p2p.pex" = Some "true" /\ values !! "p2p.laddr" = None
      /\ data = {["config" := mkRaw (encode_string_map values)]}
  end.
Proof.
  pose proof (collectConfig_file sample_file sample_toml (fun _ => "?") sample_shell tt sample_md true
    ltac:(discriminate)) as H.
  destruct (collectConfig _ _ _ _ tt sample_md true) as [[w' c'] data].
  destruct H as (values & Hv & _ & Hd). exists values. rewrite !Hv.
  split; [vm_compute; reflexivity|]. split; [vm_compute; reflexivity|].
  rewrite Hd. destruct (decide _) as [[He|[Hf _]]|_]; [exfalso|discriminate Hf|reflexivity].
  pose proof (Hv "p2p.pex") as Hx. rewrite He in Hx. vm_compute in Hx. discriminate Hx.
Defined.
