(* ===== verification/LogsCollector.v ===== *)
(** * internal/sentinel/logs (source.go, collector.go)

    From the lines of a log source to the payloads of the sender. What a source (docker and
    journald, in LogSources) does to a line before it enters the collector is [EnsureJSON]
    and [ParseLevel]. The collector's loop is a step on events; in a flush the
    order of the levels is [range], and an event says after how many sends, if any, the
    [select] saw the cancelled context. *)

From Stdlib Require Import Ascii.
From S2P Require Import Prelude GoStrings GoTime GoFloat GoJson GoJsonText GoJsonEncode GoFloatText GoRfc3339 Protocol Logger.

Local Open Scope Z_scope.

Record LogLine := mkLogLineIn { line_Level : string; line_Raw : RawMessage }.

(** ** One line *)

Record level_line := mkLevelLine { lv_Level : string }.
#[export] Instance zero_level_line : GoZero level_line := mkLevelLine go_zero.
#[export] Instance from_level_line : FromJSON level_line := fun _ =>
  from_struct [fld "level" lv_Level (fun _ x => mkLevelLine x)].

Definition known_levels : list string := ["debug"; "info"; "warn"; "error"].

Definition logs_ParseLevel (raw : RawMessage) : string :=
  match (Unmarshal (raw_text raw) : option level_line) with
  | None => "info"
  | Some l => if bool_decide (lv_Level l ∈ known_levels) then lv_Level l else "info"
  end.

(** [json.Valid]. *)
Definition json_valid (b : bytes) : bool := match json_parse b with Some _ => true | None => false end.

Definition now_seconds (now : Time) : float64 := f64_div (f64_of_Z (UnixNano now)) (f64_of_Z 1000000000).

Definition wrapAsSentinelRaw (raw : bytes) (now : Time) : RawMessage :=
  match encode_float (now_seconds now) with
  | Some ts =>
      mkRaw (encode_map
        [("level", encode_string "info"); ("ts", ts); ("module", encode_string "sentinel-raw");
         ("msg", encode_string (string_of_bytes raw))])
  | None => mkRaw (jq "{'level':'info','module':'sentinel-raw','msg':'<unserializable>'}")
  end.

(** Adds a field the object lacks. *)
Definition fill (k : string) (v : bytes) (obj : gmap string RawMessage) : gmap string RawMessage :=
  match obj !! k with Some _ => obj | None => <[k := mkRaw v]> obj end.

Definition mandatory_fields : list string := ["ts"; "level"; "msg"; "module"].

Definition has_mandatory (obj : gmap string RawMessage) : bool :=
  forallb (fun k => bool_decide (is_Some (obj !! k))) mandatory_fields.

Definition fill_all (now : Time) (obj : gmap string RawMessage) : gmap string RawMessage :=
  fill "module" (jq "'unknown'") (fill "msg" (jq "''") (fill "level" (jq "'info'")
    (fill "ts" (bytes_of_string (FormatFloat_f (now_seconds now))) obj))).

(** Nil, the line to skip, is [None]. *)
Definition EnsureJSON (raw : bytes) (now : Time) : option RawMessage :=
  match TrimSpaceBytes raw with
  | [] => None
  | _ =>
      Some (if negb (json_valid raw) then wrapAsSentinelRaw raw now
            else
              match (Unmarshal raw : option (option (gmap string RawMessage))) with
              | Some (Some obj) =>
                  if has_mandatory obj then mkRaw raw
                  else match encode_raw_map (fill_all now obj) with
                       | Some filled => mkRaw filled
                       | None => wrapAsSentinelRaw raw now
                       end
              | _ => wrapAsSentinelRaw raw now
              end)
  end.

(** What a source sends for a raw line. *)
Definition source_line (raw : bytes) (now : Time) : option LogLine :=
  line ← EnsureJSON raw now; Some (mkLogLineIn (logs_ParseLevel line) line).

(** [buildLogsOptions]: where the docker stream starts, [Since] in seconds or a zero tail. *)
Inductive logs_start := StartSince (secs : string) | StartTail0.
Definition buildLogsOptions (lookback : Duration) (now : Time) : logs_start :=
  if 0 <? lookback then StartSince (Itoa (Unix (Add now (- lookback)))) else StartTail0.

Inductive source_kind := DockerSource (container : string) (resumeLookback : Duration) | JournaldSource (unit_ : string).
Definition NewSource (sourceType containerName unit_ : string) (resumeLookback : Duration) : result source_kind string :=
  if bool_decide (sourceType = "docker") then Ok (DockerSource containerName resumeLookback)
  else if bool_decide (sourceType = "journald") then Ok (JournaldSource (TrimSuffix unit_ ".service"))
  else Err sourceType.

(** [Tail] of the journald source of a build without journald (journald_stub.go): no line,
    and an error. *)
Definition JournaldStub_Tail (unit_ : string) : list LogLine * result unit string :=
  ([], Err "journald source is not supported in this build (requires Linux + cgo)").

(** ** The collector *)

Definition lineBufferSize : nat := 256.
Definition defaultReconnectBackoff : Duration := 2 * Second.

Record LogsCollector := mkLogsCollector {
  lc_minLevel : Z; lc_batchSize : Z; lc_batchTimeout : Duration; lc_reconnectBackoff : Duration;
  lc_accumulated : gmap string (list RawMessage); lc_totalBytes : Z }.

Definition lc_New (minLevel : string) (batchSize : Z) (batchTimeout : Duration) : LogsCollector :=
  mkLogsCollector (LevelRank minLevel) batchSize batchTimeout defaultReconnectBackoff ∅ 0.

Definition set_batch (c : LogsCollector) (acc : gmap string (list RawMessage)) (total : Z) : LogsCollector :=
  mkLogsCollector (lc_minLevel c) (lc_batchSize c) (lc_batchTimeout c) (lc_reconnectBackoff c) acc total.

Inductive lc_event :=
| LcLine (l : LogLine) (stop : option nat)
| LcTick (stop : option nat)
| LcDone (stop : option nat).

Section LogsRun.
Context (range : forall V, gmap string V -> list (string * V)).

(** [stop] sends succeed before the cancelled context is seen; the closure then returns
    without clearing the batch. *)
Definition lc_flush (c : LogsCollector) (stop : option nat) : LogsCollector * list LogPayload :=
  let batches := map (fun p => mkLogPayload p.1 p.2) (range (list RawMessage) (lc_accumulated c)) in
  match stop with
  | Some n => if Nat.ltb n (length batches) then (c, take n batches) else (set_batch c ∅ 0, batches)
  | None => (set_batch c ∅ 0, batches)
  end.

Definition lc_add (c : LogsCollector) (l : LogLine) : LogsCollector :=
  let acc := lc_accumulated c in
  set_batch c (<[line_Level l := default [] (acc !! line_Level l) ++ [line_Raw l]]> acc)
    (wrap64 (lc_totalBytes c + Z.of_nat (length (raw_text (line_Raw l))))).

Definition lc_step (c : LogsCollector) (e : lc_event) : LogsCollector * list LogPayload :=
  match e with
  | LcLine l stop =>
      if LevelRank (line_Level l) <? lc_minLevel c then (c, [])
      else
        let c := lc_add c l in
        if lc_batchSize c <=? lc_totalBytes c then lc_flush c stop else (c, [])
  | LcTick stop => lc_flush c stop
  | LcDone stop => lc_flush c stop
  end.

Fixpoint lc_run (c : LogsCollector) (evs : list lc_event) : LogsCollector * list LogPayload :=
  match evs with
  | [] => (c, [])
  | e :: evs' =>
      let '(c, out) := lc_step c e in
      let '(c, outs) := lc_run c evs' in
      (c, out ++ outs)
  end.

(** ** Nothing lost, nothing twice *)

(** The lines of one level: waiting, sent, and accepted from the source. *)
Definition pending (k : string) (c : LogsCollector) : list RawMessage := default [] (lc_accumulated c !! k).

Definition emitted (k : string) (out : list LogPayload) : list RawMessage :=
  concat (map (fun p => if bool_decide (lp_Level p = k) then lp_Lines p else []) out).

Definition accepted (min : Z) (k : string) (evs : list lc_event) : list RawMessage :=
  concat (map (fun e => match e with
                        | LcLine l _ => if bool_decide (line_Level l = k) && (min <=? LevelRank k) then [line_Raw l] else []
                        | _ => []
                        end) evs).

Definition uncancelled (e : lc_event) : Prop :=
  match e with LcLine _ s | LcTick s | LcDone s => s = None end.

Context (range_ok : forall V (m : gmap string V), map_range m (range V m)).

Lemma emitted_app k a b : emitted k (a ++ b) = emitted k a ++ emitted k b.
Proof. unfold emitted. by rewrite map_app, concat_app. Qed.

Lemma emitted_batches k l :
  NoDup l.*1 ->
  emitted k (map (fun p => mkLogPayload p.1 p.2) l) = default [] (list_to_map (M := gmap string (list RawMessage)) l !! k).
Proof.
  induction l as [|[k' ls] l IH]; intros Hnd; [done|].
  cbn [fmap list_fmap fst] in Hnd. apply list.NoDup_cons in Hnd as [Hk Hnd].
  change (map (fun p => mkLogPayload p.1 p.2) ((k', ls) :: l))
    with (mkLogPayload k' ls :: map (fun p : string * list RawMessage => mkLogPayload p.1 p.2) l).
  unfold emitted in *. cbn [map concat lp_Level lp_Lines]. rewrite IH, list_to_map_cons by done.
  case_bool_decide as He.
  - subst k'. rewrite lookup_insert_eq. rewrite not_elem_of_list_to_map_1 by done. cbn. apply app_nil_r.
  - by rewrite lookup_insert_ne.
Qed.

Lemma lc_flush_all c : (lc_flush c None).1 = set_batch c ∅ 0 /\ forall k, emitted k (lc_flush c None).2 = pending k c.
Proof.
  split; [done|]. intros k. unfold lc_flush, pending. cbn [snd].
  rewrite emitted_batches by (eapply map_range_nodup, range_ok).
  by rewrite <- (map_range_list_to_map _ _ (range_ok _ (lc_accumulated c))).
Qed.

Lemma pending_add k c l :
  pending k (lc_add c l) = pending k c ++ (if bool_decide (line_Level l = k) then [line_Raw l] else []).
Proof.
  unfold pending, lc_add, set_batch. cbn [lc_accumulated]. case_bool_decide as He.
  - subst k. by rewrite lookup_insert_eq.
  - rewrite lookup_insert_ne by done. by rewrite app_nil_r.
Qed.

Lemma pending_empty k c : pending k (set_batch c ∅ 0) = [].
Proof. unfold pending. cbn [set_batch lc_accumulated]. by rewrite lookup_empty. Qed.

Lemma lc_step_conserves c e k :
  uncancelled e ->
  emitted k (lc_step c e).2 ++ pending k (lc_step c e).1 = pending k c ++ accepted (lc_minLevel c) k [e]
  /\ lc_minLevel (lc_step c e).1 = lc_minLevel c.
Proof.
  assert (forall c', emitted k (lc_flush c' None).2 ++ pending k (lc_flush c' None).1 = pending k c') as Hfl.
  { intros c'. destruct (lc_flush_all c') as [-> He]. by rewrite He, pending_empty, app_nil_r. }
  destruct e as [l s|s|s]; cbn [uncancelled]; intros ->; cbn [lc_step]; unfold accepted; cbn [map concat];
    rewrite ?app_nil_r; try (split; [apply lc_flush_all|done]).
  destruct (Z.ltb_spec (LevelRank (line_Level l)) (lc_minLevel c)) as [Hlt|Hge].
  - split; [|done]. cbn [fst snd]. unfold emitted. cbn [map concat app]. case_bool_decide as He; cbn [andb]; [|by rewrite app_nil_r].
    subst k. destruct (Z.leb_spec (lc_minLevel c) (LevelRank (line_Level l))); [lia|by rewrite app_nil_r].
  - assert (pending k (lc_add c l)
      = pending k c ++ (if bool_decide (line_Level l = k) && (lc_minLevel c <=? LevelRank k) then [line_Raw l] else [])) as Hadd.
    { rewrite pending_add. case_bool_decide as He; cbn [andb]; [|done]. subst k.
      by destruct (Z.leb_spec (lc_minLevel c) (LevelRank (line_Level l))); [|lia]. }
    destruct (lc_batchSize (lc_add c l) <=? lc_totalBytes (lc_add c l)).
    + split; [by rewrite Hfl|done].
    + split; [exact Hadd|done].
Qed.

Lemma lc_run_conserves evs c k :
  Forall uncancelled evs ->
  emitted k (lc_run c evs).2 ++ pending k (lc_run c evs).1 = pending k c ++ accepted (lc_minLevel c) k evs
  /\ lc_minLevel (lc_run c evs).1 = lc_minLevel c.
Proof.
  revert c. induction evs as [|e evs IH]; intros c Hu.
  - unfold accepted. cbn. by rewrite app_nil_r.
  - apply Forall_cons_iff in Hu as [He Hu]. cbn [lc_run].
    destruct (lc_step_conserves c e k He) as [H1 Hm1].
    destruct (lc_step c e) as [c1 out]. cbn [fst snd] in *.
    destruct (IH c1 Hu) as [H2 Hm2]. destruct (lc_run c1 evs) as [c2 outs]. cbn [fst snd] in *.
    split; [|congruence]. rewrite emitted_app, <- (assoc_L (++)), H2, (assoc_L (++)), H1, Hm1, <- (assoc_L (++)).
    f_equal. unfold accepted. cbn [map concat]. by rewrite app_nil_r.
Qed.

(** The bytes that wait, over all levels. *)
Definition raw_bytes (l : list RawMessage) : Z := foldr (fun r s => Z.of_nat (length (raw_text r)) + s) 0 l.

Definition pending_bytes (c : LogsCollector) : Z :=
  map_fold (fun _ ls s => raw_bytes ls + s) 0 (lc_accumulated c).

Lemma raw_bytes_app a b : raw_bytes (a ++ b) = raw_bytes a + raw_bytes b.
Proof. unfold raw_bytes. induction a as [|r a IH]; cbn [foldr app]; lia. Qed.

Lemma raw_bytes_one r : raw_bytes [r] = Z.of_nat (length (raw_text r)).
Proof. unfold raw_bytes. cbn [foldr]. lia. Qed.

Lemma pending_bytes_insert (acc : gmap string (list RawMessage)) k ls :
  map_fold (fun _ ls s => raw_bytes ls + s) 0 (<[k := ls]> acc)
  = map_fold (fun _ ls s => raw_bytes ls + s) 0 acc - raw_bytes (default [] (acc !! k)) + raw_bytes ls.
Proof.
  assert (forall (m : gmap string (list RawMessage)) x, m !! k = None ->
    map_fold (fun _ ls s => raw_bytes ls + s) 0 (<[k := x]> m)
    = raw_bytes x + map_fold (fun _ ls s => raw_bytes ls + s) 0 m) as Hins.
  { intros m x Hm. apply (map_fold_insert_L (fun _ ls s => raw_bytes ls + s)); [intros; lia|done]. }
  destruct (acc !! k) as [old|] eqn:Hk.
  - rewrite <- (insert_delete_eq acc k ls), Hins by apply lookup_delete_eq.
    rewrite <- (insert_delete_id acc k old) at 2 by done. rewrite Hins by apply lookup_delete_eq.
    change (default [] (Some old)) with old. lia.
  - rewrite Hins by done. change (raw_bytes (default [] None)) with 0. lia.
Qed.

Lemma pending_bytes_add c l :
  pending_bytes (lc_add c l) = pending_bytes c + Z.of_nat (length (raw_text (line_Raw l))).
Proof.
  unfold pending_bytes, lc_add, set_batch. cbn [lc_accumulated]. rewrite pending_bytes_insert, raw_bytes_app, raw_bytes_one. lia.
Qed.

(** The running total is the bytes that wait, and below the batch size. *)
Definition batch_ok (c : LogsCollector) : Prop :=
  lc_totalBytes c = pending_bytes c /\ 0 <= pending_bytes c /\ (0 < lc_batchSize c -> lc_totalBytes c < lc_batchSize c).

Lemma batch_ok_empty c : batch_ok (set_batch c ∅ 0).
Proof. by unfold batch_ok, pending_bytes, set_batch. Qed.

(** A line that, with a full batch before it, stays within an int64. *)
Definition line_fits (c : LogsCollector) (e : lc_event) : Prop :=
  match e with
  | LcLine l _ => Z.max 0 (lc_batchSize c) + Z.of_nat (length (raw_text (line_Raw l))) <= max_int64
  | _ => True
  end.

Lemma lc_step_batch c e :
  uncancelled e -> line_fits c e -> batch_ok c -> (lc_batchSize c <= 0 -> pending_bytes c = 0) ->
  batch_ok (lc_step c e).1 /\ lc_batchSize (lc_step c e).1 = lc_batchSize c
  /\ (lc_batchSize c <= 0 -> pending_bytes (lc_step c e).1 = 0).
Proof.
  intros Hu Hf (Ht & Hp & Hb) Hz.
  assert (forall c', batch_ok (lc_flush c' None).1 /\ pending_bytes (lc_flush c' None).1 = 0) as Hfl.
  { intros c'. split; [apply batch_ok_empty|done]. }
  destruct e as [l s|s|s]; cbn [uncancelled line_fits] in *; subst s; cbn [lc_step];
    try (split; [apply Hfl|split; [done|intros _; apply Hfl]]).
  case_match; [by repeat split|].
  pose proof (pending_bytes_add c l) as Ha.
  assert (lc_totalBytes (lc_add c l) = pending_bytes (lc_add c l)) as Heq.
  { rewrite Ha, <- Ht. unfold lc_add, set_batch. cbn [lc_totalBytes]. apply wrap64_id.
    unfold is_int64, min_int64, max_int64 in *. lia. }
  change (lc_batchSize (lc_add c l)) with (lc_batchSize c).
  destruct (Z.leb_spec (lc_batchSize c) (lc_totalBytes (lc_add c l))) as [Hge|Hlt].
  - split; [apply Hfl|split; [done|intros _; apply Hfl]].
  - split; [|split; [done|]].
    + unfold batch_ok. cbn [fst]. change (lc_batchSize (lc_add c l)) with (lc_batchSize c). lia.
    + intros Hn. cbn [fst]. lia.
Qed.

Lemma lc_run_batch evs c :
  Forall uncancelled evs -> Forall (line_fits c) evs -> batch_ok c -> (lc_batchSize c <= 0 -> pending_bytes c = 0) ->
  batch_ok (lc_run c evs).1 /\ lc_batchSize (lc_run c evs).1 = lc_batchSize c.
Proof.
  revert c. induction evs as [|e evs IH]; intros c Hu Hf Hb Hz; [done|].
  apply Forall_cons_iff in Hu as [He Hu]. apply Forall_cons_iff in Hf as [Hfe Hf].
  destruct (lc_step_batch c e He Hfe Hb Hz) as (Hb1 & Hs1 & Hz1). cbn [lc_run].
  destruct (lc_step c e) as [c1 out]. cbn [fst] in *.
  destruct (IH c1 Hu) as [Hb2 Hs2].
  - eapply List.Forall_impl; [|exact Hf]. intros [l s|s|s]; cbn; by rewrite ?Hs1.
  - exact Hb1.
  - by rewrite Hs1.
  - destruct (lc_run c1 evs) as [c2 outs]. cbn [fst] in *. split; [exact Hb2|congruence].
Qed.

(** C38: The log collector loses nothing and sends nothing twice while the sentinel runs: on
    every sequence of lines and ticks, for every level, what has been sent followed by what
    waits is exactly what was accepted (the lines that rank at least the minimum level), in
    order; and less than one batch of bytes ever waits. *)
Theorem logs_conservation minLevel batchSize timeout evs :
  0 < batchSize -> Forall uncancelled evs -> Forall (line_fits (lc_New minLevel batchSize timeout)) evs ->
  let '(c, out) := lc_run (lc_New minLevel batchSize timeout) evs in
  (forall k, emitted k out ++ pending k c = accepted (LevelRank minLevel) k evs)
  /\ lc_totalBytes c = pending_bytes c /\ pending_bytes c < batchSize.
Proof.
  intros Hpos Hu Hf. set (c0 := lc_New minLevel batchSize timeout) in *.
  assert (batch_ok c0) as Hb0 by (by unfold batch_ok, pending_bytes, c0, lc_New).
  assert (lc_batchSize c0 <= 0 -> pending_bytes c0 = 0) as Hz0 by done.
  destruct (lc_run_batch evs c0 Hu Hf Hb0 Hz0) as [(Ht & _ & Hlt) Hs].
  assert (forall k, emitted k (lc_run c0 evs).2 ++ pending k (lc_run c0 evs).1 = accepted (LevelRank minLevel) k evs) as Hc.
  { intros k. destruct (lc_run_conserves evs c0 k Hu) as [-> _]. done. }
  destruct (lc_run c0 evs) as [c out]. cbn [fst snd] in *. split; [exact Hc|].
  change (lc_batchSize c0) with batchSize in Hs. lia.
Qed.
End LogsRun.

(** ** Evaluations *)

Definition log_line_in (level text : string) : lc_event := LcLine (mkLogLineIn level (mkRaw (js text))) None.

Definition sample_log_events : list lc_event :=
  [log_line_in "info" "1"; log_line_in "debug" "2"; log_line_in "warn" "33"; LcTick None; log_line_in "info" "4"].

Lemma logs_conservation_witness :
  let '(c, out) := lc_run (fun V m => map_to_list m) (lc_New "info" 100 Second) sample_log_events in
  emitted "info" out ++ pending "info" c = [mkRaw (js "1"); mkRaw (js "4")] /\ pending_bytes c < 100.
Proof.
  pose proof (logs_conservation (fun V m => map_to_list m) (fun V m => map_range_map_to_list m) "info" 100 Second
    sample_log_events ltac:(lia) ltac:(repeat constructor) ltac:(repeat constructor; vm_compute; discriminate)) as H.
  destruct (lc_run _ _ sample_log_events) as [c out]. destruct H as (Hc & _ & Hb).
  split; [|exact Hb]. rewrite Hc. vm_compute. reflexivity.
Defined.

(** A flush that meets the cancelled context half-way leaves the batch as it was, and the
    loop's last flush sends the first level again. *)
Theorem logs_shutdown_resends :
  let '(_, out) := lc_run (fun V m => map_to_list m) (lc_New "info" 100 Second)
    [log_line_in "info" "1"; log_line_in "warn" "2"; LcTick (Some 1%nat); LcDone (Some 2%nat)] in
  exists k r, emitted k out = [r; r].
Proof. vm_compute. exists "warn", (mkRaw (js "2")). reflexivity. Qed.

Example EnsureJSON_examples :
  map (fun s => (fun r => string_of_bytes (raw_text r)) <$> EnsureJSON (jq s) 1500000000)
    ["  "; "panic: x"; "{'level':'warn','msg':'m','ts':1,'module':'c'}"; "{'msg':'m'}"; "null"]
  = [None;
     Some (string_of_bytes (jq "{'level':'info','module':'sentinel-raw','msg':'panic: x','ts':1.5}"));
     Some (string_of_bytes (jq "{'level':'warn','msg':'m','ts':1,'module':'c'}"));
     Some (string_of_bytes (jq "{'level':'info','module':'unknown','msg':'m','ts':1.5}"));
     Some (string_of_bytes (jq "{'level':'info','module':'sentinel-raw','msg':'null','ts':1.5}"))].
Proof. vm_compute. reflexivity. Qed.

(** ** Every line that leaves a source is an object with the four mandatory fields *)

Abbreviation raw_object := (option (option (gmap string RawMessage))).

Lemma seconds_ok now : is_finite (now_seconds now) = true.
Proof.
  apply seconds_finite. unfold UnixNano. pose proof (wrap64_range now) as H. unfold is_int64, min_int64, max_int64 in H. lia.
Qed.

Lemma object_from t l o :
  (from_json t (JObject l) ∅ : option (gmap string RawMessage)) = Some o ->
  (from_json t (JObject l) go_zero : raw_object) = Some (Some o).
Proof.
  intros H. change (from_json t (JObject l) go_zero : raw_object)
    with (Some <$> (from_json t (JObject l) ∅ : option (gmap string RawMessage))). by rewrite H.
Qed.

Lemma object_read n t l :
  JText n t (JObject l) -> (n <= max_nat)%nat -> exists o, (Unmarshal t : raw_object) = Some (Some o)
  /\ (exists m, n = S m /\ forall k r, o !! k = Some r -> valid_utf8 k /\ exists v, JText m (raw_text r) v).
Proof.
  intros HJ Hn. destruct (JObject_members _ _ _ HJ) as (m & -> & Hl).
  destruct (raw_map_total l ∅) as [o Ho]. exists o. split.
  - rewrite (Unmarshal_text _ _ _ HJ Hn). by apply object_from.
  - exists m. split; [done|]. intros k r Hk. destruct (raw_map_lookup _ _ k o Ho r Hk) as [Hi|([k' [t' v']] & Hq & <- & ->)].
    + by rewrite lookup_empty in Hi.
    + rewrite List.Forall_forall in Hl. destruct (Hl _ Hq) as [Hv HJ']. split; [done|].
      cbn [fst snd raw_text] in *. by eexists.
Qed.

(** Only an object decodes to a map, and its values are texts one level down. *)
Lemma unmarshalled_texts b o :
  (Unmarshal b : raw_object) = Some (Some o) ->
  exists m, (S m <= max_nat)%nat /\ forall k r, o !! k = Some r -> valid_utf8 k /\ exists v, JText m (raw_text r) v.
Proof.
  unfold Unmarshal. destruct (json_parse b) as [[t v]|] eqn:Ep; [|done].
  apply json_parse_sound in Ep as (_ & _ & _ & _ & _ & HJ). intros Hf.
  destruct v as [| | | | |l]; try discriminate Hf.
  destruct (object_read max_nat t l HJ (le_n _)) as (o' & Ho' & m & Hm & H).
  rewrite (Unmarshal_text _ _ _ HJ (le_n _)) in Ho'. assert (o' = o) as -> by congruence. exists m. split; [lia|exact H].
Qed.

(** A map of texts is written, and read back compacted. *)
Lemma texts_sent n (m : gmap string RawMessage) :
  (forall k r, m !! k = Some r -> valid_utf8 k /\ exists v, JText n (raw_text r) v) -> (S n <= max_nat)%nat ->
  exists b, encode_raw_map m = Some b /\ (Unmarshal b : raw_object) = Some (Some (raw_sent <$> m)).
Proof.
  intros Hm Hn. assert (exists b, encode_raw_map m = Some b) as [b Hb].
  { unfold encode_raw_map. destruct (mapM _ (map_to_list m)) as [l|] eqn:E; [by eexists|]. exfalso.
    apply mapM_None, Exists_exists in E as ([k r] & Hin & E). apply list_elem_of_In, elem_of_map_to_list in Hin. destruct (Hm k r Hin) as (_ & v & HJ).
    apply fmap_None in E. cbn [snd] in E. unfold encode_raw in E. destruct (JText_head _ _ _ HJ) as (a & t & Et & _).
    pose proof (json_parse_complete n [] _ v [] ws_nil ws_nil HJ ltac:(lia)) as Hp. rewrite app_nil_r in Hp. cbn [app] in Hp.
    rewrite Et in *. by rewrite Hp in E. }
  exists b. split; [done|]. destruct (encode_raw_map_decode n m b Hb) as (lv & HJ & Hd).
  { intros k r Hk. destruct (Hm k r Hk) as (Hv & v & HJ). split; [done|]. eapply json_depth_text; [exact HJ|lia]. }
  rewrite (Unmarshal_text _ _ _ HJ Hn). apply object_from, Hd.
Qed.

(** *** Filling *)

Lemma fill_lookup k v o k' :
  fill k v o !! k' = match o !! k' with Some r => Some r | None => if decide (k = k') then Some (mkRaw v) else None end.
Proof.
  unfold fill. destruct (o !! k) eqn:E.
  - destruct (o !! k') eqn:E'; [done|]. destruct (decide (k = k')) as [->|]; [congruence|done].
  - destruct (decide (k = k')) as [->|Hne]; [by rewrite lookup_insert_eq, E|]. rewrite lookup_insert_ne by done. by destruct (o !! k').
Qed.

Lemma fill_all_old now o k r : o !! k = Some r -> fill_all now o !! k = Some r.
Proof. intros H. unfold fill_all. by rewrite !fill_lookup, H. Qed.

Lemma fill_all_mandatory now o k : k ∈ mandatory_fields -> is_Some (fill_all now o !! k).
Proof.
  intros Hk. unfold fill_all. rewrite !fill_lookup. destruct (o !! k); [by eexists|].
  unfold mandatory_fields in Hk. rewrite !elem_of_cons in Hk.
  repeat destruct Hk as [->|Hk]; [| | | |by apply elem_of_nil in Hk]; by eexists.
Qed.

(** What a filled field holds. *)
Definition default_text (now : Time) (v : bytes) : Prop :=
  v = bytes_of_string (FormatFloat_f (now_seconds now)) \/ v = jq "'info'" \/ v = jq "''" \/ v = jq "'unknown'".

Lemma fill_all_new now o k r : fill_all now o !! k = Some r -> o !! k = None -> k ∈ mandatory_fields /\ default_text now (raw_text r).
Proof.
  unfold fill_all, default_text. rewrite !fill_lookup. intros H Ho. rewrite Ho in H. unfold mandatory_fields. rewrite !elem_of_cons.
  repeat (case_decide; [subst; injection H as <-; cbn [raw_text]; tauto|]). done.
Qed.

Lemma default_JText now v n : default_text now v -> exists x, JText n v x.
Proof.
  intros [->|Hv]; [eexists; apply J_number, FormatFloat_f_number, seconds_ok|].
  assert (exists s, v = encode_string s) as [s ->] by (destruct Hv as [->|[-> | ->]]; [exists "info"|exists EmptyString|exists "unknown"]; by vm_compute).
  eexists. apply JText_encode_string.
Qed.

Lemma mandatory_ascii k : k ∈ mandatory_fields -> valid_utf8 k.
Proof.
  unfold mandatory_fields. rewrite !elem_of_cons. intros Hk.
  repeat destruct Hk as [->|Hk]; [by vm_compute..|by apply elem_of_nil in Hk].
Qed.

Lemma has_mandatory_spec o : has_mandatory o = true <-> forall k, k ∈ mandatory_fields -> is_Some (o !! k).
Proof.
  unfold has_mandatory. rewrite forallb_forall. split; intros H k Hk.
  - apply list_elem_of_In in Hk. specialize (H k Hk). by apply bool_decide_eq_true in H.
  - apply bool_decide_eq_true, H. by apply list_elem_of_In.
Qed.

(** *** The synthetic line *)

Definition wrapped (raw : bytes) (o : gmap string RawMessage) : Prop :=
  o !! "module" = Some (mkRaw (jq "'sentinel-raw'")) /\ o !! "msg" = Some (mkRaw (encode_string (string_of_bytes raw))).

Lemma wrap_read raw now :
  exists o, (Unmarshal (raw_text (wrapAsSentinelRaw raw now)) : raw_object) = Some (Some o)
  /\ has_mandatory o = true /\ wrapped raw o.
Proof.
  unfold wrapAsSentinelRaw. destruct (encode_float_finite _ (seconds_ok now)) as (ts & -> & Hts). cbn [raw_text].
  set (msg := encode_string (string_of_bytes raw)).
  change (encode_map _) with (encode_object
    [("level", encode_string "info"); ("module", encode_string "sentinel-raw"); ("msg", msg); ("ts", ts)]).
  assert (JText 1 (encode_object [("level", encode_string "info"); ("module", encode_string "sentinel-raw"); ("msg", msg); ("ts", ts)])
    (JObject [("level", (encode_string "info", JString (sanitize "info")));
      ("module", (encode_string "sentinel-raw", JString (sanitize "sentinel-raw")));
      ("msg", (msg, JString (sanitize (string_of_bytes raw)))); ("ts", (ts, JNumber (string_of_bytes ts)))])) as HJ.
  { apply JText_encode_object. repeat (constructor; [split_and!; [done|done|first [apply JText_encode_string|by constructor]]|]). constructor. }
  eexists. split; [rewrite (Unmarshal_text _ _ _ HJ) by (unfold max_nat; change max_depth with 10000; lia); by apply object_from|].
  by split.
Qed.

Lemma json_valid_parse b : json_valid b = true -> exists t v, json_parse b = Some (t, v).
Proof. unfold json_valid. destruct (json_parse b) as [[t v]|]; [|done]. eauto. Qed.

Lemma EnsureJSON_read_back raw now :
  match EnsureJSON raw now with
  | None => TrimSpaceBytes raw = []
  | Some line =>
      TrimSpaceBytes raw <> []
      /\ exists o, (Unmarshal (raw_text line) : raw_object) = Some (Some o) /\ has_mandatory o = true
      /\ match (Unmarshal raw : raw_object) with
         | Some (Some old) =>
             if has_mandatory old then line = mkRaw raw
             else forall k r, old !! k = Some r -> o !! k = Some (raw_sent r)
         | _ => wrapped raw o
         end
  end.
Proof.
  unfold EnsureJSON. destruct (TrimSpaceBytes raw) as [|a b] eqn:Ht; [done|]. split; [done|].
  destruct (json_valid raw) eqn:Hv; cbn [negb].
  2: { destruct (wrap_read raw now) as (o & H1 & H2 & H3). exists o. split; [exact H1|]. split; [exact H2|].
       assert ((Unmarshal raw : raw_object) = None) as ->; [|exact H3].
       unfold Unmarshal. unfold json_valid in Hv. by destruct (json_parse raw) as [[]|]. }
  destruct (Unmarshal raw : raw_object) as [[old|]|] eqn:Hu;
    [|destruct (wrap_read raw now) as (o & H1 & H2 & H3); by exists o..].
  destruct (has_mandatory old) eqn:Hm; [by exists old|].
  destruct (unmarshalled_texts _ _ Hu) as (n & Hn & Hold).
  destruct (texts_sent n (fill_all now old)) as (filled & -> & Hf); [|done|].
  - intros k r Hk. destruct (old !! k) as [r'|] eqn:Ho.
    + rewrite (fill_all_old _ _ _ _ Ho) in Hk. injection Hk as <-. by apply Hold.
    + destruct (fill_all_new _ _ _ _ Hk Ho) as [Hin Hd]. split; [by apply mandatory_ascii|by eapply default_JText].
  - exists (raw_sent <$> fill_all now old). split; [exact Hf|]. split.
    + apply has_mandatory_spec. intros k Hk. destruct (fill_all_mandatory now old k Hk) as [r Hr].
      rewrite lookup_fmap, Hr. by eexists.
    + intros k r Hk. by rewrite lookup_fmap, (fill_all_old _ _ _ _ Hk).
Qed.

Lemma Unmarshal_json_valid {A} `{FromJSON A, GoZero A} b (a : A) : Unmarshal b = Some a -> json_valid b = true.
Proof. unfold Unmarshal, json_valid. destruct (json_parse b) as [[t v]|]; [done|discriminate 1]. Qed.

(** What a source sends is valid JSON. *)
Lemma source_line_valid raw now l : source_line raw now = Some l -> json_valid (raw_text (line_Raw l)) = true.
Proof.
  unfold source_line. pose proof (EnsureJSON_read_back raw now) as H.
  destruct (EnsureJSON raw now) as [line|]; cbn; [|discriminate]. intros Hl. injection Hl as <-.
  destruct H as (_ & o & Hu & _). exact (Unmarshal_json_valid _ _ Hu).
Qed.

(** C17: The invariants the comment on [EnsureJSON] promises the dashboards. A line is skipped
    exactly when it is blank. Every other line becomes valid JSON that decodes to an object
    with the fields ts, level, msg and module: an object keeps every field it had (a line
    that had the four is not changed at all, otherwise its values are compacted), and
    anything else, whether not JSON or not an object, is wrapped whole as the message of a
    synthetic line, whatever bytes it is made of. *)
Theorem EnsureJSON_invariants raw now :
  match EnsureJSON raw now with
  | None => TrimSpaceBytes raw = []
  | Some line =>
      TrimSpaceBytes raw <> []
      /\ exists o, (Unmarshal (raw_text line) : raw_object) = Some (Some o) /\ has_mandatory o = true
      /\ match (Unmarshal raw : raw_object) with
         | Some (Some old) =>
             if has_mandatory old then line = mkRaw raw
             else forall k r, old !! k = Some r -> o !! k = Some (raw_sent r)
         | _ => wrapped raw o
         end
  end.
Proof. apply EnsureJSON_read_back. Qed.
