(* ===== verification/LogSources.v ===== *)
(** * internal/sentinel/logs: the sources (docker.go, journald_linux_cgo.go)

    [Tail] of the two sources, and the goroutine of the collector that calls it again and
    again. Docker's stream enters demultiplexed, as the bytes it delivers and the error it
    ends with; [bufio.Scanner] is modelled, with the limit on its buffer. The journal is
    libsystemd's: the class [Journal] has one operation per call the source makes. *)

From Stdlib Require Import Ascii.
From S2P Require Import Prelude GoStrings GoTime GoJson GoJsonText Protocol LogsCollector.

Local Open Scope Z_scope.

(** ** bufio.Scanner on lines *)

Definition newline_byte : ascii := "010".
Definition cr_byte : ascii := "013".

Fixpoint cut_line (s : bytes) : bytes * option bytes :=
  match s with
  | [] => ([], None)
  | a :: s' => if Ascii.eqb a newline_byte then ([], Some s') else let '(l, r) := cut_line s' in (a :: l, r)
  end.

Definition drop_cr (l : bytes) : bytes :=
  match rev l with a :: r => if Ascii.eqb a cr_byte then rev r else l | [] => l end.

(** The tokens, and whether the scanner stopped with [ErrTooLong]: when [max] bytes without
    a newline fill its buffer. What follows the last newline is a token when it is not
    empty, whatever ended the stream. *)
Fixpoint scan_lines (max : Z) (fuel : nat) (s : bytes) : list bytes * bool :=
  match fuel with
  | O => ([], false)
  | S fuel' =>
      match cut_line s with
      | (l, Some rest) =>
          if max <=? Z.of_nat (length l) then ([], true)
          else let '(ts, b) := scan_lines max fuel' rest in (drop_cr l :: ts, b)
      | ([], None) => ([], false)
      | (l, None) => if max <=? Z.of_nat (length l) then ([], true) else ([drop_cr l], false)
      end
  end.

Definition Scan (max : Z) (s : bytes) : list bytes * bool := scan_lines max (S (length s)) s.

Example Scan_examples :
  let text l := string_of_bytes (concat (map (fun w => bytes_of_string w ++ [newline_byte]) l)) in
  let scan s := let '(ts, b) := Scan 4 (bytes_of_string s) in (map string_of_bytes ts, b) in
  map scan [""; text ["a"; ""; "bcd"]; text ["a"] +:+ "bc"; text ["a"; "bcde"; "f"]; "abcd"; "a" +:+ String "013" (String "010" "")]
  = [([], false); (["a"; ""; "bcd"], false); (["a"; "bc"], false); (["a"], true); ([], true); (["a"], false)].
Proof. vm_compute. reflexivity. Qed.

(** ** The loop over the lines

    [clock] is the time each raw line is handled at; [stop], if any, the number of sends
    after which the [select] sees the cancelled context. The second component says that it
    did. *)
Fixpoint tail_lines (clock : nat -> Time) (i : nat) (stop : option nat) (raws : list bytes) : list LogLine * bool :=
  match raws with
  | [] => ([], false)
  | raw :: raws' =>
      match source_line raw (clock i) with
      | None => tail_lines clock (S i) stop raws'
      | Some l =>
          match stop with
          | Some O => ([], true)
          | _ => let '(ls, c) := tail_lines clock (S i) (pred <$> stop) raws' in (l :: ls, c)
          end
      end
  end.

Definition context_canceled : string := "context canceled".

(** ** Docker *)

Inductive docker_error :=
| ErrDockerClient (e : string)
| ErrContainerLogs (container e : string)
| ErrScanLogs (e : string)
| ErrTailCancelled.

(** [1024*1024]. *)
Definition maxLineBytes : Z := 1048576.

(** [client]: the error of the docker client; [logs]: of [ContainerLogs], or the bytes of
    the container's output and the error the copying ends with. *)
Definition docker_Tail (container : string) (client : option string) (logs : result (bytes * option string) string)
    (clock : nat -> Time) (stop : option nat) : list LogLine * result unit docker_error :=
  match client with
  | Some e => ([], Err (ErrDockerClient e))
  | None =>
      match logs with
      | Err e => ([], Err (ErrContainerLogs container e))
      | Ok (stream, err) =>
          let '(raws, tooLong) := Scan maxLineBytes stream in
          let '(ls, cancelled) := tail_lines clock 0 stop raws in
          (ls, if cancelled then Err ErrTailCancelled
               else if tooLong then Ok tt
               else match err with Some e => Err (ErrScanLogs e) | None => Ok tt end)
      end
  end.

(** ** The goroutine of [Collector.Run]

    One element of [tails] per call of [Tail]: what goes into the channel of lines, and the
    errors that are logged. *)
Fixpoint source_loop {E} (tails : list (list LogLine * result unit E)) : list LogLine * list E :=
  match tails with
  | [] => ([], [])
  | (ls, r) :: tails' =>
      let '(lines, errs) := source_loop tails' in
      (ls ++ lines, match r with Err e => e :: errs | Ok _ => errs end)
  end.

(** ** Facts about the docker source *)

Lemma cut_line_app l rest : newline_byte ∉ l -> cut_line (l ++ newline_byte :: rest) = (l, Some rest).
Proof.
  induction l as [|a l IH]; intros Hl; cbn [app cut_line]; [by rewrite Ascii.eqb_refl|].
  apply not_elem_of_cons in Hl as [Hne Hl]. rewrite (proj2 (Ascii.eqb_neq a newline_byte)) by congruence. by rewrite IH.
Qed.

Lemma cut_line_last l : newline_byte ∉ l -> cut_line l = (l, None).
Proof.
  induction l as [|a l IH]; intros Hl; [done|]. cbn [cut_line].
  apply not_elem_of_cons in Hl as [Hne Hl]. rewrite (proj2 (Ascii.eqb_neq a newline_byte)) by congruence. by rewrite IH.
Qed.

(** Lines as the container writes them. *)
Definition as_stream (lines : list bytes) : bytes := concat (map (fun l => l ++ [newline_byte]) lines).

Definition fits (max : Z) (l : bytes) : Prop := newline_byte ∉ l /\ Z.of_nat (length l) < max.

Lemma as_stream_length lines : (length lines <= length (as_stream lines))%nat.
Proof.
  induction lines as [|l lines IH]; [done|]. unfold as_stream in *. cbn. rewrite !length_app. cbn. lia.
Qed.

Lemma scan_lines_prefix max fuel lines rest :
  Forall (fits max) lines -> (length lines <= fuel)%nat ->
  scan_lines max fuel (as_stream lines ++ rest)
  = let '(ts, b) := scan_lines max (fuel - length lines) rest in (map drop_cr lines ++ ts, b).
Proof.
  revert fuel. induction lines as [|l lines IH]; intros fuel Hl Hf.
  - change (as_stream [] ++ rest) with rest. cbn [length map app]. rewrite Nat.sub_0_r. by destruct (scan_lines max fuel rest).
  - apply Forall_cons_iff in Hl as [[Hn Hs] Hl]. destruct fuel as [|fuel]; [cbn in Hf; lia|].
    unfold as_stream. cbn [map concat]. rewrite <- !app_assoc. cbn [app scan_lines]. rewrite cut_line_app by done.
    rewrite (proj2 (Z.leb_gt _ _)) by done. fold (as_stream lines). rewrite IH by (done || (cbn in Hf; lia)).
    cbn [length map app]. rewrite Nat.sub_succ. by destruct (scan_lines max (fuel - length lines) rest), l.
Qed.

Lemma Scan_prefix max lines rest :
  Forall (fits max) lines ->
  exists fuel, (length rest < fuel)%nat
  /\ Scan max (as_stream lines ++ rest) = let '(ts, b) := scan_lines max fuel rest in (map drop_cr lines ++ ts, b).
Proof.
  intros Hl. unfold Scan. rewrite length_app. pose proof (as_stream_length lines).
  rewrite scan_lines_prefix by (done || lia). eexists. split; [|reflexivity]. lia.
Qed.

(** The lines a source makes of raw lines, all sent. *)
Fixpoint made (clock : nat -> Time) (i : nat) (raws : list bytes) : list LogLine :=
  match raws with
  | [] => []
  | raw :: raws' => match source_line raw (clock i) with Some l => [l] | None => [] end ++ made clock (S i) raws'
  end.

Lemma tail_lines_all clock i raws : tail_lines clock i None raws = (made clock i raws, false).
Proof.
  revert i. induction raws as [|r raws IH]; intros i; [done|]. cbn [tail_lines made].
  destruct (source_line r (clock i)); cbn [app]; rewrite ?IH; done.
Qed.

(** Cancelled or not, what is sent is a prefix of what there is to send. *)
Lemma tail_lines_prefix clock i stop raws : exists rest, made clock i raws = (tail_lines clock i stop raws).1 ++ rest.
Proof.
  revert i stop. induction raws as [|r raws IH]; intros i stop; [by exists []|]. cbn [tail_lines made].
  destruct (source_line r (clock i)) as [l|]; cbn [app]; [|apply IH].
  assert (forall stop', exists rest, l :: made clock (S i) raws
            = (let '(ls, c) := tail_lines clock (S i) stop' raws in (l :: ls, c)).1 ++ rest) as Hc.
  { intros stop'. destruct (IH (S i) stop') as [rest Hr]. exists rest. rewrite Hr. by destruct (tail_lines _ _ _ _). }
  destruct stop as [[|n]|]; [by eexists|apply Hc..].
Qed.

(** A stream of lines below the limit is handed on completely: one line for each that is
    not blank, in order; and the connection ends without an error when the stream does. *)
Theorem docker_Tail_complete container lines clock :
  Forall (fits maxLineBytes) lines ->
  docker_Tail container None (Ok (as_stream lines, None)) clock None = (made clock 0 (map drop_cr lines), Ok tt).
Proof.
  intros Hl. unfold docker_Tail. destruct (Scan_prefix maxLineBytes lines [] Hl) as (fuel & Hf & Hs).
  rewrite app_nil_r in Hs. destruct fuel as [|fuel]; [cbn in Hf; lia|]. cbn [scan_lines cut_line] in Hs.
  rewrite app_nil_r in Hs. by rewrite Hs, tail_lines_all.
Qed.

(** At a line that does not fit the buffer the source gives up the connection: nothing that
    follows it is read. *)
Lemma docker_Tail_oversized container lines long rest err clock :
  Forall (fits maxLineBytes) lines -> newline_byte ∉ long -> maxLineBytes <= Z.of_nat (length long) ->
  docker_Tail container None (Ok (as_stream lines ++ (long ++ newline_byte :: rest), err)) clock None
  = (made clock 0 (map drop_cr lines), Ok tt).
Proof.
  intros Hl Hn Hlong. unfold docker_Tail.
  destruct (Scan_prefix maxLineBytes lines (long ++ newline_byte :: rest) Hl) as (fuel & Hf & ->).
  destruct fuel as [|fuel]; [lia|]. cbn [scan_lines]. rewrite cut_line_app, (proj2 (Z.leb_le _ _)) by done.
  by destruct long; rewrite app_nil_r, tail_lines_all.
Qed.

(** A connection that starts behind the end of the log sees only what is written after it;
    one that looks back starts again before the line that did not fit, sends the lines
    before it once more and gets no further: as long as the look-back window reaches the
    line, every connection repeats the same lines and none sends a line behind it. *)
Theorem docker_oversized_repeats container lines long rests clocks :
  Forall (fits maxLineBytes) lines -> newline_byte ∉ long -> maxLineBytes <= Z.of_nat (length long) ->
  source_loop (zip_with (fun rest clock =>
      docker_Tail container None (Ok (as_stream lines ++ (long ++ newline_byte :: rest), None)) clock None) rests clocks)
  = (concat (zip_with (fun _ clock => made clock 0 (map drop_cr lines)) rests clocks), []).
Proof.
  intros Hl Hn Hlong. revert clocks. induction rests as [|rest rests IH]; intros [|clock clocks]; [done..|].
  cbn [zip_with source_loop concat]. rewrite docker_Tail_oversized by done. by rewrite IH.
Qed.

(** ** Journald *)

Class Journal (W : Type) := {
  jn_New : W -> W * option string;
  jn_AddMatch : W -> string -> W * option string;
  jn_SeekTail : W -> W * option string;
  jn_Wait : W -> W * Z;
  jn_Next : W -> W * result Z string;
  jn_GetEntry : W -> W * result (gmap string string) string;
  jn_Close : W -> W;
  (* not the journal's: the context, the clock and the channel *)
  jn_Done : W -> W * bool;
  jn_Now : W -> W * Time;
  jn_Send : W -> LogLine -> W * bool
}.

Section Journald.
Context {W : Type} `{Journal W}.

Definition MESSAGE : string := "MESSAGE".

(** The two loops: [true] is the inner one, which drains the entries that are there. [None]
    is a run that needs more fuel. *)
Fixpoint journal_loop (fuel : nat) (draining : bool) (w : W) : option (W * list LogLine * string) :=
  match fuel with
  | O => None
  | S fuel' =>
      if draining then
        let '(w, n) := jn_Next w in
        match n with
        | Err e => Some (w, [], "journal next: " +:+ e)
        | Ok n =>
            if n =? 0 then journal_loop fuel' false w
            else
              let '(w, entry) := jn_GetEntry w in
              match entry with
              | Err e => Some (w, [], "journal entry: " +:+ e)
              | Ok fields =>
                  match fields !! MESSAGE with
                  | None => journal_loop fuel' true w
                  | Some msg =>
                      let '(w, now) := jn_Now w in
                      match source_line (bytes_of_string msg) now with
                      | None => journal_loop fuel' true w
                      | Some l =>
                          let '(w, sent) := jn_Send w l in
                          if (sent : bool) then
                            '(w, ls, e) ← journal_loop fuel' true w; Some (w, l :: ls, e)
                          else Some (w, [], context_canceled)
                      end
                  end
              end
        end
      else
        let '(w, done) := jn_Done w in
        if (done : bool) then Some (w, [], context_canceled)
        else
          let '(w, r) := jn_Wait w in
          if r <? 0 then Some (w, [], "journal wait: error code " +:+ Itoa r)
          else journal_loop fuel' true w
  end.

(** [Tail] never returns without an error. *)
Definition journald_Tail (fuel : nat) (unit_ : string) (w : W) : option (W * list LogLine * string) :=
  let '(w, err) := jn_New w in
  match err with
  | Some e => Some (w, [], "open journal: " +:+ e)
  | None =>
      let '(w, err) := jn_AddMatch w ("_SYSTEMD_UNIT=" +:+ unit_ +:+ ".service") in
      match err with
      | Some e => Some (jn_Close w, [], "add journal match: " +:+ e)
      | None =>
          let '(w, err) := jn_SeekTail w in
          match err with
          | Some e => Some (jn_Close w, [], "seek journal tail: " +:+ e)
          | None => '(w, ls, e) ← journal_loop fuel false w; Some (jn_Close w, ls, e)
          end
      end
  end.

(** Every line the source sends is a line of the collector's form. *)
Definition source_made (l : LogLine) : Prop := exists raw now, source_line raw now = Some l.

Lemma journal_loop_made fuel d w w' ls e : journal_loop fuel d w = Some (w', ls, e) -> Forall source_made ls.
Proof.
  revert d w w' ls e. induction fuel as [|fuel IH]; intros d w w' ls e Hr; [done|]. cbn [journal_loop] in Hr.
  destruct d.
  - destruct (jn_Next w) as [w1 [n|e1]]; [|simplify_eq; constructor].
    destruct (n =? 0); [by apply IH in Hr|].
    destruct (jn_GetEntry w1) as [w2 [fields|e2]]; [|simplify_eq; constructor].
    destruct (fields !! MESSAGE) as [msg|]; [|by apply IH in Hr]. destruct (jn_Now w2) as [w3 now].
    destruct (source_line _ now) as [l|] eqn:Hl; [|by apply IH in Hr]. destruct (jn_Send w3 l) as [w4 [|]]; [|simplify_eq; constructor].
    apply bind_Some in Hr as ([[w5 ls5] e5] & Hr & [= <- <- <-]). constructor; [by exists (bytes_of_string msg), now|by apply IH in Hr].
  - destruct (jn_Done w) as [w1 [|]]; [simplify_eq; constructor|]. destruct (jn_Wait w1) as [w2 r].
    destruct (r <? 0); [simplify_eq; constructor|]. by apply IH in Hr.
Qed.

Theorem journald_lines_made fuel unit_ w w' ls e : journald_Tail fuel unit_ w = Some (w', ls, e) -> Forall source_made ls.
Proof.
  unfold journald_Tail. destruct (jn_New w) as [w1 [e1|]]; [intros; simplify_eq; constructor|].
  destruct (jn_AddMatch w1 _) as [w2 [e2|]]; [intros; simplify_eq; constructor|].
  destruct (jn_SeekTail w2) as [w3 [e3|]]; [intros; simplify_eq; constructor|].
  intros ([[w4 ls4] e4] & Hr & [= <- <- <-])%bind_Some. by apply journal_loop_made in Hr.
Qed.
End Journald.

(** ** A journal that plays a script

    What arrives at each [Wait], as the fields of the entries; when the script is over the
    context is done. The channel takes every line. *)
Record script := mkScript {
  sc_batches : list (list (gmap string string));
  sc_ready : list (gmap string string);
  sc_entry : gmap string string;
  sc_time : Time
}.

#[export] Instance script_journal : Journal script := {
  jn_New := fun w => (w, None);
  jn_AddMatch := fun w _ => (w, None);
  jn_SeekTail := fun w => (w, None);
  jn_Wait := fun w => match sc_batches w with
                      | [] => (w, 0)
                      | b :: bs => (mkScript bs (sc_ready w ++ b) (sc_entry w) (sc_time w), 1)
                      end;
  jn_Next := fun w => match sc_ready w with
                      | [] => (w, Ok 0)
                      | e :: es => (mkScript (sc_batches w) es e (sc_time w), Ok 1)
                      end;
  jn_GetEntry := fun w => (w, Ok (sc_entry w));
  jn_Close := fun w => w;
  jn_Done := fun w => (w, match sc_batches w, sc_ready w with [], [] => true | _, _ => false end);
  jn_Now := fun w => (w, sc_time w);
  jn_Send := fun w _ => (w, true)
}.

(** The line an entry gives, if it gives one. *)
Definition entry_line (now : Time) (fields : gmap string string) : option LogLine :=
  msg ← fields !! MESSAGE; source_line (bytes_of_string msg) now.

Lemma journal_drains es bs e0 now fuel :
  exists e1, journal_loop (S (length es) + fuel) true (mkScript bs es e0 now)
  = '(w, ls, e) ← journal_loop fuel false (mkScript bs [] e1 now); Some (w, omap (entry_line now) es ++ ls, e).
Proof.
  revert e0. induction es as [|e es IH]; intros e0.
  - exists e0. cbn [length Nat.add journal_loop jn_Next script_journal sc_ready Z.eqb omap list_omap app].
    by destruct (journal_loop fuel false _) as [[[w ls] e]|].
  - destruct (IH e) as [e1 IH1]. exists e1.
    change (S (length (e :: es)) + fuel)%nat with (S (S (length es) + fuel)). cbn [journal_loop].
    cbn [jn_Next script_journal sc_ready sc_batches sc_entry sc_time Z.eqb jn_GetEntry jn_Now jn_Send].
    cbn [omap list_omap]. unfold entry_line at 1. destruct (e !! MESSAGE) as [msg|]; cbn [mbind option_bind]; [|apply IH1].
    destruct (source_line (bytes_of_string msg) now) as [l|]; [|apply IH1]. rewrite IH1.
    by destruct (journal_loop fuel false _) as [[[w ls] e2]|].
Qed.

(** The fuel a script needs: a round of both loops per batch, and one step per entry. *)
Fixpoint script_fuel (bs : list (list (gmap string string))) : nat :=
  match bs with [] => 1 | b :: bs' => 1 + (S (length b) + script_fuel bs') end.

Lemma journal_plays bs e0 now :
  exists w, journal_loop (script_fuel bs) false (mkScript bs [] e0 now)
  = Some (w, omap (entry_line now) (concat bs), context_canceled).
Proof.
  revert e0. induction bs as [|b bs IH]; intros e0; [by eexists|].
  destruct (journal_drains b bs e0 now (script_fuel bs)) as [e1 Hd]. destruct (IH e1) as [w Hw]. exists w.
  change (script_fuel (b :: bs)) with (S (S (length b) + script_fuel bs)).
  remember (S (length b) + script_fuel bs)%nat as fuel eqn:Hf. cbn [journal_loop].
  cbn [jn_Done jn_Wait script_journal sc_batches sc_ready sc_entry sc_time Z.ltb Z.compare app].
  rewrite Hd, Hw. cbn [mbind option_bind concat]. by rewrite omap_app.
Qed.

(** Nothing the journal delivers is lost, repeated or reordered, however the entries come in
    batches: until the context is done the source sends exactly the lines of the entries
    that have a message which is not blank; and it ends then. *)
Theorem journald_Tail_complete unit_ bs now :
  exists w, journald_Tail (script_fuel bs) unit_ (mkScript bs [] ∅ now)
  = Some (w, omap (entry_line now) (concat bs), context_canceled).
Proof.
  destruct (journal_plays bs ∅ now) as [w Hw]. exists w. unfold journald_Tail.
  cbn [jn_New jn_AddMatch jn_SeekTail script_journal]. by rewrite Hw.
Qed.

Example journald_example :
  let entry msg := {["MESSAGE" := msg]} : gmap string string in
  (fun r => map (fun l => (line_Level l, string_of_bytes (raw_text (line_Raw l)))) r.1.2) <$>
    journald_Tail 20 "gnoland" (mkScript [[entry "  "; ∅]; []; [entry (string_of_bytes (jq "{'level':'warn','ts':1,'msg':'m','module':'x'}"))]] [] ∅ 0)
  = Some [("warn", string_of_bytes (jq "{'level':'warn','ts':1,'msg':'m','module':'x'}"))].
Proof. vm_compute. reflexivity. Qed.
