(* ===== verification/Resources.v ===== *)
(** * internal/sentinel/resources (collector.go, docker.go)

    One poll of the host, of a container, or of both. The gopsutil and docker calls read the
    machine; what they return, marshalled, is the argument [probes]. A value goes out only
    when it changed since the last one that went out; an empty payload is not sent. *)

From Stdlib Require Import Ascii.
From S2P Require Import Prelude GoStrings GoTime GoJson GoRfc3339 Protocol Delta SentinelConfig LogsCollector.

Local Open Scope Z_scope.

(** ** Probes *)

(** What a call and [json.Marshal] of its result give. *)
Inductive host_probe := StatsError | MarshalError | Sampled (b : bytes).

Record probes := mkProbes {
  pr_cpu : host_probe; pr_memory : host_probe; pr_disk : host_probe; pr_network : host_probe;
  pr_client : bool;                            (* a docker client can be made *)
  pr_container : option (result bytes bytes)   (* the answer's body, or its part before an error *) }.

Record ResCollector := mkResCollector { rc_cfg : ResourcesConfig; rc_delta : Delta; rc_dockerCli : bool }.

Definition res_NewCollector (cfg : ResourcesConfig) : ResCollector := mkResCollector cfg NewDelta false.

(** [containerStatsFromClient]: a complete body that is valid JSON. *)
Definition containerStatsFromClient (resp : option (result bytes bytes)) : option bytes :=
  match resp with
  | Some (Ok b) => if json_valid b then Some b else None
  | _ => None
  end.

(** ** One poll *)

(** [if c.delta.Changed(key, b) { data[key] = b }]. *)
Definition put_changed (st : Delta * gmap string RawMessage) (key : string) (b : bytes) : Delta * gmap string RawMessage :=
  let '(d, data) := st in
  let '(d, changed) := Changed d key b in
  (d, if changed : bool then <[key := mkRaw b]> data else data).

Definition put_host (st : Delta * gmap string RawMessage) (key : string) (p : host_probe) : Delta * gmap string RawMessage :=
  match p with Sampled b => put_changed st key b | StatsError | MarshalError => st end.

Definition collectHost (pr : probes) (st : Delta * gmap string RawMessage) : Delta * gmap string RawMessage :=
  let st := put_host st "cpu" (pr_cpu pr) in
  let st := put_host st "memory" (pr_memory pr) in
  let st := put_host st "disk" (pr_disk pr) in
  put_host st "network" (pr_network pr).

(** The client is made once and kept. *)
Definition collectDocker (pr : probes) (cli : bool) (st : Delta * gmap string RawMessage)
    : bool * (Delta * gmap string RawMessage) :=
  if cli || pr_client pr then
    (true, match containerStatsFromClient (pr_container pr) with
           | None => st
           | Some b => put_changed st "container" b
           end)
  else (cli, st).

Definition polls_host (c : ResCollector) : bool :=
  bool_decide (res_Source (rc_cfg c) = "host") || bool_decide (res_Source (rc_cfg c) = "both").
Definition polls_docker (c : ResCollector) : bool :=
  bool_decide (res_Source (rc_cfg c) = "docker") || bool_decide (res_Source (rc_cfg c) = "both").

Definition res_collect (c : ResCollector) (pr : probes) (now : Time) : ResCollector * option payload :=
  let st := (rc_delta c, ∅) in
  let st := if polls_host c then collectHost pr st else st in
  let '(cli, (d, data)) := if polls_docker c then collectDocker pr (rc_dockerCli c) st else (rc_dockerCli c, st) in
  (mkResCollector (rc_cfg c) d cli,
   if bool_decide (data = ∅) then None else Some (mkPayload (mkJSONTime now) data)).

(** The polls of [Run], in order. *)
Fixpoint res_run (c : ResCollector) (polls : list (probes * Time)) : ResCollector * list payload :=
  match polls with
  | [] => (c, [])
  | (pr, now) :: polls =>
      let '(c, out) := res_collect c pr now in
      let '(c, outs) := res_run c polls in
      (c, match out with Some p => p :: outs | None => outs end)
  end.

(** ** The values of a poll *)

Definition host_values (pr : probes) : list (string * bytes) :=
  omap (fun p : string * host_probe => match p.2 with Sampled b => Some (p.1, b) | _ => None end)
    [("cpu", pr_cpu pr); ("memory", pr_memory pr); ("disk", pr_disk pr); ("network", pr_network pr)].

Definition docker_values (cli : bool) (pr : probes) : list (string * bytes) :=
  if cli || pr_client pr then
    match containerStatsFromClient (pr_container pr) with Some b => [("container", b)] | None => [] end
  else [].

Definition poll_values (c : ResCollector) (pr : probes) : list (string * bytes) :=
  (if polls_host c then host_values pr else [])
  ++ (if polls_docker c then docker_values (rc_dockerCli c) pr else []).

(** The calls of the filter in a run. *)
Fixpoint run_values (c : ResCollector) (polls : list (probes * Time)) : list (string * bytes) :=
  match polls with
  | [] => []
  | (pr, now) :: polls => poll_values c pr ++ run_values (res_collect c pr now).1 polls
  end.

Definition put_all (vals : list (string * bytes)) (st : Delta * gmap string RawMessage) : Delta * gmap string RawMessage :=
  fold_left (fun st p => put_changed st p.1 p.2) vals st.

(** What the receiver knows: each payload overrides the keys it has. *)
Definition view_step (view : gmap string RawMessage) (p : payload) : gmap string RawMessage := Data p ∪ view.

(** The last value per key. *)
Definition last_values (m : gmap string RawMessage) (vals : list (string * bytes)) : gmap string RawMessage :=
  fold_left (fun m p => <[p.1 := mkRaw p.2]> m) vals m.

Lemma res_collect_eq c pr now :
  res_collect c pr now
  = let '(d, data) := put_all (poll_values c pr) (rc_delta c, ∅) in
    (mkResCollector (rc_cfg c) d (rc_dockerCli c || (polls_docker c && pr_client pr)),
     if bool_decide (data = ∅) then None else Some (mkPayload (mkJSONTime now) data)).
Proof.
  unfold res_collect, poll_values, put_all. rewrite fold_left_app.
  assert ((if polls_host c then collectHost pr (rc_delta c, ∅) else (rc_delta c, ∅))
          = fold_left (fun st p => put_changed st p.1 p.2) (if polls_host c then host_values pr else []) (rc_delta c, ∅)) as ->.
  { destruct (polls_host c); [|done]. unfold collectHost, host_values.
    by destruct (pr_cpu pr), (pr_memory pr), (pr_disk pr), (pr_network pr). }
  generalize (fold_left (fun st p => put_changed st p.1 p.2) (if polls_host c then host_values pr else []) (rc_delta c, ∅)) as st.
  intros st. unfold collectDocker, docker_values. destruct (polls_docker c); cbn [andb].
  - destruct (rc_dockerCli c || pr_client pr) eqn:E.
    + destruct (containerStatsFromClient (pr_container pr)) as [b|]; cbn [fold_left fst snd];
        [destruct (put_changed st "container" b)|destruct st]; done.
    + apply orb_false_iff in E as [-> _]. by destruct st.
  - rewrite orb_false_r. by destruct st.
Qed.

(** The receiver's view and the filter's memory, over the values [all] of a run. *)
Definition in_step (all : list (string * bytes)) (d : Delta) (view : gmap string RawMessage) : Prop :=
  tracks all d (raw_text <$> view).

Lemma put_changed_step all d data view k b :
  collision_free all -> (k, b) ∈ all -> in_step all d (data ∪ view) ->
  let '(d', data') := put_changed (d, data) k b in
  in_step all d' (data' ∪ view) /\ data' ∪ view = <[k := mkRaw b]> (data ∪ view).
Proof.
  intros Hcf Hin Ht. unfold put_changed. pose proof (Changed_tracks all d (raw_text <$> (data ∪ view)) k b Hcf Ht Hin) as [Hr Ht'].
  destruct (Changed d k b) as [d' ch]. unfold spec_changed in Hr, Ht'. cbn [fst snd] in *.
  assert ((if ch then <[k := mkRaw b]> data else data) ∪ view = <[k := mkRaw b]> (data ∪ view)) as Heq.
  { destruct ch; [by rewrite insert_union_l|]. symmetry in Hr. apply negb_false_iff, bool_decide_eq_true_1 in Hr.
    rewrite lookup_fmap in Hr. symmetry. apply insert_id. destruct ((data ∪ view) !! k) as [[t]|]; [|done].
    cbn in Hr. by injection Hr as ->. }
  split; [|exact Heq]. unfold in_step. by rewrite Heq, fmap_insert.
Qed.

Lemma put_all_step all vals d data view :
  collision_free all -> (forall p, p ∈ vals -> p ∈ all) -> in_step all d (data ∪ view) ->
  let '(d', data') := put_all vals (d, data) in
  in_step all d' (data' ∪ view) /\ data' ∪ view = last_values (data ∪ view) vals.
Proof.
  intros Hcf. revert d data. induction vals as [|[k b] vals IH]; intros d data Hin Ht; [done|].
  cbn [put_all fold_left last_values fst snd].
  pose proof (put_changed_step all d data view k b Hcf (Hin _ ltac:(by left)) Ht) as Hs.
  destruct (put_changed (d, data) k b) as [d1 data1]. destruct Hs as [Ht1 Heq].
  specialize (IH d1 data1 ltac:(intros; apply Hin; by right) Ht1). unfold put_all in IH.
  destruct (fold_left _ vals (d1, data1)) as [d2 data2]. destruct IH as [Ht2 Heq2].
  split; [exact Ht2|]. unfold last_values in *. by rewrite Heq2, Heq.
Qed.

Lemma res_run_view all polls c view :
  collision_free all -> (forall p, p ∈ run_values c polls -> p ∈ all) -> in_step all (rc_delta c) view ->
  fold_left view_step (res_run c polls).2 view = last_values view (run_values c polls).
Proof.
  intros Hcf. revert c view. induction polls as [|[pr now] polls IH]; intros c view Hin Ht; [done|].
  cbn [res_run run_values]. pose proof (res_collect_eq c pr now) as Hc.
  assert (in_step all (rc_delta c) (∅ ∪ view)) as Ht0 by (by rewrite (left_id_L ∅ (∪))).
  pose proof (put_all_step all (poll_values c pr) (rc_delta c) ∅ view Hcf
    ltac:(intros; apply Hin; cbn [run_values]; apply elem_of_app; by left) Ht0) as Hs.
  destruct (put_all (poll_values c pr) (rc_delta c, ∅)) as [d data]. rewrite (left_id_L ∅ (∪)) in Hs. destruct Hs as [Ht1 Heq].
  assert (forall p, p ∈ run_values (res_collect c pr now).1 polls -> p ∈ all) as Hin'
    by (intros; apply Hin; cbn [run_values]; apply elem_of_app; by right).
  rewrite Hc in *. cbn [fst snd] in *. set (c1 := mkResCollector _ _ _) in *.
  specialize (IH c1 (data ∪ view) Hin' Ht1). destruct (res_run c1 polls) as [c2 outs]. cbn [snd] in *.
  unfold last_values in *. rewrite fold_left_app, <- Heq, <- IH. case_bool_decide as He; [|done].
  by rewrite He, (left_id_L ∅ (∪)).
Qed.

(** C36: Leaving out what has not changed loses nothing: whatever the probes return, poll after
    poll, a receiver that keeps the newest value of each key from the payloads it got knows
    exactly the last value each probe returned (provided no two values of a key collide
    under SHA-256). *)
Theorem resources_view cfg polls :
  let c := res_NewCollector cfg in
  collision_free (run_values c polls) ->
  fold_left view_step (res_run c polls).2 ∅ = last_values ∅ (run_values c polls).
Proof.
  intros c Hcf. apply (res_run_view (run_values c polls)); [done|done|].
  intros k. cbn. rewrite lookup_fmap, !lookup_empty. done.
Qed.

(** A payload is never empty and has only keys the watchtower reads. *)
Definition resource_keys : gset string := {["cpu"; "memory"; "disk"; "network"; "container"]}.

Lemma put_all_keys vals d data :
  (forall p, p ∈ vals -> p.1 ∈ resource_keys) -> dom data ⊆ resource_keys ->
  dom (put_all vals (d, data)).2 ⊆ resource_keys.
Proof.
  revert d data. induction vals as [|[k b] vals IH]; intros d data Hin Hd; [done|]. unfold put_all. cbn [fold_left fst snd].
  assert (dom (put_changed (d, data) k b).2 ⊆ resource_keys) as Hd1.
  { unfold put_changed. destruct (Changed d k b) as [d1 []]; cbn [snd]; [|done]. rewrite dom_insert_L.
    specialize (Hin (k, b) ltac:(by left)). cbn in Hin. set_solver. }
  destruct (put_changed (d, data) k b) as [d1 data1]. apply IH; [|done]. intros; apply Hin; by right.
Qed.

Lemma poll_values_keys c pr p : p ∈ poll_values c pr -> p.1 ∈ resource_keys.
Proof.
  unfold poll_values, host_values, docker_values, resource_keys. rewrite elem_of_app. intros [H|H].
  - destruct (polls_host c); [|by apply not_elem_of_nil in H]. apply list_elem_of_omap in H as ([k v] & Hin & Hv).
    cbn [fst snd] in Hv. destruct v; try done. injection Hv as <-. cbn.
    repeat (apply elem_of_cons in Hin as [[= -> _]|Hin]; [set_solver|]). by apply not_elem_of_nil in Hin.
  - repeat (case_match; try by apply not_elem_of_nil in H). apply list_elem_of_singleton in H as ->. set_solver.
Qed.

Theorem resources_payload c pr now p :
  (res_collect c pr now).2 = Some p -> Data p <> ∅ /\ dom (Data p) ⊆ resource_keys /\ json_time (CollectedAt p) = now.
Proof.
  rewrite res_collect_eq. pose proof (put_all_keys (poll_values c pr) (rc_delta c) ∅ (poll_values_keys c pr) ltac:(set_solver)) as Hk.
  destruct (put_all _ _) as [d data]. cbn [snd] in *. case_bool_decide as He; [done|]. intros [= <-]. done.
Qed.

(** ** Evaluations *)

Definition sample_probes (cpu mem : string) : probes :=
  mkProbes (Sampled (js cpu)) (Sampled (js mem)) StatsError (Sampled (js "[]")) false None.

Definition sample_polls : list (probes * Time) :=
  [(sample_probes "[1]" "{}", 1); (sample_probes "[2]" "{}", 2); (sample_probes "[2]" "{}", 3)].

Definition host_config : ResourcesConfig := mkResourcesConfig true Second "host" EmptyString.

Lemma resources_view_witness :
  (res_run (res_NewCollector host_config) sample_polls).2
    = [mkPayload (mkJSONTime 1) {["cpu" := mkRaw (js "[1]"); "memory" := mkRaw (js "{}"); "network" := mkRaw (js "[]")]};
       mkPayload (mkJSONTime 2) {["cpu" := mkRaw (js "[2]")]}]
  /\ fold_left view_step (res_run (res_NewCollector host_config) sample_polls).2 ∅
     = {["cpu" := mkRaw (js "[2]"); "memory" := mkRaw (js "{}"); "network" := mkRaw (js "[]")]}.
Proof.
  split; [vm_compute; reflexivity|]. refine (eq_trans (resources_view host_config sample_polls _) _).
  - assert (forall k x, (k, x) ∈ run_values (res_NewCollector host_config) sample_polls ->
      (k, x) = ("cpu", js "[1]") \/ (k, x) = ("cpu", js "[2]") \/ (k, x) = ("memory", js "{}") \/ (k, x) = ("network", js "[]")) as Hv.
    { intros k x H. assert (run_values (res_NewCollector host_config) sample_polls
        = [("cpu", js "[1]"); ("memory", js "{}"); ("network", js "[]"); ("cpu", js "[2]"); ("memory", js "{}"); ("network", js "[]");
           ("cpu", js "[2]"); ("memory", js "{}"); ("network", js "[]")]) as Hr by (vm_compute; reflexivity).
      rewrite Hr in H. clear Hr. repeat (apply elem_of_cons in H as [H|H]; [tauto|]). destruct (not_elem_of_nil _ H). }
    assert (Sum256 (js "[1]") <> Sum256 (js "[2]")) as H12.
    { intros H. apply (f_equal hex_encode) in H. vm_compute in H. discriminate H. }
    split.
    + intros k x y Hx%Hv Hy%Hv He.
      destruct Hx as [Hx|[Hx|[Hx|Hx]]], Hy as [Hy|[Hy|[Hy|Hy]]]; apply pair_equal_spec in Hx as [-> ->], Hy as [Hk ->];
        first [reflexivity | discriminate Hk | destruct (H12 He) | destruct (H12 (eq_sym He))].
    + intros k x Hx%Hv H. apply (f_equal hex_encode) in H.
      destruct Hx as [[= -> ->]|[[= -> ->]|[[= -> ->]|[= -> ->]]]]; vm_compute in H; discriminate H.
  - vm_compute. reflexivity.
Defined.
