(* ===== verification/SelfCollector.v ===== *)
(** * internal/sentinel/self

    The collector that reports the sentinel's own counters. One [emit] takes a snapshot of
    the statistics (which resets the per-snapshot counters and keeps the absolute ones) and
    makes a metrics payload of the absolute ones; an empty snapshot makes none. [Run] emits
    once at the start and then on every tick. *)

From Stdlib Require Import Ascii.
From S2P Require Import Prelude GoStrings GoTime GoJson GoRfc3339 Protocol SentinelStats.

Local Open Scope Z_scope.

Record TypeStats := mkTypeStats { ts_UncompressedBytes : Z; ts_WireBytes : Z; ts_Drops : gmap string Z }.

Definition type_stats (s : TypeSnapshot) : TypeStats :=
  mkTypeStats (TotalBytes s) (TotalWireBytes s) (TotalDrops s).

(** [json.Marshal] of a [map[string]int64] that is not nil. *)
Definition encode_int_map (m : gmap string Z) : bytes :=
  encode_map (map (fun p => (p.1, bytes_of_string (Itoa p.2))) (map_to_list m)).

Definition encode_TypeStats (t : TypeStats) : bytes :=
  encode_object
    [("uncompressed_bytes", bytes_of_string (Itoa (ts_UncompressedBytes t)));
     ("wire_bytes", bytes_of_string (Itoa (ts_WireBytes t)));
     ("drops", encode_int_map (ts_Drops t))].

Definition encode_by_type (m : gmap string TypeStats) : bytes :=
  encode_map (map (fun p => (p.1, encode_TypeStats p.2)) (map_to_list m)).

(** Marshalling these maps cannot fail. *)
Definition self_emit (st : Stats) (now : Time) : Stats * option payload :=
  let '(st', (snap, _)) := stats_Snapshot st now in
  if bool_decide (snap = ∅) then (st', None)
  else (st', Some (mkPayload (mkJSONTime now) {["self_stats" := mkRaw (encode_by_type (type_stats <$> snap))]})).

(** The statistics see a snapshot and nothing else. *)
Lemma self_emit_stats st now : (self_emit st now).1 = (stats_Snapshot st now).1.
Proof. unfold self_emit. destruct (stats_Snapshot st now) as [st' [snap up]]. by case_bool_decide. Qed.

(** A report carries every type recorded so far with its absolute counters. *)
Lemma self_emit_payload st now :
  match (self_emit st now).2 with
  | None => st_data st = ∅
  | Some p =>
      json_time (CollectedAt p) = now
      /\ Data p = {["self_stats" := mkRaw (encode_by_type ((fun e => mkTypeStats (totalBytes e) (totalWireBytes e) (totalDrops e)) <$> st_data st))]}
  end.
Proof.
  unfold self_emit, stats_Snapshot. case_bool_decide as He; cbn [snd].
  - by apply fmap_empty_inv in He.
  - split; [done|]. by rewrite <- map_fmap_compose.
Qed.

Example self_emit_example :
  let st := RecordDrop (stats_Record (stats_New 0) "logs" 100 40) "log" "buffer_full" in
  (fun p => string_of_bytes <$> (raw_text <$> (Data p !! "self_stats"))) <$> (self_emit st 5).2
  = Some (Some (string_of_bytes (jq
     ("{'log':{'uncompressed_bytes':0,'wire_bytes':0,'drops':{'buffer_full':1}},"
      +:+ "'logs':{'uncompressed_bytes':100,'wire_bytes':40,'drops':{}}}")))).
Proof. vm_compute. reflexivity. Qed.

(** ** Run

    The collector's goroutine. Other goroutines record in the statistics between its steps;
    a tick that comes while a report waits for the channel is delivered after it. *)

Inductive self_phase :=
| SelfEmit                  (* at the call of [emit] *)
| SelfSend (p : payload)    (* in the select of [emit] *)
| SelfWait                  (* in the select of [Run] *)
| SelfEnd.                  (* [Run] has returned the error of the context *)

Record self_run := mkSelfRun { sr_stats : Stats; sr_phase : self_phase }.

Definition self_start (st : Stats) : self_run := mkSelfRun st SelfEmit.

Inductive self_event :=
| SeOther (o : stats_op)    (* another goroutine uses the statistics *)
| SeEmit (now : Time)
| SeSent                    (* the channel takes the report *)
| SeTick
| SeDone.                   (* the context is done *)

(** The next state, and the payload put on the channel. *)
Definition self_step (s : self_run) (e : self_event) : option (self_run * option payload) :=
  match e, sr_phase s with
  | SeOther o, ph => Some (mkSelfRun (stats_run (sr_stats s) [o]).1 ph, None)
  | SeEmit now, SelfEmit =>
      let '(st, rep) := self_emit (sr_stats s) now in
      Some (mkSelfRun st (match rep with Some p => SelfSend p | None => SelfWait end), None)
  | SeSent, SelfSend p => Some (mkSelfRun (sr_stats s) SelfWait, Some p)
  | SeTick, SelfWait => Some (mkSelfRun (sr_stats s) SelfEmit, None)
  | SeDone, SelfSend _ => Some (mkSelfRun (sr_stats s) SelfWait, None)
  | SeDone, SelfWait => Some (mkSelfRun (sr_stats s) SelfEnd, None)
  | _, _ => None
  end.

Fixpoint self_steps (s : self_run) (evs : list self_event) : option (self_run * list payload) :=
  match evs with
  | [] => Some (s, [])
  | e :: evs' =>
      '(s, p) ← self_step s e;
      '(s, ps) ← self_steps s evs';
      Some (s, match p with Some p => p :: ps | None => ps end)
  end.

(** The report that waits for the channel. *)
Definition waiting (s : self_run) : list payload := match sr_phase s with SelfSend p => [p] | _ => [] end.

(** The reports made in a run, in order. *)
Fixpoint reports (s : self_run) (evs : list self_event) : list payload :=
  match evs with
  | [] => []
  | e :: evs' =>
      match e, sr_phase s with
      | SeEmit now, SelfEmit => match (self_emit (sr_stats s) now).2 with Some p => [p] | None => [] end
      | _, _ => []
      end ++ match self_step s e with Some (s', _) => reports s' evs' | None => [] end
  end.

(** Until the context is done every report is sent, whole and in order, before the next is
    made. *)
Theorem self_run_sends s evs s' ps :
  self_steps s evs = Some (s', ps) -> Forall (fun e => e <> SeDone) evs ->
  ps ++ waiting s' = waiting s ++ reports s evs.
Proof.
  revert s ps. induction evs as [|e evs IH]; intros s ps Hs Hf; [cbn in Hs; injection Hs as -> <-; cbn; by rewrite app_nil_r|].
  apply Forall_cons_iff in Hf as [He Hf]. cbn [self_steps] in Hs. apply bind_Some in Hs as ([s1 p] & H1 & Hs).
  apply bind_Some in Hs as ([s2 ps2] & H2 & [= <- <-]). specialize (IH _ _ H2 Hf). cbn [reports]. rewrite H1.
  destruct s as [st ph]. unfold self_step, waiting in *. cbn [sr_phase sr_stats] in *.
  destruct e as [o|now| | |]; destruct ph as [|q| |]; simplify_eq; cbn [sr_phase app] in *; try exact IH.
  - destruct (self_emit st now) as [st' [rep|]]; simplify_eq; cbn [sr_phase snd app] in *; exact IH.
  - by rewrite IH.
Qed.

(** The comment on the first call of [emit] wants the series to appear immediately; a sentinel
    that has sent nothing yet has nothing to report, so they appear with the first tick. *)
Theorem first_report_empty t now : self_emit (stats_New t) now = (stats_New t, None).
Proof. unfold self_emit, stats_Snapshot. cbn [stats_New st_data st_start]. by rewrite !fmap_empty, bool_decide_eq_true_2. Qed.
