(* ===== verification/SelfReport.v ===== *)
(** * The sentinel's own counters, as the watchtower exports them

    SelfCollector marshals the absolute counters, VmLines decodes them: whatever was
    recorded before, the series of the watchtower carry the counters of the sentinel. *)

From Stdlib Require Import Ascii.
From S2P Require Import Prelude GoStrings GoTime GoFloat GoJson GoRfc3339 GoJsonText GoJsonEncode Protocol SentinelStats VmLines Compacted SelfCollector.

Local Open Scope Z_scope.

(** ** Counters that can be marshalled *)

Definition drops_ok (m : gmap string Z) : Prop := map_Forall (fun r n => valid_utf8 r /\ is_int64 n) m.
Definition entry_ok (e : sn_entry) : Prop := is_int64 (totalBytes e) /\ is_int64 (totalWireBytes e) /\ drops_ok (totalDrops e).
Definition stats_ok (st : Stats) : Prop := map_Forall (fun k e => valid_utf8 k /\ entry_ok e) (st_data st).

(** The names the program uses are literals. *)
Definition op_named (o : stats_op) : Prop :=
  match o with
  | OpRecord k _ _ => valid_utf8 k
  | OpDrop k r => valid_utf8 k /\ valid_utf8 r
  | OpSnapshot _ => True
  end.

Lemma getOrCreate_ok st k : stats_ok st -> entry_ok (getOrCreate st k).
Proof.
  intros H. unfold getOrCreate. destruct (st_data st !! k) as [e|] eqn:E; [by apply (H k e E)|]. cbn [default].
  split_and!; [done|done|apply map_Forall_empty].
Qed.

Lemma put_entry_ok st k e : stats_ok st -> valid_utf8 k -> entry_ok e -> stats_ok (put_entry st k e).
Proof. intros H Hk He. unfold stats_ok, put_entry. cbn [st_data]. by apply map_Forall_insert_2. Qed.

Lemma incr_ok m r : drops_ok m -> valid_utf8 r -> drops_ok (incr m r).
Proof. intros H Hr. unfold incr. apply map_Forall_insert_2; [|done]. split; [done|apply wrap64_range]. Qed.

Lemma stats_run_ok ops st : stats_ok st -> Forall op_named ops -> stats_ok (stats_run st ops).1.
Proof.
  intros H Hn. revert st H. induction Hn as [|o ops Ho _ IH]; intros st H; [done|].
  destruct o as [k u w|k r|now]; cbn [stats_run op_named] in *.
  - apply IH, put_entry_ok; [done..|]. destruct (getOrCreate_ok st k H) as (_ & _ & Hd).
    split_and!; [apply wrap64_range..|done].
  - apply IH, put_entry_ok; [done|by destruct Ho|]. destruct (getOrCreate_ok st k H) as (H1 & H2 & Hd).
    split_and!; [done..|]. by apply incr_ok; destruct Ho.
  - specialize (IH (stats_Snapshot st now).1). destruct (stats_Snapshot st now) as [s1 [snap up]] eqn:Es. cbn [fst] in IH.
    destruct (stats_run s1 ops) as [s2 snaps]. cbn [fst] in *. apply IH. injection Es as <- _ _.
    unfold stats_ok. cbn [st_data]. intros k e. rewrite lookup_fmap. intros (e' & E & ->)%fmap_Some. apply (H k e' E).
Qed.

(** ** What is read back *)

Definition self_view (e : sn_entry) : selfTypeStats :=
  mkSelfTypeStats (mkInt64 (totalBytes e)) (mkInt64 (totalWireBytes e)) (mkInt64 <$> totalDrops e).

Definition entry_stats (e : sn_entry) : TypeStats := mkTypeStats (totalBytes e) (totalWireBytes e) (totalDrops e).

Lemma from_int64_Itoa t n old : is_int64 n -> from_json t (JNumber (Itoa n)) old = Some (mkInt64 n).
Proof. intros H. unfold from_json, from_int64. by rewrite ParseInt_Itoa. Qed.

Lemma encode_int_map_decode n m : drops_ok m ->
  exists lv, JText (S n) (encode_int_map m) (JObject lv)
    /\ forall t, from_json t (JObject lv) ∅ = Some (mkInt64 <$> m : gmap string Int64).
Proof.
  intros Hm. apply (encode_map_decode n (fun z => bytes_of_string (Itoa z)) mkInt64). intros k z Hk.
  destruct (Hm k z Hk) as [Hv Hz]. split; [done|]. exists (JNumber (Itoa z)).
  split; [apply JText_Itoa|by apply from_int64_Itoa].
Qed.

Lemma encode_TypeStats_decode n e : entry_ok e ->
  exists v, JText (S (S n)) (encode_TypeStats (entry_stats e)) v
    /\ from_json (encode_TypeStats (entry_stats e)) v go_zero = Some (self_view e).
Proof.
  intros (H1 & H2 & Hd). destruct (encode_int_map_decode n _ Hd) as (lv & Hj & Hf).
  set (u := bytes_of_string (Itoa (totalBytes e))). set (w := bytes_of_string (Itoa (totalWireBytes e))).
  exists (JObject [("uncompressed_bytes", (u, JNumber (Itoa (totalBytes e)))); ("wire_bytes", (w, JNumber (Itoa (totalWireBytes e))));
    ("drops", (encode_int_map (totalDrops e), JObject lv))]). split.
  - apply JText_encode_object.
    repeat (constructor; [split_and!; [done|done|first [apply JText_Itoa|exact Hj]]|]). constructor.
  - unfold from_json at 1, from_selfTypeStats, from_struct. cbn [fold_left fst snd].
    erewrite find_field_exact by reflexivity. cbn [fld f_set]. rewrite from_int64_Itoa by done.
    cbn [fmap option_fmap option_map UncompressedBytes WireBytes Drops].
    erewrite find_field_exact by reflexivity. cbn [fld f_set]. rewrite from_int64_Itoa by done.
    cbn [fmap option_fmap option_map UncompressedBytes WireBytes Drops].
    erewrite find_field_exact by reflexivity. cbn [fld f_set UncompressedBytes WireBytes Drops].
    change (Drops go_zero) with (∅ : gmap string Int64). by rewrite Hf.
Qed.

Lemma self_stats_text st : stats_ok st ->
  exists lv, JText 3 (encode_by_type (entry_stats <$> st_data st)) (JObject lv)
    /\ forall t, from_json t (JObject lv) ∅ = Some (self_view <$> st_data st : gmap string selfTypeStats).
Proof.
  intros Hst. unfold encode_by_type. rewrite map_to_list_fmap.
  change (prod_map id entry_stats <$> map_to_list (st_data st)) with (map (prod_map id entry_stats) (map_to_list (st_data st))).
  rewrite map_map. cbn [prod_map fst snd id]. apply (encode_map_decode 2 (fun e => encode_TypeStats (entry_stats e)) self_view).
  intros k e Hk. destruct (Hst k e Hk) as [Hv He]. split; [done|]. by apply (encode_TypeStats_decode 0).
Qed.

Section Report.
Context (range : forall V, gmap string V -> list (string * V)).
Context (range_ok : forall V (m : gmap string V), map_range m (range V m)).

Lemma range_singleton {V} k (v : V) : range V {[k := v]} = [(k, v)].
Proof.
  pose proof (range_ok V {[k := v]}) as H. unfold map_range in H. rewrite map_to_list_singleton in H.
  by apply Permutation_singleton_r in H.
Qed.

Lemma self_payload_lines st now p validator :
  stats_ok st -> (self_emit st now).2 = Some p ->
  map_Forall (fun _ r => raw_valid r) (Data p)
  /\ extractMetrics range validator p
     = concat (map (self_lines range validator (UnixMilli now)) (range selfTypeStats (self_view <$> st_data st))).
Proof.
  intros Hst Hp. pose proof (self_emit_payload st now) as H. rewrite Hp in H. destruct H as [Ht Hd].
  destruct (self_stats_text st Hst) as (lv & HJ & Hf).
  change (fun e => mkTypeStats (totalBytes e) (totalWireBytes e) (totalDrops e)) with entry_stats in Hd.
  pose proof (json_parse_complete 3 [] _ _ [] ws_nil ws_nil HJ ltac:(unfold max_nat; change max_depth with 10000; lia)) as Hparse.
  rewrite app_nil_r in Hparse. cbn [app] in Hparse. split.
  - rewrite Hd. intros k r [<- <-]%lookup_singleton_Some. split; [|by eexists].
    cbn [raw_text]. by destruct (JText_head _ _ _ HJ) as (a & b & -> & _).
  - unfold extractMetrics. rewrite Ht, Hd, range_singleton. cbn [map concat]. rewrite app_nil_r.
    change (metrics_key range validator (UnixMilli now) ("self_stats", mkRaw (encode_by_type (entry_stats <$> st_data st))))
      with (appendSelfStats range validator (UnixMilli now) (mkRaw (encode_by_type (entry_stats <$> st_data st)))).
    unfold appendSelfStats, decodeResult. cbn [raw_text].
    rewrite (Unmarshal_text (A := gmap string selfTypeStats) 3 _ _ HJ) by (unfold max_nat; change max_depth with 10000; lia).
    change (go_zero : gmap string selfTypeStats) with (∅ : gmap string selfTypeStats). by rewrite Hf.
Qed.
End Report.

(** C21: The sentinel's own counters arrive: after any sequence of records, drops and
    snapshots under valid names, the report the self collector makes is turned by the
    watchtower, after the trip over JSON, into exactly two byte series per type and one
    drop series per type and reason, with the absolute counters of that moment, stamped
    with the time of the report; snapshots taken in between do not change them. *)
Theorem self_report_received range validator t0 ops now p :
  (forall V (m : gmap string V), map_range m (range V m)) -> Forall op_named ops ->
  let st := (stats_run (stats_New t0) ops).1 in
  (self_emit st now).2 = Some p ->
  extractMetrics range validator (payload_sent p)
  ≡ₚ concat (map (self_lines range validator (UnixMilli now)) (range selfTypeStats (self_view <$> st_data st))).
Proof.
  intros Hr Hn st Hp. assert (stats_ok st) as Hst by (by apply stats_run_ok; [apply map_Forall_empty|]).
  destruct (self_payload_lines range Hr st now p validator Hst Hp) as [Hv <-].
  by apply (proj2 (payload_samples_sent range validator p Hr Hv)).
Qed.

Definition sample_ops : list stats_op :=
  [OpRecord "rpc" 100 100; OpRecord "logs" 70 30; OpSnapshot 3; OpDrop "logs" "retry_exhausted"; OpRecord "logs" 5 5].

Lemma self_report_received_witness :
  exists p, (self_emit (stats_run (stats_New 0) sample_ops).1 (5 * Second)).2 = Some p
  /\ extractMetrics (fun V m => map_to_list m) "val1" (payload_sent p)
     ≡ₚ concat (map (self_lines (fun V m => map_to_list m) "val1" 5000)
          (map_to_list ({["rpc" := mkSelfTypeStats (mkInt64 100) (mkInt64 100) ∅;
                          "logs" := mkSelfTypeStats (mkInt64 75) (mkInt64 35) {["retry_exhausted" := mkInt64 1]}]} : gmap string selfTypeStats))).
Proof.
  destruct (self_emit (stats_run (stats_New 0) sample_ops).1 (5 * Second)).2 as [p|] eqn:E; [|vm_compute in E; discriminate E].
  exists p. split; [reflexivity|].
  pose proof (self_report_received (fun V m => map_to_list m) "val1" 0 sample_ops (5 * Second) p
    (fun V m => map_range_map_to_list m) ltac:(repeat constructor) E) as H.
  assert (UnixMilli (5 * Second) = 5000) as Hu by (vm_compute; reflexivity). rewrite Hu in H.
  assert (self_view <$> st_data (stats_run (stats_New 0) sample_ops).1
    = {["rpc" := mkSelfTypeStats (mkInt64 100) (mkInt64 100) ∅;
        "logs" := mkSelfTypeStats (mkInt64 75) (mkInt64 35) {["retry_exhausted" := mkInt64 1]}]}) as Hs by (vm_compute; reflexivity).
  rewrite Hs in H. exact H.
Defined.
