(* ===== verification/OtlpRelay.v ===== *)
(** * internal/sentinel/otlp (filter.go, relay.go)

    The HTTP endpoint gnoland exports to: metrics are filtered and handed to the sending
    loop, traces are accepted and thrown away. The protobuf messages are seen through what
    the filter looks at; the codec and the gzip reader are arguments. The channel to the
    sending loop is a queue with a capacity, and the send on it never blocks. *)

From Stdlib Require Import Ascii.
From S2P Require Import Prelude GoStrings GoTime GoHttp.

Local Open Scope Z_scope.

(** ** The deny list *)

Record metric (MR : Type) := mkMetric { m_Name : string; m_rest : MR }.
Arguments mkMetric {MR} m_Name m_rest.
Arguments m_Name {MR} m.
Arguments m_rest {MR} m.

Record scope_metrics (MR SR : Type) := mkScope { sm_Metrics : list (metric MR); sm_rest : SR }.
Arguments mkScope {MR SR} sm_Metrics sm_rest.
Arguments sm_Metrics {MR SR} s.
Arguments sm_rest {MR SR} s.

Record res_metrics (MR SR RR : Type) := mkRes { rm_ScopeMetrics : list (scope_metrics MR SR); rms_rest : RR }.
Arguments mkRes {MR SR RR} rm_ScopeMetrics rms_rest.
Arguments rm_ScopeMetrics {MR SR RR} r.
Arguments rms_rest {MR SR RR} r.

Record export_request (MR SR RR QR : Type) := mkExport { eq_ResourceMetrics : list (res_metrics MR SR RR); eq_rest : QR }.
Arguments mkExport {MR SR RR QR} eq_ResourceMetrics eq_rest.
Arguments eq_ResourceMetrics {MR SR RR QR} e.
Arguments eq_rest {MR SR RR QR} e.

Definition deniedMetricNames : gset string :=
  {["block_txs_hist"; "validator_count_hist"; "validator_vp_hist"; "num_mempool_txs_hist"]}.

(** The loop over the metrics of one scope, [out] the slice built so far. *)
Fixpoint filter_loop {MR} (ms out : list (metric MR)) : list (metric MR) :=
  match ms with
  | [] => out
  | m :: ms' => if bool_decide (m_Name m ∈ deniedMetricNames) then filter_loop ms' out else filter_loop ms' (out ++ [m])
  end.

Definition filter_scope {MR SR} (sm : scope_metrics MR SR) : scope_metrics MR SR :=
  mkScope (filter_loop (sm_Metrics sm) []) (sm_rest sm).

Definition filterDenied {MR SR RR QR} (req : export_request MR SR RR QR) : export_request MR SR RR QR :=
  mkExport (map (fun rm => mkRes (map filter_scope (rm_ScopeMetrics rm)) (rms_rest rm)) (eq_ResourceMetrics req)) (eq_rest req).

(** ** The channel *)

(** The [select] with a default: the queue after it, and whether the bytes were dropped. *)
Definition offer (cap : nat) (q : list bytes) (b : bytes) : list bytes * bool :=
  if Nat.ltb (length q) cap then (q ++ [b], false) else (q, true).

(** ** Reading a body *)

Definition maxOTLPBodyBytes : Z := 52428800.

(** [io.LimitReader] over a reader that yields bytes and then ends, or fails. *)
Definition limited (n : Z) (r : result bytes bytes) : result bytes bytes :=
  match r with
  | Ok b => Ok (if Z.of_nat (length b) <=? n then b else take (Z.to_nat n) b)
  | Err pre => if n <=? Z.of_nat (length pre) then Ok (take (Z.to_nat n) pre) else Err pre
  end.

Inductive relay_error := ErrGzipReader | ErrReadBody.

Section Relay.
Context {MR SR RR QR : Type}.
Context (proto_Unmarshal : bytes -> option (export_request MR SR RR QR)).
Context (proto_Marshal : export_request MR SR RR QR -> option bytes).
(** The empty answers. *)
Context (empty_metrics_response empty_traces_response : option bytes).
(** [gzip.NewReader]: nothing without a header, else a reader. *)
Context (gzip_NewReader : result bytes bytes -> option (result bytes bytes)).
(** The texts of the libraries' errors. *)
Context (err_text : relay_error -> string) (unmarshal_text marshal_text : string).

Definition readBody (req : Request) : result bytes relay_error :=
  let reader := limited maxOTLPBodyBytes (ReqBody req) in
  let read_all (r : result bytes bytes) := match r with Ok b => Ok b | Err _ => Err ErrReadBody end in
  if bool_decide (Header_Get (ReqHeader req) "Content-Encoding" = "gzip") then
    match gzip_NewReader reader with
    | None => Err ErrGzipReader
    | Some gr => read_all (limited maxOTLPBodyBytes gr)
    end
  else read_all reader.

Definition writeEmptyProtoResponse (resp : option bytes) : Response :=
  match resp with
  | None => http_Error ∅ ("marshal response: " +:+ marshal_text) StatusInternalServerError
  | Some b => mkResponse StatusOK (Header_Set ∅ "Content-Type" "application/x-protobuf") (string_of_bytes b)
  end.

(** The queue after the request, whether [onDrop] was called, and the response. *)
Definition handleMetrics (cap : nat) (q : list bytes) (req : Request) : list bytes * bool * Response :=
  match readBody req with
  | Err e => (q, false, http_Error ∅ ("read body: " +:+ err_text e) StatusBadRequest)
  | Ok body =>
      match proto_Unmarshal body with
      | None => (q, false, http_Error ∅ ("unmarshal metrics: " +:+ unmarshal_text) StatusBadRequest)
      | Some msg =>
          match proto_Marshal (filterDenied msg) with
          | None => (q, false, http_Error ∅ ("marshal metrics: " +:+ marshal_text) StatusInternalServerError)
          | Some out =>
              let '(q, dropped) := offer cap q out in
              (q, dropped, writeEmptyProtoResponse empty_metrics_response)
          end
      end
  end.

(** The body is drained and forgotten. *)
Definition handleTraces (req : Request) : Response := writeEmptyProtoResponse empty_traces_response.

Inductive relay_handler := HRelayMetrics | HRelayTraces.

Definition relay_mux : list (mux_pattern * relay_handler) :=
  [(mkPattern (Some "POST") (MuxExact "/v1/metrics"), HRelayMetrics);
   (mkPattern (Some "POST") (MuxExact "/v1/traces"), HRelayTraces)].

(** The handler [Run] serves. *)
Definition relay_serve (cap : nat) (q : list bytes) (req : Request) : list bytes * bool * Response :=
  match mux_lookup relay_mux (Method req) (URL_Path req) with
  | MuxHandler HRelayMetrics => handleMetrics cap q req
  | MuxHandler HRelayTraces => (q, false, handleTraces req)
  | MuxNotFound => (q, false, http_Error ∅ "404 page not found" StatusNotFound)
  | MuxMethodNotAllowed => (q, false, http_Error (Header_Set ∅ "Allow" "POST") "Method Not Allowed" StatusMethodNotAllowed)
  end.

(** ** What the relay promises *)

Lemma filter_loop_filter (ms out : list (metric MR)) :
  filter_loop ms out = out ++ filter (fun m => m_Name m ∉ deniedMetricNames) ms.
Proof.
  revert out. induction ms as [|m ms IH]; intros out; cbn [filter_loop]; [by rewrite app_nil_r|].
  rewrite filter_cons. case_bool_decide as Hd; rewrite IH.
  - by rewrite decide_False by (intros H; by apply H).
  - by rewrite decide_True, <- (assoc_L (++)) by done.
Qed.

(** The filter against its meaning: same resources and scopes, same everything else, and of
    the metrics those with a name that is not denied, in order. *)
Definition filtered (req req' : export_request MR SR RR QR) : Prop :=
  eq_rest req' = eq_rest req
  /\ Forall2 (fun rm rm' =>
       rms_rest rm' = rms_rest rm
       /\ Forall2 (fun sm sm' =>
            sm_rest sm' = sm_rest sm
            /\ sm_Metrics sm' = filter (fun m => m_Name m ∉ deniedMetricNames) (sm_Metrics sm))
          (rm_ScopeMetrics rm) (rm_ScopeMetrics rm'))
     (eq_ResourceMetrics req) (eq_ResourceMetrics req').

Lemma filterDenied_filtered (req : export_request MR SR RR QR) : filtered req (filterDenied req).
Proof.
  split; [done|]. cbn [eq_ResourceMetrics filterDenied]. induction (eq_ResourceMetrics req) as [|rm rms IH]; constructor; [|done].
  split; [done|]. cbn [rm_ScopeMetrics]. induction (rm_ScopeMetrics rm) as [|sm sms IHs]; constructor; [|done].
  split; [done|]. cbn [filter_scope sm_Metrics]. apply filter_loop_filter.
Qed.

Lemma filterDenied_idem (req : export_request MR SR RR QR) : filterDenied (filterDenied req) = filterDenied req.
Proof.
  unfold filterDenied. cbn [eq_ResourceMetrics eq_rest]. f_equal. rewrite map_map. apply map_ext. intros rm.
  cbn [rm_ScopeMetrics rms_rest]. f_equal. rewrite map_map. apply map_ext. intros sm.
  unfold filter_scope. cbn [sm_Metrics sm_rest]. rewrite !filter_loop_filter. cbn [app]. f_equal.
  rewrite list_filter_filter. apply list_filter_iff. naive_solver.
Qed.

(** A body of at most the ceiling, read without an error. *)
Definition whole (b : bytes) : Prop := Z.of_nat (length b) <= maxOTLPBodyBytes.

Lemma limited_whole b : whole b -> limited maxOTLPBodyBytes (Ok b) = Ok b.
Proof. intros H. unfold limited. by rewrite (proj2 (Z.leb_le _ _) H). Qed.

Lemma readBody_whole req b :
  ReqBody req = Ok b -> whole b ->
  (Header_Get (ReqHeader req) "Content-Encoding" <> "gzip" -> readBody req = Ok b)
  /\ (Header_Get (ReqHeader req) "Content-Encoding" = "gzip" ->
      forall out, gzip_NewReader (Ok b) = Some (Ok out) -> whole out -> readBody req = Ok out).
Proof.
  intros Hb Hw. unfold readBody. rewrite Hb, limited_whole by done. split; intros He.
  - by rewrite bool_decide_eq_false_2.
  - intros out Hg Ho. rewrite bool_decide_eq_true_2, Hg, limited_whole by done. done.
Qed.

(** Whatever comes in, at most the ceiling is taken in. *)
Lemma limited_bound n r b : 0 <= n -> limited n r = Ok b -> Z.of_nat (length b) <= n.
Proof.
  intros Hn. unfold limited. destruct r as [x|x]; [intros [= <-]|case_bool; [|done]; intros [= <-]].
  - case_bool; zbool; [done|]. rewrite length_take. lia.
  - zbool. rewrite length_take. lia.
Qed.

Lemma readBody_bound req b : readBody req = Ok b -> Z.of_nat (length b) <= maxOTLPBodyBytes.
Proof.
  unfold readBody. case_bool_decide.
  - destruct (gzip_NewReader _) as [gr|]; [|done]. destruct (limited _ gr) eqn:Hl; [|done]. intros [= <-].
    by apply limited_bound in Hl.
  - destruct (limited _ (ReqBody req)) eqn:Hl; [|done]. intros [= <-]. by apply limited_bound in Hl.
Qed.

Lemma relay_mux_metrics req :
  mux_lookup relay_mux (Method req) (URL_Path req) = MuxHandler HRelayMetrics
  <-> Method req = "POST" /\ URL_Path req = "/v1/metrics".
Proof.
  split; [|by intros [-> ->]]. intros ([pm pp] & Hin & Hpath & Hmeth)%mux_lookup_handler.
  destruct Hin as [[= <- <-]|[[=]|[]]]. cbn in Hpath, Hmeth. apply bool_decide_eq_true_1 in Hpath. rewrite Hpath.
  split; [|done]. destruct (bool_decide_reflect ("POST" = Method req)) as [He|]; [done|discriminate Hmeth].
Qed.

(** C35: The relay takes from an export exactly what it should: only a POST to the metrics
    path whose body (at most the ceiling, decompressed if it says gzip) decodes and encodes
    again puts anything on the channel, and then one message: the decoded request with the
    denied metrics and nothing else taken out. A full channel drops that message, says so
    once and still answers as if it had been taken; traces and every other request leave
    the channel alone. *)
Theorem relay_forwards cap q req q' dropped resp :
  relay_serve cap q req = (q', dropped, resp) ->
  (q' = q /\ dropped = false
   /\ (Method req <> "POST" \/ URL_Path req <> "/v1/metrics"
       \/ match readBody req with
          | Ok body => forall msg, proto_Unmarshal body = Some msg -> proto_Marshal (filterDenied msg) = None
          | Err _ => True
          end))
  \/ exists body msg out,
       Method req = "POST" /\ URL_Path req = "/v1/metrics"
       /\ readBody req = Ok body /\ Z.of_nat (length body) <= maxOTLPBodyBytes
       /\ proto_Unmarshal body = Some msg /\ filtered msg (filterDenied msg)
       /\ proto_Marshal (filterDenied msg) = Some out
       /\ resp = writeEmptyProtoResponse empty_metrics_response
       /\ ((length q < cap)%nat /\ q' = q ++ [out] /\ dropped = false
           \/ (cap <= length q)%nat /\ q' = q /\ dropped = true).
Proof.
  unfold relay_serve. pose proof (relay_mux_metrics req) as Hmux.
  destruct (mux_lookup relay_mux (Method req) (URL_Path req)) as [[]| |];
    try (intros [= <- <- <-]; left; destruct (decide (Method req = "POST")), (decide (URL_Path req = "/v1/metrics")); naive_solver).
  destruct (proj1 Hmux eq_refl) as [HP HU].
  unfold handleMetrics. destruct (readBody req) as [body|e] eqn:Hr; [|intros [= <- <- <-]; left; tauto].
  destruct (proto_Unmarshal body) as [msg|] eqn:Hu;
    [|intros [= <- <- <-]; left; do 2 (split; [done|]); right; right; intros msg Hmsg; congruence].
  destruct (proto_Marshal (filterDenied msg)) as [out|] eqn:Ho;
    [|intros [= <- <- <-]; left; do 2 (split; [done|]); right; right; intros msg' Hmsg; congruence].
  intros H. right. exists body, msg, out. pose proof (readBody_bound req body Hr).
  unfold offer in H. destruct (Nat.ltb_spec (length q) cap) as [Hlt|Hge]; injection H as <- <- <-;
    (repeat (split; [done || apply filterDenied_filtered|])); tauto.
Qed.

End Relay.

(** ** Evaluations *)

(** A codec of the examples: one resource with one scope, a metric per line. *)
Definition toy_export : Type := export_request unit unit unit unit.
Definition toy_unmarshal (b : bytes) : option toy_export :=
  Some (mkExport [mkRes [mkScope (map (fun n => mkMetric n tt) (Split (string_of_bytes b) "010"%char)) tt] tt] tt).
Definition toy_marshal_export (r : toy_export) : option bytes :=
  Some (bytes_of_string (Join (concat (map (fun rm => concat (map (fun sm => map m_Name (sm_Metrics sm)) (rm_ScopeMetrics rm)))
    (eq_ResourceMetrics r))) (String "010" EmptyString))).

Definition export_post (names : list string) : Request :=
  mkRequest "POST" "/v1/metrics" "/v1/metrics" ∅ "127.0.0.1:9" (Ok (bytes_of_string (Join names (String "010" EmptyString)))).

Definition toy_relay (cap : nat) (q : list bytes) (r : Request) : list bytes * bool * Response :=
  relay_serve toy_unmarshal toy_marshal_export (Some []) (Some []) (fun _ => None) (fun _ => EmptyString) EmptyString EmptyString cap q r.

Example relay_filters :
  let '(q, dropped, resp) := toy_relay 10 [] (export_post ["go_goroutines"; "validator_vp_hist"; "p2p_peers"; "block_txs_hist"]) in
  map string_of_bytes q = [Join ["go_goroutines"; "p2p_peers"] (String "010" EmptyString)] /\ dropped = false /\ StatusCode resp = 200.
Proof. vm_compute. split; [reflexivity|split; reflexivity]. Qed.

Lemma relay_forwards_witness :
  let '(q', dropped, resp) := toy_relay 2 [bytes_of_string "old"] (export_post ["up"]) in
  (q' = [bytes_of_string "old"; bytes_of_string "up"] /\ dropped = false)
  \/ (q' = [bytes_of_string "old"] /\ dropped = true).
Proof.
  destruct (toy_relay 2 [bytes_of_string "old"] (export_post ["up"])) as [[q' dropped] resp] eqn:E.
  destruct (relay_forwards toy_unmarshal toy_marshal_export (Some []) (Some []) (fun _ => None) (fun _ => EmptyString)
    EmptyString EmptyString 2 [bytes_of_string "old"] (export_post ["up"]) q' dropped resp E)
    as [(-> & -> & [H|[H|H]])|(body & msg & out & _ & _ & Hb & _ & Hu & _ & Ho & _ & [(_ & -> & ->)|(Hc & _)])].
  - by contradict H.
  - by contradict H.
  - specialize (H _ eq_refl). discriminate H.
  - left. vm_compute in Hb. injection Hb as <-. vm_compute in Hu. injection Hu as <-. vm_compute in Ho. injection Ho as <-.
    split; reflexivity.
  - cbn in Hc. lia.
Defined.

(** ** Behaviours worth knowing *)

(** A plain body over the ceiling is not refused: its first 50 MiB are taken for the whole. *)
Theorem relay_cuts_long_body (req : Request) (b : bytes) (gz : result bytes bytes -> option (result bytes bytes)) :
  ReqBody req = Ok b -> maxOTLPBodyBytes < Z.of_nat (length b) ->
  Header_Get (ReqHeader req) "Content-Encoding" <> "gzip" ->
  readBody gz req = Ok (take (Z.to_nat maxOTLPBodyBytes) b).
Proof.
  intros Hb Hl He. unfold readBody. rewrite bool_decide_eq_false_2, Hb by done. unfold limited.
  by rewrite (proj2 (Z.leb_gt _ _) Hl).
Qed.

(** A full channel drops the newest payload and answers 200 all the same. *)
Example relay_full_answers_ok :
  let '(q', dropped, resp) := toy_relay 1 [bytes_of_string "old"] (export_post ["up"]) in
  q' = [bytes_of_string "old"] /\ dropped = true /\ StatusCode resp = 200.
Proof. vm_compute. split; [reflexivity|split; reflexivity]. Qed.
