(* ===== verification/SentinelApp.v ===== *)
(** * internal/sentinel/app (run.go, health.go)

    The program that holds the sentinel together. Each collector sends payloads on a bounded
    channel; a goroutine ([wireBuffered]) moves them into a bounded buffer; one loop drains
    the buffers on its tickers and sends the payloads one by one; at the end it drains every
    buffer once more under a deadline of its own. OTLP bytes go through a channel to a
    sending loop without a buffer in between.

    The loops of the program are one step function on events: which goroutine moves next,
    and what the outside does, is the event. A flush is not one event: the drain is, and
    then each payload is, so that pushes, drops and snapshots of other goroutines fall
    between them. [flush], [flushLogs] and [flushMetrics] are the same code in one piece,
    and
    [SentinelAppFacts] shows that the steps of a flush add up to them. *)

From Stdlib Require Import Ascii Eqdep_dec.
From S2P Require Import Prelude GoStrings GoTime GoHttp GoJson GoRfc3339 Protocol NoiseConfig SenderBuffer Sender SentinelStats SentinelConfig LogsCollector SelfCollector OtlpRelay.

Local Open Scope Z_scope.

(** ** Constants *)

Definition rpcBufferSize : Z := 300.
Definition logsBufferSize : Z := 500.
Definition resourcesBufferSize : Z := 20.
Definition metadataBufferSize : Z := 10.
Definition selfBufferSize : Z := 5.
Definition otlpChannelSize : nat := 10.
Definition maxSendAttempts : Z := 5.
Definition initialBackoff : Duration := Second.
Definition statsInterval : Duration := Minute.
Definition logSendInterval : Duration := Second.
Definition metricsSendInterval : Duration := Second.

(** ** The five buffered pipelines *)

Inductive src := SRpc | SLogs | SResources | SMetadata | SSelf.

#[export] Instance src_eq_dec : EqDecision src.
Proof. solve_decision. Defined.

(** What a pipeline carries. *)
Definition item_of (s : src) : Type := match s with SLogs => LogPayload | _ => payload end.

Definition buffer_size (s : src) : Z :=
  match s with
  | SRpc => rpcBufferSize | SLogs => logsBufferSize | SResources => resourcesBufferSize
  | SMetadata => metadataBufferSize | SSelf => selfBufferSize
  end.

(** The name [wireBuffered] is given, under which it counts drops. *)
Definition wire_name (s : src) : string :=
  match s with
  | SRpc => "rpc" | SLogs => "log" | SResources => "resources" | SMetadata => "metadata" | SSelf => "self"
  end.

(** The type the flush functions count under, and the path they post to. *)
Definition flush_name (s : src) : string :=
  match s with
  | SRpc => "rpc" | SLogs => "logs" | SResources => "resources" | SMetadata => "metadata" | SSelf => "self"
  end.

Definition flush_path (s : src) : string :=
  match s with SRpc => "/rpc" | SLogs => "/logs" | _ => "/metrics" end.

Definition encode_item (s : src) : item_of s -> option bytes :=
  match s with
  | SLogs => encode_LogPayload
  | SRpc | SResources | SMetadata | SSelf => encode_payload
  end.

(** What becomes of a payload that leaves its pipeline. *)
Inductive fate :=
| FateFull                      (* the oldest of a full buffer *)
| FateUnencodable               (* json.Marshal refused it *)
| FateSent (raw wire : Z)       (* accepted by the server: bytes before and after compression *)
| FateExhausted                 (* given up after all attempts *)
| FateLost.                     (* drained, then the context ended *)

#[export] Instance fate_eq_dec : EqDecision fate.
Proof. solve_decision. Defined.

(** ** The state of the running program *)

(** Payloads wait in the collector's channel, then in the buffer. *)
Record pipeline (T : Type) := mkPipeline { pl_chan : list T; pl_buf : Buffer T }.
Arguments mkPipeline {T} pl_chan pl_buf.
Arguments pl_chan {T} p.
Arguments pl_buf {T} p.

(** Where the main loop is: in its select; in a flush with the items left to send, and for
    the final flushes the pipelines still to drain; or returned. *)
Inductive phase :=
| PLoop
| PFlush (final : option (list src)) (s : src) (items : list (item_of s))
| PStopped.

(** A disabled collector has no pipeline. [a_waiting] is the report the self collector has
    made and not yet sent. *)
Record App := mkApp {
  a_stats : Stats;
  a_pipes : forall s : src, option (pipeline (item_of s));
  a_waiting : option payload;
  a_otlp : option (list bytes);
  a_phase : phase }.

Definition set_stats (a : App) (st : Stats) : App := mkApp st (a_pipes a) (a_waiting a) (a_otlp a) (a_phase a).
Definition set_waiting (a : App) (w : option payload) : App := mkApp (a_stats a) (a_pipes a) w (a_otlp a) (a_phase a).
Definition set_otlp (a : App) (q : option (list bytes)) : App := mkApp (a_stats a) (a_pipes a) (a_waiting a) q (a_phase a).
Definition set_phase (a : App) (p : phase) : App := mkApp (a_stats a) (a_pipes a) (a_waiting a) (a_otlp a) p.

(** Replaces the pipeline of one source. *)
Definition with_pipe (pipes : forall s, option (pipeline (item_of s))) (s : src) (pl : pipeline (item_of s))
    : forall s', option (pipeline (item_of s')) :=
  fun s' => match decide (s = s') with
            | left e => Some (eq_rect s (fun s => pipeline (item_of s)) pl s' e)
            | right _ => pipes s'
            end.

Definition set_pipe (a : App) (s : src) (pl : pipeline (item_of s)) : App :=
  mkApp (a_stats a) (with_pipe (a_pipes a) s pl) (a_waiting a) (a_otlp a) (a_phase a).

(** Calls of the statistics. *)
Definition apply_op (st : Stats) (o : stats_op) : Stats :=
  match o with
  | OpRecord k u w => stats_Record st k u w
  | OpDrop k r => RecordDrop st k r
  | OpSnapshot now => (stats_Snapshot st now).1
  end.

Definition apply_ops (a : App) (ops : list stats_op) : App := set_stats a (fold_left apply_op ops (a_stats a)).

(** What happens to an OTLP body. *)
Inductive otlp_fate := OtlpFull | OtlpSent | OtlpExhausted | OtlpCancelled.

(** What a step reports: for the statements about runs, and not part of the program. *)
Inductive app_log :=
| LProduced (s : src) (p : item_of s)
| LDeparted (s : src) (p : item_of s) (f : fate) (evs : list retry_event)
| LOtlp (b : bytes) (f : otlp_fate)
| LOp (o : stats_op).

Inductive app_event :=
| EvOut (s : src) (p : item_of s)        (* a collector's send on its channel *)
| EvSelf (now : Time)                    (* the self collector makes a report *)
| EvSelfOut                              (* and sends it *)
| EvWire (s : src)                       (* one turn of wireBuffered *)
| EvTick (s : src)                       (* the ticker of a pipeline *)
| EvStats (now : Time)                   (* the ticker of logStats *)
| EvSend                                 (* one turn of the flush under way *)
| EvDone                                 (* the main loop sees the cancelled context *)
| EvOtlpIn (b : bytes)                   (* the relay's send, which never blocks *)
| EvOtlpSend.                            (* one turn of the OTLP sending loop *)

Section App.
(** The world behind the network and the clock, and what a context reports. *)
Context {W C : Type}.
(** [zstd.EncodeAll]. *)
Context (zstd : bytes -> bytes).

(** A context as the sender sees it: the network and the [select]s under it, and
    [ctx.Err() != nil]. *)
Record context := mkContext {
  ctx_net : W -> sender_transport -> outgoing -> W * http_outcome;
  ctx_sleep : W -> Duration -> W * option C;
  ctx_Err : W -> bool }.

Definition wire_body (s : src) (b : bytes) : bytes := match s with SLogs => zstd b | _ => b end.

(** The call into the sender. *)
Definition transmit (snd : Sender) (s : src) (cx : context) (body : bytes) (w : W) : retry_run (W := W) (C := C) :=
  match s with
  | SLogs => SendCompressedBytesWithRetry (ctx_net cx) (ctx_sleep cx) snd (flush_path s) body maxSendAttempts initialBackoff w
  | _ => SendRawWithRetry (ctx_net cx) (ctx_sleep cx) snd (flush_path s) body "application/json" maxSendAttempts initialBackoff w
  end.

(** One turn of a flush loop: the payload's fate and the attempts made. *)
Definition flush_item (snd : Sender) (s : src) (cx : context) (w : W) (p : item_of s) : W * fate * list retry_event :=
  match encode_item s p with
  | None => (w, FateUnencodable, [])
  | Some b =>
      let body := wire_body s b in
      let '(w, evs, err) := transmit snd s cx body w in
      match err with
      | None => (w, FateSent (Z.of_nat (length b)) (Z.of_nat (length body)), evs)
      | Some _ => if ctx_Err cx w then (w, FateLost, evs) else (w, FateExhausted, evs)
      end
  end.

(** What the turn does to the statistics. *)
Definition item_ops (s : src) (f : fate) : list stats_op :=
  match f with
  | FateFull => [OpDrop (wire_name s) "buffer_full"]
  | FateUnencodable => []
  | FateSent raw wire => [OpRecord (flush_name s) raw wire]
  | FateExhausted => [OpDrop (flush_name s) "retry_exhausted"]
  | FateLost => []
  end.

(** The loop over the drained items: a lost one ends it. *)
Fixpoint flush_items (snd : Sender) (s : src) (cx : context) (items : list (item_of s)) (w : W)
    : W * list stats_op * list (item_of s * fate) :=
  match items with
  | [] => (w, [], [])
  | p :: rest =>
      let '(w, f, _) := flush_item snd s cx w p in
      match f with
      | FateLost => (w, [], map (fun q => (q, FateLost)) items)
      | _ =>
          let '(w, ops, out) := flush_items snd s cx rest w in
          (w, item_ops s f ++ ops, (p, f) :: out)
      end
  end.

Definition flush_any (snd : Sender) (s : src) (cx : context) (buf : Buffer (item_of s)) (w : W)
    : W * Buffer (item_of s) * list stats_op * list (item_of s * fate) :=
  let '(buf, items) := Drain buf in
  let '(w, ops, out) := flush_items snd s cx items w in
  (w, buf, ops, out).

Definition flush (snd : Sender) (cx : context) (buf : Buffer payload) (w : W) := flush_any snd SRpc cx buf w.
Definition flushLogs (snd : Sender) (cx : context) (buf : Buffer LogPayload) (w : W) := flush_any snd SLogs cx buf w.

(** [typ] is one of the three metric pipelines. *)
Definition flushMetrics (snd : Sender) (cx : context) (typ : src) (buf : Buffer (item_of typ)) (w : W) :=
  flush_any snd typ cx buf w.

(** ** The machine *)

Section Machine.
Context (snd : Sender).
(** The program's context and the one of the final flushes. *)
Context (cx dcx : context).

Definition step_result : Type := option (App * W * list app_log).

(** A send on a channel with room; a full channel blocks. *)
Definition produce (a : App) (w : W) (s : src) (p : item_of s) : step_result :=
  match a_pipes a s with
  | None => None
  | Some pl =>
      if Z.of_nat (length (pl_chan pl)) <? buffer_size s
      then Some (set_pipe a s (mkPipeline (pl_chan pl ++ [p]) (pl_buf pl)), w, [LProduced s p])
      else None
  end.

(** [wireBuffered]: the item it takes may push the oldest one out. *)
Definition wire_step (a : App) (w : W) (s : src) : step_result :=
  match a_pipes a s with
  | None => None
  | Some pl =>
      match pl_chan pl with
      | [] => None
      | p :: rest =>
          let '(buf, dropped) := Push (pl_buf pl) p in
          let gone := if dropped : bool then take 1 (items (pl_buf pl)) else [] in
          let ops := if dropped : bool then item_ops s FateFull else [] in
          Some (apply_ops (set_pipe a s (mkPipeline rest buf)) ops, w,
                map (fun q => LDeparted s q FateFull []) gone ++ map LOp ops)
      end
  end.

(** A flush starts with the drain. *)
Definition start_flush (a : App) (final : option (list src)) (s : src) (pl : pipeline (item_of s)) : App :=
  let '(buf, out) := Drain (pl_buf pl) in
  set_phase (set_pipe a s (mkPipeline (pl_chan pl) buf)) (PFlush final s out).

(** The next pipeline to drain at the end, the disabled ones skipped. *)
Fixpoint next_drain (a : App) (todo : list src) : App :=
  match todo with
  | [] => set_phase a PStopped
  | s :: rest =>
      match a_pipes a s with
      | None => next_drain a rest
      | Some pl => start_flush a (Some rest) s pl
      end
  end.

Definition drain_order : list src := [SRpc; SLogs; SResources; SMetadata; SSelf].

(** A flush returned. *)
Definition after_flush (a : App) (final : option (list src)) : App :=
  match final with None => set_phase a PLoop | Some rest => next_drain a rest end.

(** The context a flush runs under. *)
Definition flush_ctx (final : option (list src)) : context := match final with None => cx | Some _ => dcx end.

Definition send_step (a : App) (w : W) : step_result :=
  match a_phase a with
  | PFlush final s [] => Some (after_flush a final, w, [])
  | PFlush final s (p :: rest) =>
      let '(w, f, evs) := flush_item snd s (flush_ctx final) w p in
      match f with
      | FateLost =>
          Some (after_flush a final, w, LDeparted s p f evs :: map (fun q => LDeparted s q FateLost []) rest)
      | _ =>
          Some (set_phase (apply_ops a (item_ops s f)) (PFlush final s rest), w,
                LDeparted s p f evs :: map LOp (item_ops s f))
      end
  | _ => None
  end.

(** The OTLP loop records a payload unless the send failed under a live context: one that
    fails because the context ended is recorded as sent. *)
Definition otlp_step (a : App) (w : W) : step_result :=
  match a_otlp a with
  | Some (b :: q) =>
      let '(w, _, err) := SendRawWithRetry (ctx_net cx) (ctx_sleep cx) snd "/otlp" b "application/x-protobuf"
                            maxSendAttempts initialBackoff w in
      let a := set_otlp a (Some q) in
      let n := Z.of_nat (length b) in
      match err with
      | Some _ =>
          if negb (ctx_Err cx w)
          then Some (apply_ops a [OpDrop "otlp" "retry_exhausted"], w, [LOtlp b OtlpExhausted; LOp (OpDrop "otlp" "retry_exhausted")])
          else Some (apply_ops a [OpRecord "otlp" n n], w, [LOtlp b OtlpCancelled; LOp (OpRecord "otlp" n n)])
      | None => Some (apply_ops a [OpRecord "otlp" n n], w, [LOtlp b OtlpSent; LOp (OpRecord "otlp" n n)])
      end
  | _ => None
  end.

Definition otlp_in (a : App) (w : W) (b : bytes) : step_result :=
  match a_otlp a with
  | None => None
  | Some q =>
      let '(q, dropped) := offer otlpChannelSize q b in
      if dropped : bool
      then Some (apply_ops a [OpDrop "otlp" "buffer_full"], w, [LOtlp b OtlpFull; LOp (OpDrop "otlp" "buffer_full")])
      else Some (set_otlp a (Some q), w, [])
  end.

(** [None]: the event cannot happen in this state. *)
Definition app_step (a : App) (w : W) (e : app_event) : step_result :=
  match e with
  | EvOut s p => if bool_decide (s = SSelf) then None else produce a w s p
  | EvSelf now =>
      match a_pipes a SSelf, a_waiting a with
      | Some _, None =>
          let '(st, rep) := self_emit (a_stats a) now in
          Some (set_waiting (set_stats a st) rep, w, [LOp (OpSnapshot now)])
      | _, _ => None
      end
  | EvSelfOut =>
      match a_waiting a with
      | Some p => produce (set_waiting a None) w SSelf p
      | None => None
      end
  | EvWire s => wire_step a w s
  | EvTick s =>
      match a_phase a, a_pipes a s with
      | PLoop, Some pl => Some (start_flush a None s pl, w, [])
      | _, _ => None
      end
  | EvStats now =>
      match a_phase a with
      | PLoop => Some (apply_ops a [OpSnapshot now], w, [LOp (OpSnapshot now)])
      | _ => None
      end
  | EvSend => send_step a w
  | EvDone =>
      match a_phase a with
      | PLoop => if ctx_Err cx w then Some (next_drain a drain_order, w, []) else None
      | _ => None
      end
  | EvOtlpIn b => otlp_in a w b
  | EvOtlpSend => otlp_step a w
  end.

Fixpoint app_run (a : App) (w : W) (evs : list app_event) : step_result :=
  match evs with
  | [] => Some (a, w, [])
  | e :: evs' =>
      match app_step a w e with
      | None => None
      | Some (a, w, l) =>
          match app_run a w evs' with
          | None => None
          | Some (a, w, l') => Some (a, w, l ++ l')
          end
      end
  end.
End Machine.
End App.

Arguments context W C : clear implicits.

(** ** The log of the statistics *)

(** One group of the record, and the loop that adds up the drops of the interval. *)
Record stats_line := mkStatsLine {
  sl_type : string; sl_lastBytes : Z; sl_totalBytes : Z; sl_totalWireBytes : Z; sl_lastDrops : Z; sl_byReason : gmap string Z }.

Section LogStats.
Context (range : forall V, gmap string V -> list (string * V)).

Definition lastDropTotal (drops : gmap string Z) : Z := fold_left (fun t d => wrap64 (t + d.2)) (range _ drops) 0.

Definition logStats (st : Stats) (now : Time) : Stats * (Duration * list stats_line) :=
  let '(st, (snap, uptime)) := stats_Snapshot st now in
  (st, (Duration_Round uptime Second,
        map (fun s => mkStatsLine s.1 (LastSnapshotBytes s.2) (TotalBytes s.2) (TotalWireBytes s.2)
                        (lastDropTotal (LastSnapshotDrops s.2)) (LastSnapshotDrops s.2)) (range _ snap))).

(** The event [EvStats] of the main loop is this call. *)
Lemma logStats_event a now : apply_ops a [OpSnapshot now] = set_stats a (logStats (a_stats a) now).1.
Proof. unfold apply_ops, logStats. cbn. by destruct (stats_Snapshot (a_stats a) now) as [st [snap up]]. Qed.
End LogStats.

(** [runCollector]: an error is logged unless the context is done. *)
Definition runCollector (name : string) (err : option string) (cancelled : bool) : option string :=
  match err with
  | Some e => if cancelled then None else Some (name +:+ " collector stopped: " +:+ e)
  | None => None
  end.

(** ** The health endpoint (health.go) *)

Definition health_serve (r : Request) : Response :=
  match mux_lookup [(mkPattern (Some "GET") (MuxExact "/health"), tt)] (Method r) (URL_Path r) with
  | MuxHandler _ => mkResponse StatusOK ∅ EmptyString
  | MuxNotFound => http_Error ∅ "404 page not found" StatusNotFound
  | MuxMethodNotAllowed => http_Error (Header_Set ∅ "Allow" "GET, HEAD") "Method Not Allowed" StatusMethodNotAllowed
  end.

(** ** Start-up *)

Inductive run_start :=
| RsKeysError (e : noise_config_error)
| RsSenderError (e : new_error)
| RsHealthOnly
| RsRunning (s : Sender) (a : App).

Definition new_pipe {T} (enabled : bool) (size : Z) : option (pipeline T) :=
  if enabled then mkPipeline [] <$> NewBuffer size else None.

(** An unusable log source leaves the log pipeline out and is only logged. *)
Definition app_pipes (c : SnConfig) (s : src) : option (pipeline (item_of s)) :=
  let enabled :=
    match s with
    | SRpc => rpc_Enabled (c_RPC c)
    | SLogs => logs_Enabled (c_Logs c)
               && is_Ok (NewSource (logs_Source (c_Logs c)) (logs_ContainerName (c_Logs c))
                           (JournaldUnit (c_Logs c)) (ResumeLookback (c_Logs c)))
    | SResources => res_Enabled (c_Resources c)
    | SMetadata => md_Enabled (c_Metadata c)
    | SSelf => self_Enabled (c_Self c)
    end in
  new_pipe enabled (buffer_size s).

Definition app_start (f : fs) (c : SnConfig) (now : Time) : run_start :=
  match NoiseConfig f c with
  | Err e => RsKeysError e
  | Ok noiseCfg =>
      match sender_New (sv_URL (c_Server c)) (sv_Token (c_Server c)) noiseCfg with
      | Err e => RsSenderError e
      | Ok s =>
          if negb (anyCollectorEnabled c) then RsHealthOnly
          else RsRunning s (mkApp (stats_New now) (app_pipes c) None
                              (if otlp_Enabled (c_OTLP c) then Some [] else None) PLoop)
      end
  end.
