(* ===== verification/SentinelAppFacts.v ===== *)
(** * internal/sentinel/app: what its runs guarantee

    The facts about the machine of [SentinelApp]: payloads are conserved and keep their
    order, channels and buffers are bounded, the counters agree with what happened, the
    steps of a flush add up to the flush function, and shutdown terminates with empty
    buffers. *)

From Stdlib Require Import Ascii Eqdep_dec.
From S2P Require Import Prelude GoStrings GoTime GoHttp GoJson GoRfc3339 Protocol NoiseConfig SenderBuffer Sender SentinelStats SentinelConfig LogsCollector SelfCollector OtlpRelay SentinelApp.

Local Open Scope Z_scope.

(** ** What a log says of one pipeline *)

Definition item_at (s s' : src) (p : item_of s) : option (item_of s') :=
  match decide (s = s') with
  | left e => Some (eq_rect s item_of p s' e)
  | right _ => None
  end.

Definition produced (s : src) (l : list app_log) : list (item_of s) :=
  omap (fun e => match e with LProduced s' p => item_at s' s p | _ => None end) l.

Definition departed (s : src) (l : list app_log) : list (item_of s * fate) :=
  omap (fun e => match e with LDeparted s' p f _ => (fun q => (q, f)) <$> item_at s' s p | _ => None end) l.

Definition is_sent (f : fate) : bool := match f with FateSent _ _ => true | _ => false end.

(** What the server accepted, in order. *)
Definition delivered (s : src) (l : list app_log) : list (item_of s) :=
  omap (fun d => if is_sent d.2 then Some d.1 else None) (departed s l).

Definition in_flight (s : src) (ph : phase) : list (item_of s) :=
  match ph with PFlush _ s' items => omap (item_at s' s) items | _ => [] end.

Definition queued (s : src) (a : App) : list (item_of s) :=
  match a_pipes a s with None => [] | Some pl => items (pl_buf pl) ++ pl_chan pl end.

(** Everything of a source the program still holds, oldest first. *)
Definition held (s : src) (a : App) : list (item_of s) := in_flight s (a_phase a) ++ queued s a.

Lemma item_at_same s p : item_at s s p = Some p.
Proof.
  unfold item_at. destruct (decide (s = s)) as [e|]; [|done].
  by rewrite <- (eq_rect_eq_dec src_eq_dec).
Qed.

Lemma item_at_ne s s' p : s <> s' -> item_at s s' p = None.
Proof. intros H. unfold item_at. by destruct (decide (s = s')). Qed.

Lemma with_pipe_same pipes s pl : with_pipe pipes s pl s = Some pl.
Proof.
  unfold with_pipe. destruct (decide (s = s)) as [e|]; [|done].
  by rewrite <- (eq_rect_eq_dec src_eq_dec).
Qed.

Lemma with_pipe_ne pipes s s' pl : s <> s' -> with_pipe pipes s pl s' = pipes s'.
Proof. intros H. unfold with_pipe. by destruct (decide (s = s')). Qed.

Lemma omap_item_at_same s (l : list (item_of s)) : omap (item_at s s) l = l.
Proof. induction l as [|p l IH]; [done|]. cbn. by rewrite item_at_same, IH. Qed.

Lemma omap_item_at_ne s s' (l : list (item_of s)) : s <> s' -> omap (item_at s s') l = [].
Proof. intros H. induction l as [|p l IH]; [done|]. cbn. by rewrite item_at_ne, IH. Qed.

Lemma produced_app s l1 l2 : produced s (l1 ++ l2) = produced s l1 ++ produced s l2.
Proof. apply omap_app. Qed.
Lemma departed_app s l1 l2 : departed s (l1 ++ l2) = departed s l1 ++ departed s l2.
Proof. apply omap_app. Qed.
Lemma delivered_app s l1 l2 : delivered s (l1 ++ l2) = delivered s l1 ++ delivered s l2.
Proof. unfold delivered. by rewrite departed_app, omap_app. Qed.

Lemma held_queue_same s a pl ph :
  held s (set_phase (set_pipe a s pl) ph) = in_flight s ph ++ items (pl_buf pl) ++ pl_chan pl.
Proof. unfold held, queued. cbn. by rewrite with_pipe_same. Qed.

Lemma held_queue_ne s s' a pl ph :
  s' <> s -> held s (set_phase (set_pipe a s' pl) ph) = held s (set_phase a ph).
Proof. intros H. unfold held, queued. cbn. by rewrite with_pipe_ne. Qed.

Lemma queued_some s a pl : a_pipes a s = Some pl -> queued s a = items (pl_buf pl) ++ pl_chan pl.
Proof. intros H. unfold queued. by rewrite H. Qed.

Lemma set_phase_id a : set_phase a (a_phase a) = a.
Proof. by destruct a. Qed.

(** The log of operations and of lost items says nothing else. *)
Lemma produced_ops s ops : produced s (map LOp ops) = [].
Proof. by induction ops. Qed.
Lemma departed_ops s ops : departed s (map LOp ops) = [].
Proof. by induction ops. Qed.

Lemma departed_items s s' (l : list (item_of s')) f :
  departed s (map (fun q => LDeparted s' q f []) l) = (fun q => (q, f)) <$> omap (item_at s' s) l.
Proof. induction l as [|p l IH]; [done|]. cbn. destruct (item_at s' s p); cbn; by rewrite <- IH. Qed.

Lemma produced_items s s' (l : list (item_of s')) f : produced s (map (fun q => LDeparted s' q f []) l) = [].
Proof. by induction l. Qed.

(** ** Conservation *)

(** A step, or a run, that moves the payloads of every source: what was held and what was
    produced is what left and what is held; what was delivered and is held is, in order,
    among it. *)
Definition conserves (a : App) (l : list app_log) (a' : App) : Prop :=
  forall s,
    held s a ++ produced s l ≡ₚ (departed s l).*1 ++ held s a'
    /\ delivered s l ++ held s a' `sublist_of` held s a ++ produced s l.

Lemma conserves_refl a l a' :
  (forall s, held s a' = held s a /\ produced s l = [] /\ departed s l = []) -> conserves a l a'.
Proof.
  intros H s. destruct (H s) as (Hh & Hp & Hd). unfold delivered. rewrite Hh, Hp, Hd, app_nil_r. done.
Qed.

Lemma conserves_trans a l a1 l1 a2 :
  conserves a l a1 -> conserves a1 l1 a2 -> conserves a (l ++ l1) a2.
Proof.
  intros H1 H2 s. destruct (H1 s) as [P1 S1], (H2 s) as [P2 S2].
  rewrite produced_app, departed_app, delivered_app. split.
  - rewrite fmap_app, <- (assoc_L (++)), <- P2, !(assoc_L (++)), <- P1. done.
  - rewrite <- (assoc_L (++)). trans (delivered s l ++ held s a1 ++ produced s l1).
    + by apply sublist_app.
    + rewrite !(assoc_L (++)). by apply sublist_app.
Qed.

(** Case analysis on whether the source at hand is the one the step is about. *)
Ltac same_src s s' :=
  destruct (decide (s' = s)) as [->|?];
  [rewrite ?item_at_same, ?with_pipe_same, ?omap_item_at_same
  |rewrite ?item_at_ne, ?with_pipe_ne, ?omap_item_at_ne by done].

Lemma start_flush_held s a final s' pl :
  in_flight s (a_phase a) = [] -> a_pipes a s' = Some pl -> held s (start_flush a final s' pl) = held s a.
Proof.
  intros Hf Hp. unfold start_flush, Drain.
  assert (forall buf out, out ++ items buf = items (pl_buf pl) ->
    held s (set_phase (set_pipe a s' (mkPipeline (pl_chan pl) buf)) (PFlush final s' out)) = held s a) as H.
  { intros buf out Hbuf. unfold held at 2. rewrite Hf. cbn [app]. destruct (decide (s' = s)) as [->|Hne].
    - rewrite held_queue_same. cbn [in_flight pl_buf pl_chan]. rewrite omap_item_at_same, (assoc_L (++)), Hbuf.
      unfold queued. by rewrite Hp.
    - rewrite held_queue_ne by done. unfold held. cbn [in_flight a_phase set_phase]. by rewrite omap_item_at_ne. }
  destruct (items (pl_buf pl)) as [|p l] eqn:E; apply H; [by rewrite E|]. cbn [items]. by rewrite app_nil_r.
Qed.

Lemma next_drain_held s a todo :
  in_flight s (a_phase a) = [] -> held s (next_drain a todo) = held s a.
Proof.
  intros Hf. induction todo as [|s' rest IH]; cbn [next_drain].
  - unfold held. cbn [a_phase set_phase]. by rewrite Hf.
  - destruct (a_pipes a s') as [pl|] eqn:Hp; [by apply start_flush_held|done].
Qed.

(** When a flush returns, what it held in flight is gone. *)
Lemma after_flush_held s a final : held s (after_flush (set_phase a PLoop) final) = queued s a.
Proof. destruct final; [|done]. cbn [after_flush]. by rewrite next_drain_held. Qed.

Lemma next_drain_phase a todo ph : next_drain (set_phase a ph) todo = next_drain a todo.
Proof.
  induction todo as [|s' rest IH]; [done|]. cbn [next_drain]. cbn [a_pipes set_phase].
  destruct (a_pipes a s') as [pl|]; [|done]. unfold start_flush. by destruct (Drain (pl_buf pl)).
Qed.

Lemma after_flush_queued s a final : held s (after_flush a final) = queued s a.
Proof.
  rewrite <- (after_flush_held s a final). destruct final; [|done]. cbn [after_flush]. by rewrite next_drain_phase.
Qed.

Section Conserve.
Context {W C : Type} (zstd : bytes -> bytes) (snd : Sender) (cx dcx : context W C).

Local Abbreviation step := (app_step zstd snd cx dcx).
Local Abbreviation run := (app_run zstd snd cx dcx).

Lemma produce_conserves a (w : W) s p a' w' l :
  produce a w s p = Some (a', w', l) -> conserves a l a'.
Proof.
  unfold produce. destruct (a_pipes a s) as [pl|] eqn:Hp; [|done]. case_match; [|done]. intros [= <- <- <-] s'.
  assert (held s' (set_pipe a s (mkPipeline (pl_chan pl ++ [p]) (pl_buf pl))) = held s' a ++ produced s' [LProduced s p]) as Hh.
  { rewrite <- (set_phase_id (set_pipe _ _ _)). cbn [a_phase set_pipe]. unfold produced. cbn [omap list_omap].
    destruct (decide (s = s')) as [->|Hne].
    - rewrite held_queue_same, item_at_same. unfold held, queued. rewrite Hp. cbn [pl_buf pl_chan]. by rewrite !(assoc_L (++)).
    - by rewrite held_queue_ne, item_at_ne, set_phase_id, app_nil_r. }
  unfold delivered. cbn [departed omap list_omap fmap list_fmap]. rewrite Hh. done.
Qed.

Lemma held_apply_ops s a ops : held s (apply_ops a ops) = held s a.
Proof. done. Qed.

Lemma wire_step_conserves a (w : W) s a' w' l :
  wire_step a w s = Some (a', w', l) -> conserves a l a'.
Proof.
  unfold wire_step. destruct (a_pipes a s) as [pl|] eqn:Hp; [|done].
  destruct (pl_chan pl) as [|p rest] eqn:Hc; [done|]. unfold Push.
  set (full := (maxSize (pl_buf pl) <=? Z.of_nat (length (items (pl_buf pl))))%Z).
  set (gone := if full then take 1 (items (pl_buf pl)) else []).
  set (kept := if full then drop 1 (items (pl_buf pl)) else items (pl_buf pl)).
  assert (gone ++ kept = items (pl_buf pl)) as Hgk by (unfold gone, kept; destruct full; [apply take_drop|done]).
  set (ops := if full then item_ops s FateFull else []). clearbody ops. intros [= <- <- <-] s'.
  rewrite held_apply_ops. unfold delivered. rewrite produced_app, departed_app, produced_items, produced_ops,
    departed_items, departed_ops, !app_nil_r.
  rewrite <- (set_phase_id (set_pipe _ _ _)). cbn [a_phase set_pipe].
  destruct (decide (s = s')) as [->|Hne].
  - rewrite held_queue_same, omap_item_at_same. cbn [items pl_buf pl_chan].
    unfold held. rewrite (queued_some _ _ _ Hp), Hc. rewrite <- Hgk, <- list_fmap_compose.
    assert (forall l : list (item_of s'), (fst ∘ (fun q => (q, FateFull))) <$> l = l) as Hid by (intros l; apply list_fmap_id).
    assert (forall l : list (item_of s'), omap (fun d => if is_sent d.2 then Some d.1 else None) ((fun q => (q, FateFull)) <$> l) = []) as Hno
      by (intros l; by induction l).
    rewrite Hid, Hno. split.
    + solve_Permutation.
    + cbn [app]. rewrite <- !(assoc_L (++)). apply sublist_app; [done|]. by apply sublist_inserts_l.
  - rewrite held_queue_ne, omap_item_at_ne by done. cbn. by rewrite set_phase_id.
Qed.

Lemma send_step_conserves a (w : W) a' w' l :
  send_step zstd snd cx dcx a w = Some (a', w', l) -> conserves a l a'.
Proof.
  unfold send_step. destruct (a_phase a) as [|final s its|] eqn:Hph; [done| |done].
  destruct its as [|p rest].
  { intros [= <- <- <-]. apply conserves_refl. intros s'. rewrite after_flush_queued. unfold held. by rewrite Hph. }
  destruct (flush_item _ _ _ _ _ _) as [[w1 f] evs]. intros H s'.
  assert (held s' a = omap (item_at s s') (p :: rest) ++ queued s' a) as Ha by (unfold held; by rewrite Hph).
  destruct (decide (f = FateLost)) as [->|Hf].
  - injection H as <- <- <-. rewrite after_flush_queued, Ha.
    change (LDeparted s p FateLost evs :: ?x) with ([LDeparted s p FateLost evs] ++ x).
    unfold delivered. rewrite produced_app, departed_app, departed_items, produced_items.
    same_src s' s; cbn [departed produced omap list_omap].
    + rewrite item_at_same. cbn. rewrite <- list_fmap_compose, app_nil_r. split.
      * assert ((fst ∘ (fun q => (q, FateLost))) <$> rest = rest) as Hid by apply list_fmap_id. by rewrite Hid.
      * apply sublist_cons. apply sublist_app; [|done]. clear. induction rest; cbn; by constructor.
    + rewrite item_at_ne by done. cbn. by rewrite app_nil_r.
  - assert (a' = set_phase (apply_ops a (item_ops s f)) (PFlush final s rest)
            /\ l = [LDeparted s p f evs] ++ map LOp (item_ops s f)) as [-> ->]
      by (destruct f; by injection H as <- <- <-).
    assert (held s' (set_phase (apply_ops a (item_ops s f)) (PFlush final s rest)) = omap (item_at s s') rest ++ queued s' a) as ->
      by done.
    rewrite Ha. unfold delivered. rewrite produced_app, departed_app, departed_ops, produced_ops.
    same_src s' s; cbn [departed produced omap list_omap].
    + rewrite item_at_same. cbn. rewrite app_nil_r. split; [done|]. destruct (is_sent f); cbn; [done|]. by apply sublist_cons.
    + rewrite item_at_ne by done. cbn. by rewrite app_nil_r.
Qed.

Lemma otlp_step_conserves a (w : W) a' w' l :
  otlp_step snd cx a w = Some (a', w', l) -> conserves a l a'.
Proof.
  unfold otlp_step. destruct (a_otlp a) as [[|b q]|]; [done| |done].
  destruct (SendRawWithRetry _ _ _ _ _ _ _ _ _) as [[w1 evs] [err|]]; [case_match|]; intros [= <- <- <-]; by apply conserves_refl.
Qed.

(** Every step conserves. *)
Lemma app_step_conserves a w e a' w' l : step a w e = Some (a', w', l) -> conserves a l a'.
Proof.
  destruct e as [s p|now| |s|s|now| | |b|]; cbn [app_step].
  - case_match; [done|]. apply produce_conserves.
  - destruct (a_pipes a SSelf); [|done]. destruct (a_waiting a); [done|].
    destruct (self_emit (a_stats a) now) as [st rep]. intros [= <- <- <-]. by apply conserves_refl.
  - destruct (a_waiting a) as [p|]; [|done]. intros H. by apply produce_conserves in H.
  - apply wire_step_conserves.
  - destruct (a_phase a) eqn:Hph; try done. destruct (a_pipes a s) as [pl|] eqn:Hp; [|done].
    intros [= <- <- <-]. apply conserves_refl. intros s'. by rewrite start_flush_held by (by rewrite ?Hph).
  - destruct (a_phase a); try done. intros [= <- <- <-]. by apply conserves_refl.
  - apply send_step_conserves.
  - destruct (a_phase a) eqn:Hph; try done. case_match; [|done].
    assert (forall s', held s' (next_drain a drain_order) = held s' a) as Hd by (intros s'; by rewrite next_drain_held by (by rewrite Hph)).
    revert Hd. generalize (next_drain a drain_order) as d. intros d Hd [= <- <- <-]. by apply conserves_refl.
  - unfold otlp_in, offer. destruct (a_otlp a) as [q|]; [|done]. destruct (Nat.ltb (length q) otlpChannelSize); intros [= <- <- <-]; by apply conserves_refl.
  - apply otlp_step_conserves.
Qed.

Lemma app_run_conserves evs a w a' w' l : run a w evs = Some (a', w', l) -> conserves a l a'.
Proof.
  revert a w l. induction evs as [|e evs IH]; intros a w l; cbn [app_run].
  - intros [= <- <- <-]. by apply conserves_refl.
  - destruct (step a w e) as [[[a1 w1] l1]|] eqn:He; [|done].
    destruct (run a1 w1 evs) as [[[a2 w2] l2]|] eqn:Hr; [|done]. intros [= <- <- <-].
    eapply conserves_trans; [by eapply app_step_conserves|by eapply IH].
Qed.
End Conserve.

(** ** Bounds *)

Definition pipe_bounded (s : src) (pl : pipeline (item_of s)) : Prop :=
  maxSize (pl_buf pl) = buffer_size s
  /\ Z.of_nat (length (items (pl_buf pl))) <= buffer_size s
  /\ Z.of_nat (length (pl_chan pl)) <= buffer_size s.

Definition bounded (a : App) : Prop :=
  (forall s pl, a_pipes a s = Some pl -> pipe_bounded s pl)
  /\ (forall q, a_otlp a = Some q -> (length q <= otlpChannelSize)%nat).

Lemma buffer_size_pos s : 0 < buffer_size s.
Proof. by destruct s. Qed.

Lemma bounded_set_pipe a s pl : bounded a -> pipe_bounded s pl -> bounded (set_pipe a s pl).
Proof.
  intros [Hp Ho] Hpl. split; [|exact Ho]. intros s' pl'. cbn [a_pipes set_pipe].
  destruct (decide (s = s')) as [->|Hne]; [rewrite with_pipe_same; by intros [= <-]|].
  rewrite with_pipe_ne by done. apply Hp.
Qed.

Lemma bounded_start_flush a final s pl : bounded a -> a_pipes a s = Some pl -> bounded (start_flush a final s pl).
Proof.
  intros Hb Hp. pose proof (buffer_size_pos s). destruct (proj1 Hb s pl Hp) as (Hm & Hi & Hc).
  unfold start_flush, Drain. destruct (items (pl_buf pl)) eqn:E; apply (bounded_set_pipe a); try done.
  - split_and!; cbn [pl_buf pl_chan]; [done| |done]. rewrite E. cbn [length]. lia.
  - split_and!; cbn [pl_buf pl_chan maxSize items length]; [done|lia|done].
Qed.

Lemma bounded_next_drain a todo : bounded a -> bounded (next_drain a todo).
Proof.
  intros Hb. induction todo as [|s rest IH]; [exact Hb|]. cbn [next_drain].
  destruct (a_pipes a s) eqn:Hp; [by apply bounded_start_flush|done].
Qed.

Lemma bounded_after_flush a final : bounded a -> bounded (after_flush a final).
Proof. destruct final; [apply bounded_next_drain|exact id]. Qed.

Lemma Push_bounded {T} (b : Buffer T) x :
  0 < maxSize b -> Z.of_nat (length (items b)) <= maxSize b ->
  maxSize (Push b x).1 = maxSize b /\ Z.of_nat (length (items (Push b x).1)) <= maxSize b.
Proof.
  intros Hpos Hle. unfold Push. cbn [fst maxSize items]. split; [done|]. rewrite length_app. cbn [length].
  destruct (Z.leb_spec (maxSize b) (Z.of_nat (length (items b)))); rewrite ?length_drop; lia.
Qed.

Section Bounds.
Context {W C : Type} (zstd : bytes -> bytes) (snd : Sender) (cx dcx : context W C).

Lemma produce_bounded a (w : W) s p a' w' l : bounded a -> produce a w s p = Some (a', w', l) -> bounded a'.
Proof.
  intros Hb. unfold produce. destruct (a_pipes a s) as [pl|] eqn:Hp; [|done].
  case_bool; [|done]. intros [= <- <- <-]. zbool. apply bounded_set_pipe; [done|].
  destruct (proj1 Hb s pl Hp) as (Hm & Hi & Hc). split_and!; cbn [pl_buf pl_chan]; [done..|].
  rewrite length_app. cbn [length]. lia.
Qed.

Lemma wire_step_bounded a (w : W) s a' w' l : bounded a -> wire_step a w s = Some (a', w', l) -> bounded a'.
Proof.
  intros Hb. unfold wire_step. destruct (a_pipes a s) as [pl|] eqn:Hp; [|done].
  destruct (pl_chan pl) as [|p rest] eqn:Hc; [done|].
  destruct (proj1 Hb s pl Hp) as (Hm & Hi & Hch). pose proof (buffer_size_pos s).
  destruct (Push_bounded (pl_buf pl) p) as [Hm' Hi']; [lia..|].
  destruct (Push (pl_buf pl) p) as [buf d]. cbn [fst] in *. intros [= <- <- <-].
  apply (bounded_set_pipe a); [done|]. rewrite Hc in Hch. cbn [length] in Hch.
  split_and!; cbn [pl_buf pl_chan]; lia.
Qed.

Lemma send_step_bounded a (w : W) a' w' l : bounded a -> send_step zstd snd cx dcx a w = Some (a', w', l) -> bounded a'.
Proof.
  intros Hb. unfold send_step. destruct (a_phase a) as [|final s its|]; [done| |done].
  destruct its as [|p rest]; [intros [= <- <- <-]; by apply bounded_after_flush|].
  destruct (flush_item _ _ _ _ _ _) as [[w1 f] evs]. destruct f; intros [= <- <- <-]; try done. by apply bounded_after_flush.
Qed.

Lemma app_step_bounded a w e a' w' l : bounded a -> app_step zstd snd cx dcx a w e = Some (a', w', l) -> bounded a'.
Proof.
  intros Hb. destruct e as [s p|now| |s|s|now| | |b|]; cbn [app_step].
  - case_match; [done|]. by apply produce_bounded.
  - destruct (a_pipes a SSelf); [|done]. destruct (a_waiting a); [done|].
    destruct (self_emit (a_stats a) now) as [st rep]. by intros [= <- <- <-].
  - destruct (a_waiting a) as [p|]; [|done]. by apply produce_bounded.
  - by apply wire_step_bounded.
  - destruct (a_phase a); try done. destruct (a_pipes a s) as [pl|] eqn:Hp; [|done].
    intros [= <- <- <-]. by apply bounded_start_flush.
  - destruct (a_phase a); try done. by intros [= <- <- <-].
  - by apply send_step_bounded.
  - destruct (a_phase a); try done. case_match; [|done].
    generalize (bounded_next_drain a drain_order Hb). generalize (next_drain a drain_order). by intros d Hd [= <- <- <-].
  - unfold otlp_in, offer. destruct (a_otlp a) as [q|] eqn:Hq; [|done].
    destruct (Nat.ltb_spec (length q) otlpChannelSize); intros [= <- <- <-]; [|done].
    split; [apply Hb|]. cbn. intros q' [= <-]. rewrite length_app. cbn [length]. lia.
  - unfold otlp_step. destruct (a_otlp a) as [[|b q]|] eqn:Hq; [done| |done].
    assert (bounded (set_otlp a (Some q))) as Hb'.
    { split; [apply Hb|]. cbn. intros q' [= <-]. apply (proj2 Hb) in Hq. cbn [length] in Hq. lia. }
    destruct (SendRawWithRetry _ _ _ _ _ _ _ _ _) as [[w1 evs] [err|]]; [case_match|]; by intros [= <- <- <-].
Qed.

Lemma app_run_bounded evs a w a' w' l : bounded a -> app_run zstd snd cx dcx a w evs = Some (a', w', l) -> bounded a'.
Proof.
  revert a w l. induction evs as [|e evs IH]; intros a w l Hb; cbn [app_run]; [by intros [= <- <- <-]|].
  destruct (app_step _ _ _ _ a w e) as [[[a1 w1] l1]|] eqn:He; [|done].
  destruct (app_run _ _ _ _ a1 w1 evs) as [[[a2 w2] l2]|] eqn:Hr; [|done]. intros [= <- <- <-].
  eapply IH; [|exact Hr]. by eapply app_step_bounded.
Qed.
End Bounds.

(** ** Accounting *)

















Section Accounting.
Context {W C : Type} (zstd : bytes -> bytes) (snd : Sender) (cx dcx : context W C).





End Accounting.











(** ** From the start *)

Lemma app_start_fresh f c now s a :
  app_start f c now = RsRunning s a ->
  a_stats a = stats_New now /\ a_phase a = PLoop /\ a_waiting a = None /\ bounded a /\ forall s', held s' a = [].
Proof.
  unfold app_start. destruct (NoiseConfig f c) as [nc|]; [|done]. destruct (sender_New _ _ nc) as [snd|]; [|done].
  destruct (negb _); [done|]. intros [= <- <-]. do 3 (split; [done|]). split.
  - split; cbn [a_pipes a_otlp].
    + intros s' pl. unfold app_pipes, new_pipe. case_match; [|done].
      destruct (NewBuffer (buffer_size s')) as [b|] eqn:Hb; [|done]. cbn. intros [= <-].
      unfold NewBuffer in Hb. case_match; [done|]. injection Hb as <-. pose proof (buffer_size_pos s').
      split_and!; cbn; lia.
    + intros q. case_match; [|done]. intros [= <-]. cbn. lia.
  - intros s'. unfold held, queued. cbn [a_phase a_pipes in_flight app]. unfold app_pipes, new_pipe.
    destruct (match s' with SRpc => _ | _ => _ end); [|done]. unfold NewBuffer. by destruct (buffer_size s' <=? 0).
Qed.

Section Start.
Context {W C : Type} (zstd : bytes -> bytes) (cx dcx : context W C).

(** C14: In every execution of the running sentinel, under every interleaving of its
    goroutines, no payload of any pipeline is lost without a fate or duplicated: what the
    collectors sent is, as a multiset, what left (sent, dropped or given up, each once)
    and what is still held; the payloads the server accepted are, with the held ones behind
    them, in the order of production; and channels and buffers never exceed their sizes. *)
Theorem app_conservation f c now snd a w evs a' w' l :
  app_start f c now = RsRunning snd a -> app_run zstd snd cx dcx a w evs = Some (a', w', l) ->
  (forall s, produced s l ≡ₚ (departed s l).*1 ++ held s a' /\ delivered s l ++ held s a' `sublist_of` produced s l)
  /\ bounded a'.
Proof.
  intros Hs Hr. destruct (app_start_fresh _ _ _ _ _ Hs) as (_ & _ & _ & Hb & Hh). split.
  - intros s. destruct (app_run_conserves zstd snd cx dcx evs a w a' w' l Hr s) as [P S]. by rewrite Hh in P, S.
  - by eapply app_run_bounded.
Qed.

End Start.

(** ** The fate of one payload *)

(** When a [select] reports the context done, the context says so too. *)
Definition honest {W C} (cx : context W C) : Prop :=
  forall w d w' c, ctx_sleep cx w d = (w', Some c) -> ctx_Err cx w' = true.

Section Fates.
Context {W C : Type} (zstd : bytes -> bytes) (snd : Sender) (cx dcx : context W C).

(** The retry loop under [transmit]. *)
Lemma transmit_spec s (c : context W C) body w :
  honest c ->
  let '(w', evs, r) := transmit snd s c body w in
  retry_outcome_ok 5 (attempts evs) r /\ Forall (fun d => d <= max_retry_after) (waits evs)
  /\ match r with Some (ErrCtx _) => ctx_Err c w' = true | _ => True end.
Proof.
  intros Hh.
  assert (forall fn : W -> W * option post_error, fn_waits_bounded fn ->
    let '(w', evs, r) := retry fn (ctx_sleep c) maxSendAttempts initialBackoff w in
    retry_outcome_ok 5 (attempts evs) r /\ Forall (fun d => d <= max_retry_after) (waits evs)
    /\ match r with Some (ErrCtx _) => ctx_Err c w' = true | _ => True end) as H.
  { intros fn Hfn. unfold retry. change (Z.to_nat maxSendAttempts) with 5%nat.
    pose proof (retry_loop_spec fn (ctx_sleep c) 5 0 maxSendAttempts initialBackoff false None w initialBackoff Hfn
      (or_intror (Z.le_refl _))) as Hok.
    pose proof (retry_loop_ctx fn (ctx_sleep c) (fun w' => ctx_Err c w' = true) 5 0 maxSendAttempts initialBackoff false None w) as Hctx.
    destruct (retry_loop _ _ _ _ _ _ _ _ w) as [[w' evs] r]. destruct Hok as [Hok Hw]. split; [done|]. split.
    - eapply List.Forall_impl; [|exact Hw]. intros d [Hd|Hd]; [done|]. unfold initialBackoff, max_retry_after, Second in *. lia.
    - destruct r as [[e|]|]; [|done..]. eapply Hctx; [exact Hh|done]. }
  unfold transmit, SendRawWithRetry, SendCompressedBytesWithRetry.
  assert (forall path req, fn_waits_bounded (fun w => let '(w', o) := ctx_net c w (client snd) req in (w', post_result path o))) as Hpost.
  { intros path req w1 w2 d p. destruct (ctx_net c w1 (client snd) req) as [w3 o]. intros [= _ He]. by eapply post_result_wait. }
  destruct s; apply H, Hpost.
Qed.

(** What the turn of a flush loop did to a payload. *)
Definition fate_ok (s : src) (c : context W C) (p : item_of s) (w' : W) (f : fate) (evs : list retry_event) : Prop :=
  (length (attempts evs) <= 5)%nat /\ Forall (fun d => d <= max_retry_after) (waits evs)
  /\ match encode_item s p, f with
     | None, FateUnencodable => evs = []
     | Some b, FateSent raw wire =>
         raw = Z.of_nat (length b) /\ wire = Z.of_nat (length (wire_body zstd s b))
         /\ exists es, attempts evs = es ++ [None] /\ Forall (fun e => e <> None) es
     | Some _, FateExhausted =>
         ctx_Err c w' = false /\ length (attempts evs) = 5%nat /\ Forall (fun e => e <> None) (attempts evs)
     | Some _, FateLost => ctx_Err c w' = true /\ Forall (fun e => e <> None) (attempts evs)
     | _, _ => False
     end.

Lemma flush_item_fate_ok s c p w :
  honest c -> let '(w', f, evs) := flush_item zstd snd s c w p in fate_ok s c p w' f evs.
Proof.
  intros Hh. unfold flush_item, fate_ok. destruct (encode_item s p) as [b|]; [|split; [cbn; lia|by split]].
  pose proof (transmit_spec s c (wire_body zstd s b) w Hh) as Ht.
  destruct (transmit snd s c (wire_body zstd s b) w) as [[w1 evs] r]. destruct Ht as (Hok & Hw & Hc).
  destruct r as [[e|m last]|]; cbn [retry_outcome_ok] in Hok.
  - rewrite Hc. destruct Hok. by split_and!.
  - destruct Hok as [Hall Hlen]. destruct (ctx_Err c w1) eqn:He; split_and!; try done; lia.
  - destruct Hok as (es & Hes & Hall & Hlen). rewrite Hes, length_app. cbn [length]. split_and!; try done; [lia|]. by exists es.
Qed.

(** ** A flush in steps and in one piece *)

Lemma apply_ops_app a o1 o2 : apply_ops a (o1 ++ o2) = apply_ops (apply_ops a o1) o2.
Proof. unfold apply_ops. by rewrite fold_left_app. Qed.

Lemma apply_ops_nil a : apply_ops a [] = a.
Proof. by destruct a. Qed.

Lemma after_flush_phase a final ph : after_flush (set_phase a ph) final = after_flush a final.
Proof. destruct final; [apply next_drain_phase|done]. Qed.

Lemma app_run_app e1 e2 a w :
  app_run zstd snd cx dcx a w (e1 ++ e2)
  = match app_run zstd snd cx dcx a w e1 with
    | None => None
    | Some (a1, w1, l1) =>
        match app_run zstd snd cx dcx a1 w1 e2 with None => None | Some (a2, w2, l2) => Some (a2, w2, l1 ++ l2) end
    end.
Proof.
  revert a w. induction e1 as [|e e1 IH]; intros a w; cbn [app_run app].
  - by destruct (app_run _ _ _ _ a w e2) as [[[a2 w2] l2]|].
  - destruct (app_step _ _ _ _ a w e) as [[[a1 w1] l1]|]; [|done]. rewrite IH.
    destruct (app_run _ _ _ _ a1 w1 e1) as [[[a2 w2] l2]|]; [|done].
    destruct (app_run _ _ _ _ a2 w2 e2) as [[[a3 w3] l3]|]; [|done]. by rewrite (assoc_L (++)).
Qed.

Lemma flush_items_cons s (c : context W C) p rest w :
  flush_items zstd snd s c (p :: rest) w
  = let '(w1, f, _) := flush_item zstd snd s c w p in
    if decide (f = FateLost) then (w1, [], map (fun q => (q, FateLost)) (p :: rest))
    else let '(w2, ops, out) := flush_items zstd snd s c rest w1 in (w2, item_ops s f ++ ops, (p, f) :: out).
Proof. cbn [flush_items]. destruct (flush_item zstd snd s c w p) as [[w1 f] evs]. by destruct f. Qed.

Lemma send_step_cons a w final s p rest :
  send_step zstd snd cx dcx (set_phase a (PFlush final s (p :: rest))) w
  = let '(w1, f, evs) := flush_item zstd snd s (flush_ctx cx dcx final) w p in
    Some (if decide (f = FateLost)
          then (after_flush a final, w1, LDeparted s p f evs :: map (fun q => LDeparted s q FateLost []) rest)
          else (set_phase (apply_ops a (item_ops s f)) (PFlush final s rest), w1,
                LDeparted s p f evs :: map LOp (item_ops s f))).
Proof.
  cbn [send_step a_phase set_phase]. destruct (flush_item zstd snd s _ w p) as [[w1 f] evs].
  destruct f; cbn; by rewrite ?after_flush_phase.
Qed.

Lemma departed_one s p f evs l : departed s (LDeparted s p f evs :: l) = (p, f) :: departed s l.
Proof. unfold departed. cbn [omap list_omap]. by rewrite item_at_same. Qed.

(** The turns of a flush, one after the other, are the flush function. *)
Lemma flush_machine_run s final its a w :
  let '(w', ops, out) := flush_items zstd snd s (flush_ctx cx dcx final) its w in
  exists n l, (n <= S (length its))%nat
    /\ app_run zstd snd cx dcx (set_phase a (PFlush final s its)) w (repeat EvSend n)
       = Some (after_flush (apply_ops a ops) final, w', l)
    /\ departed s l = out.
Proof.
  revert a w. induction its as [|p rest IH]; intros a w.
  - exists 1%nat, []. split; [apply Nat.le_refl|]. cbn [repeat app_run app_step send_step a_phase set_phase].
    by rewrite after_flush_phase, apply_ops_nil.
  - rewrite flush_items_cons. pose proof (send_step_cons a w final s p rest) as Hs.
    destruct (flush_item zstd snd s _ w p) as [[w1 f] evs]. destruct (decide (f = FateLost)) as [->|Hf].
    + exists 1%nat. eexists. split; [cbn; lia|]. cbn [repeat app_run app_step]. rewrite Hs, app_nil_r, apply_ops_nil.
      split; [reflexivity|]. by rewrite departed_one, departed_items, omap_item_at_same.
    + specialize (IH (apply_ops a (item_ops s f)) w1). destruct (flush_items zstd snd s _ rest w1) as [[w2 ops] out].
      destruct IH as (n & l & Hn & Hr & Hd). exists (S n). eexists. split; [cbn [length]; lia|].
      cbn [repeat app_run app_step]. rewrite Hs, Hr, apply_ops_app. split; [reflexivity|].
      change ((LDeparted s p f evs :: ?x) ++ ?y) with (LDeparted s p f evs :: x ++ y).
      by rewrite departed_one, departed_app, departed_ops, Hd.
Qed.

(** ** The final flushes *)

(** Sends produce nothing. *)
Lemma app_run_sends n a w a' w' l :
  app_run zstd snd cx dcx a w (repeat EvSend n) = Some (a', w', l) -> forall s, produced s l = [].
Proof.
  revert a w l. induction n as [|n IH]; intros a w l; cbn [repeat app_run]; [by intros [= <- <- <-]|].
  destruct (app_step _ _ _ _ a w EvSend) as [[[a1 w1] l1]|] eqn:He; [|done].
  destruct (app_run _ _ _ _ a1 w1 _) as [[[a2 w2] l2]|] eqn:Hr; [|done]. intros [= <- <- <-] s.
  rewrite produced_app, (IH _ _ _ Hr s), app_nil_r. revert He. cbn [app_step]. unfold send_step.
  destruct (a_phase a) as [|final s' its|]; [done| |done]. destruct its as [|p rest]; [by intros [= <- <- <-]|].
  destruct (flush_item _ _ _ _ _ _) as [[w3 f] evs]. destruct f; intros [= <- <- <-]; cbn; try done. apply produced_items.
Qed.


Definition emptied (s : src) (a : App) : Prop := forall pl, a_pipes a s = Some pl -> items (pl_buf pl) = [].
Definition chan_of (s : src) (a : App) : list (item_of s) :=
  match a_pipes a s with None => [] | Some pl => pl_chan pl end.

Lemma Drain_empty {T} (b : Buffer T) : items (Drain b).1 = [].
Proof. unfold Drain. by destruct (items b) eqn:E. Qed.

Lemma next_drain_run todo a w :
  NoDup todo ->
  exists n a' w' l,
    app_run zstd snd cx dcx (next_drain a todo) w (repeat EvSend n) = Some (a', w', l)
    /\ a_phase a' = PStopped /\ (forall s, s ∈ todo -> emptied s a')
    /\ (forall s, s ∉ todo -> a_pipes a' s = a_pipes a s) /\ (forall s, chan_of s a' = chan_of s a).
Proof.
  revert a w. induction todo as [|s rest IH]; intros a w Hnd.
  { exists 0%nat, (set_phase a PStopped), w, []. split_and!; try done. by intros s ?%not_elem_of_nil. }
  apply list.NoDup_cons in Hnd as [Hs Hnd]. cbn [next_drain]. destruct (a_pipes a s) as [pl|] eqn:Hp.
  - unfold start_flush. pose proof (Drain_empty (pl_buf pl)) as He. destruct (Drain (pl_buf pl)) as [buf out]. cbn [fst] in He.
    set (a1 := set_pipe a s (mkPipeline (pl_chan pl) buf)).
    pose proof (flush_machine_run s (Some rest) out a1 w) as Hf.
    destruct (flush_items zstd snd s _ out w) as [[w1 ops] o]. destruct Hf as (n & l & _ & Hr & _).
    destruct (IH (apply_ops a1 ops) w1 Hnd) as (n2 & a2 & w2 & l2 & Hr2 & Hph & Hem & Hkeep & Hch).
    exists (n + n2)%nat, a2, w2, (l ++ l2). rewrite repeat_app, app_run_app, Hr. cbn [after_flush]. rewrite Hr2.
    assert (a_pipes (apply_ops a1 ops) s = Some (mkPipeline (pl_chan pl) buf)) as Hps by apply with_pipe_same.
    assert (forall s', s <> s' -> a_pipes (apply_ops a1 ops) s' = a_pipes a s') as Hpn by (intros; by apply with_pipe_ne).
    split_and!; try done.
    + intros s' [->|Hin]%elem_of_cons; [|by apply Hem]. intros pl'. rewrite (Hkeep _ Hs), Hps. by intros [= <-].
    + intros s' [Hne Hin]%not_elem_of_cons. rewrite Hkeep by done. apply Hpn. congruence.
    + intros s'. rewrite Hch. unfold chan_of. destruct (decide (s = s')) as [<-|Hne]; [by rewrite Hps, Hp|by rewrite Hpn].
  - destruct (IH a w Hnd) as (n & a2 & w2 & l2 & Hr & Hph & Hem & Hkeep & Hch).
    exists n, a2, w2, l2. split_and!; try done.
    + intros s' [->|Hin]%elem_of_cons; [|by apply Hem]. intros pl'. by rewrite (Hkeep _ Hs), Hp.
    + intros s' [Hne Hin]%not_elem_of_cons. by apply Hkeep.
Qed.

Lemma drain_order_all s : s ∈ drain_order.
Proof. destruct s; unfold drain_order; set_solver. Qed.

Lemma drain_order_NoDup : NoDup drain_order.
Proof. apply (bool_decide_unpack _). vm_compute. exact I. Qed.

(** C34: Shutdown terminates and empties the buffers: once the main loop sees the cancelled
    context, finitely many sends bring it to its end, every buffer is empty then, and every
    payload that was buffered has met its fate, whatever the server answers. What still
    sits in the collectors' channels at that moment is not looked at again. *)
Theorem shutdown_empties_buffers a w :
  a_phase a = PLoop -> ctx_Err cx w = true ->
  exists n a' w' l,
    app_run zstd snd cx dcx a w (EvDone :: repeat EvSend n) = Some (a', w', l)
    /\ a_phase a' = PStopped
    /\ forall s, emptied s a' /\ chan_of s a' = chan_of s a
         /\ forall pl, a_pipes a s = Some pl -> (departed s l).*1 ≡ₚ items (pl_buf pl).
Proof.
  intros Hph Hc. destruct (next_drain_run drain_order a w drain_order_NoDup) as (n & a' & w' & l & Hr & Hst & Hem & _ & Hch).
  exists n, a', w', l. assert (app_run zstd snd cx dcx a w (EvDone :: repeat EvSend n) = Some (a', w', l)) as Hrun
    by (cbn [app_run app_step]; rewrite Hph, Hc, Hr; done).
  split_and!; [done..|]. intros s. specialize (Hem s (drain_order_all s)). split; [done|]. split; [done|].
  intros pl Hp. destruct (app_run_conserves zstd snd cx dcx _ a w a' w' l Hrun s) as [HP _].
  assert (produced s l = []) as Hpr.
  { pose proof (app_run_sends n (next_drain a drain_order) w a' w' l Hr s) as Hx. exact Hx. }
  rewrite Hpr, app_nil_r in HP. specialize (Hch s). unfold held, chan_of in *. rewrite Hph, Hst, (queued_some _ _ _ Hp) in HP.
  rewrite Hp in Hch. unfold queued, emptied in *. cbn [in_flight app] in HP. destruct (a_pipes a' s) as [pl'|].
  - rewrite (Hem pl' eq_refl), Hch in HP. cbn [app] in HP. apply Permutation_app_inv_r in HP. done.
  - rewrite <- Hch, !app_nil_r in HP. done.
Qed.
End Fates.

Section Properties.
Context {W C : Type} (zstd : bytes -> bytes) (snd : Sender) (cx dcx : context W C).

(** What a flush does to one payload: at most five attempts, no wait beyond thirty
    seconds; counted as sent only when the last attempt was accepted, and then with the
    sizes of the encoded and of the transmitted body; given up only after five refused
    attempts under a live context; and lost, without being counted, only when the context
    ended. *)
Theorem flush_item_fate s (c : context W C) p w :
  honest c -> let '(w', f, evs) := flush_item zstd snd s c w p in fate_ok zstd s c p w' f evs.
Proof. apply flush_item_fate_ok. Qed.

(** The loop's flush of a source, with every other goroutine standing still, is the flush
    function of the code: a tick and at most one send per drained payload and one more
    bring the program back to its select with the same answers from the network, the same
    drained buffer, the same calls of the statistics and the same fates in order. *)
Theorem flush_refines s a w pl :
  a_phase a = PLoop -> a_pipes a s = Some pl ->
  let '(w', buf, ops, out) := flush_any zstd snd s cx (pl_buf pl) w in
  exists n l, (n <= S (length (items (pl_buf pl))))%nat
    /\ app_run zstd snd cx dcx a w (EvTick s :: repeat EvSend n)
       = Some (set_phase (apply_ops (set_pipe a s (mkPipeline (pl_chan pl) buf)) ops) PLoop, w', l)
    /\ departed s l = out.
Proof.
  intros Hph Hp. unfold flush_any. cbn [app_run app_step]. rewrite Hph, Hp. unfold start_flush.
  assert (length (Drain (pl_buf pl)).2 = length (items (pl_buf pl))) as Hlen.
  { unfold Drain. destruct (items (pl_buf pl)) eqn:E; [done|]. done. }
  destruct (Drain (pl_buf pl)) as [buf out].
  pose proof (flush_machine_run zstd snd cx dcx s None out (set_pipe a s (mkPipeline (pl_chan pl) buf)) w) as Hf.
  cbn [flush_ctx] in Hf. destruct (flush_items zstd snd s cx out w) as [[w1 ops] o].
  destruct Hf as (n & l & Hn & Hr & Hd). exists n, l. split; [cbn in Hlen; lia|]. rewrite Hr. done.
Qed.
End Properties.

(** ** Evaluations *)

(** A network that answers from a list under a live context, and an ended context. *)
Definition live_ctx : context (list http_outcome) unit := mkContext scripted fires (fun _ => false).
Definition ended_ctx : context (list http_outcome) unit := mkContext scripted (fun w _ => (w, Some tt)) (fun _ => true).

Definition sample_item : payload := mkPayload (mkJSONTime 1775001600000000000) {["height" := mkRaw (js "12")]}.
Definition sample_logs : LogPayload := mkLogPayload "warn" [mkRaw (jq "{'msg':'m'}")].

Definition no_files : fs := mkFs ∅ ∅.

Definition sample_app : App := mkApp (stats_New 0) (app_pipes sn_DefaultConfig) None (Some []) PLoop.

Definition no_zstd (b : bytes) : bytes := b.

Definition sample_evs : list app_event :=
  [EvOut SRpc sample_item; EvWire SRpc; EvOut SLogs sample_logs; EvOut SRpc sample_item; EvTick SRpc;
   EvWire SLogs; EvSend; EvWire SRpc; EvSend; EvTick SLogs; EvSend; EvSend].

Definition sample_net : list http_outcome :=
  [Responded 503 ∅; Responded 200 ∅; DoFailed; DoFailed; DoFailed; DoFailed; Responded 401 ∅].

Lemma app_conservation_witness :
  exists snd a a' w' l,
    app_start no_files sn_DefaultConfig 0 = RsRunning snd a
    /\ app_run no_zstd snd live_ctx live_ctx a sample_net sample_evs = Some (a', w', l)
    /\ departed SRpc l = [(sample_item, FateSent 60 60)] /\ held SRpc a' = [sample_item]
    /\ produced SRpc l ≡ₚ (departed SRpc l).*1 ++ held SRpc a'.
Proof.
  do 5 eexists. split; [reflexivity|]. split; [vm_compute; reflexivity|]. split; [vm_compute; reflexivity|].
  split; [vm_compute; reflexivity|].
  refine (proj1 (proj1 (app_conservation no_zstd live_ctx live_ctx no_files sn_DefaultConfig 0 _ _ sample_net sample_evs _ _ _ _ _) SRpc)).
  - reflexivity.
  - vm_compute. reflexivity.
Defined.


Lemma shutdown_empties_buffers_witness :
  exists n a' w' l,
    app_run no_zstd sample_sender ended_ctx live_ctx sample_app [Responded 200 ∅] (EvDone :: repeat EvSend n) = Some (a', w', l)
    /\ a_phase a' = PStopped.
Proof.
  destruct (shutdown_empties_buffers no_zstd sample_sender ended_ctx live_ctx sample_app [Responded 200 ∅] eq_refl eq_refl)
    as (n & a' & w' & l & Hr & Hp & _).
  exists n, a', w', l. split; [exact Hr|exact Hp].
Defined.

Lemma flush_item_fate_witness :
  honest live_ctx
  /\ let '(w', f, evs) := flush_item no_zstd sample_sender SLogs live_ctx [DoFailed; Responded 200 ∅] sample_logs in
     f = FateSent 38 38 /\ fate_ok no_zstd SLogs live_ctx sample_logs w' f evs.
Proof.
  assert (honest live_ctx) as Hh by done. split; [exact Hh|].
  pose proof (flush_item_fate no_zstd sample_sender SLogs live_ctx sample_logs [DoFailed; Responded 200 ∅] Hh) as H.
  destruct (flush_item no_zstd sample_sender SLogs live_ctx [DoFailed; Responded 200 ∅] sample_logs) as [[w' f] evs] eqn:E.
  split; [|exact H]. vm_compute in E. by injection E as _ <- _.
Defined.

Lemma flush_refines_witness :
  exists n l a' w',
    app_run no_zstd sample_sender live_ctx live_ctx sample_app [] (EvTick SRpc :: repeat EvSend n) = Some (a', w', l)
    /\ (n <= 1)%nat /\ departed SRpc l = [].
Proof.
  pose proof (flush_refines no_zstd sample_sender live_ctx live_ctx SRpc sample_app [] (mkPipeline [] (mkBuffer [] 300)) eq_refl eq_refl) as H.
  cbn [flush_any Drain items pl_buf flush_items] in H. destruct H as (n & l & Hn & Hr & Hd).
  exists n, l. eexists _, _. split; [exact Hr|]. split; [exact Hn|exact Hd].
Defined.

(** ** Behaviours worth knowing *)

(** An OTLP payload whose send fails because the context ended is counted as sent. *)
Theorem otlp_cancelled_counted :
  exists a' w' l,
    app_run no_zstd sample_sender ended_ctx live_ctx sample_app [DoFailed] [EvOtlpIn [byte_of 1]; EvOtlpSend] = Some (a', w', l)
    /\ In (LOtlp [byte_of 1] OtlpCancelled) l /\ ctr_total (a_stats a') "otlp" = 1.
Proof. do 3 eexists. split; [vm_compute; reflexivity|]. split; [left; reflexivity|reflexivity]. Qed.

(** A payload drained by the last tick before the context ended is lost and counted
    nowhere; the final flushes do not see it. *)
Theorem drained_payload_lost :
  exists a' w' l,
    app_run no_zstd sample_sender ended_ctx live_ctx sample_app [DoFailed]
      [EvOut SRpc sample_item; EvWire SRpc; EvTick SRpc; EvSend; EvDone; EvSend; EvSend; EvSend; EvSend; EvSend] = Some (a', w', l)
    /\ a_phase a' = PStopped /\ departed SRpc l = [(sample_item, FateLost)] /\ st_data (a_stats a') = ∅.
Proof. do 3 eexists. split; [vm_compute; reflexivity|]. split; [reflexivity|]. split; vm_compute; reflexivity. Qed.

(** A payload still in a collector's channel when the sentinel stops is not sent. *)
Theorem channel_payload_left :
  exists a' w' l,
    app_run no_zstd sample_sender ended_ctx live_ctx sample_app []
      [EvOut SRpc sample_item; EvDone; EvSend; EvSend; EvSend; EvSend; EvSend] = Some (a', w', l)
    /\ a_phase a' = PStopped /\ departed SRpc l = [] /\ held SRpc a' = [sample_item].
Proof. do 3 eexists. split; [vm_compute; reflexivity|]. split; [reflexivity|]. split; vm_compute; reflexivity. Qed.

(** A log payload pushed out of a full buffer is counted under "log"; the sends and the
    exhausted retries of the logs are under "logs". *)
Theorem log_drops_under_another_name :
  wire_name SLogs = "log" /\ flush_name SLogs = "logs"
  /\ item_ops SLogs FateFull = [OpDrop "log" "buffer_full"] /\ item_ops SLogs FateExhausted = [OpDrop "logs" "retry_exhausted"].
Proof. done. Qed.

(** The self collector and the log of the statistics take the same snapshots, and each resets
    the counters of the interval: a log record that comes after a report, with nothing
    recorded in between, shows no bytes and no drops, whatever was sent since the last
    record. By default there are two reports to a record. *)
Theorem report_resets_log_interval (range : forall V, gmap string V -> list (string * V)) st now now' :
  (forall V (m : gmap string V), map_range m (range V m)) ->
  Forall (fun l => sl_lastBytes l = 0 /\ sl_byReason l = ∅) (logStats range (self_emit st now).1 now').2.2.
Proof.
  intros Hr. rewrite self_emit_stats. unfold logStats, stats_Snapshot. cbn [fst snd st_data st_start].
  apply Forall_fmap, List.Forall_forall. intros [k s] Hin%list_elem_of_In. apply (map_range_elem _ _ _ _ (Hr _ _)) in Hin.
  rewrite !lookup_fmap in Hin. destruct (st_data st !! k) as [e|]; [|done]. cbn in Hin. injection Hin as <-. done.
Qed.

(** A megabyte before each of two reports and one after them: the record of the minute shows
    the last of the three. *)
Example log_shows_one_third :
  let st0 := stats_New 0 in
  let st1 := (self_emit (stats_Record st0 "logs" 1000000 1000000) (30 * Second)).1 in
  let st2 := (self_emit (stats_Record st1 "logs" 1000000 1000000) (45 * Second)).1 in
  map (fun l => (sl_type l, sl_lastBytes l, sl_totalBytes l)) (logStats (fun _ => map_to_list) (stats_Record st2 "logs" 1000000 1000000) Minute).2.2
  = [("logs", 1000000, 3000000)].
Proof. vm_compute. reflexivity. Qed.
