(* ===== verification/Delivery.v ===== *)
(** * From the sentinel's buffer to the backends

    The sentinel's sending loop against the watchtower as it is put together in Watchtower:
    one turn of a flush encodes a payload, compresses it if it is a batch of logs, posts it
    with the bearer token and reads the answer; the watchtower admits the request, decodes
    the payload and posts what it makes of it. Between the two are Go's HTTP client and
    server and perhaps proxies, of which only this is asked: method, path, Authorization
    header and body arrive as they were sent ([carries]). *)

From Stdlib Require Import Ascii.
From S2P Require Import Prelude GoStrings GoTime GoFloat GoHttp GoJson GoRfc3339 GoJsonText GoJsonEncode Protocol Sender SenderBuffer SentinelStats SentinelApp WtConfig Auth WtStats WtMetrics RateLimit Handlers VmLines Forwarder Watchtower.

Local Open Scope Z_scope.

(** ** One request that the watchtower admits *)

Section OneRequest.
Context {W E L : Type} `{PayloadForwarder W E}.
Context (NewLimiter : float64 -> Z -> L).
Context (Allow : L -> Time -> L * bool).
Context (metrics_page : W -> string).

(** A registered token from an address that is not banned. *)
Lemma Middleware_admits a r ck who v :
  (isBanned a (remoteIP r) (ck1 ck) (ck2 ck) (ck3 ck)).2 = false ->
  tokens a !! bearerToken r = Some (mkTokenEntry who v) ->
  (auth_Middleware a r ck).2 = Authenticated who v.
Proof.
  intros Hb Ht. unfold auth_Middleware. pose proof (isBanned_params a (remoteIP r) (ck1 ck) (ck2 ck) (ck3 ck)) as (Hp & _).
  destruct (isBanned _ _ _ _ _) as [a1 banned]. cbn [fst snd] in *. subst banned. by rewrite Hp, Ht.
Qed.

(** Its answer as a client sees it: the status and the headers. *)
Definition answered (resp : Response) : http_outcome := Responded (StatusCode resp) (RespHeader resp).

(** An admitted payload is forwarded, and the answer tells how that went. *)
Lemma serve_admitted s r ck now who v e body :
  (auth_Middleware (srv_auth s) r ck).2 = Authenticated who v ->
  (allow NewLimiter Allow (srv_rl s) who now).2 = true ->
  acceptable r v e body ->
  let '(s', effs, resp) := serve NewLimiter Allow metrics_page s r ck now in
  let '(w', ops, out) := forward e (srv_world s) who v body in
  srv_world s' = w' /\ forwards effs = [(e, who, body)]
  /\ StatusCode resp = (if is_Ok out then StatusOK else StatusBadGateway)
  /\ srv_stats s' = (if is_Ok out then ws_Record (srv_stats s) who (ep_perm e) (Z.of_nat (length body)) else srv_stats s).
Proof.
  intros Ha Hl ((Hm & Hp) & Hperm & Hb & Hlen). unfold serve.
  assert (mux_lookup outer_mux (Method r) (URL_Path r) = MuxHandler HInner) as -> by (rewrite Hm, Hp; by destruct e).
  destruct (auth_Middleware (srv_auth s) r ck) as [[a' aeffs] out]. cbn [snd] in Ha. subst out.
  unfold rl_Middleware. destruct (allow _ _ _ _ _) as [l' ok]. cbn [snd] in Hl. subst ok.
  unfold serve_inner. assert (mux_lookup inner_mux (Method r) (URL_Path r) = MuxHandler (HPayload e)) as -> by (rewrite Hm, Hp; by destruct e).
  unfold handlePayload, read_body. rewrite bool_decide_eq_true_2 by done. cbn [negb]. rewrite Hb.
  destruct (Z.ltb_spec maxBodyBytes (Z.of_nat (length body))); [lia|].
  change (srv_world (set_rl (set_auth s a') l')) with (srv_world s).
  destruct (forward e (srv_world s) who v body) as [[w' ops] [[]|err]]; cbn [is_Ok];
    rewrite forwards_app, forwards_auth; cbn [app]; by rewrite forwards_one.
Qed.

(** What the sender makes of the answer. *)
Lemma admitted_result path resp out :
  StatusCode resp = (if is_Ok (T := unit) (E := E) out then StatusOK else StatusBadGateway) ->
  post_result path (answered resp) = if is_Ok out then None else Some (ErrUnexpectedStatus path 502).
Proof. unfold post_result, answered. intros ->. by destruct out. Qed.
End OneRequest.

(** ** What each pipeline's payload becomes *)

(** The request as it arrives. *)
Definition carries (path : string) (o : outgoing) (r : Request) : Prop :=
  Method r = out_method o /\ URL_Path r = path
  /\ Header_Get (ReqHeader r) "Authorization" = Header_Get (out_header o) "Authorization"
  /\ ReqBody r = Ok (out_body o).

Lemma carries_token path snd body ct enc r :
  carries path (post_request snd path body ct enc) r -> bearerToken r = token snd.
Proof.
  intros (_ & _ & Hh & _). unfold bearerToken. rewrite Hh. unfold post_request. cbn [out_header].
  assert (Header_Get (if bool_decide (enc = EmptyString) then Header_Set (Header_Set ∅ "Authorization" ("Bearer " +:+ token snd)) "Content-Type" ct
    else Header_Set (Header_Set (Header_Set ∅ "Authorization" ("Bearer " +:+ token snd)) "Content-Type" ct) "Content-Encoding" enc)
    "Authorization" = "Bearer " +:+ token snd) as ->.
  { case_bool_decide; rewrite !Header_Get_Set_ne by done; apply Header_Get_Set. }
  unfold CutPrefix. by rewrite strip_prefix_app.
Qed.

Definition flush_endpoint (s : src) : endpoint :=
  match s with SRpc => EpRPC | SLogs => EpLogs | _ => EpMetrics end.

Lemma flush_endpoint_path s : flush_path s = "/" +:+ ep_perm (flush_endpoint s).
Proof. by destruct s. Qed.

(** The payload survives the encoding. *)
Definition item_ok (s : src) : item_of s -> Prop :=
  match s with
  | SLogs => fun p => valid_utf8 (lp_Level p) /\ Forall raw_fits (lp_Lines p)
  | SRpc | SResources | SMetadata | SSelf => fun p => map_Forall (fun k r => valid_utf8 k /\ raw_fits r) (Data p)
  end.

(** The request of one attempt. *)
Definition flush_request (snd : Sender) (s : src) (body : bytes) : outgoing :=
  post_request snd (flush_path s) body "application/json" (match s with SLogs => "zstd" | _ => EmptyString end).

Section Delivery.
Context {W L KV RR RM RQ C : Type}.
Context (NewLimiter : float64 -> Z -> L).
Context (Allow : L -> Time -> L * bool).
Context (net : W -> fwd_request -> W * fwd_outcome).
Context (clock : W -> Time).
Context (range : forall V, gmap string V -> list (string * V)).
Context (SortFunc : (loki_entry -> loki_entry -> comparison) -> list loki_entry -> list loki_entry).
Context (zstd_NewReader gzip_NewReader : bytes -> option stream).
Context (string_kv : string -> string -> KV).
Context (empty_rest : RR).
Context (proto_Unmarshal : bytes -> option (otlp_request KV RR RM RQ)).
Context (proto_Marshal : otlp_request KV RR RM RQ -> option bytes).
Context (f : Forwarder).
Context (metrics_page : wt_world (W := W) -> string).

(** The encoder of the sentinel and the decoder of the watchtower: what is compressed is
    read back, without an error at the end. *)
Context (zstd : bytes -> bytes).
Hypothesis zstd_roundtrip : forall b, Z.of_nat (length b) <= maxLogsDecompressedBytes ->
  exists st, zstd_NewReader (zstd b) = Some st /\ st_clean st = true /\ st_out st = b.

(** The way from the sentinel to the watchtower, and the clocks there. *)
Context (route : outgoing -> Request).
Context (ck : Server (W := wt_world (W := W)) (L := L) -> auth_clock).
Context (now : Server (W := wt_world (W := W)) (L := L) -> Time).

Notation server := (Server (W := wt_world (W := W)) (L := L)).
Notation the_serve := (wt_serve NewLimiter Allow net clock range SortFunc zstd_NewReader gzip_NewReader
  string_kv empty_rest proto_Unmarshal proto_Marshal f metrics_page).
#[local] Instance the_forwarder : PayloadForwarder (wt_world (W := W)) fwd_error :=
  wt_forwarder net clock range SortFunc zstd_NewReader gzip_NewReader string_kv empty_rest proto_Unmarshal proto_Marshal f.

(** The network of the sentinel, with the watchtower at the other end. *)
Definition wt_net (srv : server) (_ : sender_transport) (o : outgoing) : server * http_outcome :=
  let '(srv', _, resp) := the_serve srv (route o) (ck srv) (now srv) in (srv', answered resp).

(** What the backends are sent for a payload in the world [w], the world with their answer,
    and the outcome, which that answer decides. *)
Definition delivered (w : W) (who : string) (v : ValidatorConfig) (s : src)
    : item_of s -> W -> list fwd_request -> result unit fwd_error -> Prop :=
  match s with
  | SRpc => fun p => import_sent net w (vmURL f) (Some (extractRPC range who (payload_sent p)))
  | SLogs => fun p w' sent out =>
      if decide (below_min (LogsMinLevel v) (lp_Level p)) then w' = w /\ sent = [] /\ out = Ok tt
      else posted net w (mkFwdRequest (lokiURL f +:+ "/loki/api/v1/push") "application/json"
                           (encode_push (toLokiPush SortFunc (clock w) who (LogPayload_sent p)))) w' sent out
  | SResources | SMetadata | SSelf => fun p => import_sent net w (vmURL f) (Some (extractMetrics range who (payload_sent p)))
  end.

Lemma decode_sent_logs p b :
  encode_LogPayload p = Some b -> item_ok SLogs p -> Z.of_nat (length b) <= maxLogsDecompressedBytes ->
  decode_logs zstd_NewReader (zstd b) = Ok (LogPayload_sent p).
Proof.
  intros He [Hu Hf] Hl. unfold decode_logs. destruct (zstd_roundtrip b Hl) as (st & H1 & H2 & H3).
  rewrite (proj2 (zstdDecompress_spec zstd_NewReader (zstd b) b)) by (by exists st).
  by rewrite (LogPayload_read_back p b He Hu Hf).
Qed.

(** The forwarder on what the sentinel encoded. *)
Lemma forward_item s p b w who v w' sent ops out :
  encode_item s p = Some b -> item_ok s p -> Z.of_nat (length b) <= maxLogsDecompressedBytes ->
  forward (flush_endpoint s) (w, []) who v (wire_body zstd s b) = ((w', sent), ops, out) ->
  delivered w who v s p w' sent out.
Proof.
  intros He Hok Hl. destruct s; cbn [encode_item item_of item_ok wire_body] in *.
  2: { cbn [forward flush_endpoint the_forwarder fwd_Logs wt_forwarder fwd_payload_forwarder delivered].
       intros H%ForwardLogs_sent. rewrite (decode_sent_logs p b He Hok Hl) in H. cbn [lp_Level LogPayload_sent] in H.
       destruct (decide _); [by destruct H as (-> & -> & -> & _)|]. exact (proj2 H). }
  all: cbn [forward flush_endpoint the_forwarder fwd_RPC fwd_Metrics wt_forwarder fwd_payload_forwarder delivered];
    unfold ForwardRPC, ForwardMetrics; rewrite (payload_read_back p b He Hok);
    destruct (postVMLines _ _ _ _) as [[w1 s1] r1] eqn:Hp; intros [= <- <- _ <-]; exact (postVMLines_sent _ _ _ _ _ _ _ Hp).
Qed.

Lemma retry_first {W' C'} (fn : W' -> W' * option post_error) (sleep : W' -> Duration -> W' * option C') n b0 w0 w1 :
  0 < n -> fn w0 = (w1, None) -> retry fn sleep n b0 w0 = (w1, [EvAttempt None], None).
Proof.
  intros Hn Hf. unfold retry. destruct (Z.to_nat n) as [|k] eqn:E; [lia|]. cbn [retry_loop Nat.ltb Nat.leb andb].
  unfold retry_attempt. by rewrite Hf.
Qed.

Lemma transmit_first snd s (cx : SentinelApp.context server C) body (srv srv' : server) o :
  ctx_net cx srv (client snd) (flush_request snd s body) = (srv', o) -> post_result (flush_path s) o = None ->
  transmit snd s cx body srv = (srv', [EvAttempt None], None).
Proof.
  unfold flush_request. intros Hn Hr.
  destruct s; unfold transmit, SendRawWithRetry, SendCompressedBytesWithRetry; apply retry_first; try done; by rewrite Hn, Hr.
Qed.

(** C3: From the sentinel's buffer to the backends: a payload that can be encoded, sent with
    the token of a validator that has the permission, to a watchtower that has not banned
    the address and grants the rate, is turned into exactly the backend requests for that
    validator and for the payload itself (compacted), whatever the payload and the other
    validators; the answer of the backend to that request decides the outcome, a success
    being a 2xx status; the statistics of the watchtower count the bytes sent exactly when
    the outcome is a success; and then the sentinel's first attempt succeeds without waiting
    and the payload is counted as sent, while a refusal is the error 502, which is retried. *)
Theorem flush_delivers snd s p b who v (srv : server) w (cx : SentinelApp.context server C) :
  encode_item s p = Some b -> item_ok s p ->
  Z.of_nat (length b) <= maxLogsDecompressedBytes -> Z.of_nat (length (wire_body zstd s b)) <= maxBodyBytes ->
  let o := flush_request snd s (wire_body zstd s b) in
  carries (flush_path s) o (route o) ->
  tokens (srv_auth srv) !! token snd = Some (mkTokenEntry who v) -> ep_perm (flush_endpoint s) ∈ perms v ->
  (isBanned (srv_auth srv) (remoteIP (route o)) (ck1 (ck srv)) (ck2 (ck srv)) (ck3 (ck srv))).2 = false ->
  (allow NewLimiter Allow (srv_rl srv) who (now srv)).2 = true ->
  srv_world srv = (w, []) -> ctx_net cx = wt_net ->
  exists srv' ans out,
    wt_net srv (client snd) o = (srv', ans)
    /\ delivered w who v s p (srv_world srv').1 (srv_world srv').2 out
    /\ srv_stats srv' = (if is_Ok out then ws_Record (srv_stats srv) who (ep_perm (flush_endpoint s)) (Z.of_nat (length (wire_body zstd s b)))
                         else srv_stats srv)
    /\ post_result (flush_path s) ans = (if is_Ok out then None else Some (ErrUnexpectedStatus (flush_path s) 502))
    /\ (out = Ok tt ->
        flush_item zstd snd s cx srv p
        = (srv', FateSent (Z.of_nat (length b)) (Z.of_nat (length (wire_body zstd s b))), [EvAttempt None])).
Proof.
  intros He Hok Hl Hl2 o Hc Ht Hperm Hb Ha Hw Hcx.
  assert (bearerToken (route o) = token snd) as Htok by (eapply carries_token; exact Hc).
  assert (acceptable (route o) v (flush_endpoint s) (wire_body zstd s b)) as Hacc.
  { destruct Hc as (Hm & Hp & _ & Hbody). split; [split; [exact Hm|by rewrite Hp, flush_endpoint_path]|]. by split_and!. }
  rewrite <- Htok in Ht. pose proof (Middleware_admits _ _ _ _ _ Hb Ht) as Hauth.
  pose proof (serve_admitted (E := fwd_error) NewLimiter Allow metrics_page srv (route o) (ck srv) (now srv) who v _ _ Hauth Ha Hacc) as H.
  destruct (serve _ _ _ _ _ _ _) as [[srv' effs] resp] eqn:Es.
  destruct (forward _ _ _ _ _) as [[w' ops] out] eqn:Ef. destruct H as (H1 & H2 & H3 & H4).
  assert (the_serve srv (route o) (ck srv) (now srv) = (srv', effs, resp)) as Hserve by exact Es.
  assert (wt_net srv (client snd) o = (srv', answered resp)) as Hnet by (unfold wt_net; by rewrite Hserve).
  exists srv', (answered resp), out. rewrite H1. destruct w' as [w' sent]. rewrite Hw in Ef. cbn [Datatypes.snd].
  split; [exact Hnet|]. split; [by eapply forward_item|]. split; [exact H4|].
  pose proof (admitted_result (E := fwd_error) (flush_path s) resp out H3) as Hres. split; [exact Hres|].
  intros ->. unfold flush_item. rewrite He.
  rewrite (transmit_first snd s cx (wire_body zstd s b) srv srv' (answered resp)) by (done || by rewrite Hcx). done.
Qed.
End Delivery.

(** ** Evaluations *)

Definition sample_payload : payload := mkPayload (mkJSONTime sample_now) {["rpc_reachable" := mkRaw (js " 1 ")]}.

(** A direct connection. *)
Definition direct (path : string) (o : outgoing) : Request :=
  mkRequest (out_method o) path path (out_header o) "10.0.0.7:51234" (Ok (out_body o)).

Definition sample_net :=
  wt_net count_new count_allow ok_net (fun w => w) ascending insertion_sort plain_reader plain_reader
    pair tt toy_otlp toy_marshal sample_forwarder (fun _ => EmptyString) (direct "/rpc") (fun _ => sample_clock) (fun _ => Minute).

Definition sample_context : SentinelApp.context (Server (W := Time * list fwd_request) (L := Z)) unit :=
  mkContext sample_net (fun srv _ => (srv, None)) (fun _ => false).

Definition sample_alice : Sender := mkSender "http://watchtower.example" "ta" PlainTransport.

Lemma flush_delivers_witness :
  exists srv' n, flush_item (fun b => b) sample_alice SRpc sample_context sample_wt sample_payload
    = (srv', FateSent n n, [EvAttempt None])
  /\ map fr_body (srv_world srv').2
     = [jq "{'metric':{'__name__':'sentinel_rpc_reachable','validator':'alice'},'values':[1],'timestamps':[1775001600000]}" ++ [nl]].
Proof.
  assert (forall b, Z.of_nat (length b) <= maxLogsDecompressedBytes ->
    exists st, plain_reader b = Some st /\ st_clean st = true /\ st_out st = b) as Hz by (intros b _; by eexists).
  set (b := default [] (encode_payload sample_payload)).
  assert (encode_payload sample_payload = Some b) as Hb by (vm_compute; reflexivity).
  destruct (flush_delivers count_new count_allow ok_net (fun w => w) ascending insertion_sort plain_reader plain_reader
    pair tt toy_otlp toy_marshal sample_forwarder (fun _ => EmptyString) (fun b => b) Hz (direct "/rpc") (fun _ => sample_clock)
    (fun _ => Minute) sample_alice SRpc sample_payload b "alice" (mkValidatorConfig "ta" (Some ["rpc"; "otlp"]) "info")
    sample_wt 0 sample_context Hb) as (srv' & ans & out & Hn & Hd & _ & Hr & Hf).
  - apply (bool_decide_unpack _). vm_compute. exact I.
  - vm_compute. discriminate.
  - vm_compute. discriminate.
  - split_and!; reflexivity.
  - vm_compute. reflexivity.
  - left.
  - vm_compute. reflexivity.
  - vm_compute. reflexivity.
  - reflexivity.
  - reflexivity.
  - assert (out = Ok tt) as Hout.
    { vm_compute in Hn. injection Hn as _ <-. destruct out as [[]|e]; [reflexivity|discriminate Hr]. }
    exists srv', (Z.of_nat (length b)). split; [exact (Hf Hout)|].
    vm_compute in Hn. injection Hn as <- _. vm_compute. reflexivity.
Defined.
