(* ===== verification/BeaconConfig.v ===== *)
(** * internal/beacon/config

    The beacon's configuration, its validation, and the Noise configuration of its listener.
    The TOML decoder and encoder are library functions; the key files are those of
    pkg/noise. *)

From Stdlib Require Import Ascii.
From S2P Require Import Prelude GoStrings GoTime NoiseConfig SentinelConfig.

Local Open Scope Z_scope.

Definition bc_placeholderUpstream : string := "<watchtower-url>".
Definition bc_placeholderKeysDir : string := "<path-to-beacon-keys-dir>".
Definition bc_placeholderConfigPath : string := "<path-to-gnoland-config>".
Definition bc_placeholderRPCURL : string := "http://localhost:26657".

Record BcServer := mkBcServer { bs_URL : string }.
Record BcBeacon := mkBcBeacon {
  bb_ListenAddr : string; bb_KeysDir : string; bb_AuthorizedKeys : list string; bb_HandshakeTimeout : Duration }.
Record BcRPC := mkBcRPC { br_RPCURL : string }.
Record BcMetadata := mkBcMetadata { bm_ConfigPath : string; bm_ConfigGetCmd : string; bm_ForceInterval : Duration }.
Record BcConfig := mkBcConfig { bc_Server : BcServer; bc_Beacon : BcBeacon; bc_RPC : BcRPC; bc_Metadata : BcMetadata }.

Definition bc_DefaultConfig : BcConfig :=
  mkBcConfig (mkBcServer bc_placeholderUpstream)
    (mkBcBeacon "0.0.0.0:8080" bc_placeholderKeysDir [] (5 * Second))
    (mkBcRPC bc_placeholderRPCURL)
    (mkBcMetadata bc_placeholderConfigPath EmptyString 0).

Definition bc_IsPlaceholder (s : string) : bool :=
  let b := bytes_of_string s in
  Nat.ltb 2 (length b)
  && match b with a :: _ => Ascii.eqb a "<" | [] => false end
  && match rev b with a :: _ => Ascii.eqb a ">" | [] => false end.

Inductive bc_config_error :=
| ErrBcServerURL | ErrBcServerScheme (url : string)
| ErrBcListenAddr | ErrBcKeysDir | ErrBcRPCURL | ErrBcMetadataBoth
| ErrBcAuthorizedKey (i : nat) (e : key_error).

(** The loop over the allowlist, from index [i]. *)
Fixpoint validate_authorized (i : nat) (keys : list string) : result unit bc_config_error :=
  match keys with
  | [] => Ok tt
  | k :: keys' =>
      match DecodePublicKey k with
      | Err e => Err (ErrBcAuthorizedKey i e)
      | Ok _ => validate_authorized (S i) keys'
      end
  end.

Open Scope go_scope.

Definition bc_validate (c : BcConfig) : result unit bc_config_error :=
  guard? is_empty (bs_URL (bc_Server c)) then ErrBcServerURL else
  guard? negb (bc_IsPlaceholder (bs_URL (bc_Server c)))
         && negb (HasPrefix (bs_URL (bc_Server c)) "http://")
         && negb (HasPrefix (bs_URL (bc_Server c)) "https://") then ErrBcServerScheme (bs_URL (bc_Server c)) else
  guard? is_empty (bb_ListenAddr (bc_Beacon c)) then ErrBcListenAddr else
  guard? is_empty (bb_KeysDir (bc_Beacon c)) then ErrBcKeysDir else
  guard? is_empty (br_RPCURL (bc_RPC c)) then ErrBcRPCURL else
  guard? negb (is_empty (bm_ConfigPath (bc_Metadata c))) && negb (is_empty (bm_ConfigGetCmd (bc_Metadata c)))
    then ErrBcMetadataBoth else
  validate_authorized 0 (bb_AuthorizedKeys (bc_Beacon c)).

Inductive bc_load_error (E : Type) := ErrBcRead | ErrBcDecode (e : E) | ErrBcInvalid (e : bc_config_error).
Arguments ErrBcRead {E}.
Arguments ErrBcDecode {E} e.
Arguments ErrBcInvalid {E} e.

Definition bc_Load {E} (Unmarshal : bytes -> result BcConfig E) (data : option bytes)
    : result BcConfig (bc_load_error E) :=
  match data with
  | None => Err ErrBcRead
  | Some b =>
      let? cfg := map_err ErrBcDecode (Unmarshal b) in
      let? _ := map_err ErrBcInvalid (bc_validate cfg) in
      Ok cfg
  end.

(** [Generate]: what is written to the file, when the encoder succeeds. *)
Definition bc_Generate {E} (Marshal : BcConfig -> result bytes E) : result bytes E := Marshal bc_DefaultConfig.

Inductive bc_noise_error := ErrBcLoadKeypair (e : key_error) | ErrBcAuthorizedKeys (e : key_error).

Fixpoint decode_keys (keys : list string) : result (list bytes) key_error :=
  match keys with
  | [] => Ok []
  | k :: keys' =>
      let? pub := DecodePublicKey k in
      let? pubs := decode_keys keys' in
      Ok (pub :: pubs)
  end.

(** An empty allowlist leaves the slice nil. *)
Definition bc_NoiseConfig (f : fs) (c : BcConfig) : result Config bc_noise_error :=
  let? kp := map_err ErrBcLoadKeypair (LoadKeypair f (bb_KeysDir (bc_Beacon c))) in
  match bb_AuthorizedKeys (bc_Beacon c) with
  | [] => Ok (mkConfig kp None)
  | ks =>
      let? pubs := map_err ErrBcAuthorizedKeys (decode_keys ks) in
      Ok (mkConfig kp (Some pubs))
  end.

(** ** Facts *)

Lemma validate_authorized_ok i keys :
  validate_authorized i keys = Ok tt <-> exists pubs, decode_keys keys = Ok pubs.
Proof.
  revert i. induction keys as [|k keys IH]; intros i; cbn [validate_authorized decode_keys]; [naive_solver|].
  destruct (DecodePublicKey k) as [pub|e]; cbn [result_bind]; [|naive_solver]. rewrite IH.
  destruct (decode_keys keys); cbn [result_bind]; naive_solver.
Qed.

Lemma decode_keys_elem keys pubs peer :
  decode_keys keys = Ok pubs -> (peer ∈ pubs <-> exists k, k ∈ keys /\ DecodePublicKey k = Ok peer).
Proof.
  revert pubs. induction keys as [|k keys IH]; intros pubs; cbn [decode_keys].
  - intros [= <-]. split; [by intros ?%not_elem_of_nil|by intros (k & ?%not_elem_of_nil & _)].
  - destruct (DecodePublicKey k) as [pub|e] eqn:Hk; cbn [result_bind]; [|done].
    destruct (decode_keys keys) as [ps|e] eqn:Hks; cbn [result_bind]; [|done]. intros [= <-].
    rewrite elem_of_cons, (IH ps eq_refl). split.
    + intros [->|(k' & Hin & Hd)]; [exists k|exists k']; rewrite elem_of_cons; auto.
    + intros (k' & [->|Hin]%elem_of_cons & Hd); [left; congruence|right; eauto].
Qed.

(** The valid configurations. *)
Record bc_valid (c : BcConfig) : Prop := {
  bv_url : bc_IsPlaceholder (bs_URL (bc_Server c)) = true
           \/ HasPrefix (bs_URL (bc_Server c)) "http://" = true
           \/ HasPrefix (bs_URL (bc_Server c)) "https://" = true;
  bv_listen : bb_ListenAddr (bc_Beacon c) <> EmptyString;
  bv_keys : bb_KeysDir (bc_Beacon c) <> EmptyString;
  bv_rpc : br_RPCURL (bc_RPC c) <> EmptyString;
  bv_meta : bm_ConfigPath (bc_Metadata c) = EmptyString \/ bm_ConfigGetCmd (bc_Metadata c) = EmptyString;
  bv_allow : exists pubs, decode_keys (bb_AuthorizedKeys (bc_Beacon c)) = Ok pubs
}.

Lemma bc_validate_valid c : bc_validate c = Ok tt <-> bc_valid c.
Proof.
  unfold bc_validate.
  destruct (is_empty (bs_URL (bc_Server c))) eqn:E1.
  { split; [done|]. intros [Hu _ _ _ _ _]. apply is_empty_spec in E1. rewrite E1 in Hu. by destruct Hu as [|[|]]. }
  destruct (bc_IsPlaceholder (bs_URL (bc_Server c))) eqn:E2,
    (HasPrefix (bs_URL (bc_Server c)) "http://") eqn:E3,
    (HasPrefix (bs_URL (bc_Server c)) "https://") eqn:E4; cbn [negb andb].
  8: { split; [done|]. intros [Hu _ _ _ _ _]. rewrite E2, E3, E4 in Hu. by destruct Hu as [|[|]]. }
  all: destruct (is_empty (bb_ListenAddr _)) eqn:E5;
    [split; [done|]; intros [_ H _ _ _ _]; by apply is_empty_spec in E5|];
    destruct (is_empty (bb_KeysDir _)) eqn:E6;
    [split; [done|]; intros [_ _ H _ _ _]; by apply is_empty_spec in E6|];
    destruct (is_empty (br_RPCURL _)) eqn:E7;
    [split; [done|]; intros [_ _ _ H _ _]; by apply is_empty_spec in E7|];
    apply is_empty_false in E5, E6, E7;
    destruct (is_empty (bm_ConfigPath _)) eqn:E8, (is_empty (bm_ConfigGetCmd _)) eqn:E9; cbn [negb andb];
    repeat match goal with
    | H : is_empty _ = true |- _ => apply is_empty_spec in H
    | H : is_empty _ = false |- _ => apply is_empty_false in H
    end;
    try (split; [done|]; intros [_ _ _ _ [H|H] _]; done);
    (rewrite validate_authorized_ok; split; [intros Hk; constructor; auto|by intros [_ _ _ _ _ H]]).
Qed.

(** A configuration the beacon loads is the decoded one and valid, and its listener then
    has the allowlist it states: the only failure left is that of the key files, and the
    handshake authorises exactly the listed public keys, or every peer when none is
    listed. *)
Theorem bc_Load_NoiseConfig {E} (Unmarshal : bytes -> result BcConfig E) data cfg f :
  bc_Load Unmarshal data = Ok cfg ->
  bc_valid cfg
  /\ match bc_NoiseConfig f cfg with
     | Ok n =>
         LoadKeypair f (bb_KeysDir (bc_Beacon cfg)) = Ok (Static n)
         /\ forall peer, authorizePeer n peer = Ok tt
              <-> bb_AuthorizedKeys (bc_Beacon cfg) = []
                  \/ exists k, k ∈ bb_AuthorizedKeys (bc_Beacon cfg) /\ DecodePublicKey k = Ok peer
     | Err e => exists e', e = ErrBcLoadKeypair e' /\ LoadKeypair f (bb_KeysDir (bc_Beacon cfg)) = Err e'
     end.
Proof.
  unfold bc_Load. destruct data as [b|]; [|done].
  intros (c & Hc%map_err_ok & ([] & Hv%map_err_ok & [= <-])%result_bind_ok)%result_bind_ok.
  apply bc_validate_valid in Hv. split; [exact Hv|]. destruct (bv_allow _ Hv) as [pubs Hp].
  unfold bc_NoiseConfig. destruct (LoadKeypair f _) as [kp|e]; cbn [map_err result_bind]; [|by exists e].
  destruct (bb_AuthorizedKeys (bc_Beacon c)) as [|k ks] eqn:Hks.
  - split; [done|]. intros peer. rewrite authorizePeer_ok. cbn. naive_solver.
  - rewrite Hp. cbn [map_err result_bind]. split; [done|]. intros peer. rewrite authorizePeer_ok.
    change (authorized (mkConfig kp (Some pubs))) with pubs.
    rewrite <- (decode_keys_elem _ _ peer Hp). split; [|naive_solver].
    intros [->|H]; [|by right]. cbn [decode_keys] in Hp. apply result_bind_ok in Hp as (p & _ & Hp).
    apply result_bind_ok in Hp as (ps & _ & Hp). discriminate Hp.
Qed.

Definition sample_bc : BcConfig :=
  mkBcConfig (mkBcServer "https://watchtower.example") (mkBcBeacon ":8080" "keys" [hex_encode (repeat "k"%char 32)] 0)
    (mkBcRPC "http://localhost:26657") (mkBcMetadata EmptyString EmptyString 0).

Lemma bc_Load_NoiseConfig_witness :
  exists n, bc_NoiseConfig noise_files sample_bc = Ok n
  /\ authorizePeer n (repeat "k"%char 32) = Ok tt
  /\ ~ authorizePeer n (repeat "x"%char 32) = Ok tt.
Proof.
  pose proof (bc_Load_NoiseConfig (E := unit) (fun _ => Ok sample_bc) (Some []) sample_bc noise_files
    ltac:(vm_compute; reflexivity)) as [_ H].
  destruct (bc_NoiseConfig noise_files sample_bc) as [n|e] eqn:E.
  - exists n. split; [reflexivity|]. destruct H as [_ H]. split.
    + apply H. right. eexists. split; [apply list_elem_of_here|vm_compute; reflexivity].
    + intros Hx. apply H in Hx as [Hx|(k & Hin & Hk)]; [discriminate Hx|].
      apply list_elem_of_singleton in Hin as ->. vm_compute in Hk. discriminate Hk.
  - vm_compute in E. discriminate E.
Defined.
