(* ===== verification/Augment.v ===== *)
(** * internal/beacon/augment

    What the beacon adds to a sentinel's /rpc payload. The three fetches run at the same
    time and write variables of their own, so that only their results matter: the answers
    to the two requests and the world the configuration is read from are arguments of a
    call, whatever the interleaving and the deadline made of them. Clock readings are
    arguments too. *)

From Stdlib Require Import Ascii.
From S2P Require Import Prelude GoStrings GoTime GoJson SentinelConfig BeaconConfig VmLines RpcCollector Metadata.

Local Open Scope Z_scope.

Definition augmentDeadline : Duration := 2 * Second.
Definition aug_defaultForceInterval : Duration := 12 * Hour.

Record Augmenter := mkAugmenter {
  aug_metaCfg : BcMetadata;
  aug_metaKeys : list string;
  aug_forceInterval : Duration;
  lastAugmentAt : Time
}.

(** A nil key list is [None]. *)
Definition aug_New (cfg : BcConfig) (metadataKeys : option (list string)) (now : Time) : Augmenter :=
  let fi := bm_ForceInterval (bc_Metadata cfg) in
  mkAugmenter (bc_Metadata cfg) (default ConfigKeys metadataKeys)
    (if fi <=? 0 then aug_defaultForceInterval else fi) now.

(** Nothing (forward the original), an error, a run-time panic, or the new body. *)
Inductive aug_result := AugPass | AugErr | AugPanic | AugBody (b : bytes).

(** A JSON object or null, as a map that may be nil. *)
Definition decode_object (b : bytes) : option (option (gmap string RawMessage)) := Unmarshal b.

(** Reading a nil map finds nothing. *)
Definition map_get (m : option (gmap string RawMessage)) (k : string) : option RawMessage :=
  m ≫= fun m => m !! k.

(** Injection of one key: writing to a nil map panics. *)
Definition put (k : string) (raw : option RawMessage) (m : option (gmap string RawMessage))
    : result (option (gmap string RawMessage)) unit :=
  match raw, m with
  | None, _ => Ok m
  | Some _, None => Err tt
  | Some raw, Some m => Ok (Some (<[k := raw]> m))
  end.

(** What a fetch contributes: an answer that is not empty. *)
Definition contribution (o : get_outcome) : option RawMessage :=
  match get_result o with
  | Ok raw => match raw_text raw with [] => None | _ => Some raw end
  | Err _ => None
  end.

Section Augment.
Context {W X : Type}.
Context (read_file : W -> string -> option bytes).
Context (toml_Unmarshal : bytes -> option (list (string * toml_value X))).
Context (show : toml_value X -> string).
Context (shell : W -> string -> W * option bytes).

(** [fetchConfig], started only when there is a file or a command to read from. *)
Definition fetchConfig (a : Augmenter) (w : W) : option RawMessage :=
  let m := aug_metaCfg a in
  if is_empty (bm_ConfigPath m) && is_empty (bm_ConfigGetCmd m) then None
  else
    let values := (read_keys read_file toml_Unmarshal show shell
                     (bm_ConfigPath m) (bm_ConfigGetCmd m) w (aug_metaKeys a)).2 in
    if bool_decide (values = ∅) then None else Some (mkRaw (encode_string_map values)).

(** [stale]: the reading of the clock is used only without a net_info key. *)
Definition wants_augment (a : Augmenter) (now : Time) (data : option (gmap string RawMessage)) : bool :=
  match map_get data "net_info" with
  | Some _ => true
  | None => aug_forceInterval a <=? Since now (lastAugmentAt a)
  end.

Definition count_some (l : list (option RawMessage)) : nat := length (omap id l).

Open Scope go_scope.

(** The three injections, in the order of the source. *)
Definition inject (status net conf : option RawMessage) (data : option (gmap string RawMessage))
    : result (option (gmap string RawMessage)) unit :=
  let? data := put "sentry_status" status data in
  let? data := put "sentry_net_info" net data in
  put "sentry_config" conf data.

Definition augmentRPC (a : Augmenter) (body : bytes) (now now' : Time) (o_status o_net : get_outcome) (w : W)
    : Augmenter * aug_result :=
  match decode_object body with
  | None => (a, AugErr)
  | Some payload =>
      match map_get payload "data" with
      | None => (a, AugPass)
      | Some dataRaw =>
          match decode_object (raw_text dataRaw) with
          | None => (a, AugErr)
          | Some data =>
              if negb (wants_augment a now data) then (a, AugPass)
              else
                let status := contribution o_status in
                let net := contribution o_net in
                let conf := fetchConfig a w in
                match inject status net conf data with
                | Err _ => (a, AugPanic)
                | Ok data =>
                    if Nat.eqb (count_some [status; net; conf]) 0 then (a, AugPass)
                    else
                      let a := mkAugmenter (aug_metaCfg a) (aug_metaKeys a) (aug_forceInterval a) now' in
                      match encode_raw_map (default ∅ data) with
                      | None => (a, AugErr)
                      | Some reencoded =>
                          match encode_raw_map (<["data" := mkRaw reencoded]> (default ∅ payload)) with
                          | None => (a, AugErr)
                          | Some b => (a, AugBody b)
                          end
                      end
                end
          end
      end
  end.

(** The hook: [None] forwards the original; a panic goes through. *)
Definition Transform (a : Augmenter) (path : string) (body : bytes) (now now' : Time)
    (o_status o_net : get_outcome) (w : W) : Augmenter * result (option bytes) unit :=
  if negb (bool_decide (path = "/rpc")) then (a, Ok None)
  else
    let '(a, r) := augmentRPC a body now now' o_status o_net w in
    (a, match r with
        | AugPass | AugErr => Ok None
        | AugPanic => Err tt
        | AugBody b => Ok (Some b)
        end).

(** ** Facts *)

(** The augmented data: each contribution under its key, everything else as it was. *)
Definition augmented (status net conf : option RawMessage) (data data' : gmap string RawMessage) : Prop :=
  forall k,
    data' !! k =
      if decide (k = "sentry_status") then match status with Some r => Some r | None => data !! k end
      else if decide (k = "sentry_net_info") then match net with Some r => Some r | None => data !! k end
      else if decide (k = "sentry_config") then match conf with Some r => Some r | None => data !! k end
      else data !! k.

Lemma put_some k raw m m' :
  put k raw (Some m) = Ok m' -> m' = Some (match raw with Some r => <[k := r]> m | None => m end).
Proof. destruct raw; naive_solver. Qed.

Lemma inject_augmented status net conf data data' :
  inject status net conf (Some data) = Ok data' -> exists d, data' = Some d /\ augmented status net conf data d.
Proof.
  unfold inject. intros (d1 & ->%put_some & (d2 & ->%put_some & ->%put_some)%result_bind_ok)%result_bind_ok.
  eexists. split; [reflexivity|]. intros k.
  repeat case_decide; subst; destruct status, net, conf; by simplify_map_eq.
Qed.

Lemma inject_none status net conf data' :
  inject status net conf None = Ok data' -> count_some [status; net; conf] = 0%nat.
Proof. unfold inject, put. destruct status, net, conf; cbn; naive_solver. Qed.

Lemma inject_nothing data : inject None None None data = Ok data.
Proof. done. Qed.

Lemma count_some_zero s n c : count_some [s; n; c] = 0%nat -> s = None /\ n = None /\ c = None.
Proof. unfold count_some. destruct s, n, c; cbn; naive_solver. Qed.

(** The augmenter fails open and touches only what it may. A request for another path, or
    a tick for which all three fetches failed, is forwarded as it came and leaves the
    augmenter alone. When a body is rewritten, it was an object with a data object, the
    tick carried net_info or the force interval had run out, and the new body is the same
    object but for data, which has each of the three sentry keys as fetched exactly when
    that fetch succeeded, independently of the other two, and every other key as it was. *)
Theorem Transform_fail_open a path body now now' o_status o_net w :
  (path <> "/rpc" \/ count_some [contribution o_status; contribution o_net; fetchConfig a w] = 0%nat ->
   Transform a path body now now' o_status o_net w = (a, Ok None))
  /\ forall a' r, Transform a path body now now' o_status o_net w = (a', Ok (Some r)) ->
     path = "/rpc"
     /\ exists payload dataRaw data data' reencoded,
          decode_object body = Some (Some payload) /\ payload !! "data" = Some dataRaw
          /\ decode_object (raw_text dataRaw) = Some (Some data)
          /\ wants_augment a now (Some data) = true
          /\ augmented (contribution o_status) (contribution o_net) (fetchConfig a w) data data'
          /\ encode_raw_map data' = Some reencoded
          /\ encode_raw_map (<["data" := mkRaw reencoded]> payload) = Some r
          /\ lastAugmentAt a' = now'.
Proof.
  unfold Transform, augmentRPC. split.
  - intros H. destruct (bool_decide (path = "/rpc")) eqn:Hp; [|done]. zbool.
    destruct H as [H|H]; [done|]. cbn [negb]. rewrite H. apply count_some_zero in H as (-> & -> & ->).
    repeat case_match; simplify_eq/=; try done;
      match goal with Hi : inject None None None _ = Err _ |- _ => discriminate Hi end.
  - intros a' r. destruct (bool_decide (path = "/rpc")) eqn:Hp; [|done]. zbool. cbn [negb].
    destruct (decode_object body) as [payload|] eqn:Hb; [|done].
    destruct (map_get payload "data") as [dataRaw|] eqn:Hd; [|done].
    destruct payload as [payload|]; [|done].
    destruct (decode_object (raw_text dataRaw)) as [data|] eqn:Hdd; [|done].
    destruct (wants_augment a now data) eqn:Hwa; cbn [negb]; [|done].
    destruct (inject _ _ _ data) as [data1|] eqn:Hi; [|done].
    destruct (Nat.eqb_spec (count_some [contribution o_status; contribution o_net; fetchConfig a w]) 0) as [Hc|Hc]; [done|].
    destruct data as [data|]; [|by apply inject_none in Hi].
    destruct (inject_augmented _ _ _ _ _ Hi) as (data' & -> & Haug).
    assert (forall m : gmap string RawMessage, default ∅ (Some m) = m) as Hdef by done. rewrite !Hdef.
    destruct (encode_raw_map data') as [re|] eqn:He1; [|done].
    destruct (encode_raw_map (<["data" := mkRaw re]> payload)) as [b|] eqn:He2; [|done].
    intros [= <- <-]. split; [done|]. exists payload, dataRaw, data, data', re. by repeat split.
Qed.

(** A payload whose data is null makes the hook panic once the force interval has run out:
    the decoded map is nil, and injecting writes to it. (The server recovers.) *)
Theorem Transform_null_data_panics a body now now' o_status o_net w dataRaw :
  map_get (default None (decode_object body)) "data" = Some dataRaw ->
  decode_object (raw_text dataRaw) = Some None ->
  aug_forceInterval a <= Since now (lastAugmentAt a) ->
  is_Some (contribution o_status) ->
  Transform a "/rpc" body now now' o_status o_net w = (a, Err tt).
Proof.
  intros Hd Hn Hs [raw Hc]. unfold Transform, augmentRPC. cbn [bool_decide negb].
  destruct (decode_object body) as [payload|]; [|done].
  change (default None (Some payload)) with payload in Hd. rewrite Hd, Hn.
  unfold wants_augment. cbn [map_get mbind option_bind]. apply Z.leb_le in Hs. rewrite Hs, Hc. done.
Qed.
End Augment.

(** ** Evaluations *)

Definition sample_augmenter : Augmenter := aug_New sample_bc None 0.
Definition no_file (_ : unit) (_ : string) : option bytes := None.
Definition aug_body : bytes := jq "{'collected_at':'2026-04-01T00:00:00Z','data':{'net_info':{'n_peers':'3'}}}".
Definition aug_status : get_outcome := GetAnswered 200 (jq "{'result':{'node_info':{}}}").

Definition sample_transform body o_net :=
  Transform no_file (fun _ => None : option (list (string * toml_value unit))) (fun _ => "?") sample_shell
    sample_augmenter "/rpc" body Second (2 * Second) aug_status o_net tt.

Example sample_transform_body :
  (sample_transform aug_body GetFailed).2
  = Ok (Some (jq "{'collected_at':'2026-04-01T00:00:00Z','data':{'net_info':{'n_peers':'3'},'sentry_status':{'node_info':{}}}}")).
Proof. vm_compute. reflexivity. Qed.

Lemma Transform_fail_open_witness :
  exists data data', augmented (contribution aug_status) None None data data'
    /\ data' !! "sentry_status" = Some (mkRaw (jq "{'node_info':{}}")) /\ data' !! "net_info" = data !! "net_info".
Proof.
  destruct (sample_transform aug_body GetFailed) as [a' r] eqn:E.
  assert (exists b, r = Ok (Some b)) as [b ->] by (vm_compute in E; injection E as _ <-; eexists; reflexivity).
  destruct (proj2 (Transform_fail_open no_file (fun _ => None : option (list (string * toml_value unit))) (fun _ => "?")
    sample_shell sample_augmenter "/rpc" aug_body Second (2 * Second) aug_status GetFailed tt) a' b E)
    as (_ & payload & dataRaw & data & data' & re & _ & _ & _ & _ & Haug & _).
  exists data, data'. split; [exact Haug|]. split; rewrite Haug; vm_compute; reflexivity.
Defined.
