(* ===== verification/BeaconServer.v ===== *)
(** * internal/beacon/server

    The reverse proxy behind the beacon's Noise listener: one request. The upstream acts on
    a world [W], the hook on a state [A] of its own. [url.Parse] is an argument of the
    start-up. Headers are ranged over in the order [range]. *)

From Stdlib Require Import Ascii.
From S2P Require Import Prelude GoStrings GoTime GoHttp GoUrl NoiseConfig Logger.

Local Open Scope Z_scope.

(** [50 << 20]. *)
Definition maxBeaconBodyBytes : Z := 52428800.

Inductive server_new_error (E : Type) := ErrUpstreamRequired | ErrParseUpstream (e : E) | ErrUpstreamScheme (s : string).
Arguments ErrUpstreamRequired {E}.
Arguments ErrParseUpstream {E} e.
Arguments ErrUpstreamScheme {E} s.

(** [New]: what it checks and keeps of the upstream. *)
Definition bserver_New {E} (url_Parse : string -> result URL E) (upstreamURL : string)
    : result URL (server_new_error E) :=
  if bool_decide (upstreamURL = EmptyString) then Err ErrUpstreamRequired
  else match url_Parse upstreamURL with
       | Err e => Err (ErrParseUpstream e)
       | Ok u =>
           if negb (bool_decide (u_Scheme u = "http")) && negb (bool_decide (u_Scheme u = "https"))
           then Err (ErrUpstreamScheme (u_Scheme u)) else Ok u
       end.

(** The errors [errors.Is] looks for, anywhere in the chain. *)
Inductive reject_cause := CauseEOF | CauseUnexpectedEOF | CauseOther.
Definition rejectLogLevel (causes : list reject_cause) : slog_level :=
  if existsb (fun c => match c with CauseEOF | CauseUnexpectedEOF => true | CauseOther => false end) causes
  then LevelDebug else LevelWarn.

(** ** Headers and paths *)

Definition hopByHop : list string :=
  ["Connection"; "Keep-Alive"; "Proxy-Authenticate"; "Proxy-Authorization"; "Te"; "Trailer";
   "Transfer-Encoding"; "Upgrade"].

(** One key of the source; keys are in canonical form already. *)
Definition copy_header (dst : Header) (p : string * list string) : Header :=
  if bool_decide (p.1 ∈ hopByHop) then dst
  else fold_left (fun h v => Header_Add h p.1 v) p.2 dst.

Definition copyHeaders (range : Header -> list (string * list string)) (dst src : Header) : Header :=
  fold_left copy_header (range src) dst.

Definition singleJoin (a b : string) : string :=
  if HasSuffix a "/" && HasPrefix b "/" then a +:+ TrimPrefix b "/"
  else if HasSuffix a "/" || HasPrefix b "/" then a +:+ b
  else a +:+ "/" +:+ b.

(** ** One request *)

Record up_request := mkUpRequest { up_Method : string; up_URL : string; up_Header : Header; up_Body : bytes }.

Inductive up_outcome := UpBuildFailed | UpFailed | UpAnswered (resp : Response).

Section Proxy.
Context {W A : Type}.
Context (net : W -> up_request -> W * up_outcome).
Context (range : Header -> list (string * list string)).
Context (upstream : URL).
(** The hook: a run-time panic is [Err tt]. *)
Context (transform : option (A -> string -> bytes -> A * result (option bytes) unit)).

(** [io.ReadAll] of the body behind [http.MaxBytesReader]. *)
Definition proxy_body (r : Request) : option bytes :=
  match ReqBody r with
  | Ok b => if maxBeaconBodyBytes <? Z.of_nat (length b) then None else Some b
  | Err _ => None
  end.

Definition safeTransform (fn : A -> string -> bytes -> A * result (option bytes) unit) (a : A)
    (path : string) (body : bytes) : A * option bytes :=
  let '(a, r) := fn a path body in
  (a, match r with Ok out => out | Err _ => None end).

Definition transformed (a : A) (path : string) (body : bytes) : A * bytes :=
  match transform with
  | None => (a, body)
  | Some fn => let '(a, out) := safeTransform fn a path body in (a, default body out)
  end.

(** A copy of the upstream's URL with its path and query replaced. *)
Definition upstream_url (r : Request) (rawQuery : string) : string :=
  let u := upstream in
  url_String (mkURL (u_Scheme u) (u_Opaque u) (u_User u) (u_Host u) (singleJoin (u_Path u) (URL_Path r)) (u_RawPath u)
    (u_OmitHost u) (u_ForceQuery u) rawQuery (u_Fragment u) (u_RawFragment u)).

Definition proxy_handle (w : W) (a : A) (r : Request) (rawQuery : string) : W * A * Response :=
  match proxy_body r with
  | None => (w, a, http_Error ∅ "read body" StatusBadRequest)
  | Some body =>
      let '(a, body) := transformed a (URL_Path r) body in
      let req := mkUpRequest (Method r) (upstream_url r rawQuery) (copyHeaders range ∅ (ReqHeader r)) body in
      let '(w, o) := net w req in
      match o with
      | UpBuildFailed => (w, a, http_Error ∅ "upstream" StatusInternalServerError)
      | UpFailed => (w, a, http_Error ∅ "upstream unreachable" StatusBadGateway)
      | UpAnswered resp =>
          (w, a, mkResponse (StatusCode resp) (copyHeaders range ∅ (RespHeader resp)) (RespBody resp))
      end
  end.
End Proxy.

(** ** Facts *)

Lemma Header_Add_lookup h k v k' :
  Header_Add h k v !! k' = if decide (k' = k) then Some (default [] (h !! k) ++ [v]) else h !! k'.
Proof.
  unfold Header_Add. case_decide; subst; [apply lookup_insert_eq|by rewrite lookup_insert_ne].
Qed.

Lemma add_all_lookup k vs h k' :
  fold_left (fun h v => Header_Add h k v) vs h !! k'
  = if decide (k' = k /\ vs <> []) then Some (default [] (h !! k) ++ vs) else h !! k'.
Proof.
  revert h. induction vs as [|v vs IH]; intros h; cbn [fold_left].
  - rewrite decide_False by naive_solver. done.
  - rewrite IH, (Header_Add_lookup h k v k), (decide_True (P := k = k)), Header_Add_lookup by done.
    change (default [] (Some (default [] (h !! k) ++ [v]))) with (default [] (h !! k) ++ [v]).
    destruct (decide (k' = k)) as [->|Hne].
    + rewrite (decide_True (P := k = k /\ v :: vs <> [])) by done.
      case_decide as Hd; [by rewrite <- (assoc_L (++))|]. destruct vs; [done|]. exfalso. by apply Hd.
    + by rewrite !decide_False by naive_solver.
Qed.

(** The header without the hop-by-hop fields; a field without values is not there. *)
Definition end_to_end (src dst : Header) : Prop :=
  forall k, dst !! k = if decide (k ∈ hopByHop) then None
                       else match src !! k with Some (v :: vs) => Some (v :: vs) | _ => None end.

Lemma copy_fold_absent l dst k :
  k ∉ l.*1 \/ k ∈ hopByHop -> fold_left copy_header l dst !! k = dst !! k.
Proof.
  revert dst. induction l as [|[k0 vs] l IH]; intros dst Hk; [done|]. cbn [fold_left]. rewrite IH by (cbn in Hk; set_solver).
  unfold copy_header. cbn [fst snd]. case_bool_decide as Hh; [done|].
  rewrite add_all_lookup, decide_False; [done|]. intros [-> _]. destruct Hk as [Hk|Hk]; [|done].
  apply Hk. left.
Qed.

Lemma copy_fold_present l dst k vs :
  NoDup l.*1 -> (k, vs) ∈ l -> k ∉ hopByHop -> dst !! k = None ->
  fold_left copy_header l dst !! k = match vs with [] => None | _ => Some vs end.
Proof.
  revert dst. induction l as [|[k0 vs0] l IH]; intros dst Hnd Hin Hh Hdst; [by apply not_elem_of_nil in Hin|].
  cbn [fmap list_fmap fst] in Hnd. apply list.NoDup_cons in Hnd as [Hk0 Hnd]. cbn [fold_left].
  apply elem_of_cons in Hin as [[= <- <-]|Hin].
  - rewrite copy_fold_absent by auto. unfold copy_header. cbn [fst snd].
    rewrite bool_decide_eq_false_2 by done. rewrite add_all_lookup, Hdst. cbn [from_option app].
    destruct vs; [by rewrite decide_False by naive_solver|by rewrite decide_True by done].
  - apply IH; [done|done|done|]. unfold copy_header. cbn [fst snd]. case_bool_decide; [done|].
    rewrite add_all_lookup, decide_False; [done|]. intros [-> _]. apply Hk0, (list_elem_of_fmap_2 fst _ _ Hin).
Qed.

Lemma copyHeaders_end_to_end range src :
  map_range src (range src) -> end_to_end src (copyHeaders range ∅ src).
Proof.
  intros Hr k. unfold copyHeaders. case_decide as Hh.
  - rewrite copy_fold_absent by auto. apply lookup_empty.
  - destruct (src !! k) as [vs|] eqn:Hk.
    + rewrite (copy_fold_present _ _ k vs); [by destruct vs|by eapply map_range_nodup| |done|apply lookup_empty].
      by apply (map_range_elem _ _ _ _ Hr).
    + rewrite copy_fold_absent; [apply lookup_empty|]. left. intros ([k' vs] & -> & Hin)%list_elem_of_fmap.
      apply (map_range_elem _ _ _ _ Hr) in Hin. cbn in Hk. congruence.
Qed.

(** An upstream that also keeps the requests it was given. *)
Definition up_logged {W} (net : W -> up_request -> W * up_outcome) (w : W * list up_request) (r : up_request)
    : W * list up_request * up_outcome :=
  let '(w', o) := net w.1 r in ((w', w.2 ++ [r]), o).

(** What the hook makes of a body: a rewritten one, or the original. *)
Definition hook_body {A} (transform : option (A -> string -> bytes -> A * result (option bytes) unit))
    (a : A) (path : string) (body : bytes) : bytes :=
  match transform with
  | None => body
  | Some fn => match (fn a path body).2 with Ok (Some b) => b | _ => body end
  end.

(** ** Paths *)

(** At the boundary of a joined path there is one slash, whichever side brought it. *)
Lemma singleJoin_one_slash a b :
  singleJoin (a +:+ "/") ("/" +:+ b) = a +:+ "/" +:+ b
  /\ (HasPrefix b "/" = false -> singleJoin (a +:+ "/") b = a +:+ "/" +:+ b)
  /\ (HasSuffix a "/" = false -> singleJoin a ("/" +:+ b) = a +:+ "/" +:+ b)
  /\ (HasSuffix a "/" = false -> HasPrefix b "/" = false -> singleJoin a b = a +:+ "/" +:+ b).
Proof.
  assert (HasSuffix (a +:+ "/") "/" = true) as Hs by (apply HasSuffix_spec; by exists a).
  assert (HasPrefix ("/" +:+ b) "/" = true) as Hp by (apply HasPrefix_spec; by exists b).
  unfold singleJoin. rewrite Hs, Hp. split_and!.
  - cbn [andb]. unfold TrimPrefix, CutPrefix. rewrite strip_prefix_app. cbn [fst]. by rewrite <- string_app_assoc.
  - intros ->. cbn [andb orb]. by rewrite <- string_app_assoc.
  - intros ->. done.
  - intros -> ->. done.
Qed.

(** The path [b] below [a]: the two with one slash between them. *)
Definition below (a b : string) : string := TrimSuffix a "/" +:+ "/" +:+ TrimPrefix b "/".

Lemma singleJoin_below a b : singleJoin a b = below a b.
Proof.
  unfold singleJoin, below, HasSuffix, HasPrefix, TrimSuffix, TrimPrefix, CutPrefix.
  destruct (strip_suffix "/" a) as [x|] eqn:Ea, (strip_prefix "/" b) as [y|] eqn:Eb; cbn [andb orb default fst]; try done.
  - apply strip_suffix_Some in Ea as ->. by rewrite <- string_app_assoc.
  - apply strip_suffix_Some in Ea as ->. by rewrite <- string_app_assoc.
  - by apply strip_prefix_Some in Eb as ->.
Qed.

Lemma below_rooted a b : rooted a -> HasPrefix (below a b) "/" = true.
Proof.
  intros Ha. apply HasPrefix_spec. unfold below, TrimSuffix.
  destruct (strip_suffix "/" a) as [r|] eqn:E; cbn [default].
  - apply strip_suffix_Some in E as ->. destruct Ha as [Ha|[p Hp]%HasPrefix_spec]; [by destruct r|].
    destruct r as [|c r]; [by eexists|]. injection Hp as -> Hp. by eexists.
  - destruct Ha as [->|[p ->]%HasPrefix_spec]; by eexists.
Qed.

(** ** One request *)

(** The answer of the proxy to what the upstream made of its request. *)
Definition relays (o : up_outcome) (resp : Response) : Prop :=
  match o with
  | UpAnswered up =>
      StatusCode resp = StatusCode up /\ RespBody resp = RespBody up /\ end_to_end (RespHeader up) (RespHeader resp)
  | UpFailed => StatusCode resp = StatusBadGateway
  | UpBuildFailed => StatusCode resp = StatusInternalServerError
  end.

(** The upstream request for [r] with the body [body]: method, end-to-end headers, and a URL
    at which the upstream reads the path of [r] below its own and the query of [r], a number
    sign in which would start a fragment. *)
Record passes_on (upstream : URL) (r : Request) (q : string) (body : bytes) (u : up_request) : Prop := mkPassesOn {
  po_method : up_Method u = Method r;
  po_target : absolute upstream -> rooted (u_Path upstream) -> server_reads (up_URL u) = Some (below (u_Path upstream) (URL_Path r), (cut "#" q).1);
  po_header : end_to_end (ReqHeader r) (up_Header u);
  po_body : up_Body u = body
}.

Section Transparent.
Context {W A : Type}.
Context (net : W -> up_request -> W * up_outcome).
Context (range : Header -> list (string * list string)).
Context (upstream : URL).
Context (transform : option (A -> string -> bytes -> A * result (option bytes) unit)).
Hypothesis range_ok : forall h : Header, map_range h (range h).

Lemma upstream_url_read r q :
  absolute upstream -> rooted (u_Path upstream) -> server_reads (upstream_url upstream r q) = Some (below (u_Path upstream) (URL_Path r), (cut "#" q).1).
Proof.
  intros [] Hp. unfold upstream_url.
  rewrite server_reads_String; cbn [u_Path u_RawQuery]; rewrite ?singleJoin_below; [done|by constructor|by apply below_rooted].
Qed.

Lemma transformed_hook_body a path body : (transformed transform a path body).2 = hook_body transform a path body.
Proof.
  unfold transformed, safeTransform, hook_body. destruct transform as [fn|]; [|done].
  by destruct (fn a path body) as [a1 [[b|]|]].
Qed.

Lemma proxy_handle_spec w a r q w' sent a' resp :
  proxy_handle (up_logged net) range upstream transform (w, []) a r q = ((w', sent), a', resp) ->
  match proxy_body r with
  | None => w' = w /\ sent = [] /\ StatusCode resp = StatusBadRequest
  | Some body =>
      exists u, passes_on upstream r q (hook_body transform a (URL_Path r) body) u
        /\ sent = [u] /\ w' = (net w u).1 /\ relays (net w u).2 resp
  end.
Proof.
  unfold proxy_handle. destruct (proxy_body r) as [body|]; [|by intros [= <- <- _ <-]].
  pose proof (transformed_hook_body a (URL_Path r) body) as Hb.
  destruct (transformed transform a (URL_Path r) body) as [a1 b1]. cbn in Hb. subst b1.
  set (u := mkUpRequest _ _ _ _). unfold up_logged. cbn [fst snd app]. destruct (net w u) as [w1 o] eqn:Hn.
  intros H. exists u. rewrite Hn. split.
  { constructor; [done|apply upstream_url_read|apply copyHeaders_end_to_end, range_ok|done]. }
  destruct o; injection H as <- <- _ <-; split_and!; try done. split_and!; [done..|]. apply copyHeaders_end_to_end, range_ok.
Qed.

(** C39: The beacon is transparent. A request whose body can be read within 50 MiB is sent
    upstream exactly once, whatever the hook does (a panic included): with its method, the
    body the hook returned or else the original one, exactly its end-to-end headers (the
    bearer token unchanged among them), and to a URL at which the upstream, if it was
    configured with an absolute URL, reads the request's path below that of this URL and the
    request's query. What the
    upstream answers to that request is what the sentinel gets: its status, its body and
    its end-to-end headers, or an error of the beacon's own when there is no answer. Any
    other request reaches nothing. *)
Theorem proxy_transparent w a r q w' sent a' resp :
  proxy_handle (up_logged net) range upstream transform (w, []) a r q = ((w', sent), a', resp) ->
  match proxy_body r with
  | None => w' = w /\ sent = [] /\ StatusCode resp = StatusBadRequest
  | Some body =>
      exists u, sent = [u]
        /\ up_Method u = Method r
        /\ up_Body u = hook_body transform a (URL_Path r) body
        /\ end_to_end (ReqHeader r) (up_Header u)
        /\ (absolute upstream -> rooted (u_Path upstream) -> server_reads (up_URL u) = Some (below (u_Path upstream) (URL_Path r), (cut "#" q).1))
        /\ w' = (net w u).1 /\ relays (net w u).2 resp
  end.
Proof.
  intros H%proxy_handle_spec. destruct (proxy_body r) as [body|]; [|done].
  destruct H as (u & [] & H). exists u. by destruct H as (-> & H).
Qed.
End Transparent.

(** ** Evaluations *)

(** [https://watchtower.example/api/], parsed. *)
Definition sample_upstream : URL :=
  mkURL "https" EmptyString None "watchtower.example" "/api/" EmptyString false false EmptyString EmptyString EmptyString.

Lemma sample_upstream_absolute : absolute sample_upstream /\ rooted (u_Path sample_upstream).
Proof. split; [constructor; [by right|done|done|by left]|by right]. Qed.

Definition teapot (w : Z) (r : up_request) : Z * up_outcome :=
  (w, UpAnswered (mkResponse 418 {["Upgrade" := ["x"]; "X-Id" := ["7"]]} "short and stout")).
Definition panicking (w : Z) (path : string) (body : bytes) : Z * result (option bytes) unit := (w, Err tt).

Definition sample_proxied : Request :=
  mkRequest "POST" "/rpc v1" "/rpc%20v1?x=1" {["Authorization" := ["Bearer t"]; "Connection" := ["close"]]} "10.0.0.7:1"
    (Ok (bytes_of_string "{}")).

Definition sample_handled :=
  proxy_handle (up_logged teapot) map_to_list sample_upstream (Some panicking) (0, []) 0 sample_proxied "x=1".

Example sample_handled_url : map up_URL sample_handled.1.1.2 = ["https://watchtower.example/api/rpc%20v1?x=1"].
Proof. vm_compute. reflexivity. Qed.

Lemma proxy_transparent_witness :
  exists u, sample_handled.1.1.2 = [u] /\ up_Method u = "POST" /\ up_Body u = bytes_of_string "{}"
    /\ server_reads (up_URL u) = Some ("/api/rpc v1", "x=1")
    /\ up_Header u !! "Authorization" = Some ["Bearer t"] /\ up_Header u !! "Connection" = None
    /\ StatusCode sample_handled.2 = 418 /\ RespBody sample_handled.2 = "short and stout"
    /\ RespHeader sample_handled.2 !! "Upgrade" = None.
Proof.
  destruct sample_handled as [[[w' sent] a'] resp] eqn:E.
  destruct (proxy_transparent teapot map_to_list sample_upstream (Some panicking) (fun h => map_range_map_to_list h)
    0 0 sample_proxied "x=1" w' sent a' resp E)
    as (u & Hs & Hm & Hb & Hh & Hu & _ & Hst & Hbody & Hr).
  exists u. split; [exact Hs|]. split; [exact Hm|]. split; [exact Hb|]. split.
  { rewrite Hu; [vm_compute; reflexivity|apply sample_upstream_absolute..]. }
  rewrite !Hh. split; [vm_compute; reflexivity|]. split; [vm_compute; reflexivity|].
  split; [exact Hst|]. split; [exact Hbody|]. rewrite Hr. vm_compute. reflexivity.
Defined.
