(* ===== verification/Beacon.v ===== *)
(** * The beacon as a whole

    internal/beacon/app puts the listener, the augmenter and the proxy together: start-up,
    and the proxy with the augmenter as its hook. Two theorems place the beacon between a
    sentinel and the watchtower: what it passes on still carries the sentinel's request,
    and what it rewrites yields, at the watchtower, the samples of the sentinel's own data
    and of the sentry's. *)

From Stdlib Require Import Ascii.
From S2P Require Import Prelude GoStrings GoTime GoHttp GoUrl GoJson GoJsonText GoJsonEncode GoRfc3339 Protocol NoiseConfig NoiseListen Sender SentinelConfig VmLines Compacted RpcCollector Metadata LogsCollector BeaconConfig Augment BeaconServer Delivery.

Local Open Scope Z_scope.

(** ** Start-up (app/run.go, and [Run] of server.go up to [Serve]) *)

Inductive bapp_start (E : Type) :=
| BaKeysError (e : bc_noise_error)
| BaServerError (e : server_new_error E)
| BaListenError (e : listen_error E)
| BaServing (cfg : Config) (handshakeTimeout : Z) (upstream : URL) (hook : Augmenter).
Arguments BaKeysError {E} e.
Arguments BaServerError {E} e.
Arguments BaListenError {E} e.
Arguments BaServing {E} cfg handshakeTimeout upstream hook.

(** [bound]: what [net.Listen] returns. *)
Definition bapp_Run {E} (f : fs) (url_Parse : string -> result URL E) (bound : option E) (cfg : BcConfig) (now : Time)
    : bapp_start E :=
  match bc_NoiseConfig f cfg with
  | Err e => BaKeysError e
  | Ok noiseCfg =>
      let augmenter := aug_New cfg None now in
      match bserver_New url_Parse (bs_URL (bc_Server cfg)) with
      | Err e => BaServerError e
      | Ok upstream =>
          match NewListener noiseCfg (bb_HandshakeTimeout (bc_Beacon cfg)) bound with
          | Err e => BaListenError e
          | Ok t => BaServing noiseCfg t upstream augmenter
          end
      end
  end.

(** What one call of the hook reads: the clock twice, the sentry's two answers, and the
    files or the command behind the node's configuration. *)
Record aug_view (W : Type) := mkAugView { av_now : Time; av_now' : Time; av_status : get_outcome; av_net : get_outcome; av_world : W }.
Arguments mkAugView {W} av_now av_now' av_status av_net av_world.
Arguments av_now {W} a.
Arguments av_now' {W} a.
Arguments av_status {W} a.
Arguments av_net {W} a.
Arguments av_world {W} a.

Section Beacon.
Context {W X V : Type}.
Context (read_file : W -> string -> option bytes).
Context (toml_Unmarshal : bytes -> option (list (string * toml_value X))).
Context (show : toml_value X -> string).
Context (shell : W -> string -> W * option bytes).
(** The surroundings of the augmenter: each call sees the next view. *)
Context (look : V -> V * aug_view W).

(** [Transform: augmenter.Transform]. *)
Definition beacon_hook (a : Augmenter * V) (path : string) (body : bytes) : (Augmenter * V) * result (option bytes) unit :=
  let '(v, av) := look a.2 in
  let '(a', r) := Transform read_file toml_Unmarshal show shell a.1 path body (av_now av) (av_now' av) (av_status av) (av_net av) (av_world av) in
  ((a', v), r).
End Beacon.

(** ** Start-up succeeds *)

Lemma decode_keys_lengths keys pubs : decode_keys keys = Ok pubs -> Forall (fun k => length k = 32%nat) pubs.
Proof.
  revert pubs. induction keys as [|k keys IH]; intros pubs; cbn [decode_keys]; [by intros [= <-]|].
  intros (p & Hp & (ps & Hps & [= <-])%result_bind_ok)%result_bind_ok. constructor; [|by apply IH].
  unfold DecodePublicKey in Hp. destruct (hex_decode _) as [key|]; [|done].
  destruct (bool_decide (length key = 32%nat)) eqn:Hl; [|done]. injection Hp as <-. by apply bool_decide_eq_true_1 in Hl.
Qed.

Lemma loadHexFile_length f path n b : loadHexFile f path n = Ok b -> length b = n.
Proof.
  unfold loadHexFile. destruct (ReadFile f path); [|done]. destruct (hex_decode _) as [d|]; [|done].
  destruct (bool_decide (length d = n)) eqn:Hl; [|done]. intros [= <-]. by apply bool_decide_eq_true_1 in Hl.
Qed.

Lemma validate_keys_lengths i ks : Forall (fun k => length k = 32%nat) ks -> validate_keys i ks = Ok tt.
Proof.
  intros Hk. revert i. induction Hk as [|k ks Hl _ IH]; intros i; [done|]. cbn [validate_keys].
  rewrite bool_decide_eq_true_2 by done. apply IH.
Qed.

(** The configuration that the key files and a decoded allowlist give is one the listener
    accepts. *)
Lemma bc_NoiseConfig_valid f c n : bc_NoiseConfig f c = Ok n -> config_validate n = Ok tt.
Proof.
  unfold bc_NoiseConfig. intros (kp & Hkp%map_err_ok & H)%result_bind_ok.
  unfold LoadKeypair in Hkp. apply result_bind_ok in Hkp as (priv & H1%loadHexFile_length & Hkp).
  apply result_bind_ok in Hkp as (pub & H2%loadHexFile_length & [= <-]).
  assert (exists ks, n = mkConfig (mkKeypair priv pub) ks /\ validate_keys 0 (default [] ks) = Ok tt) as (ks & -> & Hk).
  { destruct (bb_AuthorizedKeys (bc_Beacon c)) as [|k l]; [injection H as <-; by exists None|].
    apply result_bind_ok in H as (pubs & Hp%map_err_ok & [= <-]). exists (Some pubs). split; [done|].
    by eapply validate_keys_lengths, decode_keys_lengths. }
  unfold config_validate. cbn [Static Private Public]. rewrite !bool_decide_eq_true_2 by done. exact Hk.
Qed.

(** A beacon that has loaded its configuration starts, unless its key files, the upstream's
    URL or the port are at fault: the listener never refuses the Noise configuration. *)
Theorem bapp_Run_starts {E} f (url_Parse : string -> result URL E) bound cfg now :
  bc_validate cfg = Ok tt ->
  match bapp_Run f url_Parse bound cfg now with
  | BaKeysError e => exists e', e = ErrBcLoadKeypair e' /\ LoadKeypair f (bb_KeysDir (bc_Beacon cfg)) = Err e'
  | BaServerError e => bserver_New url_Parse (bs_URL (bc_Server cfg)) = Err e
  | BaListenError e => exists e', bound = Some e' /\ e = ErrBind e'
  | BaServing n t u a =>
      Static n = default (Static n) (match LoadKeypair f (bb_KeysDir (bc_Beacon cfg)) with Ok kp => Some kp | Err _ => None end)
      /\ t <> 0 /\ bound = None /\ lastAugmentAt a = now
  end.
Proof.
  intros Hv%bc_validate_valid. unfold bapp_Run. destruct (bc_NoiseConfig f cfg) as [n|e] eqn:Hn.
  - destruct (bserver_New _ _) as [u|e]; [|done]. unfold NewListener. rewrite (bc_NoiseConfig_valid _ _ _ Hn).
    destruct bound as [e|]; [by exists e|].
    assert (LoadKeypair f (bb_KeysDir (bc_Beacon cfg)) = Ok (Static n)) as ->.
    { unfold bc_NoiseConfig in Hn. apply result_bind_ok in Hn as (kp & Hkp%map_err_ok & Hn). rewrite Hkp.
      destruct (bb_AuthorizedKeys (bc_Beacon cfg)); [by injection Hn as <-|].
      by apply result_bind_ok in Hn as (pubs & _ & [= <-]). }
    split_and!; [done| |done|done]. by destruct (Z.eqb_spec (bb_HandshakeTimeout (bc_Beacon cfg)) 0).
  - unfold bc_NoiseConfig in Hn. destruct (LoadKeypair f _) as [kp|e'] eqn:Hk; cbn [map_err result_bind] in Hn.
    + destruct (bv_allow _ Hv) as [pubs Hp]. destruct (bb_AuthorizedKeys (bc_Beacon cfg)); [done|].
      by rewrite Hp in Hn.
    + injection Hn as <-. by exists e'.
Qed.

(** ** What is passed on *)

(** A request that the upstream request [u] makes at the server: that server reads the path
    off the text of its URL. *)
Definition arrives (u : up_request) (r : Request) : Prop :=
  Method r = up_Method u /\ (exists q, server_reads (up_URL u) = Some (URL_Path r, q))
  /\ ReqHeader r = up_Header u /\ ReqBody r = Ok (up_Body u).

Lemma Header_Get_end_to_end src dst k : end_to_end src dst -> k ∉ hopByHop -> Header_Get dst k = Header_Get src k.
Proof.
  intros He Hk. unfold Header_Get. rewrite (He k), decide_False by done. by destruct (src !! k) as [[|v vs]|].
Qed.

(** What is passed on arrives as the request it was, below the path of the upstream. *)
Lemma passes_on_carries upstream path o r q body u r' :
  absolute upstream -> rooted (u_Path upstream) ->
  carries path o r -> passes_on upstream r q body u -> arrives u r' ->
  carries (below (u_Path upstream) path) (mkOutgoing (out_method o) (out_url o) (out_header o) body) r'.
Proof.
  intros Ha Hr (Hm & Hp & Hh & _) [Pm Pt Ph Pb] (Am & (q' & At) & Ah & Ab).
  rewrite (Pt Ha Hr), Hp in At. injection At as At _.
  split; [by rewrite Am, Pm|]. split; [done|]. split; [|by rewrite Ab, Pb]. cbn [out_header]. rewrite Ah, <- Hh.
  apply Header_Get_end_to_end; [done|].
  intros Hin. by repeat (apply elem_of_cons in Hin as [?|Hin]; [done|]); apply elem_of_nil in Hin.
Qed.

(** At the root a path stays what it is. *)
Lemma below_root a b : a = EmptyString \/ a = "/" -> below a (String "/" b) = String "/" b.
Proof. by intros [->| ->]. Qed.

Section Carries.
Context {W W' X V : Type}.
Context (net : W' -> up_request -> W' * up_outcome).
Context (range : Header -> list (string * list string)).
Context (read_file : W -> string -> option bytes).
Context (toml_Unmarshal : bytes -> option (list (string * toml_value X))).
Context (show : toml_value X -> string).
Context (shell : W -> string -> W * option bytes).
Context (look : V -> V * aug_view W).
Hypothesis range_ok : forall h : Header, map_range h (range h).

Notation hook := (beacon_hook read_file toml_Unmarshal show shell look).

(** The hook leaves every path but /rpc alone. *)
Lemma hook_other_path a path body : path <> "/rpc" -> hook_body (Some hook) a path body = body.
Proof.
  intros Hp. unfold hook_body, beacon_hook. destruct (look a.2) as [v av]. unfold Transform.
  by rewrite bool_decide_eq_false_2 by done.
Qed.

(** C4: The beacon may stand between a sentinel and the watchtower: a request of the sentinel
    that the beacon can read is sent upstream once, and what the server there reads off the
    request line and the body is again that request: its method, its path below that of the
    upstream's URL (the same path if that URL has none), its query, its bearer token and its
    body, or the body the augmenter has made of it; and the body of a request for another
    path than /rpc, as the logs, the metrics and the OTLP data are, is never another. *)
Theorem beacon_carries upstream w a path o r q w' sent a' resp :
  absolute upstream -> rooted (u_Path upstream) ->
  carries path o r -> Z.of_nat (length (out_body o)) <= maxBeaconBodyBytes ->
  proxy_handle (up_logged net) range upstream (Some hook) (w, []) a r q = ((w', sent), a', resp) ->
  exists u, sent = [u]
  /\ up_Body u = hook_body (Some hook) a path (out_body o)
  /\ (path <> "/rpc" -> up_Body u = out_body o)
  /\ server_reads (up_URL u) = Some (below (u_Path upstream) path, (cut "#" q).1)
  /\ forall r', arrives u r' ->
       carries (below (u_Path upstream) path) (mkOutgoing (out_method o) (out_url o) (out_header o) (up_Body u)) r'.
Proof.
  intros Ha Hr Hc Hl H%proxy_handle_spec; [|exact range_ok]. pose proof Hc as (_ & Hp & _ & Hb).
  unfold proxy_body in H. rewrite Hb, (proj2 (Z.ltb_ge _ _) Hl), Hp in H. destruct H as (u & Hu & -> & _).
  exists u. split; [done|]. pose proof Hu as [_ Ht _ Hbody]. rewrite Hbody. split; [done|].
  split; [by apply hook_other_path|]. split; [by rewrite Ht, Hp|].
  intros r' Hr'. by eapply passes_on_carries.
Qed.
End Carries.

(** ** What is rewritten *)

Lemma raw_sent_fits r : raw_valid r -> raw_fits r -> raw_valid (raw_sent r) /\ raw_fits (raw_sent r).
Proof.
  intros Hv Hf. destruct (raw_valid_text r Hv) as (t & v & E & HJ & Hp).
  destruct (json_parse_compact _ _ _ Hp) as [_ Hc]. destruct (proj1 grammar_compacts _ _ _ HJ) as [_ HJ'].
  assert (json_parse (compact t) = Some (compact t, jcompact v)) as Hparse.
  { pose proof (json_parse_complete _ [] _ _ [] ws_nil ws_nil HJ' (le_n _)) as Hq. by rewrite app_nil_r in Hq. }
  split.
  - split; rewrite E; [|by rewrite Hparse]. destruct (JText_head _ _ _ HJ') as (a & s & -> & _). done.
  - unfold raw_fits in *. rewrite E. unfold json_depth in *. rewrite Hparse, jdepth_compact. by rewrite Hp in Hf.
Qed.

(** The object of a marshalled payload. *)
Lemma payload_object p b :
  encode_payload p = Some b -> map_Forall (fun k r => valid_utf8 k /\ raw_fits r) (Data p) ->
  exists bt bd, encode_time (json_time (CollectedAt p)) = Some bt
  /\ decode_object b = Some (Some {["collected_at" := mkRaw bt; "data" := mkRaw bd]})
  /\ decode_object bd = Some (Some (raw_sent <$> Data p)).
Proof.
  unfold encode_payload. intros He Hm. destruct (encode_time _) as [bt|] eqn:Ht; [|done].
  destruct (encode_raw_map (Data p)) as [bd|] eqn:Hd; [|done]. apply Some_inj in He as <-.
  destruct (JText_time (S (max_nat - 2)) _ _ Ht) as (vt & Jt & _).
  destruct (encode_raw_map_decode (max_nat - 2) _ _ Hd) as (lv & Jd & Dd).
  { intros k r Hk. destruct (Hm k r Hk) as [Hv Hf]. split; [done|by apply raw_fits_room]. }
  assert (JText (S (S (max_nat - 2))) (encode_object [("collected_at", bt); ("data", bd)])
    (JObject [("collected_at", (bt, vt)); ("data", (bd, JObject lv))])) as HJ.
  { apply JText_encode_object. by repeat (constructor; [by split_and!|]). }
  exists bt, bd. split; [done|]. unfold decode_object. split.
  - rewrite (Unmarshal_text _ _ _ HJ) by (rewrite max_nat_S2; lia). apply object_from. reflexivity.
  - rewrite (Unmarshal_text _ _ _ Jd) by (unfold max_nat; change max_depth with 10000; lia). by apply object_from.
Qed.

(** What the beacon writes back. *)
Lemma encode_two bt re b :
  compact bt = bt -> bt <> [] ->
  encode_raw_map {["collected_at" := mkRaw bt; "data" := mkRaw re]} = Some b ->
  b = encode_object [("collected_at", bt); ("data", raw_text (raw_sent (mkRaw re)))].
Proof.
  intros Hc Hn. unfold encode_raw_map. intros (l & [-> _]%mapM_raw & ->)%fmap_Some.
  unfold encode_map. rewrite (sort_keys_map (fun r => raw_text (raw_sent r))).
  change (sort_keys (map_to_list {["collected_at" := mkRaw bt; "data" := mkRaw re]}))
    with [("collected_at", mkRaw bt); ("data", mkRaw re)].
  cbn [map fst snd]. unfold raw_sent at 1. cbn [raw_text]. destruct bt as [|x bt]; [done|]. by rewrite Hc.
Qed.

(** A raw message map that is compacted once more on the way. *)
Definition raw_compact (r : RawMessage) : RawMessage := mkRaw (compact (raw_text r)).

Lemma from_raw_map_compact t t' l (old m : gmap string RawMessage) :
  from_json t (JObject l) old = Some m ->
  from_json t' (jcompact (JObject l)) (raw_compact <$> old) = Some (raw_compact <$> m).
Proof.
  cbn [jcompact]. unfold from_json, from_map. revert old. induction l as [|[k [u v]] l IH]; intros old.
  - cbn [fold_left map]. intros [= ->]. done.
  - cbn [fold_left map fst snd]. change (from_json u v (go_zero : RawMessage)) with (Some (mkRaw u)).
    change (from_json (compact u) (jcompact v) (go_zero : RawMessage)) with (Some (raw_compact (mkRaw u))).
    intros H. specialize (IH _ H). by rewrite fmap_insert in IH.
Qed.

Lemma raw_sent_compact r : raw_valid r -> raw_sent r = raw_compact r.
Proof. intros [Hne _]. unfold raw_sent, raw_compact. by destruct (raw_text r). Qed.

(** What the watchtower decodes of the rewritten payload. *)
Lemma rewritten_read_back t bt (m : gmap string RawMessage) re b :
  encode_time t = Some bt -> encode_raw_map m = Some re ->
  map_Forall (fun k r => valid_utf8 k /\ raw_fits r /\ raw_valid r) m ->
  encode_raw_map {["collected_at" := mkRaw bt; "data" := mkRaw re]} = Some b ->
  (Unmarshal b : option payload) = Some (mkPayload (mkJSONTime t) (raw_sent <$> (raw_sent <$> m))).
Proof.
  intros Ht Hre Hm Hb. pose proof (compact_time _ _ Ht) as Hc.
  destruct (JText_time (S (max_nat - 2)) _ _ Ht) as (vt & Jt & Dt).
  destruct (JText_head _ _ _ Jt) as (x & bt' & Hbt & _).
  apply encode_two in Hb as ->; [|done|by rewrite Hbt].
  destruct (encode_raw_map_decode (max_nat - 2) _ _ Hre) as (lv & Jd & Dd).
  { intros k r Hk. destruct (Hm k r Hk) as (Hv & Hf & _). split; [done|by apply raw_fits_room]. }
  destruct (JText_head _ _ _ Jd) as (y & re' & Hre' & _).
  assert (raw_text (raw_sent (mkRaw re)) = compact re) as -> by (unfold raw_sent; cbn [raw_text]; by rewrite Hre').
  destruct (proj1 grammar_compacts _ _ _ Jd) as [_ Jd'].
  assert (JText (S (S (max_nat - 2))) (encode_object [("collected_at", bt); ("data", compact re)])
    (JObject [("collected_at", (bt, vt)); ("data", (compact re, jcompact (JObject lv)))])) as HJ.
  { apply JText_encode_object. by repeat (constructor; [by split_and!|]). }
  rewrite (Unmarshal_text _ _ _ HJ) by (rewrite max_nat_S2; lia).
  unfold from_json at 1, from_payload, from_struct. cbn [fold_left fst snd].
  erewrite find_field_exact by reflexivity. cbn [fld f_set]. rewrite Dt. cbn [fmap option_fmap option_map CollectedAt Data].
  erewrite find_field_exact by reflexivity. cbn [fld f_set Data CollectedAt].
  change (Data go_zero) with (raw_compact <$> (∅ : gmap string RawMessage)).
  rewrite (from_raw_map_compact [] _ _ _ _ (Dd [])). cbn. do 2 f_equal.
  apply map_fmap_ext. intros k r (r0 & <- & Hk)%lookup_fmap_Some. destruct (Hm k r0 Hk) as (_ & Hf & Hv).
  symmetry. by apply raw_sent_compact, raw_sent_fits.
Qed.

Lemma encode_string_map_text m : exists v, JText 1 (encode_string_map m) v.
Proof.
  unfold encode_string_map, encode_map. set (l := sort_keys _).
  assert (Forall (fun p : string * bytes => exists v, JText 0 p.2 v) l) as Hl.
  { unfold l. rewrite sort_keys_perm. apply List.Forall_map, List.Forall_forall. intros p _. eexists. apply JText_encode_string. }
  assert (exists lv, Forall2 (member_of 0) l lv) as [lv Hlv].
  { clearbody l. induction Hl as [|[k t] l [v Hv] _ [lv IH]]; [by exists []|].
    exists ((sanitize k, (t, v)) :: lv). constructor; [by split_and!|done]. }
  exists (JObject lv). by apply JText_encode_object.
Qed.

Lemma text_raw_ok n t v : JText n t v -> (n + 2 <= max_nat)%nat -> raw_fits (mkRaw t) /\ raw_valid (mkRaw t).
Proof.
  intros HJ Hn. split.
  - unfold raw_fits. cbn [raw_text]. pose proof (json_depth_text n t v HJ ltac:(lia)). unfold max_nat in Hn. lia.
  - split; cbn [raw_text]; [destruct (JText_head _ _ _ HJ) as (a & s & -> & _); done|].
    pose proof (json_parse_complete n [] _ _ [] ws_nil ws_nil HJ ltac:(lia)) as H. rewrite app_nil_r in H.
    cbn [app] in H. by rewrite H.
Qed.

Section Rewritten.
Context {W X : Type}.
Context (read_file : W -> string -> option bytes).
Context (toml_Unmarshal : bytes -> option (list (string * toml_value X))).
Context (show : toml_value X -> string).
Context (shell : W -> string -> W * option bytes).
#[local] Notation hook := (Transform read_file toml_Unmarshal show shell).
#[local] Notation config_of := (fetchConfig read_file toml_Unmarshal show shell).

Lemma fetchConfig_ok a w r : config_of a w = Some r -> raw_fits r /\ raw_valid r.
Proof.
  unfold fetchConfig. destruct (_ && _); [done|]. destruct (bool_decide _); [done|]. intros [= <-].
  destruct (encode_string_map_text (read_keys read_file toml_Unmarshal show shell (bm_ConfigPath (aug_metaCfg a))
    (bm_ConfigGetCmd (aug_metaCfg a)) w (aug_metaKeys a)).2) as [v Hv].
  eapply text_raw_ok; [exact Hv|]. unfold max_nat. change max_depth with 10000. lia.
Qed.

Lemma augmented_ok status net conf data data' :
  augmented status net conf data data' ->
  map_Forall (fun k r => valid_utf8 k /\ raw_fits r /\ raw_valid r) data ->
  (forall r, status = Some r \/ net = Some r \/ conf = Some r -> raw_fits r /\ raw_valid r) ->
  map_Forall (fun k r => valid_utf8 k /\ raw_fits r /\ raw_valid r) data'.
Proof.
  intros Ha Hd Hc k r Hk. rewrite (Ha k) in Hk.
  repeat case_decide; subst; repeat case_match; simplify_eq; first [by apply (Hd _ _ Hk) | split; [by vm_compute|apply Hc; auto]].
Qed.

(** C6: What the watchtower makes of a payload that the beacon has rewritten: the payload it
    decodes has the sentinel's instant, and the samples it exports are those of the data the
    sentinel sent with the sentry's status, network view and configuration added, each
    exactly when its fetch succeeded, whatever the JSON looks like after the beacon has
    decoded it and encoded it again. *)
Theorem augmented_samples range who a p b now now' o_status o_net w a' b' :
  (forall V (m : gmap string V), map_range m (range V m)) ->
  encode_payload p = Some b ->
  map_Forall (fun k r => valid_utf8 k /\ raw_fits r /\ raw_valid r) (Data p) ->
  (forall r, contribution o_status = Some r \/ contribution o_net = Some r -> raw_fits r /\ raw_valid r) ->
  hook a "/rpc" b now now' o_status o_net w = (a', Ok (Some b')) ->
  exists data p',
    augmented (contribution o_status) (contribution o_net) (config_of a w) (Data (payload_sent p)) data
    /\ (Unmarshal b' : option payload) = Some p'
    /\ CollectedAt p' = CollectedAt p
    /\ extractRPC range who p' ≡ₚ extractRPC range who (mkPayload (CollectedAt p) data).
Proof.
  intros Hr He Hm Hc. destruct (payload_object p b He) as (bt & bd & Ht & Hb & Hd).
  { intros k r Hk. by destruct (Hm k r Hk) as (? & ? & _). }
  unfold Transform, augmentRPC. rewrite (bool_decide_eq_true_2 ("/rpc" = "/rpc")) by done. cbn [negb]. rewrite Hb.
  change (map_get (Some {["collected_at" := mkRaw bt; "data" := mkRaw bd]}) "data") with (Some (mkRaw bd)).
  cbn [raw_text]. rewrite Hd. destruct (wants_augment a now _); [|done]. cbn [negb].
  destruct (inject _ _ _ _) as [data1|] eqn:Hi; [|done]. apply inject_augmented in Hi as (data & -> & Ha).
  destruct (Nat.eqb _ _); [done|]. change (default ∅ (Some data)) with data.
  destruct (encode_raw_map data) as [re|] eqn:Hre; [|done].
  change (<["data":=mkRaw re]> (default ∅ (Some {["collected_at" := mkRaw bt; "data" := mkRaw bd]})))
    with (<["data":=mkRaw re]> ({["collected_at" := mkRaw bt; "data" := mkRaw bd]} : gmap string RawMessage)).
  destruct (encode_raw_map (<["data":=mkRaw re]> _)) as [b2|] eqn:He2; [|done]. intros [= _ ->].
  assert (map_Forall (fun k r => valid_utf8 k /\ raw_fits r /\ raw_valid r) data) as Hok.
  { eapply augmented_ok; [exact Ha| |].
    - intros k r (r0 & <- & Hk)%lookup_fmap_Some. destruct (Hm k r0 Hk) as (Hu & Hf & Hv).
      split; [done|]. apply and_comm. by apply raw_sent_fits.
    - intros r [H|[H|H]]; [apply Hc; auto..|by eapply fetchConfig_ok]. }
  exists data. eexists. split; [exact Ha|].
  split; [eapply rewritten_read_back; [exact Ht|exact Hre|exact Hok|exact He2]|].
  cbn [CollectedAt]. destruct p as [[t] d]. split; [done|]. cbn [CollectedAt json_time].
  assert (map_Forall (fun _ r => raw_valid r) data) as Hv by (intros k r Hk; by destruct (Hok k r Hk) as (_ & _ & ?)).
  assert (map_Forall (fun _ r => raw_valid r) (raw_sent <$> data)) as Hv2.
  { intros k r (r0 & <- & Hk)%lookup_fmap_Some. destruct (Hok k r0 Hk) as (_ & Hf & Hv0). by apply raw_sent_fits. }
  etransitivity; [|exact (proj1 (payload_samples_sent range who (mkPayload (mkJSONTime t) data) Hr Hv))].
  exact (proj1 (payload_samples_sent range who (mkPayload (mkJSONTime t) (raw_sent <$> data)) Hr Hv2)).
Qed.
End Rewritten.

(** ** Evaluations *)

Definition beacon_question : outgoing :=
  mkOutgoing "POST" "http://beacon/logs" {["Authorization" := ["Bearer t"]]} (bytes_of_string "zstd").
Definition beacon_received : Request :=
  mkRequest "POST" "/logs" "/logs" {["Authorization" := ["Bearer t"]; "Connection" := ["close"]]} "10.0.0.7:1" (Ok (bytes_of_string "zstd")).

(** Nothing to add at the sentry. *)
Definition sample_look (v : Z) : Z * aug_view unit := (v + 1, mkAugView Second Second GetFailed GetFailed tt).
Definition sample_hook :=
  beacon_hook no_file (fun _ => None : option (list (string * toml_value unit))) (fun _ => "?") sample_shell sample_look.
Definition beacon_handled :=
  proxy_handle (up_logged teapot) map_to_list sample_upstream (Some sample_hook) (0, []) (sample_augmenter, 0) beacon_received EmptyString.

Lemma beacon_carries_witness :
  exists u, beacon_handled.1.1.2 = [u] /\ up_URL u = "https://watchtower.example/api/logs" /\ up_Body u = bytes_of_string "zstd"
  /\ carries "/api/logs" beacon_question (mkRequest "POST" "/api/logs" "/api/logs" (up_Header u) "10.0.0.8:1" (Ok (up_Body u))).
Proof.
  destruct beacon_handled as [[[w' sent] a'] resp] eqn:E.
  destruct (beacon_carries teapot map_to_list no_file (fun _ => None : option (list (string * toml_value unit))) (fun _ => "?")
    sample_shell sample_look (fun h => map_range_map_to_list h) sample_upstream 0 (sample_augmenter, 0) "/logs" beacon_question
    beacon_received EmptyString w' sent a' resp (proj1 sample_upstream_absolute) (proj2 sample_upstream_absolute))
    as (u & Hs & _ & Hb & Hu & Hc).
  - split_and!; reflexivity.
  - vm_compute. discriminate.
  - exact E.
  - assert (up_Body u = bytes_of_string "zstd") as Hbody by (apply Hb; discriminate).
    assert (up_Method u = "POST" /\ up_URL u = "https://watchtower.example/api/logs") as [Hm Ht].
    { vm_compute in E. injection E as _ E _ _. rewrite <- E in Hs. injection Hs as <-. split; reflexivity. }
    exists u. split; [exact Hs|]. split; [exact Ht|]. split; [exact Hbody|]. rewrite Hbody in Hc |- *. apply Hc.
    split; [by rewrite Hm|]. split; [exists EmptyString; exact Hu|]. split; [reflexivity|by rewrite Hbody].
Defined.

Definition sentry_payload : payload :=
  mkPayload (mkJSONTime 1775001600000000000) {["net_info" := mkRaw (jq " {'n_peers': '3'}"); "rpc_reachable" := mkRaw (js "1")]}.

Lemma augmented_samples_witness :
  let b := default [] (encode_payload sentry_payload) in
  exists b' p' data, (sample_transform b (GetAnswered 200 (jq "{'result':{'n_peers':'7'}}"))).2 = Ok (Some b')
  /\ (Unmarshal b' : option payload) = Some p'
  /\ extractRPC (fun V m => map_to_list m) "val1" p' ≡ₚ extractRPC (fun V m => map_to_list m) "val1" (mkPayload (CollectedAt sentry_payload) data)
  /\ data !! "sentry_net_info" = Some (mkRaw (jq "{'n_peers':'7'}")) /\ data !! "net_info" = Some (mkRaw (jq "{'n_peers':'3'}")).
Proof.
  cbv zeta. set (b := default [] (encode_payload sentry_payload)).
  destruct (sample_transform b (GetAnswered 200 (jq "{'result':{'n_peers':'7'}}"))) as [a' r] eqn:E.
  assert (exists b', r = Ok (Some b')) as [b' ->] by (vm_compute in E; injection E as _ <-; by eexists).
  destruct (augmented_samples no_file (fun _ => None : option (list (string * toml_value unit))) (fun _ => "?") sample_shell
    (fun V m => map_to_list m) "val1" sample_augmenter sentry_payload b Second (2 * Second) aug_status
    (GetAnswered 200 (jq "{'result':{'n_peers':'7'}}")) tt a' b') as (data & p' & Ha & Hu & Ht & He).
  - intros V m. apply map_range_map_to_list.
  - vm_compute. reflexivity.
  - apply (bool_decide_unpack _). vm_compute. exact I.
  - intros r Hr.
    assert (r = mkRaw (jq "{'node_info':{}}") \/ r = mkRaw (jq "{'n_peers':'7'}")) as [-> | ->].
    { destruct Hr as [Hr|Hr]; vm_compute in Hr; injection Hr as <-; [left|right]; reflexivity. }
    + split; apply (bool_decide_unpack _); vm_compute; exact I.
    + split; apply (bool_decide_unpack _); vm_compute; exact I.
  - exact E.
  - exists b', p', data. split; [reflexivity|]. split; [exact Hu|]. split; [exact He|].
    rewrite !Ha. split; vm_compute; reflexivity.
Defined.
