(* ===== verification/Doctor.v ===== *)
(** * internal/sentinel/doctor

    The checks of [sentinel doctor] and its report. What the checks look at is a world [W]
    and functions on it: the network, files, the shell, a log source tailed for three
    seconds, the OTLP port, the host's and a container's statistics. The error texts of
    libraries appear in the report and are arguments. *)

From Stdlib Require Import Ascii.
From S2P Require Import Prelude GoStrings GoTime GoHttp GoJson Logger NoiseConfig Sender SentinelConfig LogsCollector Metadata Console.

Local Open Scope Z_scope.

(** ** check.go *)

Inductive Status := StatusGreen | StatusRed | StatusOrange | StatusGrey.

#[export] Instance Status_eq_dec : EqDecision Status.
Proof. solve_decision. Defined.

Definition status_text (s : Status) : string :=
  match s with
  | StatusGreen => "GREEN" | StatusRed => "RED" | StatusOrange => "ORANGE" | StatusGrey => "GREY"
  end.

Record CheckResult := mkCheck { cr_Name : string; cr_Status : Status; cr_Detail : string }.

Record AuthResponse := mkAuthResponse {
  ar_Validator : string; ar_Permissions : list string; ar_LogsMinLevel : string }.

#[export] Instance zero_auth_response : GoZero AuthResponse := mkAuthResponse go_zero go_zero go_zero.
#[export] Instance from_auth_response : FromJSON AuthResponse := fun _ =>
  from_struct
    [fld "validator" ar_Validator (fun a x => mkAuthResponse x (ar_Permissions a) (ar_LogsMinLevel a));
     fld "permissions" ar_Permissions (fun a x => mkAuthResponse (ar_Validator a) x (ar_LogsMinLevel a));
     fld "logs_min_level" ar_LogsMinLevel (fun a x => mkAuthResponse (ar_Validator a) (ar_Permissions a) x)].

(** ** report.go *)

Inductive Format := FormatStyled | FormatPlain.

(** [on]: whether the terminal gets colours. *)
Definition formatResult (on : bool) (r : CheckResult) (f : Format) : string :=
  match f with
  | FormatPlain =>
      "  [" +:+ status_text (cr_Status r) +:+ "] " +:+ pad_right 20 (cr_Name r) +:+ " " +:+ cr_Detail r
  | FormatStyled =>
      match cr_Status r with
      | StatusGreen => ts_OK on (cr_Name r) (cr_Detail r)
      | StatusRed => ts_Fail on (cr_Name r) (cr_Detail r)
      | StatusOrange => ts_Off on (cr_Name r) (cr_Detail r)
      | StatusGrey => ts_Skip on (cr_Name r) (cr_Detail r)
      end
  end.

(** ** remote.go *)

Definition name_remote : string := "Watchtower".
Definition name_token : string := "Token valid".
Definition name_perms : string := "Token permissions".

Definition three (s : Status) (d1 d2 d3 : string) : list CheckResult :=
  [mkCheck name_remote s d1; mkCheck name_token s d2; mkCheck name_perms s d3].

Definition unreachable (reason : string) : list CheckResult :=
  three StatusRed ("unreachable: " +:+ reason) "cannot check: watchtower unreachable"
    "cannot check: watchtower unreachable".

Inductive client_error := ErrClientNoise (e : noise_config_error) | ErrClientNoKeypair.

(** The transport and the URL; the clone of the configuration is the configuration. *)
Definition buildAuthCheckClient (f : fs) (c : SnConfig) : result (sender_transport * string) client_error :=
  let url := sv_URL (c_Server c) in
  if negb (HasPrefix url "noise://") then Ok (PlainTransport, url +:+ "/auth/check")
  else
    match NoiseConfig f c with
    | Err e => Err (ErrClientNoise e)
    | Ok None => Err ErrClientNoKeypair
    | Ok (Some noiseCfg) =>
        Ok (NoiseTransport (Clone noiseCfg), "http://" +:+ TrimPrefix url "noise://" +:+ "/auth/check")
    end.

Definition auth_check_request (url token : string) : outgoing :=
  mkOutgoing "GET" url (Header_Set ∅ "Authorization" ("Bearer " +:+ token)) [].

(** What becomes of the request: the texts of the two errors, or a status and a body, which
    may break off. *)
Inductive auth_reply :=
| ReplyCreateFailed (text : string)
| ReplyDoFailed (text : string)
| ReplyStatus (status : Z) (body : result bytes bytes).

(** [Decode] on a stream that breaks off: it notices the end of an object or an array at
    its last byte, and of anything else at the next one. *)
Definition Decode_stream (body : result bytes bytes) : option AuthResponse :=
  match body with
  | Ok b => Decode b
  | Err pre =>
      let s := skip_ws pre in
      match parse_value (2 * length s + 2) 0 s with
      | Some (JObject _, _) | Some (JArray _, _) | Some (_, _ :: _) => Decode pre
      | _ => None
      end
  end.

Definition str_elem (s : string) (l : list string) : bool := bool_decide (s ∈ l).

Definition missing_permissions (c : SnConfig) (ar : AuthResponse) : list string :=
  let has p := str_elem p (ar_Permissions ar) in
  let missing := [] in
  let missing := if rpc_Enabled (c_RPC c) && negb (has "rpc") then missing ++ ["rpc"] else missing in
  let missing := if (res_Enabled (c_Resources c) || md_Enabled (c_Metadata c)) && negb (has "metrics")
                 then missing ++ ["metrics"] else missing in
  let missing := if logs_Enabled (c_Logs c) && negb (has "logs") then missing ++ ["logs"] else missing in
  if otlp_Enabled (c_OTLP c) && negb (has "otlp") then missing ++ ["otlp"] else missing.

Definition checkPermissions (c : SnConfig) (ar : AuthResponse) : CheckResult :=
  match missing_permissions c ar with
  | [] => mkCheck name_perms StatusGreen ("granted: " +:+ Join (ar_Permissions ar) ", ")
  | missing => mkCheck name_perms StatusRed ("missing permissions for enabled features: " +:+ Join missing ", ")
  end.

(** ** logs.go

    The loop has received [lines] when the context is done. *)

Definition checkDuration : Duration := 3 * Second.
Definition three_seconds : string := "3s".

Record log_counts := mkLogCounts { lg_total : Z; lg_invalidJSON : Z; lg_atLevel : Z }.

Definition count_line (minLevel : string) (n : log_counts) (l : LogLine) : log_counts :=
  mkLogCounts (lg_total n + 1)
    (if negb (json_valid (raw_text (line_Raw l))) then lg_invalidJSON n + 1 else lg_invalidJSON n)
    (if LevelRank minLevel <=? LevelRank (line_Level l) then lg_atLevel n + 1 else lg_atLevel n).

Definition name_logs : string := "Logs".

Definition CheckLogs (lines : list LogLine) (minLevel : string) : CheckResult :=
  let n := fold_left (count_line minLevel) lines (mkLogCounts 0 0 0) in
  if lg_total n =? 0 then mkCheck name_logs StatusRed ("no lines received in " +:+ three_seconds)
  else if 0 <? lg_invalidJSON n then
    mkCheck name_logs StatusRed (Itoa (lg_invalidJSON n) +:+ "/" +:+ Itoa (lg_total n) +:+ " lines are not valid JSON")
  else if lg_atLevel n =? 0 then
    mkCheck name_logs StatusRed (Itoa (lg_total n) +:+ " lines received but none at " +:+ minLevel +:+ " or above")
  else
    mkCheck name_logs StatusGreen
      (Itoa (lg_total n) +:+ " valid JSON lines, " +:+ Itoa (lg_atLevel n) +:+ " at " +:+ minLevel +:+ "+ in " +:+ three_seconds).

(** ** otlp.go *)

Definition otlpCheckDuration : Duration := 3 * Second.
Definition otlpDialTimeout : Duration := 500 * Millisecond.
Definition name_otlp : string := "OTLP".

(** The stand-in for the relay: whether something was received, and the answer. *)
Definition otlp_check_serve (received : bool) (r : Request) : bool * Response :=
  match mux_lookup [(mkPattern (Some "POST") (MuxExact "/v1/metrics"), tt)] (Method r) (URL_Path r) with
  | MuxHandler _ => (true, mkResponse StatusOK (Header_Set ∅ "Content-Type" "application/x-protobuf") EmptyString)
  | MuxNotFound => (received, http_Error ∅ "404 page not found" StatusNotFound)
  | MuxMethodNotAllowed => (received, http_Error (Header_Set ∅ "Allow" "POST") "Method Not Allowed" StatusMethodNotAllowed)
  end.

Inductive ctx_end := DeadlineExceeded | Canceled.

(** What happens on the port: a listener answers the dial; or the port cannot be bound; or
    it is, and these requests arrive before the context is done. *)
Inductive otlp_port :=
| PortTaken
| PortFailed (text : string)
| PortServed (reqs : list Request) (after : ctx_end).

Definition CheckOTLP (p : otlp_port) (listenAddr : string) : CheckResult :=
  match p with
  | PortTaken => mkCheck name_otlp StatusGreen ("relay reachable on " +:+ listenAddr)
  | PortFailed text => mkCheck name_otlp StatusRed ("listen " +:+ listenAddr +:+ ": " +:+ text)
  | PortServed reqs after =>
      if fold_left (fun received r => (otlp_check_serve received r).1) reqs false
      then mkCheck name_otlp StatusGreen ("export received on " +:+ listenAddr)
      else match after with
           | DeadlineExceeded =>
               mkCheck name_otlp StatusRed ("no export received in " +:+ three_seconds +:+ " on " +:+ listenAddr)
           | Canceled => mkCheck name_otlp StatusRed "check cancelled: context canceled"
           end
  end.

(** ** resources.go

    The text of the error of each call, if it fails. *)

Record host_errors := mkHostErrors {
  he_cpu : option string; he_memory : option string; he_disk : option string; he_network : option string }.

(** The calls stop at the first error. *)
Definition checkHostStats (h : host_errors) : option string :=
  match he_cpu h with
  | Some e => Some ("cpu: " +:+ e)
  | None =>
      match he_memory h with
      | Some e => Some ("memory: " +:+ e)
      | None =>
          match he_disk h with
          | Some e => Some ("disk: " +:+ e)
          | None =>
              match he_network h with
              | Some e => Some ("network: " +:+ e)
              | None => None
              end
          end
      end
  end.

Definition name_resources : string := "Resources".

Definition CheckResources (host : host_errors) (container : string -> option string) (c : ResourcesConfig)
    : CheckResult :=
  if is_empty (res_Source c) then mkCheck name_resources StatusOrange "source not configured"
  else
    let errs := [] in
    let errs := if str_elem (res_Source c) ["host"; "both"] then
                  match checkHostStats host with Some e => errs ++ ["host: " +:+ e] | None => errs end
                else errs in
    let errs := if str_elem (res_Source c) ["docker"; "both"] then
                  match container (res_ContainerName c) with Some e => errs ++ ["docker: " +:+ e] | None => errs end
                else errs in
    match errs with
    | [] => mkCheck name_resources StatusGreen ("source=" +:+ res_Source c +:+ " OK")
    | _ => mkCheck name_resources StatusRed (Join errs "; ")
    end.

(** ** metadata.go and run.go *)

Definition name_metadata : string := "Metadata config".
Definition name_rpc : string := "RPC".
Definition name_health : string := "Health".

(** A permission that the token is known to lack. *)
Definition not_granted (ar : option AuthResponse) (perm : string) : bool :=
  match ar with Some ar => negb (str_elem perm (ar_Permissions ar)) | None => false end.

Definition rpcCheck (c : SnConfig) (ar : option AuthResponse) : CheckResult :=
  if negb (rpc_Enabled (c_RPC c)) then mkCheck name_rpc StatusOrange "disabled in config"
  else if not_granted ar "rpc" then mkCheck name_rpc StatusGrey "rpc permission not granted"
  else if is_empty (RPCURL (c_RPC c)) then mkCheck name_rpc StatusRed "rpc_url not set"
  else mkCheck name_rpc StatusGreen ("configured: " +:+ RPCURL (c_RPC c)).

Definition healthCheck (c : SnConfig) : CheckResult :=
  if negb (health_Enabled (c_Health c)) then mkCheck name_health StatusOrange "disabled in config"
  else if is_empty (health_ListenAddr (c_Health c)) then mkCheck name_health StatusRed "listen_addr not set"
  else mkCheck name_health StatusGreen ("configured: " +:+ health_ListenAddr (c_Health c)).

(** The minimum level the lines are held against. *)
Definition doctor_min_level (c : SnConfig) (ar : option AuthResponse) : string :=
  match ar with
  | Some ar => if LevelRank (MinLevel (c_Logs c)) <? LevelRank (ar_LogsMinLevel ar)
               then ar_LogsMinLevel ar else MinLevel (c_Logs c)
  | None => MinLevel (c_Logs c)
  end.

Section Doctor.
Context {W X : Type}.
Context (read_file : W -> string -> option bytes).
Context (toml_Unmarshal : bytes -> option (list (string * toml_value X))).
Context (show : toml_value X -> string).
Context (shell : W -> string -> W * option bytes).
(** [os.Open]: the text of its error. *)
Context (open_error : W -> string -> option string).
Context (send : W -> sender_transport -> outgoing -> W * auth_reply).
(** The lines of a source that arrive before the check ends. *)
Context (tail : W -> source_kind -> W * list LogLine).
Context (otlp_port_at : W -> string -> W * otlp_port).
Context (host_stats : W -> host_errors).
Context (container_error : W -> string -> option string).
(** The key files. *)
Context (keys : W -> fs).
(** Texts of errors. *)
Context (noise_text : noise_config_error -> string).
Context (run_text : key_read_error -> string).
Context (decode_text : result bytes bytes -> string).
Context (source_text : string -> string).

Definition client_text (e : client_error) : string :=
  match e with
  | ErrClientNoise e => "noise config: " +:+ noise_text e
  | ErrClientNoKeypair => "server.url is noise:// but no beacon keypair was configured"
  end.

Definition CheckRemoteTokenAndPermissions (w : W) (c : SnConfig) : W * (list CheckResult * option AuthResponse) :=
  let sv := c_Server c in
  if IsPlaceholder (sv_URL sv) then
    (w, (three StatusOrange "server.url not configured" "server.url not configured" "server.url not configured", None))
  else if IsPlaceholder (sv_Token sv) then
    (w, (three StatusOrange "server.token not configured" "server.token not configured" "server.token not configured", None))
  else
    match buildAuthCheckClient (keys w) c with
    | Err e => (w, (unreachable (client_text e), None))
    | Ok (client, url) =>
        let '(w, reply) := send w client (auth_check_request url (sv_Token sv)) in
        match reply with
        | ReplyCreateFailed text => (w, (unreachable ("build request: " +:+ text), None))
        | ReplyDoFailed text => (w, (unreachable text, None))
        | ReplyStatus status body =>
            let remote := mkCheck name_remote StatusGreen (sv_URL sv) in
            if negb (status =? StatusOK) then
              (w, ([remote; mkCheck name_token StatusRed ("auth/check returned HTTP " +:+ Itoa status);
                    mkCheck name_perms StatusRed "cannot check: token invalid"], None))
            else
              match Decode_stream body with
              | None =>
                  (w, ([remote; mkCheck name_token StatusRed ("decode auth response: " +:+ decode_text body);
                        mkCheck name_perms StatusRed "cannot check: auth response invalid"], None))
              | Some ar =>
                  (w, ([remote; mkCheck name_token StatusGreen ("validator: " +:+ ar_Validator ar);
                        checkPermissions c ar], Some ar))
              end
        end
    end.

(** Both doctors check the metadata settings with the same code up to one text. *)
Definition check_metadata_config (neither : string) (w : W) (config_path config_get_cmd : string) : W * CheckResult :=
  if is_empty config_path && is_empty config_get_cmd then (w, mkCheck name_metadata StatusOrange neither)
  else if negb (is_empty config_path) then
    if IsPlaceholder config_path then (w, mkCheck name_metadata StatusOrange "config_path not configured")
    else match open_error w config_path with
         | Some text => (w, mkCheck name_metadata StatusRed text)
         | None =>
             let found := length (List.filter
               (fun key => is_Ok (ReadConfigKey read_file toml_Unmarshal show w config_path key)) ConfigKeys) in
             (w, mkCheck name_metadata StatusGreen
                   (Itoa (Z.of_nat found) +:+ "/" +:+ Itoa (Z.of_nat (length ConfigKeys)) +:+ " keys found"))
         end
  else
    let firstKey := hd EmptyString ConfigKeys in
    let '(w, r) := RunCmd shell w (ReplaceAll config_get_cmd "%s" firstKey) in
    (w, match r with
        | Err e => mkCheck name_metadata StatusRed (run_text e)
        | Ok _ => mkCheck name_metadata StatusGreen "cmd accessible"
        end).

Definition CheckMetadataConfig (w : W) (m : MetadataConfig) : W * CheckResult :=
  check_metadata_config "not configured" w (ConfigPath m) (ConfigGetCmd m).

Definition metadataCheck (w : W) (c : SnConfig) (ar : option AuthResponse) : W * CheckResult :=
  if negb (md_Enabled (c_Metadata c)) then (w, mkCheck name_metadata StatusOrange "disabled in config")
  else if not_granted ar "metrics" then (w, mkCheck name_metadata StatusGrey "metrics permission not granted")
  else CheckMetadataConfig w (c_Metadata c).

Definition logsCheck (w : W) (c : SnConfig) (ar : option AuthResponse) : W * CheckResult :=
  let lg := c_Logs c in
  if negb (logs_Enabled lg) then (w, mkCheck name_logs StatusOrange "disabled in config")
  else if not_granted ar "logs" then (w, mkCheck name_logs StatusGrey "logs permission not granted")
  else
    match NewSource (logs_Source lg) (logs_ContainerName lg) (JournaldUnit lg) (ResumeLookback lg) with
    | Err s => (w, mkCheck name_logs StatusRed ("invalid source config: " +:+ source_text s))
    | Ok source =>
        let '(w, lines) := tail w source in
        (w, CheckLogs lines (doctor_min_level c ar))
    end.

Definition otlpCheck (w : W) (c : SnConfig) (ar : option AuthResponse) : W * CheckResult :=
  if negb (otlp_Enabled (c_OTLP c)) then (w, mkCheck name_otlp StatusOrange "disabled in config")
  else if not_granted ar "otlp" then (w, mkCheck name_otlp StatusGrey "otlp permission not granted")
  else
    let '(w, p) := otlp_port_at w (otlp_ListenAddr (c_OTLP c)) in
    (w, CheckOTLP p (otlp_ListenAddr (c_OTLP c))).

Definition resourcesCheck (w : W) (c : SnConfig) (ar : option AuthResponse) : W * CheckResult :=
  if negb (res_Enabled (c_Resources c)) then (w, mkCheck name_resources StatusOrange "disabled in config")
  else if not_granted ar "metrics" then (w, mkCheck name_resources StatusGrey "metrics permission not granted")
  else (w, CheckResources (host_stats w) (container_error w) (c_Resources c)).

(** [emit] writes the lines and remembers a red one. *)
Definition emit (on : bool) (format : Format) (st : string * bool) (results : list CheckResult) : string * bool :=
  fold_left (fun st r =>
    (st.1 +:+ println (formatResult on r format),
     st.2 || bool_decide (cr_Status r = StatusRed))) results st.

(** What is written and the exit code. *)
Definition doctor_Run (on : bool) (w : W) (c : SnConfig) (configPath : string) (format : Format)
    : W * (string * Z) :=
  let st := ("Validating sentinel config: " +:+ configPath +:+ newline_text, false) in
  let '(w, (remoteResults, authResp)) := CheckRemoteTokenAndPermissions w c in
  let st := emit on format st remoteResults in
  let '(w, r) := metadataCheck w c authResp in let st := emit on format st [r] in
  let '(w, r) := logsCheck w c authResp in let st := emit on format st [r] in
  let '(w, r) := otlpCheck w c authResp in let st := emit on format st [r] in
  let '(w, r) := resourcesCheck w c authResp in let st := emit on format st [r] in
  let st := emit on format st [rpcCheck c authResp] in
  let '(out, hasRed) := emit on format st [healthCheck c] in
  (w, (out +:+ newline_text, if hasRed : bool then 1 else 0)).

(** * Facts *)

(** The results of a run, as one list. *)
Definition doctor_results (w : W) (c : SnConfig) : W * (list CheckResult * option AuthResponse) :=
  let '(w, (remote, ar)) := CheckRemoteTokenAndPermissions w c in
  let '(w, m) := metadataCheck w c ar in
  let '(w, l) := logsCheck w c ar in
  let '(w, o) := otlpCheck w c ar in
  let '(w, r) := resourcesCheck w c ar in
  (w, (remote ++ [m; l; o; r; rpcCheck c ar; healthCheck c], ar)).

Definition report_text (on : bool) (format : Format) (l : list CheckResult) : string :=
  foldr (fun r s => println (formatResult on r format) +:+ s) EmptyString l.

Lemma emit_spec on format st l :
  emit on format st l = (st.1 +:+ report_text on format l, st.2 || existsb (fun r => bool_decide (cr_Status r = StatusRed)) l).
Proof.
  revert st. induction l as [|r l IH]; intros [s b]; unfold emit in *; cbn [fold_left report_text foldr existsb fst snd].
  - by rewrite string_app_nil_r, orb_false_r.
  - by rewrite IH, string_app_assoc, orb_assoc.
Qed.

Lemma report_text_app on format l1 l2 :
  report_text on format (l1 ++ l2) = report_text on format l1 +:+ report_text on format l2.
Proof. induction l1 as [|r l1 IH]; [done|]. cbn [app report_text foldr]. unfold report_text in IH. by rewrite IH, string_app_assoc. Qed.

Lemma emit_app on format st l1 l2 : emit on format (emit on format st l1) l2 = emit on format st (l1 ++ l2).
Proof. unfold emit. by rewrite fold_left_app. Qed.

(** The report is the results, one line each, and the exit code tells whether one is red. *)
Lemma doctor_Run_eq on w c path format :
  doctor_Run on w c path format =
    let '(w', (rs, _)) := doctor_results w c in
    (w', ("Validating sentinel config: " +:+ path +:+ newline_text +:+ report_text on format rs +:+ newline_text,
          if existsb (fun r => bool_decide (cr_Status r = StatusRed)) rs then 1 else 0)).
Proof.
  unfold doctor_Run, doctor_results.
  destruct (CheckRemoteTokenAndPermissions w c) as [w1 [remote ar]].
  destruct (metadataCheck w1 c ar) as [w2 m]. destruct (logsCheck w2 c ar) as [w3 l].
  destruct (otlpCheck w3 c ar) as [w4 o]. destruct (resourcesCheck w4 c ar) as [w5 r].
  rewrite !emit_app, emit_spec. cbn [fst snd orb app]. rewrite <- ?app_assoc. cbn [app].
  by rewrite !string_app_assoc.
Qed.
End Doctor.
