(* ===== verification/DoctorFacts.v ===== *)
(** * What the sentinel's doctor tells

    The report and its exit code; what the log check counts, next to what the log collector
    accepts; and the doctor's question answered by the watchtower of Handlers: a green
    permission check foretells that the watchtower forbids none of the payloads that the
    enabled collectors send, except those of the self collector, which it does not look
    at. *)

From Stdlib Require Import Ascii.
From S2P Require Import Prelude GoStrings GoTime GoFloat GoHttp GoJson GoJsonText GoJsonEncode Protocol Logger NoiseConfig Sender SenderBuffer SentinelStats SentinelConfig LogsCollector Metadata SentinelApp WtConfig Auth WtStats WtMetrics RateLimit Handlers Delivery Console Doctor.

Local Open Scope Z_scope.

(** ** Permissions *)

Lemma str_elem_spec s l : str_elem s l = true <-> s ∈ l.
Proof. apply bool_decide_eq_true. Qed.

Lemma missing_permissions_spec c ar p :
  p ∈ missing_permissions c ar <->
    (p ∉ ar_Permissions ar)
    /\ ((rpc_Enabled (c_RPC c) = true /\ p = "rpc")
        \/ ((res_Enabled (c_Resources c) || md_Enabled (c_Metadata c)) = true /\ p = "metrics")
        \/ (logs_Enabled (c_Logs c) = true /\ p = "logs")
        \/ (otlp_Enabled (c_OTLP c) = true /\ p = "otlp")).
Proof.
  unfold missing_permissions, str_elem.
  destruct (rpc_Enabled (c_RPC c)), (res_Enabled (c_Resources c) || md_Enabled (c_Metadata c)),
    (logs_Enabled (c_Logs c)), (otlp_Enabled (c_OTLP c)); cbn [andb];
    repeat case_bool_decide; cbn [negb app]; set_solver.
Qed.

Lemma checkPermissions_green c ar :
  cr_Status (checkPermissions c ar) = StatusGreen <-> missing_permissions c ar = [].
Proof. unfold checkPermissions. by destruct (missing_permissions c ar). Qed.

Lemma checkPermissions_red c ar :
  cr_Status (checkPermissions c ar) = StatusRed <-> missing_permissions c ar <> [].
Proof. unfold checkPermissions. by destruct (missing_permissions c ar). Qed.

(** The collector is enabled and its pipeline runs (a log source must be usable). *)
Definition collects (c : SnConfig) (s : src) : Prop := is_Some (app_pipes c s).

Lemma collects_enabled c s :
  collects c s ->
  match s with
  | SRpc => rpc_Enabled (c_RPC c)
  | SLogs => logs_Enabled (c_Logs c)
  | SResources => res_Enabled (c_Resources c)
  | SMetadata => md_Enabled (c_Metadata c)
  | SSelf => self_Enabled (c_Self c)
  end = true.
Proof.
  intros [pl Hp]. unfold app_pipes, new_pipe in Hp.
  destruct s; case_match; try done; try (by rewrite andb_true_iff in *; naive_solver).
Qed.

Lemma no_missing c ar s :
  missing_permissions c ar = [] -> s <> SSelf -> collects c s ->
  ep_perm (flush_endpoint s) ∈ ar_Permissions ar.
Proof.
  intros Hm Hs Hc%collects_enabled. apply dec_stable. intros Hn.
  assert (ep_perm (flush_endpoint s) ∈ missing_permissions c ar) as Hin; [|rewrite Hm in Hin; by apply not_elem_of_nil in Hin].
  apply missing_permissions_spec. split; [done|]. destruct s; cbn; rewrite ?Hc, ?orb_true_r; naive_solver.
Qed.

(** ** The report *)

Section Report.
Context {W X : Type}.
Context (read_file : W -> string -> option bytes).
Context (toml_Unmarshal : bytes -> option (list (string * toml_value X))).
Context (show : toml_value X -> string).
Context (shell : W -> string -> W * option bytes).
Context (open_error : W -> string -> option string).
Context (send : W -> sender_transport -> outgoing -> W * auth_reply).
Context (tail : W -> source_kind -> W * list LogLine).
Context (otlp_port_at : W -> string -> W * otlp_port).
Context (host_stats : W -> host_errors).
Context (container_error : W -> string -> option string).
Context (keys : W -> fs).
Context (noise_text : noise_config_error -> string).
Context (run_text : key_read_error -> string).
Context (decode_text : result bytes bytes -> string).
Context (source_text : string -> string).

#[local] Notation remote_check := (CheckRemoteTokenAndPermissions send keys noise_text decode_text).
#[local] Notation results := (doctor_results read_file toml_Unmarshal show shell open_error send tail
  otlp_port_at host_stats container_error keys noise_text run_text decode_text source_text).
#[local] Notation run := (doctor_Run read_file toml_Unmarshal show shell open_error send tail
  otlp_port_at host_stats container_error keys noise_text run_text decode_text source_text).

(** The first three checks; the response is there exactly when the token is valid. *)
Lemma remote_results w c w' rs ar :
  remote_check w c = (w', (rs, ar)) ->
  exists r1 r2 r3, rs = [r1; r2; r3]
  /\ cr_Name r1 = name_remote /\ cr_Name r2 = name_token /\ cr_Name r3 = name_perms
  /\ cr_Status r1 <> StatusGrey /\ cr_Status r2 <> StatusGrey /\ cr_Status r3 <> StatusGrey
  /\ match ar with
     | Some a => cr_Status r2 = StatusGreen /\ r3 = checkPermissions c a
     | None => cr_Status r2 <> StatusGreen
     end.
Proof.
  unfold CheckRemoteTokenAndPermissions, unreachable, three.
  destruct (IsPlaceholder _); [intros [= <- <- <-]; by do 3 eexists|].
  destruct (IsPlaceholder _); [intros [= <- <- <-]; by do 3 eexists|].
  destruct (buildAuthCheckClient (keys w) c) as [[client url]|e]; [|intros [= <- <- <-]; by do 3 eexists].
  destruct (send _ _ _) as [w1 [t|t|status body]]; [intros [= <- <- <-]; by do 3 eexists..|].
  destruct (negb _); [intros [= <- <- <-]; by do 3 eexists|].
  destruct (Decode_stream body) as [a|]; [|intros [= <- <- <-]; by do 3 eexists].
  intros [= <- <- <-]. do 3 eexists. split; [done|]. unfold checkPermissions.
  by destruct (missing_permissions c a).
Qed.

(** Grey stands for an enabled collector whose permission the token lacks, so that the
    permission check is red. *)
Lemma grey_missing c ar p :
  not_granted (Some ar) p = true ->
  (p = "rpc" /\ rpc_Enabled (c_RPC c) = true \/ p = "metrics" /\ (res_Enabled (c_Resources c) = true \/ md_Enabled (c_Metadata c) = true)
   \/ p = "logs" /\ logs_Enabled (c_Logs c) = true \/ p = "otlp" /\ otlp_Enabled (c_OTLP c) = true) ->
  cr_Status (checkPermissions c ar) = StatusRed.
Proof.
  unfold not_granted. intros Hn%negb_true_iff Hp. apply checkPermissions_red. intros Hm.
  assert (p ∈ missing_permissions c ar) as Hin; [|rewrite Hm in Hin; by apply not_elem_of_nil in Hin].
  apply missing_permissions_spec. split.
  - intros Hin%str_elem_spec. by rewrite Hin in Hn.
  - rewrite orb_true_iff. naive_solver.
Qed.

(** The name of a later check, and where a grey one comes from. *)
Definition later_check (c : SnConfig) (ar : option AuthResponse) (name : string) (r : CheckResult) : Prop :=
  cr_Name r = name
  /\ (cr_Status r = StatusGrey -> exists a, ar = Some a /\ cr_Status (checkPermissions c a) = StatusRed).

Definition plain_check (name : string) (r : CheckResult) : Prop := cr_Name r = name /\ cr_Status r <> StatusGrey.

Lemma plain_later c ar name r : plain_check name r -> later_check c ar name r.
Proof. by intros [Hn Hs]. Qed.

(** The gate in front of every later check but the last. *)
Lemma gate_later c ar name enabled perm d1 d2 r :
  (enabled = true ->
   perm = "rpc" /\ rpc_Enabled (c_RPC c) = true \/ perm = "metrics" /\ (res_Enabled (c_Resources c) = true \/ md_Enabled (c_Metadata c) = true)
   \/ perm = "logs" /\ logs_Enabled (c_Logs c) = true \/ perm = "otlp" /\ otlp_Enabled (c_OTLP c) = true) ->
  plain_check name r ->
  later_check c ar name
    (if negb enabled then mkCheck name StatusOrange d1
     else if not_granted ar perm then mkCheck name StatusGrey d2 else r).
Proof.
  intros Hen Hr. destruct enabled; cbn [negb]; [|by apply plain_later].
  destruct (not_granted ar perm) eqn:Hn; [|by apply plain_later]. split; [done|]. intros _.
  destruct ar as [a|]; [|done]. exists a. split; [done|]. by eapply grey_missing; [|apply Hen].
Qed.

(** The result of a check that passes a gate. *)
Lemma if_snd {A B} (b : bool) (x y : A * B) : (if b then x else y).2 = if b then x.2 else y.2.
Proof. by destruct b. Qed.

Lemma CheckMetadataConfig_plain w m :
  plain_check name_metadata (CheckMetadataConfig read_file toml_Unmarshal show shell open_error run_text w m).2.
Proof.
  unfold CheckMetadataConfig, check_metadata_config. destruct (_ && _); [done|]. destruct (negb _).
  - destruct (IsPlaceholder _); [done|]. by destruct (open_error _ _).
  - destruct (RunCmd _ _ _) as [w1 [v|e]]; done.
Qed.

Lemma metadataCheck_later w c ar : later_check c ar name_metadata (metadataCheck read_file toml_Unmarshal show shell open_error run_text w c ar).2.
Proof. unfold metadataCheck. rewrite !if_snd. apply gate_later; [naive_solver|apply CheckMetadataConfig_plain]. Qed.

Lemma CheckLogs_plain lines lvl : plain_check name_logs (CheckLogs lines lvl).
Proof. unfold CheckLogs. by repeat case_match. Qed.

Lemma logsCheck_later w c ar : later_check c ar name_logs (logsCheck tail source_text w c ar).2.
Proof.
  unfold logsCheck. rewrite !if_snd. apply gate_later; [naive_solver|]. destruct (NewSource _ _ _ _); [|done].
  destruct (tail _ _). apply CheckLogs_plain.
Qed.

Lemma otlpCheck_later w c ar : later_check c ar name_otlp (otlpCheck otlp_port_at w c ar).2.
Proof.
  unfold otlpCheck. rewrite !if_snd. apply gate_later; [naive_solver|]. destruct (otlp_port_at _ _) as [w1 p].
  unfold CheckOTLP. by repeat case_match.
Qed.

Lemma resourcesCheck_later w c ar : later_check c ar name_resources (resourcesCheck host_stats container_error w c ar).2.
Proof.
  unfold resourcesCheck. rewrite !if_snd. apply gate_later; [naive_solver|].
  unfold CheckResources. by repeat case_match.
Qed.

Lemma rpcCheck_later c ar : later_check c ar name_rpc (rpcCheck c ar).
Proof. unfold rpcCheck. apply gate_later; [naive_solver|]. by destruct (is_empty _). Qed.

Lemma healthCheck_later c ar : later_check c ar name_health (healthCheck c).
Proof. apply plain_later. unfold healthCheck. by repeat case_match. Qed.

(** The nine checks of every run. *)
Definition check_names : list string :=
  [name_remote; name_token; name_perms; name_metadata; name_logs; name_otlp; name_resources; name_rpc; name_health].

Lemma doctor_results_shape w c w' rs ar :
  results w c = (w', (rs, ar)) ->
  exists r1 r2 r3 rest, rs = [r1; r2; r3] ++ rest
  /\ map cr_Name rs = check_names
  /\ (cr_Status r1 <> StatusGrey /\ cr_Status r2 <> StatusGrey /\ cr_Status r3 <> StatusGrey)
  /\ match ar with Some a => cr_Status r2 = StatusGreen /\ r3 = checkPermissions c a | None => cr_Status r2 <> StatusGreen end
  /\ Forall (fun r => exists name, later_check c ar name r) rest.
Proof.
  unfold doctor_results. destruct (remote_check w c) as [w1 [remote ar1]] eqn:Hr.
  apply remote_results in Hr as (r1 & r2 & r3 & -> & N1 & N2 & N3 & G1 & G2 & G3 & Ha).
  pose proof (metadataCheck_later w1 c ar1) as Hm. destruct (metadataCheck _ _ _ _ _ _ w1 c ar1) as [w2 m].
  pose proof (logsCheck_later w2 c ar1) as Hl. destruct (logsCheck _ _ w2 c ar1) as [w3 l].
  pose proof (otlpCheck_later w3 c ar1) as Ho. destruct (otlpCheck _ w3 c ar1) as [w4 o].
  pose proof (resourcesCheck_later w4 c ar1) as Hs. destruct (resourcesCheck _ _ w4 c ar1) as [w5 r].
  pose proof (rpcCheck_later c ar1) as Hp. pose proof (healthCheck_later c ar1) as Hh.
  intros [= <- <- <-]. exists r1, r2, r3. eexists. split; [reflexivity|]. cbn [snd] in *.
  split_and!; try done.
  - cbn [map app]. rewrite N1, N2, N3. destruct Hm as [-> _], Hl as [-> _], Ho as [-> _], Hs as [-> _], Hp as [-> _], Hh as [-> _]. done.
  - repeat (constructor; [by eexists|]). constructor.
Qed.

(** C8: A run of the doctor reports the same nine checks in the same order, whatever fails, one
    line each between the header and a blank line; it exits with 1 exactly when a check is
    red and else with 0; and a grey check, an enabled collector that the token may not
    send for, never goes with exit code 0. *)
Theorem doctor_Run_report on w c path format w' out code :
  run on w c path format = (w', (out, code)) ->
  exists rs ar, results w c = (w', (rs, ar))
  /\ map cr_Name rs = check_names
  /\ out = "Validating sentinel config: " +:+ path +:+ newline_text +:+ report_text on format rs +:+ newline_text
  /\ (code = 1 <-> exists r, r ∈ rs /\ cr_Status r = StatusRed)
  /\ (code = 0 <-> forall r, r ∈ rs -> cr_Status r <> StatusRed)
  /\ ((exists r, r ∈ rs /\ cr_Status r = StatusGrey) -> code = 1).
Proof.
  rewrite doctor_Run_eq. destruct (results w c) as [w1 [rs ar]] eqn:Hr. intros [= <- <- Hcode].
  exists rs, ar. split; [done|].
  apply doctor_results_shape in Hr as (r1 & r2 & r3 & rest & -> & Hn & (G1 & G2 & G3) & Ha & Hrest).
  assert (existsb (fun r => bool_decide (cr_Status r = StatusRed)) ([r1; r2; r3] ++ rest) = true
          <-> exists r, r ∈ [r1; r2; r3] ++ rest /\ cr_Status r = StatusRed) as Hex.
  { rewrite existsb_exists. split; intros (r & Hin & Hs); exists r.
    - apply bool_decide_eq_true_1 in Hs. split; [by apply list_elem_of_In|done].
    - apply list_elem_of_In in Hin. split; [done|]. by apply bool_decide_eq_true_2. }
  assert (code = 1 <-> exists r, r ∈ [r1; r2; r3] ++ rest /\ cr_Status r = StatusRed) as H1.
  { rewrite <- Hex, <- Hcode. by destruct (existsb _ _). }
  split_and!; [done|done|done| |].
  - split.
    + intros Hc r Hin Hs. assert (code = 1) as H1c by (apply H1; by exists r). by rewrite Hc in H1c.
    + intros Hall. destruct (existsb _ _); [|done]. destruct (proj1 H1) as (r & Hin & Hs); [done|]. by destruct (Hall r Hin).
  - intros (r & Hin & Hs). apply H1. apply elem_of_app in Hin as [Hin|Hin].
    + repeat (apply elem_of_cons in Hin as [->|Hin]; [done|]). by apply elem_of_nil in Hin.
    + apply list_elem_of_In in Hin. rewrite List.Forall_forall in Hrest. destruct (Hrest r Hin) as (name & _ & Hgrey).
      destruct (Hgrey Hs) as (a & -> & Hred). destruct Ha as [_ ->]. exists (checkPermissions c a). split; [set_solver|done].
Qed.
End Report.

(** ** The doctor and the watchtower *)

(** The answer to the doctor's question, read back. *)
Definition auth_response (who : string) (v : ValidatorConfig) : AuthResponse :=
  mkAuthResponse who (perms v) (LogsMinLevel v).

Lemma from_list_strings l t old :
  Forall valid_utf8 l ->
  (from_json t (JArray (zip (map encode_string l) (map (fun s => JString (sanitize s)) l))) old : option (list string)) = Some l.
Proof.
  intros Hl. unfold from_json at 1, from_list. revert old. induction Hl as [|s l Hs _ IH]; intros old; [done|].
  cbn [map zip_with from_elements fst snd]. rewrite IH.
  change (from_json _ (JString (sanitize s)) _) with (Some (sanitize s)). by rewrite Hs.
Qed.

Lemma permissions_text v :
  Forall valid_utf8 (perms v) ->
  exists j, JText 2 (match Permissions v with
                     | Some ps => encode_array (map encode_string ps)
                     | None => bytes_of_string "null"
                     end) j
  /\ forall t old, (from_json t j old : option (list string)) = Some (perms v).
Proof.
  unfold perms. destruct (Permissions v) as [ps|]; cbn [default]; intros Hp.
  - eexists. split; [apply JText_encode_array with (lv := map (fun s => JString (sanitize s)) ps)|by intros; apply from_list_strings].
    clear Hp. induction ps; constructor; [apply JText_encode_string|done].
  - exists JNull. split; [constructor|done].
Qed.

Lemma auth_check_read_back who v :
  valid_utf8 who -> valid_utf8 (LogsMinLevel v) -> Forall valid_utf8 (perms v) ->
  Decode (auth_check_body who v) = Some (auth_response who v).
Proof.
  intros Hw Hl Hp. unfold auth_check_body. destruct (permissions_text v Hp) as (j & Jp & Dp).
  set (ps := match Permissions v with Some _ => _ | None => _ end) in *.
  assert (JText 3 (encode_object [("validator", encode_string who); ("permissions", ps); ("logs_min_level", encode_string (LogsMinLevel v))])
    (JObject [("validator", (encode_string who, JString (sanitize who))); ("permissions", (ps, j));
       ("logs_min_level", (encode_string (LogsMinLevel v), JString (sanitize (LogsMinLevel v))))])) as HJ.
  { apply JText_encode_object. repeat (constructor; [split_and!; [done|done|first [apply JText_encode_string|done]]|]). constructor. }
  rewrite (Decode_text _ _ _ _ HJ); [|unfold max_nat; change max_depth with 10000; lia|by repeat constructor].
  unfold from_json at 1, from_auth_response, from_struct. cbn [fold_left fst snd].
  erewrite find_field_exact by reflexivity. cbn [fld f_set].
  change (from_json _ (JString (sanitize who)) _) with (Some (sanitize who)). cbn [fmap option_fmap option_map].
  erewrite find_field_exact by reflexivity. cbn [fld f_set ar_Permissions ar_Validator ar_LogsMinLevel].
  rewrite Dp. cbn [fmap option_fmap option_map].
  erewrite find_field_exact by reflexivity. cbn [fld f_set ar_Permissions ar_Validator ar_LogsMinLevel].
  change (from_json _ (JString (sanitize (LogsMinLevel v))) _) with (Some (sanitize (LogsMinLevel v))).
  cbn. by rewrite Hw, Hl.
Qed.

(** An endpoint that an enabled collector, other than the self collector, posts to. *)
Definition uses (c : SnConfig) (e : endpoint) : bool :=
  match e with
  | EpRPC => rpc_Enabled (c_RPC c)
  | EpMetrics => res_Enabled (c_Resources c) || md_Enabled (c_Metadata c)
  | EpLogs => logs_Enabled (c_Logs c)
  | EpOTLP => otlp_Enabled (c_OTLP c)
  end.

Lemma collects_uses c s : s <> SSelf -> collects c s -> uses c (flush_endpoint s) = true.
Proof. intros Hs Hc%collects_enabled. destruct s; cbn in *; rewrite ?Hc, ?orb_true_r; done. Qed.

Lemma checkPermissions_uses c ar :
  cr_Status (checkPermissions c ar) = StatusGreen <-> forall e, uses c e = true -> ep_perm e ∈ ar_Permissions ar.
Proof.
  rewrite checkPermissions_green. split.
  - intros Hm e He. apply dec_stable. intros Hn. apply (not_elem_of_nil (ep_perm e)). rewrite <- Hm.
    apply missing_permissions_spec. split; [done|]. destruct e; cbn in *; naive_solver.
  - intros Hall. destruct (missing_permissions c ar) as [|p l] eqn:Hm; [done|].
    assert (p ∈ missing_permissions c ar) as (Hn & Hp)%missing_permissions_spec by (rewrite Hm; by left).
    destruct Hp as [[H ->]|[[H ->]|[[H ->]|[H ->]]]];
      [destruct Hn; by apply (Hall EpRPC)|destruct Hn; by apply (Hall EpMetrics)
      |destruct Hn; by apply (Hall EpLogs)|destruct Hn; by apply (Hall EpOTLP)].
Qed.

Section Foretells.
Context {W E L : Type} `{PayloadForwarder W E}.
Context (NewLimiter : float64 -> Z -> L).
Context (Allow : L -> Time -> L * bool).
Context (metrics_page : W -> string).

(** The validator a request is let through for. *)
Definition admitted (s : Server (W := W) (L := L)) (r : Request) (ck : auth_clock) (now : Time)
    : option (string * ValidatorConfig) :=
  match (auth_Middleware (srv_auth s) r ck).2 with
  | Authenticated who v => if (allow NewLimiter Allow (srv_rl s) who now).2 then Some (who, v) else None
  | Rejected _ => None
  end.

Lemma auth_Rejected_status a r ck resp :
  (auth_Middleware a r ck).2 = Rejected resp -> StatusCode resp <> StatusOK.
Proof.
  unfold auth_Middleware. destruct (isBanned _ _ _ _ _) as [a1 [|]]; [by intros [= <-]|].
  destruct (tokens a1 !! _); [done|]. by intros [= <-].
Qed.

Lemma serve_auth_check s r ck now :
  Method r = "GET" -> URL_Path r = "/auth/check" ->
  match admitted s r ck now with
  | Some (who, v) => (serve NewLimiter Allow metrics_page s r ck now).2 = handleAuthCheck who v
  | None => StatusCode (serve NewLimiter Allow metrics_page s r ck now).2 <> StatusOK
  end.
Proof.
  intros Hm Hp. unfold serve, admitted. assert (mux_lookup outer_mux (Method r) (URL_Path r) = MuxHandler HInner) as -> by (by rewrite Hm, Hp).
  destruct (auth_Middleware (srv_auth s) r ck) as [[a' effs] out] eqn:Ha. cbn [snd].
  destruct out as [resp|who v].
  - by apply (auth_Rejected_status (srv_auth s) r ck); rewrite Ha.
  - unfold rl_Middleware. change (srv_rl (set_auth s a')) with (srv_rl s).
    destruct (allow NewLimiter Allow (srv_rl s) who now) as [l' [|]]; cbn [snd]; [|done].
    unfold serve_inner. assert (mux_lookup inner_mux (Method r) (URL_Path r) = MuxHandler HAuthCheck) as -> by (by rewrite Hm, Hp).
    done.
Qed.

Lemma bearerToken_sent r tok :
  Header_Get (ReqHeader r) "Authorization" = Header_Get (Header_Set ∅ "Authorization" ("Bearer " +:+ tok)) "Authorization" ->
  bearerToken r = tok.
Proof. intros Hh. unfold bearerToken. rewrite Hh, Header_Get_Set. unfold CutPrefix. by rewrite strip_prefix_app. Qed.

(** What a granted permission is good for. *)
Lemma handlePayload_allowed (s : Server (W := W) (L := L)) r who v e :
  ep_perm e ∈ perms v -> StatusCode (handlePayload s r who v e).2 <> StatusForbidden.
Proof.
  intros Hp. unfold handlePayload. rewrite bool_decide_eq_true_2 by done. cbn [negb].
  destruct (read_body r) as [b|]; [|done]. by destruct (forward _ _ _ _ _) as [[w' ops] [|]].
Qed.

Context {W' : Type}.
Context (send : W' -> sender_transport -> outgoing -> W' * auth_reply).
Context (keys : W' -> fs).
Context (noise_text : noise_config_error -> string).
Context (decode_text : result bytes bytes -> string).

(** C7: The doctor asks the watchtower, and its answer is the truth about the sentinel's
    token. If the watchtower lets the question through (registered token, address not
    banned, within rate) the token check is green and names the validator; the permission
    check is green exactly when every endpoint that an enabled collector posts to is
    permitted, and then the watchtower forbids no payload of such a collector. If it does
    not, the token check and the permission check are red. The token asked about is the
    configured one. *)
Theorem doctor_foretells w c client url w' s r ck now :
  IsPlaceholder (sv_URL (c_Server c)) = false -> IsPlaceholder (sv_Token (c_Server c)) = false ->
  buildAuthCheckClient (keys w) c = Ok (client, url) ->
  carries "/auth/check" (auth_check_request url (sv_Token (c_Server c))) r ->
  (let resp := (serve NewLimiter Allow metrics_page s r ck now).2 in
   send w client (auth_check_request url (sv_Token (c_Server c)))
   = (w', ReplyStatus (StatusCode resp) (Ok (bytes_of_string (RespBody resp))))) ->
  (forall who v, admitted s r ck now = Some (who, v) ->
     valid_utf8 who /\ valid_utf8 (LogsMinLevel v) /\ Forall valid_utf8 (perms v)) ->
  bearerToken r = sv_Token (c_Server c)
  /\ exists token_check perms_check ar,
    CheckRemoteTokenAndPermissions send keys noise_text decode_text w c
    = (w', ([mkCheck name_remote StatusGreen (sv_URL (c_Server c)); token_check; perms_check], ar))
  /\ match admitted s r ck now with
     | Some (who, v) =>
         ar = Some (auth_response who v)
         /\ token_check = mkCheck name_token StatusGreen ("validator: " +:+ who)
         /\ (cr_Status perms_check = StatusGreen <-> forall e, uses c e = true -> ep_perm e ∈ perms v)
         /\ (cr_Status perms_check = StatusGreen ->
             forall src (s' : Server (W := W) (L := L)) r', src <> SSelf -> collects c src ->
             StatusCode (handlePayload s' r' who v (flush_endpoint src)).2 <> StatusForbidden)
     | None => ar = None /\ cr_Status token_check = StatusRed /\ cr_Status perms_check = StatusRed
     end.
Proof.
  intros Hu Ht Hb (Hm & Hp & Hh & _) Hsend Hutf. cbn [out_method out_header auth_check_request] in Hm, Hh.
  split; [by rewrite (bearerToken_sent r _ Hh)|].
  unfold CheckRemoteTokenAndPermissions. rewrite Hu, Ht, Hb, Hsend.
  pose proof (serve_auth_check s r ck now Hm Hp) as Hs.
  destruct (admitted s r ck now) as [[who v]|].
  - rewrite Hs. destruct (Hutf who v eq_refl) as (H1 & H2 & H3).
    cbn [StatusCode handleAuthCheck RespBody]. rewrite bytes_of_string_of_bytes. cbn [negb Z.eqb StatusOK Pos.eqb].
    unfold Decode_stream. rewrite auth_check_read_back by done. do 3 eexists. split; [reflexivity|].
    split; [done|]. split; [done|]. split; [apply checkPermissions_uses|].
    intros Hg src s' r' Hne Hc. apply handlePayload_allowed.
    by apply (proj1 (checkPermissions_uses c (auth_response who v)) Hg), collects_uses.
  - set (resp := (serve _ _ _ _ _ _ _).2) in *. rewrite (proj2 (Z.eqb_neq _ _) Hs). cbn [negb].
    by do 3 eexists.
Qed.
End Foretells.

(** ** The log check *)

Definition at_level (minLevel : string) (l : LogLine) : bool := LevelRank minLevel <=? LevelRank (line_Level l).
Definition bad_line (l : LogLine) : bool := negb (json_valid (raw_text (line_Raw l))).
Definition count_if {A} (f : A -> bool) (l : list A) : Z := Z.of_nat (length (List.filter f l)).

Lemma count_if_cons {A} (f : A -> bool) x l : count_if f (x :: l) = (if f x then 1 else 0) + count_if f l.
Proof. unfold count_if. cbn [List.filter]. destruct (f x); cbn [length]; lia. Qed.

Lemma count_if_zero {A} (f : A -> bool) l : count_if f l = 0 <-> forall x, x ∈ l -> f x = false.
Proof.
  induction l as [|x l IH]; [split; [by intros _ x ?%not_elem_of_nil|done]|]. rewrite count_if_cons.
  assert (0 <= count_if f l) by (unfold count_if; lia). split.
  - intros Hz y [->|Hy]%elem_of_cons; [destruct (f x); [lia|done]|]. apply IH; [destruct (f x); lia|done].
  - intros Hall. rewrite (Hall x) by (by left). rewrite (proj2 IH); [done|]. intros y Hy. apply Hall. by right.
Qed.

Lemma count_lines lines minLevel n :
  fold_left (count_line minLevel) lines n
  = mkLogCounts (lg_total n + Z.of_nat (length lines)) (lg_invalidJSON n + count_if bad_line lines)
      (lg_atLevel n + count_if (at_level minLevel) lines).
Proof.
  revert n. induction lines as [|l lines IH]; intros n; cbn [fold_left length].
  - destruct n. cbn. f_equal; unfold count_if; cbn; lia.
  - rewrite IH, !count_if_cons. unfold count_line, bad_line, at_level. cbn [lg_total lg_invalidJSON lg_atLevel].
    f_equal; repeat case_match; lia.
Qed.

(** Green: something was received, all of it JSON, and some of it at the level. *)
Theorem CheckLogs_green lines minLevel :
  cr_Status (CheckLogs lines minLevel) = StatusGreen <->
    (forall l, l ∈ lines -> bad_line l = false) /\ exists l, l ∈ lines /\ at_level minLevel l = true.
Proof.
  unfold CheckLogs. rewrite count_lines. cbn [lg_total lg_invalidJSON lg_atLevel].
  pose proof (count_if_zero bad_line lines) as Hb. pose proof (count_if_zero (at_level minLevel) lines) as Ha.
  assert (0 <= count_if bad_line lines) by (unfold count_if; lia).
  assert ((exists l, l ∈ lines /\ at_level minLevel l = true) <-> count_if (at_level minLevel) lines <> 0) as ->.
  { rewrite Ha. split; [intros (l & Hl & Hat) Hn; by rewrite (Hn l Hl) in Hat|]. intros Hn.
    destruct (List.filter (at_level minLevel) lines) as [|l rest] eqn:Hf.
    - destruct Hn. apply Ha. unfold count_if. by rewrite Hf.
    - exists l. pose proof (in_eq l rest) as Hin. rewrite <- Hf in Hin.
      apply filter_In in Hin as [Hin Hl]. split; [by apply list_elem_of_In|done]. }
  rewrite <- Hb. destruct (Z.eqb_spec (0 + Z.of_nat (length lines)) 0) as [H0|H0].
  { assert (lines = []) as -> by (destruct lines; [done|cbn in H0; lia]). by split; [|intros [_ Hn]; destruct Hn]. }
  destruct (Z.ltb_spec 0 (0 + count_if bad_line lines)); [split; [done|]; lia|].
  destruct (Z.eqb_spec (0 + count_if (at_level minLevel) lines) 0); cbn; split; try done; lia.
Qed.

(** Lines of a log source are never found to be invalid. *)
Theorem CheckLogs_source lines minLevel :
  (forall l, l ∈ lines -> exists raw now, source_line raw now = Some l) ->
  cr_Status (CheckLogs lines minLevel) = StatusGreen <-> exists l, l ∈ lines /\ at_level minLevel l = true.
Proof.
  intros Hs. rewrite CheckLogs_green. split; [by intros [_ ?]|]. intros Hl. split; [|done]. intros l (raw & now & Hr)%Hs.
  unfold bad_line. by rewrite (source_line_valid _ _ _ Hr).
Qed.

(** ** Evaluations *)

Definition doc_config (rpc self : bool) (level : string) : SnConfig :=
  mkSnConfig (mkServerConfig "http://watchtower.example" "ta") (mkBeaconConfig EmptyString EmptyString)
    (mkRPCConfig rpc Second "http://localhost:26657" Second Second Second)
    (mkLogsConfig false "docker" "node" EmptyString 1024 Second level 0)
    (mkOTLPConfig false EmptyString) (mkResourcesConfig false Second "host" EmptyString)
    (mkMetadataConfig false Second Second EmptyString EmptyString) (mkSelfConfig self Second)
    (mkHealthConfig false EmptyString).

(** The self collector posts to the metrics endpoint, and the doctor does not look whether
    it may: its permission check is green while the reports are forbidden. *)
Theorem doctor_misses_self :
  let c := doc_config false true "info" in
  let v := mkValidatorConfig "ta" (Some ["rpc"]) "info" in
  cr_Status (checkPermissions c (auth_response "alice" v)) = StatusGreen
  /\ collects c SSelf
  /\ forall r, StatusCode (handlePayload sample_server r "alice" v (flush_endpoint SSelf)).2 = StatusForbidden.
Proof. split; [reflexivity|]. split; [by vm_compute; eexists|]. reflexivity. Qed.

(** A validator without a minimum level is not filtered by the watchtower, but the doctor
    ranks the empty level as info, above a configured debug: a sentinel whose lines are all
    wanted is reported red. *)
Theorem doctor_empty_min_level :
  let c := doc_config false true "debug" in
  let lines := [mkLogLineIn "debug" (mkRaw (jq "{'level':'debug'}"))] in
  doctor_min_level c (Some (auth_response "alice" (mkValidatorConfig "ta" None EmptyString))) = EmptyString
  /\ cr_Status (CheckLogs lines EmptyString) = StatusRed
  /\ cr_Status (CheckLogs lines (MinLevel (c_Logs c))) = StatusGreen.
Proof. vm_compute. by split_and!. Qed.

(** A source that fails at once is reported as one without lines: the error is not looked
    at. *)
Theorem doctor_hides_tail_error unit_ minLevel :
  is_Ok (JournaldStub_Tail unit_).2 = false
  /\ cr_Detail (CheckLogs (JournaldStub_Tail unit_).1 minLevel) = "no lines received in 3s".
Proof. by split. Qed.

(** The watchtower's answer to the doctor of a sentinel that collects from the RPC. *)
Definition doc_question : Request :=
  mkRequest "GET" "/auth/check" "/auth/check" {["Authorization" := ["Bearer ta"]]} "10.0.0.7:51234" (Ok []).

Definition doc_send (w : unit) (_ : sender_transport) (_ : outgoing) : unit * auth_reply :=
  let resp := (serve count_new count_allow (fun _ => EmptyString) sample_server doc_question sample_clock Minute).2 in
  (w, ReplyStatus (StatusCode resp) (Ok (bytes_of_string (RespBody resp)))).

Lemma doctor_foretells_witness :
  let c := doc_config true false "info" in
  exists token_check perms_check ar,
    CheckRemoteTokenAndPermissions doc_send (fun _ => mkFs ∅ ∅) (fun _ => EmptyString) (fun _ => EmptyString) tt c
    = (tt, ([mkCheck name_remote StatusGreen "http://watchtower.example"; token_check; perms_check], ar))
  /\ cr_Detail token_check = "validator: alice" /\ cr_Status perms_check = StatusGreen.
Proof.
  cbn zeta. destruct (doctor_foretells (E := unit) count_new count_allow (fun _ => EmptyString) doc_send (fun _ => mkFs ∅ ∅)
    (fun _ => EmptyString) (fun _ => EmptyString) tt (doc_config true false "info") PlainTransport
    "http://watchtower.example/auth/check" tt sample_server doc_question sample_clock Minute) as (_ & t & p & ar & H & Hm).
  - reflexivity.
  - reflexivity.
  - reflexivity.
  - split_and!; reflexivity.
  - reflexivity.
  - intros who v Ha. vm_compute in Ha. injection Ha as <- <-. apply (bool_decide_unpack _). vm_compute. exact I.
  - exists t, p, ar. split; [exact H|].
    assert (Ha : admitted count_new count_allow sample_server doc_question sample_clock Minute
            = Some ("alice", mkValidatorConfig "ta" (Some ["rpc"; "otlp"]) "info")) by (vm_compute; reflexivity).
    rewrite Ha in Hm. destruct Hm as (_ & -> & Hg & _). split; [reflexivity|]. apply Hg.
    intros e He. destruct e; try discriminate He. left.
Defined.

Definition doc_run (c : SnConfig) (format : Format) :=
  doctor_Run (X := unit) (fun _ _ => None) (fun _ => None) (fun _ => EmptyString) (fun w _ => (w, None)) (fun _ _ => None)
    doc_send (fun w _ => (w, [])) (fun w _ => (w, PortTaken)) (fun _ => mkHostErrors None None None None) (fun _ _ => None)
    (fun _ => mkFs ∅ ∅) (fun _ => EmptyString) (fun _ => EmptyString) (fun _ => EmptyString) (fun s => s) false tt c
    "sentinel.toml" format.

Example doc_run_example :
  doc_run (doc_config true false "info") FormatPlain =
  (tt, (println "Validating sentinel config: sentinel.toml"
        +:+ println "  [GREEN] Watchtower           http://watchtower.example"
        +:+ println "  [GREEN] Token valid          validator: alice"
        +:+ println "  [GREEN] Token permissions    granted: rpc, otlp"
        +:+ println "  [ORANGE] Metadata config      disabled in config"
        +:+ println "  [ORANGE] Logs                 disabled in config"
        +:+ println "  [ORANGE] OTLP                 disabled in config"
        +:+ println "  [ORANGE] Resources            disabled in config"
        +:+ println "  [GREEN] RPC                  configured: http://localhost:26657"
        +:+ println "  [ORANGE] Health               disabled in config"
        +:+ newline_text, 0)).
Proof. vm_compute. reflexivity. Qed.

Lemma doctor_Run_report_witness :
  exists out, doc_run (doc_config true false "info") FormatPlain = (tt, (out, 0)).
Proof.
  destruct (doc_run (doc_config true false "info") FormatPlain) as [w' [out code]] eqn:E. destruct w'.
  destruct (doctor_Run_report (X := unit) (fun _ _ => None) (fun _ => None) (fun _ => EmptyString) (fun w _ => (w, None)) (fun _ _ => None)
    doc_send (fun w _ => (w, [])) (fun w _ => (w, PortTaken)) (fun _ => mkHostErrors None None None None) (fun _ _ => None)
    (fun _ => mkFs ∅ ∅) (fun _ => EmptyString) (fun _ => EmptyString) (fun _ => EmptyString) (fun s => s) false tt
    (doc_config true false "info") "sentinel.toml" FormatPlain tt out code E) as (rs & ar & Hr & _ & _ & _ & H0 & _).
  exists out. do 2 f_equal. apply H0. vm_compute in Hr. injection Hr as <- _.
  intros r Hin. repeat (apply elem_of_cons in Hin as [->|Hin]; [discriminate|]). by apply elem_of_nil in Hin.
Defined.
