(* ===== verification/BeaconDoctor.v ===== *)
(** * internal/beacon/doctor

    The checks of [beacon doctor]. Its status and result types are those of the sentinel's
    doctor without the grey status; its check of the metadata settings is the sentinel's up
    to one text, with the beacon's configuration record. The world is as in Doctor. *)

From Stdlib Require Import Ascii.
From S2P Require Import Prelude GoStrings GoTime GoHttp GoUrl NoiseConfig Sender SentinelConfig Metadata BeaconConfig BeaconServer NoiseListen Augment Beacon Console Doctor.

Local Open Scope Z_scope.

(** ** report.go *)

Definition bdoc_formatResult (on : bool) (r : CheckResult) : string :=
  match cr_Status r with
  | StatusGreen => ts_OK on (cr_Name r) (cr_Detail r)
  | StatusRed => ts_Fail on (cr_Name r) (cr_Detail r)
  | StatusOrange => ts_Off on (cr_Name r) (cr_Detail r)
  | _ => ts_Fail on (cr_Name r) (cr_Detail r)
  end.

(** ** keys.go *)

Definition name_keypair : string := "Beacon keypair".
Definition name_authorized : string := "Authorized sentinel keys".

Definition CheckKeypair (f : fs) (key_text : key_error -> string) (c : BcBeacon) : CheckResult :=
  if bc_IsPlaceholder (bb_KeysDir c) then mkCheck name_keypair StatusOrange "beacon.keys_dir not configured"
  else match LoadKeypair f (bb_KeysDir c) with
       | Err e => mkCheck name_keypair StatusRed (key_text e)
       | Ok _ => mkCheck name_keypair StatusGreen (bb_KeysDir c)
       end.

Definition CheckAuthorizedKeys (c : BcBeacon) : CheckResult :=
  if Nat.eqb (length (bb_AuthorizedKeys c)) 0
  then mkCheck name_authorized StatusOrange "none configured (any sentinel may connect)"
  else mkCheck name_authorized StatusGreen (Itoa (Z.of_nat (length (bb_AuthorizedKeys c))) +:+ " key(s) configured").

(** ** watchtower.go and rpc.go

    A GET without a body or headers; of the response only the status is looked at. *)

Inductive probe_reply := ProbeCreateFailed (text : string) | ProbeFailed (text : string) | ProbeStatus (status : Z).

Definition probe_result (name path detail : string) (r : probe_reply) : CheckResult :=
  match r with
  | ProbeCreateFailed text => mkCheck name StatusRed ("build request: " +:+ text)
  | ProbeFailed text => mkCheck name StatusRed ("unreachable: " +:+ text)
  | ProbeStatus status =>
      if negb (status =? StatusOK) then mkCheck name StatusRed (path +:+ " returned HTTP " +:+ Itoa status)
      else mkCheck name StatusGreen detail
  end.

Section BeaconDoctor.
Context {W X : Type}.
Context (read_file : W -> string -> option bytes).
Context (toml_Unmarshal : bytes -> option (list (string * toml_value X))).
Context (show : toml_value X -> string).
Context (shell : W -> string -> W * option bytes).
Context (open_error : W -> string -> option string).
(** GET of a URL within a time limit. *)
Context (probe : W -> string -> Duration -> W * probe_reply).
Context (keys : W -> fs).
Context (key_text : key_error -> string).
Context (run_text : key_read_error -> string).

Definition CheckWatchtower (w : W) (serverURL : string) : W * CheckResult :=
  if bc_IsPlaceholder serverURL then (w, mkCheck name_remote StatusOrange "server.url not configured")
  else
    let '(w, r) := probe w (serverURL +:+ "/health") (10 * Second) in
    (w, probe_result name_remote "/health" serverURL r).

Definition CheckRPC (w : W) (rpcURL : string) : W * CheckResult :=
  if is_empty rpcURL then (w, mkCheck name_rpc StatusRed "rpc.rpc_url not set")
  else
    let '(w, r) := probe w (rpcURL +:+ "/status") (5 * Second) in
    (w, probe_result name_rpc "/status" rpcURL r).

Definition bdoc_CheckMetadataConfig (w : W) (m : BcMetadata) : W * CheckResult :=
  check_metadata_config read_file toml_Unmarshal show shell open_error run_text
    "not configured (augmentation disabled)" w (bm_ConfigPath m) (bm_ConfigGetCmd m).

Definition bdoc_emit (on : bool) (st : string * bool) (r : CheckResult) : string * bool :=
  (st.1 +:+ println (bdoc_formatResult on r), if bool_decide (cr_Status r = StatusRed) then true else st.2).

(** What is written and the exit code. *)
Definition bdoc_Run (on : bool) (w : W) (c : BcConfig) (configPath : string) : W * (string * Z) :=
  let st := ("Validating beacon config: " +:+ configPath +:+ newline_text, false) in
  let '(w, r) := CheckWatchtower w (bs_URL (bc_Server c)) in let st := bdoc_emit on st r in
  let st := bdoc_emit on st (CheckKeypair (keys w) key_text (bc_Beacon c)) in
  let st := bdoc_emit on st (CheckAuthorizedKeys (bc_Beacon c)) in
  let '(w, r) := CheckRPC w (br_RPCURL (bc_RPC c)) in let st := bdoc_emit on st r in
  let '(w, r) := bdoc_CheckMetadataConfig w (bc_Metadata c) in
  let '(out, hasRed) := bdoc_emit on st r in
  (w, (out +:+ newline_text, if hasRed : bool then 1 else 0)).

(** ** Facts *)

Definition bdoc_results (w : W) (c : BcConfig) : W * list CheckResult :=
  let '(w, r1) := CheckWatchtower w (bs_URL (bc_Server c)) in
  let r2 := CheckKeypair (keys w) key_text (bc_Beacon c) in
  let r3 := CheckAuthorizedKeys (bc_Beacon c) in
  let '(w, r4) := CheckRPC w (br_RPCURL (bc_RPC c)) in
  let '(w, r5) := bdoc_CheckMetadataConfig w (bc_Metadata c) in
  (w, [r1; r2; r3; r4; r5]).

Lemma bdoc_Run_eq on w c path :
  bdoc_Run on w c path =
    let '(w', rs) := bdoc_results w c in
    (w', ("Validating beacon config: " +:+ path +:+ newline_text
          +:+ foldr (fun r s => println (bdoc_formatResult on r) +:+ s) newline_text rs,
          if existsb (fun r => bool_decide (cr_Status r = StatusRed)) rs then 1 else 0)).
Proof.
  unfold bdoc_Run, bdoc_results, bdoc_emit.
  destruct (CheckWatchtower w _) as [w1 r1]. destruct (CheckRPC w1 _) as [w2 r4].
  destruct (bdoc_CheckMetadataConfig w2 _) as [w3 r5]. cbn [foldr existsb fst snd].
  rewrite !string_app_assoc. by repeat case_bool_decide.
Qed.

Definition beacon_check_names : list string := [name_remote; name_keypair; name_authorized; name_rpc; name_metadata].

Lemma probe_result_name name path detail r : cr_Name (probe_result name path detail r) = name.
Proof. destruct r as [| |status]; [done..|]. cbn [probe_result]. by destruct (negb _). Qed.

Lemma CheckWatchtower_name w url : cr_Name (CheckWatchtower w url).2 = name_remote.
Proof. unfold CheckWatchtower. destruct (bc_IsPlaceholder url); [done|]. destruct (probe _ _ _). apply probe_result_name. Qed.

Lemma CheckRPC_name w url : cr_Name (CheckRPC w url).2 = name_rpc.
Proof. unfold CheckRPC. destruct (is_empty url); [done|]. destruct (probe _ _ _). apply probe_result_name. Qed.

Lemma CheckKeypair_name f c : cr_Name (CheckKeypair f key_text c) = name_keypair.
Proof. unfold CheckKeypair. destruct (bc_IsPlaceholder _); [done|]. by destruct (LoadKeypair _ _). Qed.

Lemma CheckAuthorizedKeys_name c : cr_Name (CheckAuthorizedKeys c) = name_authorized.
Proof. unfold CheckAuthorizedKeys. by destruct (Nat.eqb _ _). Qed.

Lemma bdoc_CheckMetadataConfig_name w m : cr_Name (bdoc_CheckMetadataConfig w m).2 = name_metadata.
Proof.
  unfold bdoc_CheckMetadataConfig, check_metadata_config. destruct (_ && _); [done|]. destruct (negb _).
  - destruct (IsPlaceholder _); [done|]. by destruct (open_error _ _).
  - destruct (RunCmd _ _ _) as [w1 [v|e]]; done.
Qed.

(** Five checks in a fixed order; the exit code is 0 exactly when none is red. *)
Theorem bdoc_Run_report on w c path :
  let '(w', (out, code)) := bdoc_Run on w c path in
  exists rs, bdoc_results w c = (w', rs) /\ map cr_Name rs = beacon_check_names
  /\ code = if existsb (fun r => bool_decide (cr_Status r = StatusRed)) rs then 1 else 0.
Proof.
  rewrite bdoc_Run_eq. destruct (bdoc_results w c) as [w' rs] eqn:Hr. exists rs. split; [done|]. split; [|done].
  unfold bdoc_results in Hr. pose proof (CheckWatchtower_name w (bs_URL (bc_Server c))) as H1.
  destruct (CheckWatchtower w _) as [w1 r1]. pose proof (CheckRPC_name w1 (br_RPCURL (bc_RPC c))) as H2.
  destruct (CheckRPC w1 _) as [w2 r4]. pose proof (bdoc_CheckMetadataConfig_name w2 (bc_Metadata c)) as H3.
  destruct (bdoc_CheckMetadataConfig w2 _) as [w3 r5]. injection Hr as _ <-. cbn [map snd] in *.
  by rewrite H1, H2, H3, CheckKeypair_name, CheckAuthorizedKeys_name.
Qed.

(** A green key check foretells that the beacon gets past its keys: with a configuration
    that loads, start-up then fails only at the upstream's URL or the port. *)
Theorem CheckKeypair_foretells {E} w c (url_Parse : string -> result URL E) bound now :
  bc_validate c = Ok tt -> bc_IsPlaceholder (bb_KeysDir (bc_Beacon c)) = false ->
  (cr_Status (CheckKeypair (keys w) key_text (bc_Beacon c)) = StatusGreen
   <-> forall e, bapp_Run (keys w) url_Parse bound c now <> BaKeysError e).
Proof.
  intros Hv%bc_validate_valid Hp. unfold CheckKeypair, bapp_Run, bc_NoiseConfig. rewrite Hp.
  destruct (LoadKeypair (keys w) _) as [kp|e]; cbn [map_err result_bind].
  - split; [|done]. intros _ e. destruct (bv_allow _ Hv) as [pubs Hpubs].
    destruct (bb_AuthorizedKeys (bc_Beacon c)) as [|k ks]; [|rewrite Hpubs; cbn [map_err result_bind]];
      (destruct (bserver_New _ _); [|done]); by destruct (NewListener _ _ _).
  - split; [done|]. intros Hn. by destruct (Hn (ErrBcLoadKeypair e)).
Qed.
End BeaconDoctor.

Lemma CheckKeypair_foretells_witness :
  cr_Status (CheckKeypair noise_files (fun _ => EmptyString) (bc_Beacon sample_bc)) = StatusGreen
  /\ forall e, bapp_Run (E := unit) noise_files (fun _ => Ok sample_upstream) None sample_bc 0 <> BaKeysError e.
Proof.
  assert (cr_Status (CheckKeypair noise_files (fun _ => EmptyString) (bc_Beacon sample_bc)) = StatusGreen) as H
    by (vm_compute; reflexivity).
  split; [exact H|].
  apply (CheckKeypair_foretells (fun _ : unit => noise_files) (fun _ => EmptyString) tt sample_bc); [vm_compute; reflexivity|vm_compute; reflexivity|exact H].
Defined.

Example bdoc_Run_example :
  bdoc_Run (X := unit) (fun _ _ => None) (fun _ => None) (fun _ => EmptyString) (fun w _ => (w, None)) (fun _ _ => None)
    (fun w u _ => (w, if HasSuffix u "/health" then ProbeStatus 200 else ProbeFailed "connection refused"))
    (fun _ => noise_files) (fun _ => EmptyString) (fun _ => EmptyString) false tt sample_bc "beacon.toml"
  = (tt, (println "Validating beacon config: beacon.toml"
          +:+ println "  ✔ Watchtower           https://watchtower.example"
          +:+ println "  ✔ Beacon keypair       keys"
          +:+ println "  ✔ Authorized sentinel keys 1 key(s) configured"
          +:+ println "  ✘ RPC                  unreachable: connection refused"
          +:+ println "  ○ Metadata config      not configured (augmentation disabled)"
          +:+ newline_text, 1)).
Proof. vm_compute. reflexivity. Qed.
