(* ===== verification/Cmd.v ===== *)
(** * Commands: what the three programs have in common

    A command reads and changes a host: its files, the rest of the world, and the two
    output streams; and it ends with a result or with the exit code of the process. Standard
    error is a list of entries, because the messages of the flag and log packages and of the
    errors are not spelled out. [keygenCmd], [versionCmd] and the first part of [runCmd] are
    the same in the programs that have them. *)

From Stdlib Require Import Ascii.
From S2P Require Import Prelude GoStrings GoPath GoFlag Console Logger NoiseConfig WtConfig SentinelConfig BeaconConfig.

Local Open Scope Z_scope.

(** ** Files *)

(** The path and all the directories above it. *)
Definition ancestors (p : string) : list string :=
  let rooted := is_rooted p in
  let comps := rev (clean_stack rooted (Split p slash)) in
  path_Clean p :: map (fun i => render rooted (take i comps)) (seq 1 (length comps)).

(** [os.MkdirAll]: fails when a file is in the way. *)
Definition MkdirAll (f : fs) (path : string) : option fs :=
  if bool_decide (path = EmptyString \/ Exists (fun a => is_Some (files f !! a)) (ancestors path)) then None
  else Some (mkFs (list_to_set (ancestors path) ∪ dirs f) (files f)).

(** [os.Create]: an existing file is emptied and keeps its mode, a new one gets [0o666]. *)
Definition Create (f : fs) (path : string) : option fs := WriteFile f path [] 438.

(** [os.Remove] of a file. *)
Definition Remove (f : fs) (path : string) : option fs :=
  let p := path_Clean path in
  match files f !! p with Some _ => Some (mkFs (dirs f) (delete p (files f))) | None => None end.

(** Writes to a file that is open. *)
Definition write_open (f : fs) (path : string) (b : bytes) : fs :=
  mkFs (dirs f) (alter (fun x => mkFile (mode x) (content x ++ b)) (path_Clean path) (files f)).

(** ** Messages *)

Inductive generate_error := GenMarshal (e : string) | GenWrite (path : string).

(** What [log.Fatalf] reports. The errors of the libraries are texts. *)
Inductive fatal :=
| FatalKeysDir (dir : string)
| FatalGenerateKeypair (e : string)
| FatalWriteKeypair (e : key_error)
| FatalSnLoad (e : sn_load_error string)
| FatalBcLoad (e : bc_load_error string)
| FatalWtLoad (e : load_error string)
| FatalLogLevel (level : string)
| FatalInitLogger (e : logger_error string)
| FatalCreate (path : string)
| FatalGenerate (e : generate_error)
| FatalServe (e : string).

(** An entry of standard error: a line of the program's own, the message of a flag error,
    [PrintDefaults], the usage of a flag set without one of its own, a fatal error, the
    warning about a file that could not be removed, or the format [doctor] does not know. *)
Inductive err_entry :=
| ELine (text : string)
| EFlagError (e : flag_error)
| EDefaults (fl : flags)
| EDefaultUsage (name : string) (fl : flags)
| EFatal (e : fatal)
| ECleanup (path : string)
| EInvalidFormat (format : string).

(** ** The host and the commands *)

Record host (X : Type) := mkHost { h_fs : fs; h_rest : X; h_out : string; h_err : list err_entry }.
Arguments mkHost {X} h_fs h_rest h_out h_err.
Arguments h_fs {X} h.
Arguments h_rest {X} h.
Arguments h_out {X} h.
Arguments h_err {X} h.

Definition cmd (X A : Type) : Type := host X -> host X * result A Z.

Definition cmd_ret {X A} (a : A) : cmd X A := fun h => (h, Ok a).
Definition cmd_bind {X A B} (m : cmd X A) (k : A -> cmd X B) : cmd X B :=
  fun h => let '(h, r) := m h in match r with Ok a => k a h | Err code => (h, Err code) end.

Declare Scope cmd_scope.
Delimit Scope cmd_scope with cmd.
Notation "'do!' x ← m ; k" := (cmd_bind m (fun x => k))
  (at level 200, x binder, m at level 100, k at level 200, right associativity) : cmd_scope.
Notation "m ;;; k" := (cmd_bind m (fun _ => k)) (at level 199, right associativity) : cmd_scope.
Open Scope cmd_scope.

Lemma cmd_bind_assoc {X A B C} (m : cmd X A) (k : A -> cmd X B) (l : B -> cmd X C) h :
  cmd_bind (cmd_bind m k) l h = cmd_bind m (fun a => cmd_bind (k a) l) h.
Proof. unfold cmd_bind. by destruct (m h) as [h1 [a|c]]. Qed.

Section Primitives.
Context {X : Type}.

Definition exit {A} (code : Z) : cmd X A := fun h => (h, Err code).
Definition print (s : string) : cmd X unit := fun h => (mkHost (h_fs h) (h_rest h) (h_out h +:+ s) (h_err h), Ok tt).
Definition eprint (l : list err_entry) : cmd X unit := fun h => (mkHost (h_fs h) (h_rest h) (h_out h) (h_err h ++ l), Ok tt).
Definition Fatalf {A} (e : fatal) : cmd X A := eprint [EFatal e];;; exit 1.
(** An operation on the files that may fail, which leaves them alone then. *)
Definition on_files (op : fs -> option fs) : cmd X bool := fun h =>
  match op (h_fs h) with
  | Some f => (mkHost f (h_rest h) (h_out h) (h_err h), Ok true)
  | None => (h, Ok false)
  end.
Definition read_files : cmd X fs := fun h => (h, Ok (h_fs h)).

Definition must {A} (r : result A fatal) : cmd X A :=
  match r with Ok a => cmd_ret a | Err e => Fatalf e end.

(** ** Flags *)

(** [fs.Usage]. *)
Definition usage_of (lines : list string) (fl : flags) : list err_entry := map ELine lines ++ [EDefaults fl].

(** [fs.Parse]: on an error the message, unless help was asked for, then the usage. *)
Definition Parse (fl : flags) (usage : list err_entry) (args : list string) : cmd X (flags * list string) :=
  match flag_parse fl args with
  | Ok r => cmd_ret r
  | Err e =>
      eprint (match e with ErrHelp => [] | _ => [EFlagError e] end ++ usage);;; exit (flag_exit e)
  end.

(** The check of [fs.NArg] and [fs.Arg(0)]. *)
Definition first_arg (usage : list err_entry) (args : list string) : cmd X string :=
  match args with
  | a :: _ => cmd_ret a
  | [] => eprint usage;;; exit 1
  end.

(** ** keygen *)

Definition keygen_sentinel_usage : list string :=
  ["Usage: sentinel keygen <keys-dir>"; EmptyString;
   "Generates a Noise static keypair for authenticating to a beacon.";
   "Writes <keys-dir>/privkey (mode 0600) and <keys-dir>/pubkey (mode 0644).";
   "Prints the public key to stdout."].

Definition keygen_beacon_usage : list string :=
  ["Usage: beacon keygen <keys-dir>"; EmptyString;
   "Generates a Noise static keypair for the beacon.";
   "Writes <keys-dir>/privkey (mode 0600) and <keys-dir>/pubkey (mode 0644).";
   "Prints the public key to stdout — share it with sentinel operators so they can pin it in [beacon] public_key."].

Definition write_keys (dir : string) (kp : Keypair) : cmd X (result unit key_error) := fun h =>
  let '(f, r) := WriteKeypair (h_fs h) dir kp in (mkHost f (h_rest h) (h_out h) (h_err h), Ok r).

(** [gen]: what the generator returns. *)
Definition keygenCmd (usage_lines : list string) (gen : result Keypair string) (args : list string) : cmd X unit :=
  let usage := usage_of usage_lines ∅ in
  do! p ← Parse ∅ usage args;
  do! dir ← first_arg usage p.2;
  do! made ← on_files (fun f => MkdirAll f dir);
  if negb made then Fatalf (FatalKeysDir dir)
  else
    do! kp ← must (match GenerateKeypair gen with Ok kp => Ok kp | Err e => Err (FatalGenerateKeypair e) end);
    do! written ← write_keys dir kp;
    do! _ ← must (match written with Ok _ => Ok tt | Err e => Err (FatalWriteKeypair e) end);
    print (hex_encode (Public kp) +:+ newline_text);;;
    eprint [ELine ("Wrote " +:+ dir +:+ "/privkey (mode 0600) and " +:+ dir +:+ "/pubkey (mode 0644).")].

(** ** version *)

Definition version_flags : flags := {["v" := FBool false]}.

Definition versionCmd (info : vn_Info) (args : list string) : cmd X unit :=
  do! p ← Parse version_flags [EDefaultUsage "version" version_flags] args;
  if get_bool p.1 "v" then print (vn_Long info) else print (println (vn_Short info)).

(** ** run, up to the start of the program proper *)

Definition run_usage (prog : string) : list string :=
  ["Usage: " +:+ prog +:+ " run [--log-format=...] [--log-level=...] <config-file>"].

(** [load] reads and validates the configuration; then the level and the handler. *)
Definition start_run {C J} (prog : string) (load : fs -> string -> result C fatal)
    (newJournal : slog_level -> (list string -> string -> string) -> result J string)
    (args : list string) : cmd X (C * handler J * string) :=
  let usage := usage_of (run_usage prog) run_flags in
  do! p ← Parse run_flags usage args;
  do! path ← first_arg usage p.2;
  do! f ← read_files;
  do! cfg ← must (load f path);
  do! level ← must (match logger_ParseLevel (get_string p.1 "log-level") with Ok l => Ok l | Err s => Err (FatalLogLevel s) end);
  do! logger ← must (match logger_New newJournal (get_string p.1 "log-format") level with
                     | Ok h => Ok h | Err e => Err (FatalInitLogger e) end);
  cmd_ret (cfg, logger, path).
End Primitives.

(** * Facts *)

(** ** What a command that went well did *)

Section Inversion.
Context {X : Type}.

Lemma bind_ok {A B} (m : cmd X A) (k : A -> cmd X B) h h' b :
  cmd_bind m k h = (h', Ok b) -> exists h1 a, m h = (h1, Ok a) /\ k a h1 = (h', Ok b).
Proof. unfold cmd_bind. destruct (m h) as [h1 [a|c]]; [by eauto|done]. Qed.

Lemma bind_err {A B} (m : cmd X A) (k : A -> cmd X B) h h' c :
  cmd_bind m k h = (h', Err c) -> m h = (h', Err c) \/ exists h1 a, m h = (h1, Ok a) /\ k a h1 = (h', Err c).
Proof. unfold cmd_bind. destruct (m h) as [h1 [a|c']]; [by eauto|]. intros [= <- <-]. by left. Qed.

Lemma Fatalf_not_ok {A} (e : fatal) (h h' : host X) (a : A) : Fatalf e h <> (h', Ok a).
Proof. done. Qed.

Lemma must_ok {A} (r : result A fatal) (h h' : host X) a : must r h = (h', Ok a) -> r = Ok a /\ h' = h.
Proof. destruct r; [by intros [= -> ->]|done]. Qed.

Lemma Parse_ok fl usage args (h h' : host X) r : Parse fl usage args h = (h', Ok r) -> flag_parse fl args = Ok r /\ h' = h.
Proof. unfold Parse. destruct (flag_parse fl args); [by intros [= -> ->]|done]. Qed.

Lemma first_arg_ok usage args (h h' : host X) a : first_arg usage args h = (h', Ok a) -> head args = Some a /\ h' = h.
Proof. destruct args; [done|]. by intros [= -> ->]. Qed.

Lemma on_files_ok op (h h' : host X) b :
  on_files op h = (h', Ok b) ->
  (b = true /\ exists f, op (h_fs h) = Some f /\ h' = mkHost f (h_rest h) (h_out h) (h_err h))
  \/ (b = false /\ op (h_fs h) = None /\ h' = h).
Proof. unfold on_files. destruct (op (h_fs h)) as [f|] eqn:E; intros [= <- <-]; [left; eauto|by right]. Qed.
End Inversion.

Ltac cmd_step :=
  match goal with
  | H : cmd_bind _ _ _ = (_, Ok _) |- _ =>
      let h := fresh "h" in let a := fresh "a" in let H1 := fresh "H" in
      apply bind_ok in H as (h & a & H1 & H)
  | H : must _ _ = (_, Ok _) |- _ => apply must_ok in H as [H ->]
  | H : Parse _ _ _ _ = (_, Ok _) |- _ => apply Parse_ok in H as [H ->]
  | H : first_arg _ _ _ = (_, Ok _) |- _ => apply first_arg_ok in H as [H ->]
  | H : read_files _ = (_, Ok _) |- _ => injection H as <- <-
  | H : cmd_ret _ _ = (_, Ok _) |- _ => injection H as <- <-
  | H : eprint _ _ = (_, Ok _) |- _ => injection H as <- <-
  | H : print _ _ = (_, Ok _) |- _ => injection H as <- <-
  | H : Fatalf _ _ = (_, Ok _) |- _ => by apply Fatalf_not_ok in H
  | H : exit _ _ = (_, Ok _) |- _ => discriminate H
  end.

(** ** Commands that print nothing, or nothing unless they succeed; exit codes *)

Section Output.
Context {X : Type}.

Definition quiet {A} (m : cmd X A) : Prop := forall h, h_out (m h).1 = h_out h.
Definition silent {A} (m : cmd X A) : Prop := forall h h' c, m h = (h', Err c) -> h_out h' = h_out h.
(** Usage and run-time errors exit with 1, errors in the flags with 2, and help with 0. *)
Definition exits {A} (m : cmd X A) : Prop := forall h h' c, m h = (h', Err c) -> c = 0 \/ c = 1 \/ c = 2.

Lemma quiet_silent {A} (m : cmd X A) : quiet m -> silent m.
Proof. intros H h h' c E. specialize (H h). by rewrite E in H. Qed.

Lemma quiet_bind {A B} (m : cmd X A) (k : A -> cmd X B) : quiet m -> (forall a, quiet (k a)) -> quiet (cmd_bind m k).
Proof.
  intros Hm Hk h. unfold cmd_bind. specialize (Hm h). destruct (m h) as [h1 [a|c]]; [|done]. cbn in Hm. by rewrite Hk.
Qed.

Lemma silent_bind {A B} (m : cmd X A) (k : A -> cmd X B) : quiet m -> (forall a, silent (k a)) -> silent (cmd_bind m k).
Proof.
  intros Hm Hk h h' c. unfold cmd_bind. specialize (Hm h). destruct (m h) as [h1 [a|c1]]; cbn in Hm.
  - intros ->%Hk. exact Hm.
  - by intros [= <- _].
Qed.

Lemma silent_print {A} s (m : cmd X A) : (forall h, exists h' a, m h = (h', Ok a)) -> silent (print s;;; m).
Proof. intros Hm h h' c. unfold cmd_bind, print. edestruct Hm as (h1 & a & E). by rewrite E. Qed.

Lemma exits_bind {A B} (m : cmd X A) (k : A -> cmd X B) : exits m -> (forall a, exits (k a)) -> exits (cmd_bind m k).
Proof. intros Hm Hk h h' c [H|(h1 & a & _ & H)]%bind_err; [by eapply Hm|by eapply Hk]. Qed.

Lemma quiet_ret {A} (a : A) : quiet (cmd_ret a). Proof. done. Qed.
Lemma quiet_exit {A} c : quiet (exit (A := A) c). Proof. done. Qed.
Lemma quiet_eprint l : quiet (eprint l). Proof. done. Qed.
Lemma quiet_Fatalf {A} e : quiet (Fatalf (A := A) e). Proof. done. Qed.
Lemma quiet_read_files : quiet read_files. Proof. done. Qed.
Lemma quiet_on_files op : quiet (on_files op).
Proof. intros h. unfold on_files. by destruct (op (h_fs h)). Qed.
Lemma quiet_must {A} (r : result A fatal) : quiet (must r). Proof. by destruct r. Qed.
Lemma quiet_write_keys dir kp : quiet (write_keys dir kp).
Proof. intros h. unfold write_keys. by destruct (WriteKeypair _ _ _). Qed.
Lemma quiet_Parse fl usage args : quiet (Parse fl usage args).
Proof. unfold Parse. by destruct (flag_parse fl args). Qed.
Lemma quiet_first_arg usage args : quiet (first_arg usage args). Proof. by destruct args. Qed.

Lemma exits_ret {A} (a : A) : exits (cmd_ret a). Proof. done. Qed.
Lemma exits_eprint l : exits (eprint l). Proof. done. Qed.
Lemma exits_print s : exits (print s). Proof. done. Qed.
Lemma exits_exit {A} c : c = 0 \/ c = 1 \/ c = 2 -> exits (exit (A := A) c). Proof. by intros H h h' c' [= _ <-]. Qed.
Lemma exits_Fatalf {A} e : exits (Fatalf (A := A) e). Proof. intros h h' c [= _ <-]. by right; left. Qed.
Lemma exits_read_files : exits read_files. Proof. done. Qed.
Lemma exits_on_files op : exits (on_files op).
Proof. intros h h' c. unfold on_files. by destruct (op (h_fs h)). Qed.
Lemma exits_must {A} (r : result A fatal) : exits (must r).
Proof. destruct r; [done|apply exits_Fatalf]. Qed.
Lemma exits_write_keys dir kp : exits (write_keys dir kp).
Proof. intros h h' c. unfold write_keys. by destruct (WriteKeypair _ _ _). Qed.
Lemma exits_Parse fl usage args : exits (Parse fl usage args).
Proof.
  unfold Parse. destruct (flag_parse fl args) as [r|e]; [done|]. intros h h' c [= _ <-].
  destruct e; [by left|by right; right..].
Qed.
Lemma exits_first_arg usage args : exits (first_arg usage args).
Proof. destruct args; [|done]. intros h h' c [= _ <-]. by right; left. Qed.
End Output.

Create HintDb cmds.
#[export] Hint Resolve quiet_bind silent_bind quiet_silent quiet_ret quiet_exit quiet_eprint quiet_Fatalf quiet_read_files
  quiet_on_files quiet_must quiet_write_keys quiet_Parse quiet_first_arg : cmds.
#[export] Hint Resolve exits_bind exits_ret exits_eprint exits_print exits_exit exits_Fatalf exits_read_files exits_on_files
  exits_must exits_write_keys exits_Parse exits_first_arg : cmds.

(** ** Directories *)

Lemma MkdirAll_made f path f' :
  MkdirAll f path = Some f' -> path <> EmptyString /\ path_Clean path ∈ dirs f' /\ files f' = files f /\ dirs f ⊆ dirs f'.
Proof.
  unfold MkdirAll. case_bool_decide as Hb; [done|]. intros H. apply (inj Some) in H as <-. cbn [dirs files]. split_and!; [naive_solver| |done|set_solver].
  rewrite elem_of_union, elem_of_list_to_set. left. left.
Qed.

(** ** One file *)

(** [f'] differs from [f] at most in one file. *)
Definition same_but (path : string) (f f' : fs) : Prop :=
  forall p, path_Clean p <> path_Clean path -> ReadFile f' p = ReadFile f p.

#[export] Instance same_but_trans path : Transitive (same_but path).
Proof. intros f g h H1 H2 p Hp. by rewrite H2, H1. Qed.

Lemma WriteFile_file f path b m f' : WriteFile f path b m = Some f' -> ReadFile f' path = Some b /\ same_but path f f'.
Proof.
  unfold WriteFile. case_bool_decide; [|done]. intros H1. apply (inj Some) in H1 as <-. unfold ReadFile. cbn [files]. split.
  - by rewrite lookup_insert_eq.
  - intros p Hp. unfold ReadFile. cbn [files]. by rewrite lookup_insert_ne.
Qed.

Lemma Remove_file f path b :
  ReadFile f path = Some b -> exists f', Remove f path = Some f' /\ ReadFile f' path = None /\ same_but path f f'.
Proof.
  unfold ReadFile, Remove. destruct (files f !! path_Clean path); [|done]. intros _. eexists. split; [done|]. split.
  - cbn. by rewrite lookup_delete_eq.
  - intros p Hp. unfold ReadFile. cbn [files]. by rewrite lookup_delete_ne.
Qed.

Lemma write_open_file f path b c :
  ReadFile f path = Some b -> ReadFile (write_open f path c) path = Some (b ++ c) /\ same_but path f (write_open f path c).
Proof.
  unfold ReadFile, write_open. destruct (files f !! path_Clean path) as [x|] eqn:E; [|done]. intros [= <-]. split.
  - cbn. by rewrite lookup_alter_eq, E.
  - intros p Hp. unfold ReadFile. cbn [files]. by rewrite lookup_alter_ne.
Qed.

(** ** keygen *)

Lemma keygen_ok {X} lines gen args (h h' : host X) :
  keygenCmd lines gen args h = (h', Ok tt) ->
  exists fl dir f1 kp, (exists rest, flag_parse ∅ args = Ok (fl, dir :: rest)) /\ gen = Ok kp
  /\ MkdirAll (h_fs h) dir = Some f1 /\ WriteKeypair f1 dir kp = (h_fs h', Ok tt)
  /\ h_out h' = h_out h +:+ hex_encode (Public kp) +:+ newline_text /\ h_rest h' = h_rest h.
Proof.
  unfold keygenCmd. intros H. repeat cmd_step. destruct a as [fl rest]. cbn [snd] in *.
  destruct rest as [|d rest]; [done|]. injection H1 as ->.
  apply on_files_ok in H2 as [(-> & f1 & Hm & ->)|(-> & _ & ->)]; cbn [negb] in H; [|by apply Fatalf_not_ok in H].
  repeat cmd_step. unfold GenerateKeypair, write_keys in *. destruct gen as [kp|e]; [|done]. simplify_eq.
  cbn [h_fs h_rest h_out h_err] in *. destruct (WriteKeypair f1 _ _) as [f2 w] eqn:Hw. simplify_eq.
  destruct a1 as [[]|e]; [|done]. cbn [eprint] in H. unfold eprint in H. simplify_eq. cbn [h_fs h_rest h_out].
  eexists fl, _, f1, _. split_and!; eauto.
Qed.
