(* ===== verification/Mains.v ===== *)
(** * cmd/sentinel, cmd/beacon and cmd/watchtower

    The three [main]s: the dispatch on the first argument and every command. [run] ends, in
    the model, where the program proper starts: with the configuration, the log handler and,
    for the watchtower, the process it has wired. What those do then is the subject of
    SentinelApp, Beacon and WtProcess. *)

From Stdlib Require Import Ascii.
From S2P Require Import Prelude GoStrings GoTime GoPath GoFlag GoHttp HttpServe Console Logger NoiseConfig WtConfig SentinelConfig Detect BeaconConfig Sender SentinelStats Protocol LogsCollector Metadata Doctor BeaconDoctor Forwarder WtProcess Cmd.

Local Open Scope Z_scope.

Definition is_cmd (c name : string) : bool := bool_decide (c = name).

(** ** cmd/sentinel *)

Definition sentinel_usage : list string :=
  ["Usage: sentinel <command> [args]"; EmptyString; "Commands:";
   "  run [--log-format=...] [--log-level=...] <config>  Start the sentinel";
   "  generate-config <output-file>                      Generate example config file";
   "  doctor <config>                                    Check config and setup";
   "  version [-v]                                       Print the build version";
   "  keygen <keys-dir>                                  Generate Noise keypair for talking to a beacon"].

Definition doctor_flags : flags := {["format" := FString "styled"]}.

Section Sentinel.
Context {X V J : Type}.
(** The log handler, the build, the key generator, and the terminal's colours. *)
Context (newJournal : slog_level -> (list string -> string -> string) -> result J string).
Context (info : vn_Info) (gen : result Keypair string) (on : bool).
(** TOML, and what generate-config detects. *)
Context (toml_config : bytes -> result SnConfig string).
Context (Marshal : SnConfig -> result string string).
Context (found : X -> probes).
(** What the doctor asks of the world, as in Doctor. *)
Context (toml_Unmarshal : bytes -> option (list (string * toml_value V))).
Context (show : toml_value V -> string).
Context (shell : fs * X -> string -> (fs * X) * option bytes).
Context (open_error : fs * X -> string -> option string).
Context (send : fs * X -> sender_transport -> outgoing -> (fs * X) * auth_reply).
Context (tail : fs * X -> source_kind -> (fs * X) * list LogLine).
Context (otlp_port_at : fs * X -> string -> (fs * X) * otlp_port).
Context (host_stats : fs * X -> host_errors).
Context (container_error : fs * X -> string -> option string).
Context (noise_text : noise_config_error -> string).
Context (run_text : key_read_error -> string).
Context (decode_text : result bytes bytes -> string).
Context (source_text : string -> string).

Definition sn_load (f : fs) (path : string) : result SnConfig fatal :=
  map_err FatalSnLoad (sn_Load toml_config (ReadFile f path)).

Definition sn_generateConfigCmd (args : list string) : cmd X unit :=
  match args with
  | [] => eprint [ELine "Usage: sentinel generate-config <output-file>"];;; exit 1
  | path :: _ =>
      do! created ← on_files (fun f => Create f path);
      if negb created then Fatalf (FatalCreate path)
      else fun h =>
        let '(progress, r) := Generate on Marshal (found (h_rest h)) in
        (print progress;;;
         match r with
         | Err e =>
             do! removed ← on_files (fun f => Remove f path);
             (if removed then cmd_ret tt else eprint [ECleanup path]);;;
             Fatalf (FatalGenerate (GenMarshal e))
         | Ok text =>
             on_files (fun f => Some (write_open f path (bytes_of_string text)));;;
             print (newline_text +:+ "Config written to " +:+ path +:+ " — open it to finish configuring your sentinel."
                    +:+ newline_text)
         end) h
  end.

Definition doctor_usage : list err_entry :=
  usage_of ["Usage: sentinel doctor [--format=styled|plain] <config-file>"] doctor_flags.

Definition doctorFormat (s : string) : cmd X Format :=
  if is_cmd s "styled" then cmd_ret FormatStyled
  else if is_cmd s "plain" then cmd_ret FormatPlain
  else eprint [EInvalidFormat s];;; exit 1.

(** The report, and the end of the process with the doctor's code. *)
Definition report {A} (run : fs * X -> (fs * X) * (string * Z)) : cmd X A := fun h =>
  let '((f, x), (out, code)) := run (h_fs h, h_rest h) in
  (mkHost f x (h_out h +:+ out) (h_err h), Err code).

Definition sn_doctorCmd (args : list string) : cmd X unit :=
  do! p ← Parse doctor_flags doctor_usage args;
  do! path ← first_arg doctor_usage p.2;
  do! format ← doctorFormat (get_string p.1 "format");
  do! f ← read_files;
  do! cfg ← must (sn_load f path);
  report (fun w => doctor_Run (fun w p => ReadFile w.1 p) toml_Unmarshal show shell open_error send tail otlp_port_at
                     host_stats container_error fst noise_text run_text decode_text source_text on w cfg path format).

(** What [main] goes on with, if it does not end here. *)
Definition finished {A B} (m : cmd X A) : cmd X (option B) := do! _ ← m; cmd_ret None.

Definition sn_runCmd (args : list string) : cmd X (SnConfig * handler J * string) := start_run "sentinel" sn_load newJournal args.
Definition sn_versionCmd (args : list string) : cmd X unit := versionCmd info args.
Definition sn_keygenCmd (args : list string) : cmd X unit := keygenCmd keygen_sentinel_usage gen args.

Definition sn_main (argv : list string) : cmd X (option (SnConfig * handler J * string)) :=
  match argv with
  | _ :: c :: args =>
      if is_cmd c "run" then do! r ← sn_runCmd args; cmd_ret (Some r)
      else if is_cmd c "generate-config" then finished (sn_generateConfigCmd args)
      else if is_cmd c "doctor" then finished (sn_doctorCmd args)
      else if is_cmd c "version" then finished (sn_versionCmd args)
      else if is_cmd c "keygen" then finished (sn_keygenCmd args)
      else eprint (map ELine sentinel_usage);;; exit 1
  | _ => eprint (map ELine sentinel_usage);;; exit 1
  end.
End Sentinel.

(** ** cmd/beacon *)

Definition beacon_usage : list string :=
  ["Usage: beacon <command> [args]"; EmptyString; "Commands:";
   "  run [--log-format=...] [--log-level=...] <config>  Start the beacon";
   "  generate-config <output-file>                      Generate example config file";
   "  doctor <config>                                    Validate config + probe watchtower/RPC reachability";
   "  keygen <keys-dir>                                  Generate Noise keypair";
   "  version [-v]                                       Print the build version"].

Section Beacon.
Context {X V J : Type}.
Context (newJournal : slog_level -> (list string -> string -> string) -> result J string).
Context (info : vn_Info) (gen : result Keypair string) (on : bool).
Context (toml_config : bytes -> result BcConfig string).
Context (Marshal : BcConfig -> result bytes string).
Context (toml_Unmarshal : bytes -> option (list (string * toml_value V))).
Context (show : toml_value V -> string).
Context (shell : fs * X -> string -> (fs * X) * option bytes).
Context (open_error : fs * X -> string -> option string).
Context (probe : fs * X -> string -> Duration -> (fs * X) * probe_reply).
Context (key_text : key_error -> string).
Context (run_text : key_read_error -> string).

Definition bc_load (f : fs) (path : string) : result BcConfig fatal :=
  map_err FatalBcLoad (bc_Load toml_config (ReadFile f path)).

(** [config.Generate] marshals first and then writes the file in one call. *)
Definition bc_generateConfigCmd (args : list string) : cmd X unit :=
  match args with
  | [] => eprint [ELine "Usage: beacon generate-config <output-file>"];;; exit 1
  | path :: _ =>
      do! data ← must (map_err (fun e => FatalGenerate (GenMarshal e)) (bc_Generate Marshal));
      do! written ← on_files (fun f => WriteFile f path data 420);
      if negb written then Fatalf (FatalGenerate (GenWrite path))
      else print ("Config written to " +:+ path +:+ " — open it to finish configuring your beacon." +:+ newline_text)
  end.

Definition bdoctor_usage : list err_entry := usage_of ["Usage: beacon doctor <config-file>"] ∅.

Definition bc_doctorCmd (args : list string) : cmd X unit :=
  do! p ← Parse ∅ bdoctor_usage args;
  do! path ← first_arg bdoctor_usage p.2;
  do! f ← read_files;
  do! cfg ← must (bc_load f path);
  report (fun w => bdoc_Run (fun w p => ReadFile w.1 p) toml_Unmarshal show shell open_error probe fst key_text run_text
                     on w cfg path).

Definition bc_runCmd (args : list string) : cmd X (BcConfig * handler J * string) := start_run "beacon" bc_load newJournal args.
Definition bc_versionCmd (args : list string) : cmd X unit := versionCmd info args.
Definition bc_keygenCmd (args : list string) : cmd X unit := keygenCmd keygen_beacon_usage gen args.

Definition bc_main (argv : list string) : cmd X (option (BcConfig * handler J * string)) :=
  match argv with
  | _ :: c :: args =>
      if is_cmd c "run" then do! r ← bc_runCmd args; cmd_ret (Some r)
      else if is_cmd c "generate-config" then finished (bc_generateConfigCmd args)
      else if is_cmd c "doctor" then finished (bc_doctorCmd args)
      else if is_cmd c "keygen" then finished (bc_keygenCmd args)
      else if is_cmd c "version" then finished (bc_versionCmd args)
      else eprint (map ELine beacon_usage);;; exit 1
  | _ => eprint (map ELine beacon_usage);;; exit 1
  end.
End Beacon.

(** ** cmd/watchtower *)

Definition watchtower_usage : list string :=
  ["Usage: watchtower <command> [args]"; EmptyString; "Commands:";
   "  run [--log-format=...] [--log-level=...] <config>  Start the watchtower";
   "  generate-config <output-file>                      Generate example config file";
   "  version [-v]                                       Print the build version"].

(** [config.Generate]. *)
Definition wt_Generate (Marshal : WtConfig -> result bytes string) : result bytes string := Marshal wt_DefaultConfig.

Section Watchtower.
Context {X L J : Type}.
Context (newJournal : slog_level -> (list string -> string -> string) -> result J string).
Context (info : vn_Info).
Context (toml_config : bytes -> result WtConfig string).
Context (Marshal : WtConfig -> result bytes string).
Context (range : forall V, gmap string V -> list (string * V)).
(** The two environment variables and the clock. *)
Context (logs_retention metrics_retention : string) (now : Time).

Definition wt_load (f : fs) (path : string) : result WtConfig fatal :=
  map_err FatalWtLoad (load range toml_config (ReadFile f path)).

Definition wt_generateConfigCmd (args : list string) : cmd X unit :=
  match args with
  | [] => eprint [ELine "Usage: watchtower generate-config <output-file>"];;; exit 1
  | path :: _ =>
      do! created ← on_files (fun f => Create f path);
      if negb created then Fatalf (FatalCreate path)
      else
        match wt_Generate Marshal with
        | Err e =>
            do! removed ← on_files (fun f => Remove f path);
            (if removed then cmd_ret tt else eprint [ECleanup path]);;;
            Fatalf (FatalGenerate (GenMarshal e))
        | Ok data =>
            on_files (fun f => Some (write_open f path data));;;
            print ("Config written to " +:+ path +:+ " — open it to finish configuring your watchtower." +:+ newline_text)
        end
  end.

(** The process that [runCmd] has wired when it starts to listen, and what it did for it. *)
Definition wt_runCmd (args : list string) : cmd X (handler J * string * (Process X L * list wiring_effect)) :=
  do! r ← start_run "watchtower" wt_load newJournal args;
  let '(cfg, logger, path) := r in
  fun h => (h, Ok (logger, path, wire range cfg logs_retention metrics_retention now (h_rest h))).

(** When [ListenAndServe] has returned. *)
Definition wt_served (e : serve_end) : cmd X unit :=
  match serve_error e with Some text => Fatalf (FatalServe text) | None => cmd_ret tt end.

Definition wt_versionCmd (args : list string) : cmd X unit := versionCmd info args.

Definition wt_main (argv : list string) : cmd X (option (handler J * string * (Process X L * list wiring_effect))) :=
  match argv with
  | _ :: c :: args =>
      if is_cmd c "run" then do! r ← wt_runCmd args; cmd_ret (Some r)
      else if is_cmd c "generate-config" then finished (wt_generateConfigCmd args)
      else if is_cmd c "version" then finished (wt_versionCmd args)
      else eprint (map ELine watchtower_usage);;; exit 1
  | _ => eprint (map ELine watchtower_usage);;; exit 1
  end.
End Watchtower.
