(* ===== verification/MainsFacts.v ===== *)
(** * What the commands achieve

    [keygenCmd] and the two configurations that use its keys; [generate-config] and the file
    it leaves; the way [run] goes from the command line to the start; the exit codes. *)

From Stdlib Require Import Ascii.
From S2P Require Import Prelude GoStrings GoTime GoPath GoFlag GoHttp HttpServe Console Logger NoiseConfig WtConfig SentinelConfig Detect BeaconConfig Sender SentinelStats Protocol LogsCollector Metadata Doctor BeaconDoctor Forwarder WtProcess Cmd Mains.

Local Open Scope Z_scope.

(** ** keygen *)

Lemma flag_parse_one d fl dir rest : flag_parse ∅ [d] = Ok (fl, dir :: rest) -> dir = d.
Proof.
  cbn [flag_parse]. destruct (classify d) as [| | |n v]; [by intros [= _ <- _]|done|done|].
  change ((∅ : flags) !! n) with (None : option flag_value). done.
Qed.

(** What a successful run leaves behind. *)
Lemma keygen_keys {X} lines gen d (h h' : host X) :
  keygenCmd lines gen [d] h = (h', Ok tt) ->
  exists kp, gen = Ok kp /\ length (Public kp) = 32%nat /\ LoadKeypair (h_fs h') d = Ok kp
  /\ h_out h' = h_out h +:+ hex_encode (Public kp) +:+ newline_text.
Proof.
  intros (fl & dir & f1 & kp & [rest Hp] & -> & Hm & Hw & Ho & _)%keygen_ok.
  apply flag_parse_one in Hp as ->. apply MkdirAll_made in Hm as (Hne & _).
  destruct (WriteKeypair_written _ _ _ _ Hne Hw) as (Ht & L1 & L2).
  destruct (key_written f1 d kp Ht L1 L2) as (f' & Hw' & Hl & _). rewrite Hw in Hw'. injection Hw' as <-. by exists kp.
Qed.

Lemma authorize_one c k peer : authorized c = [k] -> (authorizePeer c peer = Ok tt <-> peer = k).
Proof. intros Hc. rewrite authorizePeer_ok, Hc, list_elem_of_singleton. naive_solver. Qed.

(** C5: the keys two runs of keygen make are all the two programs need to meet, and to meet
    nobody else: when the sentinel's configuration names the directory of its keys and the
    line the beacon's keygen printed, and the beacon's names its own and the line the
    sentinel's printed, copied as they are, then both load, each with the key pair its
    keygen generated, and each authorises exactly the public key of the other. *)
Theorem keygen_pins {X Y} (hs hs' : host X) (hb hb' : host Y) gs gb ds db sc bc :
  h_out hs = EmptyString -> h_out hb = EmptyString ->
  sn_keygenCmd gs [ds] hs = (hs', Ok tt) ->
  bc_keygenCmd gb [db] hb = (hb', Ok tt) ->
  isNoiseScheme sc = true -> c_Beacon sc = mkBeaconConfig ds (h_out hb') ->
  bb_KeysDir (bc_Beacon bc) = db -> bb_AuthorizedKeys (bc_Beacon bc) = [h_out hs'] ->
  exists ks kb scfg bcfg,
    gs = Ok ks /\ gb = Ok kb
    /\ NoiseConfig (h_fs hs') sc = Ok (Some scfg) /\ Static scfg = ks
    /\ bc_NoiseConfig (h_fs hb') bc = Ok bcfg /\ Static bcfg = kb
    /\ (forall peer, authorizePeer scfg peer = Ok tt <-> peer = Public kb)
    /\ (forall peer, authorizePeer bcfg peer = Ok tt <-> peer = Public ks).
Proof.
  intros Ho1 Ho2 H1 H2 Hn Hsc Hdir Hauth.
  apply keygen_keys in H1 as (ks & -> & L1 & Hl1 & Hp1). apply keygen_keys in H2 as (kb & -> & L2 & Hl2 & Hp2).
  rewrite Ho1 in Hp1. rewrite Ho2 in Hp2.
  change (EmptyString +:+ ?x) with x in Hp1, Hp2.
  assert (DecodePublicKey (h_out hb') = Ok (Public kb)) as D2 by (rewrite Hp2; by apply DecodePublicKey_encoded).
  assert (DecodePublicKey (h_out hs') = Ok (Public ks)) as D1 by (rewrite Hp1; by apply DecodePublicKey_encoded).
  exists ks, kb, (mkConfig ks (Some [Public kb])), (mkConfig kb (Some [Public ks])).
  split_and!; try done.
  - unfold NoiseConfig. rewrite Hn, Hsc. cbn [negb KeysDir PublicKey]. rewrite Hl1. cbn [map_err result_bind]. rewrite D2.
    assert (is_empty (h_out hb') = false) as ->; [|done].
    apply bool_decide_eq_false_2. intros He. rewrite He in D2. by vm_compute in D2.
  - unfold bc_NoiseConfig. rewrite Hdir, Hl2, Hauth. cbn [map_err result_bind decode_keys]. by rewrite D1.
  - intros peer. by apply authorize_one.
  - intros peer. by apply authorize_one.
Qed.

(** A run of keygen that fails has printed nothing. *)
Theorem keygen_silent {X} lines gen args : silent (keygenCmd (X := X) lines gen args).
Proof.
  unfold keygenCmd.
  repeat first [apply silent_print; intros h; by eexists _, _
               |apply silent_bind; [solve [auto with cmds]|intros]|case_match; [solve [auto with cmds]|]].
Qed.

(** ** generate-config *)

(** The file after a run of [generate-config] of the sentinel: what the encoder gave for the
    detected configuration, with the alternatives; nothing, when the run failed after it had
    created the file; and nothing else has changed. *)
Theorem sn_generate_file {X} on Marshal found path (h h' : host X) r :
  sn_generateConfigCmd on Marshal found [path] h = (h', r) ->
  match r with
  | Ok _ => exists text, (Generate on Marshal (found (h_rest h))).2 = Ok text
            /\ ReadFile (h_fs h') path = Some (bytes_of_string text)
  | Err code => code = 1 /\ (ReadFile (h_fs h') path = None \/ h_fs h' = h_fs h)
  end
  /\ forall p, path_Clean p <> path_Clean path -> ReadFile (h_fs h') p = ReadFile (h_fs h) p.
Proof.
  cbn [sn_generateConfigCmd]. unfold cmd_bind at 1, on_files at 1.
  destruct (Create (h_fs h) path) as [f1|] eqn:Hc; cbn [negb].
  2: { intros [= <- <-]. split; [|done]. split; [done|by right]. }
  apply WriteFile_file in Hc as [Hr Hs]. cbn [h_rest]. destruct (Generate on Marshal (found (h_rest h))) as [progress [text|e]].
  - unfold cmd_bind, print, on_files. cbn [h_fs h_rest h_out h_err]. intros [= <- <-]. cbn [h_fs].
    destruct (write_open_file f1 path [] (bytes_of_string text) Hr) as [Hw Hs2]. split; [by exists text|].
    exact (same_but_trans path _ _ _ Hs Hs2).
  - destruct (Remove_file f1 path [] Hr) as (f2 & Hrm & Hr2 & Hs2).
    unfold cmd_bind, print, on_files, Fatalf, cmd_bind, eprint, exit, cmd_ret. cbn [h_fs h_rest h_out h_err]. rewrite Hrm.
    intros [= <- <-]. cbn [h_fs]. split; [split; [done|by left]|]. exact (same_but_trans path _ _ _ Hs Hs2).
Qed.

Theorem wt_generate_file {X} Marshal path (h h' : host X) r :
  wt_generateConfigCmd Marshal [path] h = (h', r) ->
  match r with
  | Ok _ => exists data, Marshal wt_DefaultConfig = Ok data /\ ReadFile (h_fs h') path = Some data
  | Err code => code = 1 /\ (ReadFile (h_fs h') path = None \/ h_fs h' = h_fs h)
  end
  /\ same_but path (h_fs h) (h_fs h').
Proof.
  cbn [wt_generateConfigCmd]. unfold cmd_bind at 1, on_files at 1.
  destruct (Create (h_fs h) path) as [f1|] eqn:Hc; cbn [negb].
  2: { intros [= <- <-]. split; [|by intros p _]. split; [done|by right]. }
  apply WriteFile_file in Hc as [Hr Hs]. unfold wt_Generate. destruct (Marshal wt_DefaultConfig) as [data|e].
  - unfold cmd_bind, print, on_files. cbn [h_fs h_rest h_out h_err]. intros [= <- <-]. cbn [h_fs].
    destruct (write_open_file f1 path [] data Hr) as [Hw Hs2]. split; [by exists data|]. by etransitivity.
  - destruct (Remove_file f1 path [] Hr) as (f2 & Hrm & Hr2 & Hs2).
    unfold cmd_bind, print, on_files, Fatalf, cmd_bind, eprint, exit, cmd_ret. cbn [h_fs h_rest h_out h_err]. rewrite Hrm.
    intros [= <- <-]. cbn [h_fs]. split; [split; [done|by left]|]. by etransitivity.
Qed.

(** The beacon's leaves an existing file alone when it fails. *)
Theorem bc_generate_file {X} Marshal path (h h' : host X) r :
  bc_generateConfigCmd Marshal [path] h = (h', r) ->
  match r with
  | Ok _ => exists data, Marshal bc_DefaultConfig = Ok data /\ ReadFile (h_fs h') path = Some data
            /\ same_but path (h_fs h) (h_fs h')
  | Err code => code = 1 /\ h_fs h' = h_fs h
  end.
Proof.
  cbn [bc_generateConfigCmd]. unfold bc_Generate. unfold cmd_bind, must, on_files. destruct (Marshal bc_DefaultConfig) as [data|e]; cbn [map_err].
  - cbn [cmd_ret]. unfold cmd_ret. destruct (WriteFile (h_fs h) path data 420) as [f1|] eqn:Hw; cbn [negb].
    + intros [= <- <-]. cbn [h_fs]. exists data. by apply WriteFile_file in Hw as [? ?].
    + by intros [= <- <-].
  - by intros [= <- <-].
Qed.

(** ** run *)

(** [run] starts the program exactly when the flags are right, a configuration file is named
    and is loaded, and the level and the format of the log are known; it has written nothing
    then. *)
Theorem start_run_iff {X C J} prog (load : fs -> string -> result C fatal)
    (newJournal : slog_level -> (list string -> string -> string) -> result J string) args (h h' : host X) cfg logger path :
  start_run prog load newJournal args h = (h', Ok (cfg, logger, path)) <->
  h' = h /\ exists fl rest level,
    flag_parse run_flags args = Ok (fl, path :: rest) /\ load (h_fs h) path = Ok cfg
    /\ logger_ParseLevel (get_string fl "log-level") = Ok level
    /\ logger_New newJournal (get_string fl "log-format") level = Ok logger.
Proof.
  unfold start_run. split.
  - intros H. repeat cmd_step. destruct a as [fl args']. cbn [fst snd] in *. destruct args' as [|p rest]; [done|].
    simplify_eq/=. repeat case_match; simplify_eq. split; [done|]. by eexists fl, rest, _.
  - intros (-> & fl & rest & level & Hp & Hl & Hv & Hn). unfold cmd_bind, Parse. rewrite Hp. cbn.
    unfold must. by rewrite Hl; cbn; rewrite Hv; cbn; rewrite Hn.
Qed.

(** ** Exit codes *)

Lemma exits_finished {X A B} (m : cmd X A) : exits m -> exits (finished (B := B) m).
Proof. intros H. unfold finished. auto with cmds. Qed.

Lemma exits_report {X A} (run : fs * X -> (fs * X) * (string * Z)) :
  (forall w, (run w).2.2 = 0 \/ (run w).2.2 = 1) -> exits (report (A := A) run).
Proof.
  intros Hr h h' c. unfold report. specialize (Hr (h_fs h, h_rest h)). destruct (run _) as [[f x] [out code]].
  intros [= _ <-]. cbn in Hr. tauto.
Qed.

Lemma exits_start_run {X C J} prog (load : fs -> string -> result C fatal)
    (newJournal : slog_level -> (list string -> string -> string) -> result J string) args :
  exits (start_run (X := X) prog load newJournal args).
Proof. unfold start_run. repeat (apply exits_bind; [solve [auto with cmds]|intros]). auto with cmds. Qed.

Lemma exits_keygen {X} lines gen args : exits (keygenCmd (X := X) lines gen args).
Proof.
  unfold keygenCmd. repeat first [apply exits_bind; [solve [auto with cmds]|intros]|case_match; [solve [auto with cmds]|]].
  auto with cmds.
Qed.

Lemma exits_version {X} info args : exits (versionCmd (X := X) info args).
Proof. unfold versionCmd. apply exits_bind; [auto with cmds|]. intros p. destruct (get_bool _ _); auto with cmds. Qed.

Lemma exits_usage {X A} l : exits (X := X) (eprint l;;; exit (A := A) 1).
Proof. apply exits_bind; [auto with cmds|]. intros _. apply exits_exit. tauto. Qed.

#[export] Hint Resolve exits_finished exits_report exits_start_run exits_keygen exits_version exits_usage : cmds.

Lemma exits_sn_generate {X} on Marshal found args : exits (sn_generateConfigCmd (X := X) on Marshal found args).
Proof.
  destruct args as [|path args]; [apply exits_usage|]. intros h h' c H.
  destruct (sn_generate_file on Marshal found path h h' (Err c)) as [[-> _] _]; [exact H|tauto].
Qed.

Lemma exits_bc_generate {X} Marshal args : exits (bc_generateConfigCmd (X := X) Marshal args).
Proof.
  destruct args as [|path args]; [apply exits_usage|]. intros h h' c H.
  destruct (bc_generate_file Marshal path h h' (Err c)) as [-> _]; [exact H|tauto].
Qed.

Lemma exits_wt_generate {X} Marshal args : exits (wt_generateConfigCmd (X := X) Marshal args).
Proof.
  destruct args as [|path args]; [apply exits_usage|]. intros h h' c H.
  destruct (wt_generate_file Marshal path h h' (Err c)) as [[-> _] _]; [exact H|tauto].
Qed.

#[export] Hint Resolve exits_sn_generate exits_bc_generate exits_wt_generate : cmds.

(** Whatever the command line, a program that ends before it starts to run ends with 0, 1 or
    2. *)
Theorem sn_main_exits {X V J} newJournal info gen on toml_config Marshal found toml_Unmarshal show shell open_error send tail
    otlp_port_at host_stats container_error noise_text run_text decode_text source_text argv :
  exits (sn_main (X := X) (V := V) (J := J) newJournal info gen on toml_config Marshal found toml_Unmarshal show shell
           open_error send tail otlp_port_at host_stats container_error noise_text run_text decode_text source_text argv).
Proof.
  destruct argv as [|a [|c args]]; [apply exits_usage..|]. unfold sn_main, sn_runCmd, sn_versionCmd, sn_keygenCmd.
  repeat case_match; auto with cmds. apply exits_finished. unfold sn_doctorCmd.
  repeat (apply exits_bind; [|intros]); auto with cmds.
  - unfold doctorFormat. repeat case_match; auto with cmds.
  - apply exits_report. intros w. rewrite doctor_Run_eq. destruct (doctor_results _ _ _ _ _ _ _ _ _ _ _ _ _ _ _ _ _) as [w' [rs ar]].
    cbn. destruct (existsb _ rs); tauto.
Qed.

Theorem bc_main_exits {X V J} newJournal info gen on toml_config Marshal toml_Unmarshal show shell open_error probe key_text
    run_text argv :
  exits (bc_main (X := X) (V := V) (J := J) newJournal info gen on toml_config Marshal toml_Unmarshal show shell open_error
           probe key_text run_text argv).
Proof.
  destruct argv as [|a [|c args]]; [apply exits_usage..|]. unfold bc_main, bc_runCmd, bc_versionCmd, bc_keygenCmd.
  repeat case_match; auto with cmds. apply exits_finished. unfold bc_doctorCmd.
  repeat (apply exits_bind; [|intros]); auto with cmds.
  apply exits_report. intros w. rewrite bdoc_Run_eq. destruct (bdoc_results _ _ _ _ _ _ _ _ _ _ _) as [w' rs].
  cbn. destruct (existsb _ rs); tauto.
Qed.

Theorem wt_main_exits {X L J} newJournal info toml_config Marshal range logs metrics now argv :
  exits (wt_main (X := X) (L := L) (J := J) newJournal info toml_config Marshal range logs metrics now argv).
Proof.
  destruct argv as [|a [|c args]]; [apply exits_usage..|]. unfold wt_main, wt_versionCmd.
  repeat case_match; auto with cmds. apply exits_bind; [|auto with cmds]. unfold wt_runCmd.
  apply exits_bind; [auto with cmds|]. intros [[cfg logger] path]. done.
Qed.

(** ** The watchtower's process *)

(** The process [main] goes on with is one of WtProcess: it was wired from the configuration
    that the file named on the command line holds, which is valid, and serves it. *)
Theorem wt_main_serves {X L J} newJournal info toml_config Marshal range logs metrics now argv (h h' : host X) logger path
    (p : Process X L) effs :
  (forall V (m : gmap string V), map_range m (range V m)) ->
  wt_main (J := J) newJournal info toml_config Marshal range logs metrics now argv h = (h', Ok (Some (logger, path, (p, effs)))) ->
  h' = h /\ exists cfg, load range toml_config (ReadFile (h_fs h) path) = Ok cfg
  /\ (p, effs) = wire range cfg logs metrics now (h_rest h) /\ serves range cfg cfg p.
Proof.
  intros Hrange. destruct argv as [|a [|c args]]; [done..|]. cbn [wt_main].
  destruct (is_cmd c "run"); [|repeat case_match; try done; by intros (? & ? & _ & [= _ ])%bind_ok].
  intros (h1 & r & H1 & [= -> ->])%bind_ok. unfold wt_runCmd in H1.
  apply bind_ok in H1 as (h2 & [[cfg logger'] path'] & H1 & [= -> -> -> <- <-]).
  apply start_run_iff in H1 as (-> & fl & rest & level & _ & Hl & _). split; [done|]. exists cfg.
  unfold wt_load in Hl. destruct (load range toml_config _) as [c'|e] eqn:Hload; [|done]. injection Hl as ->.
  split_and!; [done|done|].
  pose proof (load_valid range toml_config Hrange _ _ Hload) as Hv.
  exact (wire_serves (L := L) range cfg logs metrics now _ Hv).
Qed.

(** ** Evaluations *)

Definition empty_host : host unit := mkHost (mkFs {["."]} ∅) tt EmptyString [].

Definition pair_of (a b : ascii) : result Keypair string := Ok (mkKeypair (repeat a 32) (repeat b 32)).

Definition sentinel_keys := sn_keygenCmd (pair_of "a" "b") ["./keys/"] empty_host.
Definition beacon_keys := bc_keygenCmd (pair_of "c" "d") ["/etc/beacon/keys"] empty_host.

Example keygen_examples :
  sentinel_keys.2 = Ok tt
  /\ dirs (h_fs sentinel_keys.1) = {["."; "keys"]}
  /\ map (fun p => (fun x => (mode x, length (content x))) <$> files (h_fs sentinel_keys.1) !! p) ["keys/privkey"; "keys/pubkey"]
     = [Some (384, 65%nat); Some (420, 65%nat)]
  /\ dirs (h_fs beacon_keys.1) = {["."; "/etc"; "/etc/beacon"; "/etc/beacon/keys"]}
  /\ (keygenCmd (X := unit) keygen_sentinel_usage (pair_of "a" "b") [] empty_host).2 = Err 1
  /\ (keygenCmd (X := unit) keygen_sentinel_usage (pair_of "a" "b") ["--help"] empty_host).2 = Err 0
  /\ (keygenCmd (X := unit) keygen_sentinel_usage (pair_of "a" "b") ["-x"] empty_host).2 = Err 2
  /\ (keygenCmd (X := unit) keygen_sentinel_usage (Err "entropy") ["k"] empty_host).2 = Err 1.
Proof. vm_compute. repeat split. Qed.

Definition pinned_sentinel : SnConfig :=
  mkSnConfig (c_Server noise_sample) (mkBeaconConfig "./keys/" (h_out beacon_keys.1)) (c_RPC noise_sample)
    (c_Logs noise_sample) (c_OTLP noise_sample) (c_Resources noise_sample) (c_Metadata noise_sample) (c_Self noise_sample)
    (c_Health noise_sample).

Definition pinned_beacon : BcConfig :=
  mkBcConfig (bc_Server sample_bc) (mkBcBeacon "0.0.0.0:7070" "/etc/beacon/keys" [h_out sentinel_keys.1] 0)
    (bc_RPC sample_bc) (bc_Metadata sample_bc).

Lemma keygen_pins_witness :
  exists scfg bcfg,
    NoiseConfig (h_fs sentinel_keys.1) pinned_sentinel = Ok (Some scfg)
    /\ bc_NoiseConfig (h_fs beacon_keys.1) pinned_beacon = Ok bcfg
    /\ authorizePeer scfg (repeat "d"%char 32) = Ok tt /\ authorizePeer bcfg (repeat "b"%char 32) = Ok tt
    /\ authorizePeer bcfg (repeat "d"%char 32) <> Ok tt.
Proof.
  destruct (keygen_pins empty_host sentinel_keys.1 empty_host beacon_keys.1 (pair_of "a" "b") (pair_of "c" "d")
    "./keys/" "/etc/beacon/keys" pinned_sentinel pinned_beacon) as (ks & kb & scfg & bcfg & H1 & H2 & H3 & _ & H5 & _ & H7 & H8);
    try reflexivity; try (vm_compute; reflexivity).
  injection H1 as <-. injection H2 as <-. exists scfg, bcfg.
  split; [exact H3|]. split; [exact H5|]. split; [by apply H7|]. split; [by apply H8|].
  intros Hno. apply H8 in Hno. discriminate Hno.
Defined.

(** The commands of the sentinel from the command line; a world without docker, systemd or
    gnoland, an encoder that writes the RPC address, and a decoder that knows the default. *)
Definition no_probes (_ : unit) : probes := mkProbes None None None (fun _ => None) (fun _ => false).
Definition toy_marshal_config (c : SnConfig) : result string string := Ok ("config_path = " +:+ RPCURL (c_RPC c)).
Definition toy_decode (b : bytes) : result SnConfig string := match b with [] => Err "empty" | _ => Ok sn_DefaultConfig end.

Definition sample_sn_main (h : host unit) (args : list string) :=
  sn_main (V := unit) (J := unit) (fun _ _ => Err "no journal") (mkVnInfo "v1.2" "" "" "go1.25") (pair_of "a" "b") false toy_decode
    toy_marshal_config no_probes (fun _ => None) (fun _ => EmptyString) (fun w _ => (w, None)) (fun _ _ => None)
    (fun w _ _ => (w, ReplyDoFailed "no network")) (fun w _ => (w, [])) (fun w _ => (w, PortTaken))
    (fun _ => mkHostErrors None None None None) (fun _ _ => None) (fun _ => EmptyString) (fun _ => EmptyString)
    (fun _ => EmptyString) (fun s => s) ("sentinel" :: args) h.

Example sn_main_examples :
  let generated := sample_sn_main empty_host ["generate-config"; "c.toml"] in
  let run h args := match sample_sn_main h args with
                    | (_, Ok (Some (c, l, p))) => Ok (l, p)
                    | (_, Ok None) => Err 0
                    | (_, Err code) => Err code
                    end in
  generated.2 = Ok None
  /\ map (run generated.1) [["run"; "c.toml"]; ["run"; "--log-format=json"; "--log-level"; "warn"; "c.toml"];
       ["run"; "-log-level=loud"; "c.toml"]; ["run"; "-log-format=journal"; "c.toml"]; ["run"; "none.toml"]; ["run"];
       ["run"; "--log-level"]; []; ["version"]; ["stop"]; ["doctor"; "--format=plain"; "c.toml"]; ["doctor"; "--format=x"; "c.toml"]]
     = [Ok (TextHandler LevelInfo, "c.toml"); Ok (JSONHandler LevelWarn, "c.toml"); Err 1; Err 1; Err 1; Err 1; Err 2; Err 1;
        Err 0; Err 1; Err 1; Err 1]
  /\ h_out (sample_sn_main empty_host ["version"]).1 = println "v1.2".
Proof. vm_compute. repeat split. Qed.
